(* ===== verification/_CoqProject ===== *)
-Q . S2P
Prelude.v
GoStrings.v
GoText.v
GoUrl.v
GoUtf8.v
GoStrconv.v
GoNet.v
Policy.v
PolicyEngine.v
PolicySpec.v
DnsMsg.v
AnswerCache.v
RateLimiter.v
Trackers.v
Case0x20.v
Upstream.v
QueryLog.v
Alert.v
Metrics.v
Threat.v
Blocklist.v
BlocklistHealth.v
Nrd.v
GeoIp.v
Config.v
DnsEngine.v
EngineSpec.v
Watchdog.v
DnsServer.v
Ha.v
License.v
Json.v
Storage.v
ControlPlane.v
ControlSpec.v
BlocklistApi.v
Planes.v
ConfigIO.v
Auth.v
ApiRuns.v
GoTime.v
Inventory.v
Fleet.v
DiskHealth.v
Heartbeat.v
Export.v
Analytics.v
AnalyticsApi.v
Reports.v
Catalog.v
Router.v
ReportHtml.v
PromExport.v
Fetch.v
Tls.v
Keepalived.v
Utils.v
Enforced.v
Services.v
AccessLog.v
Database.v
Startup.v
ServerRuns.v
Overlap.v
Concurrent.v
OverlapRuns.v
