(* ===== verification/Prelude.v ===== *)
(** * PhantomDNS (HydraDNS): a verification library

    PhantomDNS is a filtering DNS resolver written in Go. Its data plane
    (internal/dnsengine) answers every query: it checks the name against stored
    blocklists, a feed of newly registered domains, an administrator's policies and a
    set of heuristics, and only what none of them stops is sent to an upstream resolver,
    whose answer is filtered again before the client sees it. The control plane
    (cmd/controlplane) is a second process: an administrator's HTTP API that edits the
    stored policies, resolvers, blocklists and settings. The two share a database, which
    the data plane polls, and a gRPC service by which the control plane pushes edits.

    ** The parts and how they interact

    [Engine.ProcessDNSQuery] (internal/dnsengine/engine.go) is the centre. For one query
    it calls, in this order: the rate limiter, the threat detector, the blocklist
    repository (with the policy engine's [IsExplicitlyAllowed] as an override), the NRD
    checker, [policy.Engine.Evaluate], then on the allow path threat enforcement, the
    abused-TLD set, SafeSearch, the newly-observed-domain ledger, and [forwardUpstream],
    which uses the upstream manager, the serve-stale cache, the fast-flux tracker, the
    rebinding filter and the GeoIP filter. Every path writes one response and one log row;
    rows go through the bounded query-log writer and the event exporter, blocks feed the
    infected-device alerter, and latencies the rolling metrics.

    A handler of the control plane checks a request, changes the tables in one statement
    or transaction, reloads its own policy engine where policies changed and calls the
    data plane where resolvers or the engine switch changed. A call that fails leaves the
    table changed and the data plane as it was; policies and lists reach the data plane
    at its next poll. Planes.v puts the two mains together and follows an edit from the
    request to the answer of a later query.

    ** Files

    - Prelude.v (this file): errors as values, 64-bit and float64 arithmetic, durations,
      generic list and map lemmas, tactics and hint databases.
    - GoStrings.v, GoText.v, GoUrl.v, GoUtf8.v, GoStrconv.v, GoNet.v, GoTime.v: the
      functions of Go's [strings], [bufio] (scanner), [path/filepath], [sort], [net/url],
      [unicode/utf8], [strconv], [time] (durations, civil dates, layouts), [net] and
      [net/netip] the code calls, on byte strings and byte slices.
    - Policy.v, PolicyEngine.v, PolicySpec.v: internal/policy. Data, schedules
      ([compileSchedule], [active]) and client scopes; the snapshot builder and
      [Evaluate]/[IsExplicitlyAllowed]; the specification of which policy wins and the
      proof that the engine, with its Bloom filter and maps, implements it.
    - DnsMsg.v: the messages of github.com/miekg/dns as far as the code reads them; the
      library's own functions are the class [DnsLib] with its laws [DnsLaws].
    - AnswerCache.v (cache.go), RateLimiter.v (ratelimit.go), Trackers.v (nod.go and
      fastflux.go), Case0x20.v (case_randomize.go), Upstream.v (upstream_manager.go,
      connections.go and encrypted_upstream.go), QueryLog.v
      (querylog_writer.go and the queue of export.go): the components of
      internal/dnsengine, each with its state as a record and one definition per method.
    - Alert.v (internal/alert/alert.go), Metrics.v (internal/metrics), Threat.v
      (internal/threat/detector.go), GeoIp.v (internal/geoip, the MaxMind reader
      included), Nrd.v (internal/nrd), Blocklist.v (internal/blocklist: parsers, engine,
      aggregation, the evaluation of health, bundle; and the repository of
      internal/storage/repositories/blocklist.go), BlocklistHealth.v (the checker and
      its loop), Catalog.v (the whole catalogue and the embedded list, as data), Fetch.v
      (the retried conditional GET).
    - DnsEngine.v: internal/dnsengine/engine.go and status.go, the handler itself, built
      from the operations of the other files; EngineSpec.v: its decision table and the
      guarantees proved of it.
    - DnsServer.v: [Run] of internal/dnsengine/server.go, its listeners, channels and
      shutdown. Watchdog.v (internal/watchdog/watchdog.go), Ha.v (internal/ha: config.go,
      manager.go and the parameters of keepalived.go), Keepalived.v (the file rendered
      from them), License.v (internal/license/license.go, with base64), Tls.v
      (internal/tlsutil and the listener of the control plane): the process around the
      data plane.
    - Config.v: internal/config, from the environment and the configuration file to the
      configuration both processes start from, local-only mode included.
    - Json.v: the JSON arrays of strings kept in text columns. Storage.v:
      internal/storage, the models and the repositories over the class [SqlTable].
    - ControlPlane.v: the handlers of resolvers, policies and the engine switch
      (handlers.go, dns.go, policies.go) and the gRPC calls; ControlSpec.v: what an
      accepted edit has achieved. BlocklistApi.v: blocklists.go, categories.go,
      collections.go and the catalogue. ConfigIO.v: export and import (config.go).
      Auth.v: the middleware and the handlers of administrator authentication.
      Router.v: the routes, the order of the middlewares and the API as one server;
      AccessLog.v: its request log (middlewares/logger.go). Database.v: opening the
      database (internal/storage/db) and the models its repositories use. Startup.v: both
      [main]s as a whole, from the environment. ServerRuns.v: requests to the server.
      Overlap.v: programs of atomic actions and a pool that interleaves them;
      Concurrent.v: the handlers of set-up, resolvers, policies and the engine switch as
      such programs; OverlapRuns.v: concrete interleavings.
    - Planes.v: cmd/dataplane/main.go, the start-up of cmd/controlplane/main.go and of
      the DNS server, and the properties of the two processes together. ApiRuns.v:
      concrete runs of all these. Enforced.v: from a list created through the API to the
      answer of the engine. Services.v: the optional services of the data plane and what
      they send off the box, composed of what each operation hands to the network.
    - Inventory.v (internal/inventory, and the alerter's resolver), Fleet.v
      (internal/fleet and its handlers), DiskHealth.v (internal/diskhealth), Heartbeat.v
      (internal/heartbeat, internal/telemetry), Export.v (the syslog and webhook sinks of
      internal/dnsengine/export.go): what the processes observe and report.
    - Analytics.v: the query log, the rollups, the anomaly digest and the statistics row
      (query_log.go, analytics.go, anomaly.go, statistics_repo.go of the repositories);
      AnalyticsApi.v: their handlers (analytics.go, analytics_rollups.go, dashboard.go);
      Reports.v: the period reports (internal/report, report_repo.go, reports.go);
      ReportHtml.v: their HTML page (render.go). PromExport.v: what the Prometheus
      collector sends (internal/metrics/promexport). Utils.v: internal/utils.

    ** How code is modelled

    A method is a function from the receiver's state (a record with the source's fields)
    to its result and the new state; a nil receiver is [None]. The clock and, where Go
    leaves it open, the iteration order of a map are arguments. Errors are values of
    [result] or of an enumerated error type; a panic is [None] of the handler monad.
    Components that several goroutines use are step relations over their state, whose
    steps are the critical sections of the code, and their theorems hold for every
    interleaving ([pool_step] in Upstream.v, [qlw_step] in QueryLog.v, [stats_step] in
    Analytics.v, [server_step] in DnsServer.v, [exporter_step] in
    Export.v). Overlapping requests of the control plane are trees of atomic actions
    ([prog] in Overlap.v): one SQL statement, one call of the data plane or one reload
    of the engine each, since the database has a single connection
    ([Database.open_store_ready]) and the engines a lock; [overlap] interleaves any
    number of them, and each is proved equal, when it runs alone, to the handler of
    ControlPlane.v or Auth.v it is the program of. The rows of a table are a list; an aggregating statement is a function
    on the rows its condition selects. A call that reads the query log in several
    statements, in no transaction while the data plane inserts rows, is given the log
    statement by statement ([ts k] in Analytics.v and Reports.v); a table's state also
    settles how rows that an ORDER BY leaves tied come out. Integers are [Z]
    with the width written out where the code can reach it ([u64], [wrap_int64],
    [time_sub]); float64 is the IEEE binary64 of Rocq's SpecFloat.

    Code outside the repository is an interface, a class of operations and where needed
    a class of its documented laws, with a concrete instance that the witnesses run:
    the Unicode tables ([GoUnicode]), the time zone database ([TzDatabase]), the Bloom
    filter ([BloomLib], law: no false negatives), regular expressions ([RegexpLib]), the
    DNS library ([DnsLib]), Ed25519 and the JSON of licence claims ([LicenseLib]), the
    SQL statements of the blocklist repository ([BlocklistDb]) and of the other tables
    ([SqlTable]), password hashing ([Bcrypt]), the YAML decoder (a parameter of Config.v),
    the HTTP fetcher ([Fetcher]), sockets ([TransportEnv] and the exchange function of
    Upstream.v), the wire format of messages ([DnsWire]), the fate of each gRPC call
    ([rpc_outcome]), the router and the CORS middleware ([GinRouter], [CorsLib]), the
    X.509 library ([CertLib]), gorm's opening and migration ([Gorm]), the snapshots of
    the health checker ([SnapshotDb]) and the numeric and IDNA functions the detector
    uses ([ThreatEnv]).

    ** What the theorems show

    - The engine (EngineSpec.v): an accepted query has exactly the visible effects of the
      first applicable rule of an explicit table; a blocklisted name that no ALLOW policy
      exempts is answered from the sinkhole and never leaves the engine; every query
      with a question gets exactly one response and no run panics while the queues are
      open; a refused query has no other effect; with rebinding protection on an answered
      reply carries no internal address; router search domains do not hide a name.
    - The policy engine: [Evaluate] refines a specification by the nearest enclosing
      name, priority and ID; [IsExplicitlyAllowed] is characterised; the load order does
      not matter; schedules are active exactly in their window; validation accepts
      exactly what the snapshot can use.
    - The cache refines a recency-ordered association list and serves only what was put
      last within the stale window; the limiter gives every client the decisions of its
      own window; the ledgers stay within their bounds and decide by history.
    - Upstreams: fail-over is the first success of the schedule, the pool never hands a
      slot to two callers; 0x20 encoding is undone for the client.
    - Queues lose no row and no event without counting it and [Close] drains; alerts fire exactly at
      the threshold; metric totals agree with their buckets and percentiles have the rank
      they claim; the edit distance is the optimal-string-alignment distance, and
      typosquats are flagged exactly for lookalikes of monitored brands.
    - Blocklists: [IsBlocked], refreshes and aggregation characterised over the stored
      entries; the domains parser reads back what was written.
    - Around the data plane: which node of a pair is active is a property of the whole
      probe history; the watchdog recovers after each full threshold of failures; a
      licence is valid exactly for a genuine, current token, and base64 is undone by
      decoding.
    - The control plane: a resolver edit answered with success is stored and in force in
      the data plane, in the stored order; from a store of valid policies every sequence
      of requests leaves one; an accepted policy is stored as asked, is in the control
      plane's engine and, after the data plane's next poll, decides the queries it names.
      Switching a category replaces its entries by those of its lists; editing a list
      leaves the others alone. An import is all or nothing, and an export imported into
      an empty store is exported again. A request for a path that is not exempt needs the
      key of a stored administrator, and set-up succeeds at most once.
      Of the server as a whole: once an administrator is set up, requests without a
      stored key change nothing but the fleet's sites, with the fleet's token, and one
      with a key reaches the handler of its route. However requests overlap, one set-up
      at most succeeds and its key is the stored one, and edits leave a store of valid
      policies and the data plane asking a list that was stored.
    - The processes: a process that goes on has every table it uses and, in the data
      plane, every address but that of the metrics; a start of the
      control plane restores the stored resolvers and switch; the fleet aggregator is
      off unless asked for and given a token; the first start blocks the bundled names; a list created with success
      sinks the queries for its names; the DNS server accepts queries only after
      both sockets are bound and shuts the engine down once; a certificate pair, once made, is
      kept; the optional services connect and write only to the destinations the operator
      configured, and their requests go there or where those servers redirect them.
    - What is observed: a device of the inventory is the digest of every refresh that saw
      it, whatever order Go ranges in; the fleet view holds the last heartbeat of each
      site and its up/down verdict, and only a bearer of the token changes it; the disk
      monitor's status is the verdict on the last two samples that could be read; a
      reader of RFC 5424 recovers every field of an event from its syslog line, and a
      reader of HTML the report from its page; after a refresh a source's health says what
      the refresh did; a scrape agrees with the gRPC metrics.
    - What is computed from the log: the pages of a query-log search end and, while the log
      stands still, hold as many rows as match, each once if no two have the same time;
      leaderboards are the top of a total order; the figures of a report count the rows of
      its period, each as its statement finds them, and add up if the period is over; workers that update the statistics
      one after the other count every query.

    Several theorems record behaviour that differs from what the code's comments
    promise: a TCP slot is never returned after a success
    ([Upstream.pool_exhausted_by_success]), a refresh never unblocks a name
    ([Blocklist.UpdateSource_accumulates]), the error metric never moves
    ([EngineSpec.error_count_stays_zero]), the Enabled flag of a policy is not read
    ([PolicySpec.Evaluate_ignores_Enabled]), a stale reply bypasses the rebinding filter
    ([EngineSpec.stale_reply_unfiltered]), one outage can invoke recovery many times
    ([Watchdog.recovers_twice]), a data plane that restarts alone forgets the stored
    switch ([Planes.dataplane_start_forgets]), a background refresh brings back the
    entries of a list switched off meanwhile ([BlocklistApi.Runs.late_refresh_undoes_disable]),
    the last resolver can be deleted, which leaves the engine asking nobody
    ([ApiRuns.last_resolver_deleted]), a failed poll empties the data plane's policies
    ([Planes.failed_poll_forgets]), an import stores policies the engine rejects
    ([ApiRuns.import_skips_validation]), an export that holds the aggregate list is not
    accepted back ([ConfigIO.export_with_aggregate_rejected]), the heartbeat is sent under
    LOCAL_ONLY ([Heartbeat.local_only_heartbeat]), two workers that interleave lose a count
    ([Analytics.stats_lost_update]), an underscore in the domain filter of the log matches
    any character ([Analytics.underscore_matches_anything]), a steady client can be reported
    as surging ([AnalyticsApi.Runs.false_surge]), blocks of names below a listed one are in
    no category of a report ([Reports.Runs.subdomains_uncategorised]), a certificate
    without its key is never repaired ([Tls.TlsRuns.half_written_pair_stays]), listeners that die
    after start-up go unnoticed ([DnsServer.dead_listeners_unnoticed]), a source whose
    feed does not change is called stale ([BlocklistHealth.unchanged_goes_stale]),
    the sinks of events and alerts do not consult LOCAL_ONLY
    ([Services.custody_not_consulted]), of two resolver edits that overlap the older list
    may stay in force ([OverlapRuns.late_push_stands]), two toggles of the engine switch
    may leave the store and the data plane apart ([OverlapRuns.toggles_disagree]), an
    update can bring back a policy deleted meanwhile
    ([OverlapRuns.deleted_policy_returns]) and undo another update
    ([OverlapRuns.patch_lost]), a refused request can write any line into the request log
    ([ServerRuns.refused_request_forges_log]), a URL that the API accepts crashes the refresh of
    its list ([Fetch.accepted_url_panics]), an imported policy that is not enabled is
    stored enabled ([ApiRuns.import_enables]), the next position of a resolver wraps
    around ([ApiRuns.position_wraps]), a protected brand is flagged for another one near
    it ([Threat.brand_flagged_for_another]), a lease's MAC replaces the ARP table's
    ([Inventory.lease_overrides_arp]), pages of the log repeat rows that their order ties
    or that another query pushes on ([AnalyticsApi.Runs.tied_rows_repeat],
    [AnalyticsApi.Runs.added_row_repeats]), and a report whose period is going on
    contradicts itself ([Reports.Runs.report_torn]).

    ** Bounds and fuel

    Loops of the code are structural recursions or folds, except: trimming and splitting
    white space, which removes at least one byte per turn and gets the length of the
    string as fuel; the IPv6 group loop, which has at most eight groups; decoding UTF-8,
    which consumes at least one byte per rune; printing a 16-bit group in hexadecimal,
    four digits; the groups of a duration and the values of a JSON text, each of which
    takes at least one byte of it; the groups of three digits of a printed number, with
    its length as fuel. Where a loop asks until it is told to stop ([read_pages] of
    AnalyticsApi.v), the number of turns is an argument and the theorem gives one that is
    enough. No theorem depends on running out of fuel.

    ** What is not modelled

    Sockets, TLS, HTTP and gRPC transport: what is modelled is what is handed to them and
    what comes back, and, for the services that post and fetch, the redirects the HTTP
    client follows ([client_Do] in GoUrl.v); what a redirected request carries beyond its
    body, and the look-up of a destination's name, are not. SQL beyond the statements' documented effect, and what a migration
    does to the file. The DNS wire format, X.509 and the MaxMind file format, which
    are libraries'. The registry and text format of the Prometheus client. Requests'
    binding to Go values and the JSON of responses beyond the values they hold. The
    overlap of the remaining handlers (lists, categories, import) with each other. Log
    lines other than those of the request log, and generated code. *)
From stdpp Require Export base tactics gmap sets list strings pretty sorting.
From Stdlib Require Export ZArith Lia Ascii.
From Corelib Require Export SpecFloat.
#[global] Open Scope Z_scope.

(** ** Errors as values *)

(** Go's [(T, error)] returns. *)
Inductive result (E A : Type) : Type :=
| Ok (a : A)
| Err (e : E).
Arguments Ok {E A} a.
Arguments Err {E A} e.

Declare Scope phantom_scope.
Delimit Scope phantom_scope with phantom.
#[global] Open Scope phantom_scope.

Notation "'let?' x ':=' c 'in' k" :=
  (match c with Ok x => k | Err e => Err e end)
  (at level 10, x name, c at level 100, k at level 200) : phantom_scope.

Definition is_ok {E A} (r : result E A) : bool :=
  match r with Ok _ => true | Err _ => false end.

(** ** Machine integers and durations *)

Definition int64_min : Z := - 2 ^ 63.
Definition int64_max : Z := 2 ^ 63 - 1.
Definition clamp_int64 (z : Z) : Z := Z.max int64_min (Z.min int64_max z).
Definition wrap_int64 (z : Z) : Z := (z - int64_min) mod 2 ^ 64 + int64_min.
Definition uint32_max : Z := 2 ^ 32 - 1.

(** An instant is a count of nanoseconds since the Unix epoch and a duration a
    count of nanoseconds. [Time.Add] is exact; [Time.Sub] saturates at the
    bounds of the 64-bit [Duration]. *)
Definition nanosecond : Z := 1.
Definition millisecond : Z := 1000000.
Definition second : Z := 1000000000.
Definition minute : Z := 60 * second.
Definition hour : Z := 60 * minute.
Definition time_sub (a b : Z) : Z := clamp_int64 (a - b).

Lemma time_sub_ge a b d : int64_min < d → d ≤ int64_max → d ≤ time_sub a b ↔ d ≤ a - b.
Proof. unfold time_sub, clamp_int64, int64_min, int64_max. lia. Qed.

Lemma time_sub_gt a b d : int64_min ≤ d → d < int64_max → d < time_sub a b ↔ d < a - b.
Proof. unfold time_sub, clamp_int64, int64_min, int64_max. lia. Qed.

(** ** float64 *)

(** IEEE-754 binary64 values and operations of the Rocq specification of
    floating-point arithmetic. *)
Abbreviation float64 := spec_float.
Definition f64_of_Z (z : Z) : float64 := binary_normalize 53 1024 z 0 false.
Definition f64_add : float64 → float64 → float64 := SFadd 53 1024.
Definition f64_sub : float64 → float64 → float64 := SFsub 53 1024.
Definition f64_mul : float64 → float64 → float64 := SFmul 53 1024.
Definition f64_div : float64 → float64 → float64 := SFdiv 53 1024.
Definition f64_ltb (a b : float64) : bool :=
  match SFcompare a b with Some Lt => true | _ => false end.
Definition f64_leb (a b : float64) : bool :=
  match SFcompare a b with Some (Lt | Eq) => true | _ => false end.
Definition f64_eqb (a b : float64) : bool :=
  match SFcompare a b with Some Eq => true | _ => false end.
Definition f64_zero : float64 := S754_zero false.
(** The literal [n / 10^k] of the source, rounded to nearest even. *)
Definition f64_lit (n : Z) (k : Z) : float64 := f64_div (f64_of_Z n) (f64_of_Z (10 ^ k)).

(** [int(math.Ceil(x))] of a finite value. *)
Definition f64_ceil (x : float64) : Z :=
  match x with
  | S754_finite s m e =>
      let v := if s then Z.neg m else Z.pos m in
      if 0 <=? e then v * 2 ^ e else - ((- v) / 2 ^ (- e))
  | _ => 0
  end.

(** ** Generic list lemmas *)

Section Lists.
  Context {A B : Type}.

  (** The first [Some] a loop with an early return produces. *)
Fixpoint first_match (f : A → option B) (l : list A) : option B :=
    match l with
    | [] => None
    | a :: l' => match f a with Some b => Some b | None => first_match f l' end
    end.

Lemma first_match_Some f l b :
    first_match f l = Some b ↔
    ∃ l1 a l2, l = l1 ++ a :: l2 ∧ f a = Some b ∧ Forall (λ x, f x = None) l1.
  Proof.
    induction l as [|a l IH]; simpl.
    - split; [done|]. intros (l1 & a & l2 & H & _). by destruct l1.
    - destruct (f a) as [b'|] eqn:E.
      + split.
        * intros [= ->]. exists [], a, l. auto.
        * intros (l1 & a' & l2 & H & Hf & Hn).
          destruct l1 as [|x l1]; simplify_eq/=; inversion Hn; congruence.
      + rewrite IH. split.
        * intros (l1 & a' & l2 & -> & Hf & Hn). exists (a :: l1), a', l2. by repeat constructor.
        * intros (l1 & a' & l2 & H & Hf & Hn). destruct l1 as [|x l1]; simplify_eq/=.
          inversion Hn; subst. by exists l1, a', l2.
  Qed.

Lemma first_match_None f l : first_match f l = None ↔ Forall (λ x, f x = None) l.
  Proof.
    induction l as [|a l IH]; simpl; [by split|].
    rewrite Forall_cons, <- IH. destruct (f a) as [b|]; split; [done|by intros [? _]|auto|by intros [_ ?]].
  Qed.

Lemma first_match_ext f g l :
    (∀ x, x ∈ l → f x = g x) → first_match f l = first_match g l.
  Proof.
    induction l as [|a l IH]; simpl; intros H; [done|].
    rewrite (H a) by set_solver. rewrite IH; [done|]. intros x Hx. apply H. set_solver.
  Qed.
End Lists.

(** [existsb]-style loops over lists. *)
Lemma existsb_elem {A} (f : A → bool) l : existsb f l = true ↔ ∃ x, x ∈ l ∧ f x = true.
Proof.
  rewrite existsb_exists. split; intros (x & Hx & Hf); exists x; split; try done;
    by apply list_elem_of_In.
Qed.

Lemma filter_nothing {A} (P : A → Prop) `{∀ x, Decision (P x)} l : (∀ x, x ∈ l → ¬ P x) → filter P l = [].
Proof.
  intros HP. destruct (filter P l) as [|x k] eqn:E; [done|]. exfalso.
  assert (x ∈ filter P l) as [Hx Hl]%list_elem_of_filter by (rewrite E; set_solver). by apply (HP x).
Qed.

(** ** Maps and sets *)

Lemma map_size_insert_le {A} (m : gmap string A) k v : (size (<[k := v]> m) ≤ S (size m))%nat.
Proof. rewrite map_size_insert. destruct (m !! k); simpl; lia. Qed.

Lemma map_size_le_set {A} (m : gmap string A) (X : gset string) :
  (∀ k, is_Some (m !! k) → k ∈ X) → (size m ≤ size X)%nat.
Proof.
  intros H. rewrite <- size_dom. apply subseteq_size. intros k Hk. apply H. by apply elem_of_dom.
Qed.

Lemma map_size_lt_set {A} (m : gmap string A) (X : gset string) k :
  (∀ k, is_Some (m !! k) → k ∈ X) → m !! k = None → k ∈ X → (size m < size X)%nat.
Proof.
  intros H Hk HX.
  assert (size (dom m ∪ {[k]} : gset string) ≤ size X)%nat as Hle.
  { apply subseteq_size. intros x [Hx|Hx]%elem_of_union; [apply H; by apply elem_of_dom|set_solver]. }
  rewrite size_union, size_singleton, size_dom in Hle; [lia|].
  apply disjoint_singleton_r. by apply not_elem_of_dom.
Qed.

(** ** Tactics and hints *)

(** Splits every [if]/[match] of the goal, keeping the equations. *)
Ltac split_cases :=
  repeat (case_match || case_decide); simplify_eq/=.

(** Boolean hypotheses to propositions. *)
Ltac boolp :=
  repeat match goal with
  | H : andb _ _ = true |- _ => apply andb_true_iff in H as [? ?]
  | H : orb _ _ = false |- _ => apply orb_false_iff in H as [? ?]
  | H : negb _ = true |- _ => apply negb_true_iff in H
  | H : negb _ = false |- _ => apply negb_false_iff in H
  | H : Z.leb _ _ = true |- _ => apply Z.leb_le in H
  | H : Z.leb _ _ = false |- _ => apply Z.leb_gt in H
  | H : Z.ltb _ _ = true |- _ => apply Z.ltb_lt in H
  | H : Z.ltb _ _ = false |- _ => apply Z.ltb_ge in H
  | H : Z.eqb _ _ = true |- _ => apply Z.eqb_eq in H
  | H : Z.eqb _ _ = false |- _ => apply Z.eqb_neq in H
  | H : bool_decide _ = true |- _ => apply bool_decide_eq_true in H
  | H : bool_decide _ = false |- _ => apply bool_decide_eq_false in H
  end.

Create HintDb phantom discriminated.
Create Rewrite HintDb phantom.
#[export] Hint Resolve first_match_ext : phantom.
