(* ===== verification/GoStrings.v ===== *)
(** * Go's [strings] package on byte strings

    A Go string is a sequence of bytes; here it is a Stdlib [string], whose
    characters are the bytes. The functions are those the repository calls, with
    the behaviour of the Go standard library. What depends on the Unicode tables
    (case mapping and folding of strings with a byte above 0x7f) is the class
    [GoUnicode]; white space is exact, since Unicode has only 25 space runes. *)
From S2P Require Import Prelude.

(** ** Bytes *)

Definition ord (c : ascii) : Z := Z.of_N (N_of_ascii c).
Definition chr (z : Z) : ascii := ascii_of_N (Z.to_N z).

Definition is_ascii_byte (c : ascii) : bool := ord c <? 128.
Definition is_upper_byte (c : ascii) : bool := (65 <=? ord c) && (ord c <=? 90).
Definition is_lower_byte (c : ascii) : bool := (97 <=? ord c) && (ord c <=? 122).
Definition is_digit_byte (c : ascii) : bool := (48 <=? ord c) && (ord c <=? 57).
Definition lower_byte (c : ascii) : ascii := if is_upper_byte c then chr (ord c + 32) else c.
Definition upper_byte (c : ascii) : ascii := if is_lower_byte c then chr (ord c - 32) else c.

(** ** Whole-string operations *)

Fixpoint string_map (f : ascii → ascii) (s : string) : string :=
  match s with
  | "" => ""
  | String c s' => String (f c) (string_map f s')
  end%string.

Fixpoint string_forallb (f : ascii → bool) (s : string) : bool :=
  match s with
  | "" => true
  | String c s' => f c && string_forallb f s'
  end%string.

Definition string_existsb (f : ascii → bool) (s : string) : bool :=
  negb (string_forallb (λ c, negb (f c)) s).

Definition is_ascii (s : string) : bool := string_forallb is_ascii_byte s.

(** [len(s)] *)
Definition len (s : string) : Z := Z.of_nat (String.length s).

Definition HasPrefix (s prefix : string) : bool := String.prefix prefix s.

Fixpoint drop_bytes (n : nat) (s : string) : string :=
  match n, s with
  | O, _ => s
  | S n', String _ s' => drop_bytes n' s'
  | S _, EmptyString => EmptyString
  end.

Fixpoint take_bytes (n : nat) (s : string) : string :=
  match n, s with
  | S n', String c s' => String c (take_bytes n' s')
  | _, _ => EmptyString
  end.

Definition HasSuffix (s suffix : string) : bool :=
  (String.length suffix <=? String.length s)%nat &&
  bool_decide (drop_bytes (String.length s - String.length suffix) s = suffix).

Definition TrimPrefix (s prefix : string) : string :=
  if HasPrefix s prefix then drop_bytes (String.length prefix) s else s.

Definition TrimSuffix (s suffix : string) : string :=
  if HasSuffix s suffix
  then take_bytes (String.length s - String.length suffix) s else s.

(** [strings.IndexByte] and [strings.LastIndex] of a single byte. *)
Fixpoint IndexByte (s : string) (c : ascii) : option nat :=
  match s with
  | EmptyString => None
  | String d s' => if Ascii.eqb d c then Some O else S <$> IndexByte s' c
  end.

Fixpoint LastIndexByte (s : string) (c : ascii) : option nat :=
  match s with
  | EmptyString => None
  | String d s' =>
      match LastIndexByte s' c with
      | Some i => Some (S i)
      | None => if Ascii.eqb d c then Some O else None
      end
  end.

(** [strings.Index] for a substring. *)
Fixpoint Index (s sub : string) : option nat :=
  if HasPrefix s sub then Some O else
  match s with
  | EmptyString => None
  | String _ s' => S <$> Index s' sub
  end.

Definition Contains (s sub : string) : bool := bool_decide (is_Some (Index s sub)).

(** [strings.ContainsAny] for an ASCII character list. *)
Definition ContainsAny (s chars : string) : bool :=
  string_existsb (λ c, bool_decide (is_Some (IndexByte chars c))) s.

(** ** Split and Join *)

Fixpoint Split (s : string) (sep : ascii) : list string :=
  match s with
  | EmptyString => [EmptyString]
  | String c s' =>
      if Ascii.eqb c sep then EmptyString :: Split s' sep
      else match Split s' sep with
           | [] => [String c EmptyString]
           | p :: ps => String c p :: ps
           end
  end.

Definition Join (parts : list string) (sep : string) : string := String.concat sep parts.

Definition dot : ascii := "."%char.
Definition colon : ascii := ":"%char.

Lemma Split_nonempty s sep : Split s sep ≠ [].
Proof. destruct s; simpl; [done|]. case_match; [done|]. by case_match. Qed.

Lemma length_Split_pos s sep : (0 < length (Split s sep))%nat.
Proof. destruct (Split s sep) eqn:E; [by apply Split_nonempty in E|simpl; lia]. Qed.

Lemma Join_cons x y l sep : Join (x :: y :: l) sep = (x +:+ sep +:+ Join (y :: l) sep)%string.
Proof. done. Qed.

Lemma Join_Split s sep : Join (Split s sep) (String sep EmptyString) = s.
Proof.
  induction s as [|c s IH]; simpl; [done|].
  destruct (Ascii.eqb_spec c sep) as [->|Hne].
  - destruct (Split s sep) as [|p ps] eqn:E; [by apply Split_nonempty in E|].
    rewrite Join_cons, IH. done.
  - destruct (Split s sep) as [|p ps] eqn:E; [by apply Split_nonempty in E|].
    destruct ps as [|q qs].
    + unfold Join in *; simpl in *. by subst.
    + rewrite Join_cons in IH. rewrite Join_cons. by rewrite <- IH.
Qed.

Lemma Split_app s t sep : Split (s +:+ String sep t) sep = Split s sep ++ Split t sep.
Proof.
  induction s as [|c s IH]; simpl; [by rewrite Ascii.eqb_refl|].
  change (s ++ String sep t)%string with (s +:+ String sep t)%string. rewrite IH.
  destruct (Ascii.eqb c sep); [done|].
  destruct (Split s sep) as [|p ps] eqn:E; [by apply Split_nonempty in E|done].
Qed.

(** [strings.Join(parts[i:], ".")] for [i] from 0 up to and excluding the last
    label: the candidate loop of the policy engine, the NRD set and the blocklist
    repository. *)
Definition parent_candidates (d : string) : list string :=
  let parts := Split d dot in
  (λ i, Join (drop i parts) ".") <$> seq 0 (length parts - 1).

Lemma parent_candidates_length d :
  length (parent_candidates d) = (length (Split d dot) - 1)%nat.
Proof. unfold parent_candidates. by rewrite length_fmap, length_seq. Qed.

(** The first candidate is the domain itself, when it has at least two labels. *)
Lemma parent_candidates_head d :
  (1 < length (Split d dot))%nat → head (parent_candidates d) = Some d.
Proof.
  intros H. unfold parent_candidates.
  destruct (length (Split d dot) - 1)%nat as [|n] eqn:E; [lia|].
  simpl. by rewrite drop_0, Join_Split.
Qed.

(** A candidate is what is left of the name when leading labels are cut and at
    least two remain. *)
Definition enclosing (d c : string) : Prop :=
  ∃ pre suf, Split d dot = pre ++ suf ∧ (2 ≤ length suf)%nat ∧ c = Join suf ".".

Lemma parent_candidates_enclosing d c : c ∈ parent_candidates d ↔ enclosing d c.
Proof.
  unfold parent_candidates, enclosing. rewrite list_elem_of_fmap. split.
  - intros (i & -> & Hi%elem_of_seq). exists (take i (Split d dot)), (drop i (Split d dot)).
    rewrite take_drop, length_drop. split; [done|]. split; [lia|done].
  - intros (pre & suf & E & Hl & ->). exists (length pre). rewrite E, drop_app_length. split; [done|].
    apply elem_of_seq. rewrite length_app. lia.
Qed.

(** ** Unicode *)

(** The case mappings of a string that has a byte above 0x7f: Go maps every rune
    through the Unicode tables, which are data of the Go standard library. *)
Class GoUnicode := {
  unicode_to_lower : string → string;
  unicode_to_upper : string → string;
  unicode_equal_fold : string → string → bool;
  unicode_is_digit : Z → bool; (* decimal digits above 0x7f *)
}.

(** A table that maps no rune above 0x7f, for concrete runs. *)
Definition ascii_unicode : GoUnicode := {|
  unicode_to_lower := string_map lower_byte;
  unicode_to_upper := string_map upper_byte;
  unicode_equal_fold := λ a b,
    bool_decide (string_map lower_byte a = string_map lower_byte b);
  unicode_is_digit := λ _, false;
|}.

Section Unicode.
  Context `{U : GoUnicode}.

Definition ToLower (s : string) : string :=
    if is_ascii s then string_map lower_byte s else unicode_to_lower s.

Definition ToUpper (s : string) : string :=
    if is_ascii s then string_map upper_byte s else unicode_to_upper s.

Definition EqualFold (a b : string) : bool :=
    if is_ascii a && is_ascii b
    then bool_decide (string_map lower_byte a = string_map lower_byte b)
    else unicode_equal_fold a b.
End Unicode.

(** ** White space *)

(** The UTF-8 encodings of the runes with Unicode's White_Space property, which
    is what [unicode.IsSpace] tests. *)
Definition utf8 (l : list Z) : string := foldr (λ b, String (chr b)) EmptyString l.

Definition space_encodings : list string :=
  ((λ b, utf8 [b]) <$> [9; 10; 11; 12; 13; 32])
  ++ (utf8 <$> [[194; 133]; [194; 160]; [225; 154; 128]; [226; 128; 168]; [226; 128; 169];
                [226; 128; 175]; [226; 129; 159]; [227; 128; 128]])
  ++ ((λ i, utf8 [226; 128; 128 + Z.of_nat i]) <$> seq 0 11).

(** One white-space rune at the front, or at the back, removed. *)
Definition strip_space_front (s : string) : option string :=
  first_match (λ w, if HasPrefix s w then Some (drop_bytes (String.length w) s) else None)
    space_encodings.

Definition strip_space_back (s : string) : option string :=
  first_match
    (λ w, if HasSuffix s w then Some (take_bytes (String.length s - String.length w) s) else None)
    space_encodings.

Fixpoint trim_with (fuel : nat) (strip : string → option string) (s : string) : string :=
  match fuel with
  | O => s
  | S fuel' => match strip s with Some s' => trim_with fuel' strip s' | None => s end
  end.

(** Every step removes at least one byte, so the length of the string is enough
    fuel. *)
Definition TrimSpace (s : string) : string :=
  let s' := trim_with (String.length s) strip_space_front s in
  trim_with (String.length s') strip_space_back s'.

(** [strings.Fields]: the maximal runs of non-space bytes. *)
Fixpoint fields_aux (fuel : nat) (cur s : string) : list string :=
  let flush := if bool_decide (cur = EmptyString) then [] else [cur] in
  match fuel with
  | O => flush
  | S fuel' =>
      match s with
      | EmptyString => flush
      | String c s' =>
          match strip_space_front s with
          | Some rest => flush ++ fields_aux fuel' EmptyString rest
          | None => fields_aux fuel' (cur +:+ String c EmptyString)%string s'
          end
      end
  end.
Definition Fields (s : string) : list string := fields_aux (S (String.length s)) EmptyString s.

(** ** Decimal numbers *)

Definition digit_val (c : ascii) : Z := ord c - 48.

Fixpoint digits_val (acc : Z) (s : string) : Z :=
  match s with
  | EmptyString => acc
  | String c s' => digits_val (acc * 10 + digit_val c) s'
  end.

(** [strconv.Atoi]: an optional sign and at least one digit, with the value in
    the range of a 64-bit [int]. *)
Definition Atoi (s : string) : option Z :=
  let '(neg, ds) :=
    match s with
    | String "-" ds => (true, ds)
    | String "+" ds => (false, ds)
    | _ => (false, s)
    end%char in
  if bool_decide (ds = EmptyString) then None
  else if negb (string_forallb is_digit_byte ds) then None
  else
    let v := if neg then - digits_val 0 ds else digits_val 0 ds in
    if (int64_min <=? v) && (v <=? int64_max) then Some v else None.

(** [strconv.Itoa] *)
Definition Itoa (z : Z) : string := pretty z.

(** ** Concrete checks *)

Example split_join_ex : Split "a.b.c" dot = ["a"; "b"; "c"]%string. Proof. reflexivity. Qed.
Example trim_ex : TrimSpace (String (chr 9) "  x y " +:+ utf8 [226; 128; 168])%string = "x y"%string.
Proof. vm_compute. reflexivity. Qed.
Example fields_ex : Fields " a  bc " = ["a"; "bc"]%string. Proof. vm_compute. reflexivity. Qed.
Example cand_ex : parent_candidates "www.a.com" = ["www.a.com"; "a.com"]%string.
Proof. vm_compute. reflexivity. Qed.
Example atoi_ex : (Atoi "-12", Atoi "", Atoi "1a") = (Some (-12), None, None).
Proof. vm_compute. reflexivity. Qed.

(** ** Lemmas on bytes and strings *)

Lemma ord_range c : 0 <= ord c < 256.
Proof. unfold ord. pose proof (N_ascii_bounded c). lia. Qed.

Lemma ord_chr z : 0 <= z < 256 → ord (chr z) = z.
Proof. intros H. unfold ord, chr. rewrite N_ascii_embedding; lia. Qed.

Lemma chr_ord c : chr (ord c) = c.
Proof. unfold ord, chr. rewrite N2Z.id. apply ascii_N_embedding. Qed.

Lemma ord_inj c d : ord c = ord d → c = d.
Proof. intros H. by rewrite <- (chr_ord c), <- (chr_ord d), H. Qed.

Lemma lower_byte_idemp c : lower_byte (lower_byte c) = lower_byte c.
Proof.
  unfold lower_byte. destruct (is_upper_byte c) eqn:E; [|by rewrite E].
  unfold is_upper_byte in *. pose proof (ord_range c). boolp.
  rewrite ord_chr by lia. case_match; [boolp; lia|done].
Qed.

Lemma string_map_map f g s : string_map f (string_map g s) = string_map (f ∘ g) s.
Proof. induction s; simpl; [done|]. by f_equal. Qed.

Lemma string_map_ext f g s : (∀ c, f c = g c) → string_map f s = string_map g s.
Proof. intros H. induction s; simpl; [done|]. by f_equal. Qed.

Lemma string_map_lower_idemp s :
  string_map lower_byte (string_map lower_byte s) = string_map lower_byte s.
Proof. rewrite string_map_map. apply string_map_ext, lower_byte_idemp. Qed.

Lemma is_ascii_map f s :
  (∀ c, is_ascii_byte (f c) = is_ascii_byte c) → is_ascii (string_map f s) = is_ascii s.
Proof. intros H. unfold is_ascii. induction s; simpl; [done|]. by rewrite H, IHs. Qed.

Lemma is_ascii_lower_byte c : is_ascii_byte (lower_byte c) = is_ascii_byte c.
Proof.
  unfold lower_byte, is_ascii_byte. destruct (is_upper_byte c) eqn:E; [|done].
  unfold is_upper_byte in E. pose proof (ord_range c). boolp.
  rewrite ord_chr by lia. apply eq_true_iff_eq. rewrite !Z.ltb_lt. lia.
Qed.

Lemma length_string_map f s : String.length (string_map f s) = String.length s.
Proof. induction s; simpl; [done|]. by f_equal. Qed.

Lemma string_app_assoc s t u : (s +:+ t +:+ u = (s +:+ t) +:+ u)%string.
Proof. induction s as [|c s IH]; [done|]. exact (f_equal (String c) IH). Qed.

Lemma string_app_nil_r s : (s +:+ "")%string = s.
Proof. induction s as [|c s IH]; [done|]. exact (f_equal (String c) IH). Qed.

Lemma length_app_string s t : String.length (s +:+ t) = (String.length s + String.length t)%nat.
Proof. induction s; simpl; [done|]. by f_equal. Qed.

#[export] Hint Rewrite length_string_map string_map_lower_idemp : phantom.
#[export] Hint Resolve Split_nonempty length_Split_pos ord_range : phantom.

(** ** The byte-wise order of Go strings *)

Lemma string_ltb_cons c d s t :
  String.ltb (String c s) (String d t) = (ord c <? ord d) || ((ord c =? ord d) && String.ltb s t).
Proof.
  unfold String.ltb; simpl. unfold Ascii.compare, ord. rewrite <- N2Z.inj_compare.
  destruct (Z.compare_spec (Z.of_N (N_of_ascii c)) (Z.of_N (N_of_ascii d))) as [H|H|H].
  - rewrite H, Z.ltb_irrefl, Z.eqb_refl. done.
  - by rewrite (proj2 (Z.ltb_lt _ _) H).
  - rewrite (proj2 (Z.ltb_ge _ _)) by lia. rewrite (proj2 (Z.eqb_neq _ _)) by lia. done.
Qed.

Lemma string_ltb_irrefl s : String.ltb s s = false.
Proof.
  induction s as [|c s IH]; [done|]. by rewrite string_ltb_cons, Z.ltb_irrefl, Z.eqb_refl, IH.
Qed.

Lemma string_ltb_trans s t u :
  String.ltb s t = true → String.ltb t u = true → String.ltb s u = true.
Proof.
  revert t u. induction s as [|c s IH]; intros [|d t] [|e u]; try done.
  rewrite !string_ltb_cons, !orb_true_iff, !andb_true_iff, !Z.ltb_lt, !Z.eqb_eq.
  intros [H1|[H1 H2]] [H3|[H3 H4]]; [left; lia..|right; split; [lia|eauto]].
Qed.

Lemma string_ltb_total s t : String.ltb s t = false → s = t ∨ String.ltb t s = true.
Proof.
  revert t. induction s as [|c s IH]; intros [|d t]; try (by auto).
  rewrite !string_ltb_cons, orb_false_iff, andb_false_iff, Z.ltb_ge, Z.eqb_neq.
  intros [H1 [H2|H2]].
  - right. rewrite orb_true_iff, Z.ltb_lt. left. lia.
  - destruct (decide (ord c = ord d)) as [E%ord_inj|E].
    + subst. destruct (IH t H2) as [->|H]; [by left|right].
      by rewrite Z.eqb_refl, H, orb_true_r.
    + right. rewrite orb_true_iff, Z.ltb_lt. left. lia.
Qed.

(** ** Prefixes and substrings *)

Lemma HasPrefix_app p s : HasPrefix (p +:+ s) p = true.
Proof. unfold HasPrefix. induction p as [|c p IH]; simpl; [by destruct s|]. by destruct (ascii_dec c c). Qed.

Lemma HasPrefix_split s p : HasPrefix s p = true → s = (p +:+ drop_bytes (String.length p) s)%string.
Proof.
  unfold HasPrefix. revert s. induction p as [|c p IH]; intros [|d s]; simpl; try done.
  destruct (ascii_dec c d) as [->|]; [|done]. intros H. change (String d s = String d (p +:+ drop_bytes (String.length p) s)). f_equal. by apply IH.
Qed.

Lemma drop_bytes_app p s : drop_bytes (String.length p) (p +:+ s) = s.
Proof. induction p; simpl; [done|done]. Qed.

Lemma HasPrefix_TrimPrefix s p : HasPrefix s p = true → s = (p +:+ TrimPrefix s p)%string.
Proof. intros H. unfold TrimPrefix. rewrite H. by apply HasPrefix_split. Qed.

Lemma TrimPrefix_app p s : TrimPrefix (p +:+ s) p = s.
Proof. unfold TrimPrefix. rewrite HasPrefix_app. induction p as [|c p IH]; simpl; [by destruct s|]. exact IH. Qed.

Lemma Contains_prefix s p : HasPrefix s p = true → Contains s p = true.
Proof.
  intros H. unfold Contains. apply bool_decide_eq_true. destruct s; cbn [Index]; rewrite H; by eexists.
Qed.

