(* ===== verification/GoText.v ===== *)
(** * Text files and orders

    [bufio.Scanner] over lines, the words of a line, and sorting by a string key, as the
    Go standard library does them, with the lemmas the parsers and listings share. *)
From S2P Require Import Prelude GoStrings.

(** ** bufio.Scanner over lines *)

Definition newline : ascii := chr 10.
Definition cr : string := utf8 [13].

(** [dropCR] of bufio. *)
Definition drop_cr (l : string) : string := TrimSuffix l cr.

(** The segments between newlines; the scanner returns no token for an empty final
    segment. *)
Definition raw_lines (data : string) : list string :=
  let segs := Split data newline in
  match last segs with Some EmptyString => take (length segs - 1) segs | _ => segs end.

(** A line that does not fit the buffer of [max] bytes with room to spare ends the
    scan with [bufio.ErrTooLong]; the flag says whether it did. *)
Fixpoint scan_tokens (max : Z) (lines : list string) : list string * bool :=
  match lines with
  | [] => ([], false)
  | l :: ls =>
      if max <=? len l then ([], true)
      else let '(ts, e) := scan_tokens max ls in (drop_cr l :: ts, e)
  end.
Definition scan_lines (max : Z) (data : string) : list string * bool :=
  scan_tokens max (raw_lines data).

(** [bufio.MaxScanTokenSize], the buffer of a scanner that was given none. *)
Definition MaxScanTokenSize : Z := 64 * 1024.

(** Lines, each ended by a newline. *)
Fixpoint unlines (ls : list string) : string :=
  match ls with
  | [] => ""
  | l :: ls => l +:+ String newline (unlines ls)
  end%string.

(** ** Bytes of a string *)

Lemma string_cons_app c s t : (String c s +:+ t)%string = String c (s +:+ t).
Proof. reflexivity. Qed.

Lemma forallb_take f n s : string_forallb f s = true → string_forallb f (take_bytes n s) = true.
Proof.
  revert s. induction n as [|n IH]; intros [|c s]; simpl; try done.
  intros [? ?]%andb_true_iff. rewrite IH by done. by apply andb_true_iff.
Qed.

Lemma forallb_drop f n s : string_forallb f s = true → string_forallb f (drop_bytes n s) = true.
Proof.
  revert s. induction n as [|n IH]; intros [|c s]; simpl; try done. intros [_ ?]%andb_true_iff. auto.
Qed.

Lemma forallb_app f s t : string_forallb f (s +:+ t) = string_forallb f s && string_forallb f t.
Proof. induction s as [|c s IH]; [done|]. rewrite string_cons_app. simpl. by rewrite IH, andb_assoc. Qed.

Lemma forallb_impl f g s :
  (∀ c, f c = true → g c = true) → string_forallb f s = true → string_forallb g s = true.
Proof.
  intros H. induction s as [|c s IH]; simpl; [done|]. intros [Hc Hs]%andb_true_iff. by rewrite H, IH.
Qed.

Lemma HasPrefix_forallb f s p : string_forallb f s = true → HasPrefix s p = true → string_forallb f p = true.
Proof.
  unfold HasPrefix. revert s. induction p as [|c p IH]; intros [|d s]; simpl; try done.
  destruct (ascii_dec c d) as [->|]; [|done]. intros [Hd Hs]%andb_true_iff Hp. rewrite Hd. simpl. eauto.
Qed.

Fixpoint last_byte (s : string) : option ascii :=
  match s with
  | EmptyString => None
  | String c EmptyString => Some c
  | String _ s => last_byte s
  end.

Lemma last_byte_app s t : t ≠ ""%string → last_byte (s +:+ t) = last_byte t.
Proof.
  intros Ht. induction s as [|c s IH]; [done|]. rewrite string_cons_app. cbn [last_byte].
  rewrite <- IH. destruct s; simpl; [by destruct t|done].
Qed.

Lemma take_drop_bytes n s : (take_bytes n s +:+ drop_bytes n s)%string = s.
Proof. revert s. induction n as [|n IH]; intros [|c s]; simpl; try done. rewrite string_cons_app. by rewrite IH. Qed.

Lemma HasSuffix_last s w : w ≠ ""%string → HasSuffix s w = true → last_byte s = last_byte w.
Proof.
  intros Hw H. unfold HasSuffix in H. boolp.
  rewrite <- (take_drop_bytes (String.length s - String.length w) s) at 1.
  match goal with E : drop_bytes _ _ = _ |- _ => rewrite E end. by apply last_byte_app.
Qed.

(** ** White space *)

(** The visible ASCII bytes. No encoding of a space begins or ends with one. *)
Definition graph_byte (c : ascii) : bool := (33 <=? ord c) && (ord c <=? 126).
Definition word (s : string) : bool := string_forallb graph_byte s && negb (bool_decide (s = ""%string)).
(** Text that trimming leaves as it is. *)
Definition trimmed (s : string) : bool :=
  match s, last_byte s with String c _, Some d => graph_byte c && graph_byte d | _, _ => true end.

Definition space_ends (w : string) : bool :=
  match w, last_byte w with
  | String c _, Some d => negb (graph_byte c) && negb (graph_byte d)
  | _, _ => false
  end.
Lemma space_encoding_ends w : w ∈ space_encodings → space_ends w = true.
Proof.
  assert (Forall (λ w, space_ends w = true) space_encodings) as H.
  { apply (bool_decide_unpack _). vm_compute. exact I. }
  rewrite Forall_forall in H. apply H.
Qed.

Lemma strip_front_graph c s : graph_byte c = true → strip_space_front (String c s) = None.
Proof.
  intros Hc. unfold strip_space_front. apply first_match_None, Forall_forall. intros w Hw%space_encoding_ends.
  destruct w as [|d w]; [done|]. unfold HasPrefix. simpl. destruct (ascii_dec d c) as [->|]; [|done].
  unfold space_ends in Hw. case_match; [|done]. by rewrite Hc in Hw.
Qed.

Lemma strip_back_graph s d : last_byte s = Some d → graph_byte d = true → strip_space_back s = None.
Proof.
  intros Hs Hd. unfold strip_space_back. apply first_match_None, Forall_forall. intros w Hw%space_encoding_ends.
  destruct (HasSuffix s w) eqn:E; [|done]. destruct w as [|c w]; [done|].
  apply HasSuffix_last in E; [|done]. unfold space_ends in Hw. rewrite <- E, Hs, Hd in Hw.
  by rewrite andb_false_r in Hw.
Qed.

Lemma last_byte_some c s : ∃ d, last_byte (String c s) = Some d.
Proof. revert c. induction s as [|d s IH]; intros c; [by exists c|]. apply IH. Qed.

Lemma last_byte_forallb f s d : last_byte s = Some d → string_forallb f s = true → f d = true.
Proof.
  induction s as [|c s IH]; [done|]. cbn. intros Hl [Hc Hs]%andb_true_iff. destruct s; [congruence|]. auto.
Qed.

Lemma TrimSpace_trimmed s : trimmed s = true → TrimSpace s = s.
Proof.
  unfold trimmed, TrimSpace. destruct s as [|c s]; [done|]. destruct (last_byte_some c s) as [d E]. rewrite E.
  intros [Hc Hd]%andb_true_iff.
  assert (∀ n, trim_with n strip_space_front (String c s) = String c s) as ->.
  { intros [|n]; simpl; [done|]. by rewrite strip_front_graph. }
  destruct (String.length _); simpl; [done|]. by erewrite strip_back_graph.
Qed.

Lemma word_inv s : word s = true → ∃ c d r, s = String c r ∧ string_forallb graph_byte s = true ∧
  graph_byte c = true ∧ last_byte s = Some d ∧ graph_byte d = true.
Proof.
  unfold word. intros [Hf Hn]%andb_true_iff. destruct s as [|c r]; [done|]. destruct (last_byte_some c r) as [d Hd].
  exists c, d, r. split; [done|]. split; [done|]. split; [by apply andb_true_iff in Hf as [? _]|].
  split; [done|]. by eapply last_byte_forallb.
Qed.

Lemma word_trimmed s : word s = true → trimmed s = true.
Proof. intros (c & d & r & -> & _ & Hc & Hd & Hg)%word_inv. unfold trimmed. by rewrite Hd, Hc, Hg. Qed.

(** ** Words separated by blanks *)

Fixpoint blanks (n : nat) : string := match n with O => "" | S n => String " " (blanks n) end.

(** A line of columns: the first word, and the others with the width of the gap before
    each, one blank at least. *)
Definition columns (w : string) (ws : list (nat * string)) : string :=
  (w +:+ foldr (λ p s, blanks (S p.1) +:+ p.2 +:+ s) "" ws)%string.

Lemma fields_aux_word fuel cur w rest :
  string_forallb graph_byte w = true →
  fields_aux (String.length w + fuel) cur (w +:+ rest) = fields_aux fuel (cur +:+ w)%string rest.
Proof.
  revert cur. induction w as [|c w IH]; intros cur; [by rewrite string_app_nil_r|]. rewrite string_cons_app. cbn [string_forallb].
  intros [Hc Hw]%andb_true_iff. cbn [String.length Nat.add fields_aux]. rewrite strip_front_graph by done.
  rewrite IH by done. f_equal. by rewrite <- string_app_assoc.
Qed.

Lemma strip_front_blank s : strip_space_front (String " " s) = Some s.
Proof. by destruct s. Qed.

Lemma fields_aux_blanks n fuel rest :
  fields_aux (n + fuel) "" (blanks n +:+ rest) = fields_aux fuel "" rest.
Proof.
  induction n as [|n IH]; [done|]. cbn [blanks]. rewrite string_cons_app. cbn [Nat.add fields_aux]. rewrite strip_front_blank.
  rewrite bool_decide_eq_true_2 by done. exact IH.
Qed.

Lemma fields_aux_columns ws : ∀ fuel cur,
  Forall (λ p, word p.2 = true) ws → cur ≠ ""%string →
  (String.length (foldr (λ p s, blanks (S p.1) +:+ p.2 +:+ s) "" ws)%string < fuel)%nat →
  fields_aux fuel cur (foldr (λ p s, blanks (S p.1) +:+ p.2 +:+ s) "" ws)%string = cur :: ws.*2.
Proof.
  induction ws as [|[n w] ws IH]; intros fuel cur Hw Hc Hf; simpl in Hf |- *.
  - destruct fuel; simpl; by rewrite bool_decide_eq_false_2.
  - apply Forall_cons in Hw as [Hw Hws]. simpl in Hw. apply word_inv in Hw as (c & d & r & -> & Hg & _).
    destruct fuel as [|fuel]; [lia|]. rewrite !length_app_string in Hf.
    assert (∀ n, String.length (blanks n) = n) as Hb by (intros k; induction k; simpl; congruence).
    rewrite Hb in Hf. rewrite string_cons_app. cbn [fields_aux]. rewrite strip_front_blank, bool_decide_eq_false_2 by done.
    simpl in Hg, Hf.
    replace fuel with (n + (String.length (String c r) + (fuel - n - String.length (String c r))))%nat by (simpl; lia).
    rewrite fields_aux_blanks, fields_aux_word by done. cbn [app]. f_equal.
    change ("" +:+ String c r)%string with (String c r). apply IH; [done|done|simpl; lia].
Qed.

Lemma Fields_columns w ws :
  word w = true → Forall (λ p, word p.2 = true) ws → Fields (columns w ws) = w :: ws.*2.
Proof.
  intros (c & d & r & -> & Hg & _)%word_inv Hws. unfold Fields, columns. rewrite length_app_string.
  rewrite <- Nat.add_succ_r, fields_aux_word by done. change ("" +:+ String c r)%string with (String c r).
  apply fields_aux_columns; [done|done|lia].
Qed.

Lemma columns_last w ws : word w = true → Forall (λ p, word p.2 = true) ws →
  ∃ d, last_byte (columns w ws) = Some d ∧ graph_byte d = true.
Proof.
  intros Hw Hws. unfold columns. revert w Hw. induction Hws as [|[n v] ws Hv _ IH]; intros w Hw; cbn [foldr fst snd].
  - rewrite string_app_nil_r. apply word_inv in Hw as (? & d & ? & _ & _ & _ & ? & ?). by exists d.
  - simpl in Hv. destruct (IH v Hv) as (d & Hd & Hg). exists d. split; [|done].
    apply word_inv in Hv as (c & ? & r & -> & _).
    rewrite last_byte_app by discriminate. rewrite last_byte_app by discriminate. exact Hd.
Qed.

Lemma columns_trimmed w ws : word w = true → Forall (λ p, word p.2 = true) ws → trimmed (columns w ws) = true.
Proof.
  intros Hw Hws. destruct (columns_last w ws Hw Hws) as (d & Hd & Hg).
  apply word_inv in Hw as (c & ? & r & -> & _ & Hc & _). unfold columns in *. rewrite string_cons_app in *.
  unfold trimmed. by rewrite Hd, Hg, Hc.
Qed.

(** ** Reading back lines *)

Definition no_newline (c : ascii) : bool := negb (Ascii.eqb c newline).

Lemma Split_unlines_cons l rest :
  string_forallb no_newline l = true → Split (l +:+ String newline rest) newline = l :: Split rest newline.
Proof.
  intros H. induction l as [|c l IH]; [done|]. rewrite string_cons_app. simpl in *.
  apply andb_true_iff in H as [Hc Hl]. unfold no_newline in Hc. boolp. rewrite Hc. by rewrite IH.
Qed.

Lemma raw_lines_unlines ls :
  Forall (λ l, string_forallb no_newline l = true) ls → raw_lines (unlines ls) = ls.
Proof.
  intros H. unfold raw_lines.
  assert (Split (unlines ls) newline = ls ++ [""%string]) as ->.
  { induction H as [|l ls Hl Hls IH]; simpl; [done|]. rewrite Split_unlines_cons by done. by rewrite IH. }
  rewrite last_snoc, length_app. simpl. replace (length ls + 1 - 1)%nat with (length ls) by lia.
  by rewrite take_app_length.
Qed.

(** A line the scanner returns as it is. *)
Definition plain_line (max : Z) (l : string) : Prop :=
  string_forallb no_newline l = true ∧ last_byte l ≠ Some (chr 13) ∧ len l < max.

Lemma scan_unlines max ls : Forall (plain_line max) ls → scan_lines max (unlines ls) = (ls, false).
Proof.
  intros H. unfold scan_lines. rewrite raw_lines_unlines; [|eapply Forall_impl; [exact H|by intros l (? & _)]].
  induction H as [|l ls (_ & Hl & Hm) _ IH]; [done|]. simpl. rewrite (proj2 (Z.leb_gt _ _)) by done.
  rewrite IH. unfold drop_cr, TrimSuffix. destruct (HasSuffix l cr) eqn:E; [|done].
  apply HasSuffix_last in E; [done|done].
Qed.

(** ** path/filepath *)

(** [Clean]: the components, with "." dropped and ".." taking back the one before it. *)
Definition clean_step (rooted : bool) (out : list string) (c : string) : list string :=
  if bool_decide (c = ""%string) || bool_decide (c = "."%string) then out
  else if bool_decide (c = ".."%string) then
    match last out with
    | Some d => if bool_decide (d = ".."%string) then out ++ [c] else take (length out - 1) out
    | None => if rooted then out else [c]
    end
  else out ++ [c].
Definition Clean (path : string) : string :=
  if bool_decide (path = ""%string) then "."
  else
    let rooted := HasPrefix path "/" in
    let out := Join (foldl (clean_step rooted) [] (Split path "/")) "/" in
    if rooted then ("/" +:+ out)%string else if bool_decide (out = ""%string) then "." else out.
(** [Dir]: all but the last element, cleaned; [Base]: the last element. *)
Definition Dir (path : string) : string :=
  match LastIndexByte path "/" with
  | Some i => Clean (take_bytes (S i) path) | None => Clean ""
  end.
Fixpoint trim_slashes (fuel : nat) (s : string) : string :=
  match fuel with
  | O => s
  | S n => if HasSuffix s "/" then trim_slashes n (TrimSuffix s "/") else s
  end.
Definition Base (path : string) : string :=
  if bool_decide (path = ""%string) then "."
  else
    let s := trim_slashes (String.length path) path in
    let b := match LastIndexByte s "/" with Some i => drop_bytes (S i) s | None => s end in
    if bool_decide (b = ""%string) then "/" else b.

Example path_ex :
  Dir "/app/data/phantomdns.db" = "/app/data"%string ∧ Dir "x.db" = "."%string ∧ Dir "" = "."%string ∧
  Dir "a/../../b/c" = "../b"%string ∧ Dir "/x" = "/"%string ∧ Base (Dir (Dir "/sys/block/mmcblk0/device/life_time")) = "mmcblk0"%string
  ∧ Clean "/../a/./b//" = "/a/b"%string.
Proof. vm_compute. repeat split. Qed.

(** ** Decimal numbers *)

Lemma pretty_go_forallb f n s :
  (∀ c, is_digit_byte c = true → f c = true) → string_forallb f (pretty_N_go n s) = string_forallb f s.
Proof.
  intros Hf. revert s. induction (N.lt_wf_0 n) as [n _ IH]; intros s.
  destruct (decide (n = 0)%N) as [->|Hn]; [by rewrite pretty_N_go_0|].
  rewrite pretty_N_go_step by lia. rewrite IH by (apply N.div_lt; lia). cbn [string_forallb].
  rewrite Hf; [done|]. pose proof (N.mod_lt n 10 ltac:(lia)) as H.
  assert (∀ k, (k < 10)%N → is_digit_byte (pretty_N_char k) = true) as Hd; [|by apply Hd].
  intros k Hk. assert (k = 0 ∨ k = 1 ∨ k = 2 ∨ k = 3 ∨ k = 4 ∨ k = 5 ∨ k = 6 ∨ k = 7 ∨ k = 8 ∨ k = 9)%N as Hc by lia.
  repeat destruct Hc as [->|Hc]; try reflexivity. by subst.
Qed.

Lemma Itoa_forallb f z : 0 ≤ z → (∀ c, is_digit_byte c = true → f c = true) → string_forallb f (Itoa z) = true.
Proof.
  intros Hz Hf. assert (string_forallb f (pretty (Z.to_N z)) = true) as H.
  { unfold pretty, pretty_N. case_decide; [cbn; by rewrite Hf|]. by rewrite pretty_go_forallb. }
  unfold Itoa. by destruct z.
Qed.

Lemma digits_val_go n : ∀ s, digits_val 0 (pretty_N_go n s) = digits_val (Z.of_N n) s.
Proof.
  induction (N.lt_wf_0 n) as [n _ IH]; intros s. destruct (decide (n = 0)%N) as [->|Hn]; [by rewrite pretty_N_go_0|].
  rewrite pretty_N_go_step by lia. rewrite IH by (apply N.div_lt; lia). cbn [digits_val]. f_equal.
  pose proof (N.mod_lt n 10 ltac:(lia)) as H.
  assert (∀ k, (k < 10)%N → digit_val (pretty_N_char k) = Z.of_N k) as Hd.
  { intros k Hk. assert (k = 0 ∨ k = 1 ∨ k = 2 ∨ k = 3 ∨ k = 4 ∨ k = 5 ∨ k = 6 ∨ k = 7 ∨ k = 8 ∨ k = 9)%N as Hc by lia.
    repeat destruct Hc as [->|Hc]; try reflexivity. by subst. }
  rewrite Hd by done. pose proof (N.div_mod n 10 ltac:(lia)). lia.
Qed.

(** What [Itoa] writes, [Atoi] reads. *)
Lemma Atoi_Itoa z : 0 ≤ z ≤ int64_max → Itoa z ≠ ""%string ∧ Atoi (Itoa z) = Some z.
Proof.
  intros Hz. assert (Itoa z = pretty (Z.to_N z)) as E by (by destruct z; [..|lia]).
  assert (string_forallb is_digit_byte (Itoa z) = true) as Hd by (apply Itoa_forallb; [lia|done]).
  assert (digits_val 0 (Itoa z) = z) as Hv.
  { rewrite E. unfold pretty, pretty_N. case_decide as H0; [transitivity 0; [reflexivity|lia]|]. rewrite digits_val_go. simpl. lia. }
  assert (Itoa z ≠ ""%string) as Hne.
  { rewrite E. unfold pretty, pretty_N. case_decide as H0; [done|]. rewrite pretty_N_go_step by lia. intros H.
    assert (∀ n s, s ≠ ""%string → pretty_N_go n s ≠ ""%string) as Hg; [|by apply Hg in H].
    intros n. induction (N.lt_wf_0 n) as [n _ IH]; intros s Hs. destruct (decide (n = 0)%N) as [->|]; [by rewrite pretty_N_go_0|].
    rewrite pretty_N_go_step by lia. apply IH; [apply N.div_lt; lia|done]. }
  split; [done|]. unfold Atoi. destruct (Itoa z) as [|c ds] eqn:Ei; [done|].
  assert (is_digit_byte c = true) as Hc by (by apply andb_true_iff in Hd as [? _]).
  assert ((match String c ds with String "-" ds => (true, ds) | String "+" ds => (false, ds) | _ => (false, String c ds) end)%char
          = (false, String c ds)) as ->.
  { destruct c as [[] [] [] [] [] [] [] []]; try reflexivity; discriminate. }
  rewrite bool_decide_eq_false_2 by done. rewrite Hd. cbn [negb]. rewrite Hv.
  rewrite (proj2 (Z.leb_le int64_min z)), (proj2 (Z.leb_le z int64_max)); [done|lia|unfold int64_min; lia].
Qed.

(** ** Sorting by a string key *)

Definition by_key {A} (key : A → string) (a b : A) : Prop := String.le (key a) (key b).
#[export] Instance by_key_dec {A} (key : A → string) : RelDecision (by_key key).
Proof. intros a b. unfold by_key. apply _. Defined.
#[export] Instance by_key_trans {A} (key : A → string) : Transitive (by_key key).
Proof. intros a b c. unfold by_key. apply transitivity. Qed.
#[export] Instance by_key_total {A} (key : A → string) : Total (by_key key).
Proof. intros a b. apply (total String.le). Qed.

Definition sort_by {A} (key : A → string) (l : list A) : list A := merge_sort (by_key key) l.

Lemma sort_by_perm {A} (key : A → string) l : sort_by key l ≡ₚ l.
Proof. apply merge_sort_Permutation. Qed.
Lemma sort_by_sorted {A} (key : A → string) l : StronglySorted (by_key key) (sort_by key l).
Proof. apply StronglySorted_merge_sort; apply _. Qed.

Lemma NoDup_key_inj {A} (key : A → string) l x y : NoDup (key <$> l) → x ∈ l → y ∈ l → key x = key y → x = y.
Proof.
  induction l as [|a l IH]; [by intros _ ?%not_elem_of_nil|]. csimpl. rewrite NoDup_cons, !elem_of_cons.
  intros [Ha Hn] [->|Hx] [->|Hy] E; auto; destruct Ha; [rewrite E|rewrite <- E]; by apply list_elem_of_fmap_2.
Qed.

(** Distinct keys leave one sorted order. *)
Lemma sorted_by_key_unique {A} (key : A → string) l k :
  NoDup (key <$> l) → StronglySorted (by_key key) l → StronglySorted (by_key key) k → l ≡ₚ k → l = k.
Proof.
  intros Hn Hl Hk Hp. apply (StronglySorted_unique_strong (by_key key)); [|done..].
  intros x y Hx Hy H1 H2. rewrite <- Hp in Hy. apply (NoDup_key_inj key l); [done..|]. by apply (anti_symm String.le).
Qed.

Definition strictly_by_key {A} (key : A → string) (a b : A) : Prop := by_key key a b ∧ key a ≠ key b.

Lemma sort_by_strict {A} (key : A → string) l : NoDup (key <$> l) → StronglySorted (strictly_by_key key) (sort_by key l).
Proof.
  intros Hn. rewrite <- (sort_by_perm key l) in Hn. pose proof (sort_by_sorted key l) as Hs.
  induction Hs as [|a k _ IH Ha]; [constructor|]. csimpl in Hn. apply NoDup_cons in Hn as [Ha' Hn].
  constructor; [auto|]. rewrite Forall_forall in Ha |- *. intros x Hx. split; [auto|].
  intros E. apply Ha'. rewrite E. by apply list_elem_of_fmap_2.
Qed.
