(* ===== verification/GoUrl.v ===== *)
(** * Go's [net/url], and the client of [net/http]

    [url.Parse] of Go 1.25.0 as far as the code looks at its result: whether there is an
    error, the scheme and the host; and the requests an HTTP client makes of its own when
    it is redirected. *)
From S2P Require Import Prelude GoStrings GoText.

Definition is_letter (c : ascii) : bool := is_lower_byte c || is_upper_byte c.
(** [getScheme]: [None] is an error, an empty scheme is none. *)
Fixpoint scheme_scan (first : bool) (acc s : string) : option (string * string) :=
  match s with
  | EmptyString => Some (EmptyString, acc)
  | String c s' =>
      if is_letter c then scheme_scan false (acc +:+ String c EmptyString) s'
      else if is_digit_byte c || bool_decide (c ∈ ["+"; "-"; "."]%char) then
        if first then Some (EmptyString, acc +:+ s) else scheme_scan false (acc +:+ String c EmptyString) s'
      else if Ascii.eqb c ":" then if first then None else Some (acc, s')
      else Some (EmptyString, acc +:+ s)
  end%string.
Definition getScheme (raw : string) : option (string * string) := scheme_scan true EmptyString raw.

Definition hex_val (c : ascii) : option Z :=
  if is_digit_byte c then Some (ord c - 48)
  else if (97 <=? ord c) && (ord c <=? 102) then Some (ord c - 87)
  else if (65 <=? ord c) && (ord c <=? 70) then Some (ord c - 55) else None.
Inductive url_part := UrlPath | UrlHost | UrlZone.
(** [shouldEscape] for a host. *)
Definition host_byte (c : ascii) : bool :=
  is_letter c || is_digit_byte c || bool_decide (is_Some (IndexByte ("-_.~!$&'()*+,;=:[]<>" +:+ String (chr 34) "") c)).
(** [unescape]. *)
Fixpoint unescape (part : url_part) (s : string) : option string :=
  match s with
  | EmptyString => Some EmptyString
  | String c s' =>
      if Ascii.eqb c "%" then
        match s' with
        | String h (String l rest) =>
            hv ← hex_val h; lv ← hex_val l;
            let v := chr (hv * 16 + lv) in
            let is25 := (hv =? 2) && (lv =? 5) in
            match part with
            | UrlHost => if (hv <? 8) && negb is25 then None else String v <$> unescape part rest
            | UrlZone => if negb is25 && negb (Ascii.eqb v " ") && negb (host_byte v) then None else String v <$> unescape part rest
            | UrlPath => String v <$> unescape part rest
            end
        | _ => None
        end
      else match part with
           | UrlPath => String c <$> unescape part s'
           | _ => if (ord c <? 128) && negb (host_byte c) then None else String c <$> unescape part s'
           end
  end.

Definition validOptionalPort (p : string) : bool :=
  match p with EmptyString => true | String c ds => Ascii.eqb c ":" && string_forallb is_digit_byte ds end.
Definition parseHost (host : string) : option string :=
  if HasPrefix host "[" then
    match LastIndexByte host "]" with
    | None => None
    | Some i =>
        if negb (validOptionalPort (drop_bytes (S i) host)) then None
        else match Index (take_bytes i host) "%25" with
             | Some z =>
                 h1 ← unescape UrlHost (take_bytes z host);
                 h2 ← unescape UrlZone (drop_bytes z (take_bytes i host));
                 h3 ← unescape UrlHost (drop_bytes i host); Some (h1 +:+ h2 +:+ h3)%string
             | None => unescape UrlHost host
             end
    end
  else
    match LastIndexByte host ":" with
    | Some i => if negb (validOptionalPort (drop_bytes i host)) then None else unescape UrlHost host
    | None => unescape UrlHost host
    end.
(** [validUserinfo]. *)
Definition userinfo_byte (c : ascii) : bool :=
  is_letter c || is_digit_byte c || bool_decide (is_Some (IndexByte "-._:~!$&'()*+,;=%@" c)).
Definition parseAuthority (authority : string) : option string :=
  match LastIndexByte authority "@" with
  | None => parseHost authority
  | Some i =>
      host ← parseHost (drop_bytes (S i) authority);
      let user := take_bytes i authority in
      if negb (string_forallb userinfo_byte user) then None
      else _ ← unescape UrlPath user; Some host
  end.
Definition cut_at (c : ascii) (s : string) : string * string :=
  match IndexByte s c with Some i => (take_bytes i s, drop_bytes (S i) s) | None => (s, EmptyString) end.
(** [url.Parse]: the scheme in lower case and the host; [None] is an error. *)
Definition url_Parse (raw : string) : option (string * string) :=
  let '(u, frag) := cut_at "#" raw in
  if string_existsb (λ c, (ord c <? 32) || (ord c =? 127)) u then None
  else
    '(scheme, rest) ← getScheme u;
    _ ← unescape UrlPath frag;
    let '(rest, _) := cut_at "?" rest in
    let scheme := string_map lower_byte scheme in
    if negb (HasPrefix rest "/") then
      if bool_decide (scheme ≠ ""%string) then Some (scheme, ""%string)
      else if Contains (cut_at "/" rest).1 ":" then None else _ ← unescape UrlPath rest; Some (""%string, ""%string)
    else if HasPrefix rest "//" && (bool_decide (scheme ≠ ""%string) || negb (HasPrefix rest "///")) then
      let authority := drop_bytes 2 rest in
      let '(authority, path) := match IndexByte authority "/" with
                                | Some i => (take_bytes i authority, drop_bytes i authority) | None => (authority, EmptyString) end in
      host ← parseAuthority authority; _ ← unescape UrlPath path; Some (scheme, host)
    else _ ← unescape UrlPath rest; Some (scheme, ""%string).

(** [http.NewRequest] with a valid method fails exactly when the URL does not parse. *)
Definition NewRequest_ok (url : string) : bool := bool_decide (is_Some (url_Parse url)).

(** ** net/http's client *)

(** A request the client makes: the URLs asked before it on its chain of redirects, the
    first first, what it was made for, and whether that goes along as its body. *)
Record http_request (A : Type) := { hq_url : string; hq_via : list string; hq_for : A; hq_with_body : bool }.
Arguments hq_url {A}. Arguments hq_via {A}. Arguments hq_for {A}. Arguments hq_with_body {A}.

Definition redirects (code : Z) : bool := bool_decide (code ∈ [301; 302; 303; 307; 308]).
(** The answers of the servers on the way, each with its status and location; a body is
    dropped for good by any redirect but 307 and 308. *)
Fixpoint follow {A} (n : nat) (hops : list (Z * string)) (via : list string) (what : A) (with_body : bool) : list (http_request A) :=
  match n, hops with
  | S n, (code, location) :: hops =>
      if redirects code then
        let with_body := with_body && bool_decide (code ∈ [307; 308]) in
        {| hq_url := location; hq_via := via; hq_for := what; hq_with_body := with_body |}
          :: follow n hops (via ++ [location]) what with_body
      else []
  | _, _ => []
  end.
(** [Client.Do] without a [CheckRedirect] of its own: ten requests at most. *)
Definition client_Do {A} (hops : list (Z * string)) (url : string) (what : A) : list (http_request A) :=
  {| hq_url := url; hq_via := []; hq_for := what; hq_with_body := true |} :: follow 9 hops [url] what true.

(** The URL the caller gave. *)
Definition hq_origin {A} (r : http_request A) : string := hd (hq_url r) (hq_via r).

Lemma follow_origin {A} n : ∀ hops via (what : A) b r,
  r ∈ follow n hops via what b → hq_for r = what ∧ via `prefix_of` hq_via r ∧ (length (hq_via r) < length via + n)%nat.
Proof.
  induction n as [|n IH]; intros hops via what b r H; [by destruct hops; apply not_elem_of_nil in H|].
  destruct hops as [|[code location] hops]; cbn [follow] in H; [by apply not_elem_of_nil in H|].
  destruct (redirects code); [|by apply not_elem_of_nil in H]. apply elem_of_cons in H as [->|H]; [cbn; split_and!; [done|done|lia]|].
  apply IH in H as (H1 & [k H2] & H3). rewrite length_app in H3. cbn in H3. split; [done|]. split; [|lia].
  exists ([location] ++ k). by rewrite H2, <- app_assoc.
Qed.

Lemma client_Do_origin {A} hops url (what : A) r :
  r ∈ client_Do hops url what → hq_for r = what ∧ hq_origin r = url ∧ (length (hq_via r) < 10)%nat.
Proof.
  intros [->|H]%elem_of_cons; [cbn; split_and!; [done|done|lia]|]. apply follow_origin in H as (H1 & [k H2] & H3).
  split; [done|]. unfold hq_origin. rewrite H2. split; [done|]. rewrite H2 in H3. exact H3.
Qed.

Lemma client_Do_direct {A} url (what : A) r : r ∈ client_Do [] url what → hq_via r = [].
Proof. by intros ->%list_elem_of_singleton. Qed.

Example client_ex :
  (λ r, (hq_url r, hq_with_body r)) <$> client_Do [(307, "b"); (302, "c"); (307, "d"); (200, "e")]%string "a" tt
  = [("a", true); ("b", true); ("c", false); ("d", false)]%string.
Proof. by vm_compute. Qed.

Example url_ex :
  url_Parse "HTTPS://user@lists.example:443/a?b#c" = Some ("https", "lists.example:443")%string ∧
  url_Parse "http://[::1]:53" = Some ("http", "[::1]:53")%string ∧ url_Parse "http://[" = None ∧
  url_Parse "http://a b/" = None ∧ url_Parse "http://a/%zz" = None ∧ url_Parse "http://a:b" = None ∧
  url_Parse ":x" = None ∧ url_Parse "mailto:a" = Some ("mailto", "")%string.
Proof. vm_compute. repeat split. Qed.
