(* ===== verification/GoUtf8.v ===== *)
(** * UTF-8

    Decoding and encoding of runes as Go's [range], [[]rune] and [unicode/utf8] do it,
    and the split of a string into the bytes of its runes. *)
From S2P Require Import Prelude GoStrings.

Definition rune_error : Z := 65533.

Fixpoint bytes_of (s : string) : list Z :=
  match s with EmptyString => [] | String c s' => ord c :: bytes_of s' end.

Definition is_cont (b : Z) : bool := (128 <=? b) && (b <=? 191).

(** The first rune of a non-empty byte string and its width; an invalid or short
    encoding is one byte wide. *)
Definition decode_rune (b0 : Z) (rest : list Z) : Z * nat :=
  let bad := (rune_error, 1%nat) in
  if b0 <? 128 then (b0, 1%nat)
  else if (194 <=? b0) && (b0 <=? 223) then
    match rest with
    | b1 :: _ => if is_cont b1 then ((b0 mod 32) * 64 + b1 mod 64, 2%nat) else bad
    | _ => bad
    end
  else if (224 <=? b0) && (b0 <=? 239) then
    match rest with
    | b1 :: b2 :: _ =>
        let lo := if b0 =? 224 then 160 else 128 in
        let hi := if b0 =? 237 then 159 else 191 in
        if (lo <=? b1) && (b1 <=? hi) && is_cont b2
        then ((b0 mod 16) * 4096 + (b1 mod 64) * 64 + b2 mod 64, 3%nat) else bad
    | _ => bad
    end
  else if (240 <=? b0) && (b0 <=? 244) then
    match rest with
    | b1 :: b2 :: b3 :: _ =>
        let lo := if b0 =? 240 then 144 else 128 in
        let hi := if b0 =? 244 then 143 else 191 in
        if (lo <=? b1) && (b1 <=? hi) && is_cont b2 && is_cont b3
        then ((b0 mod 8) * 262144 + (b1 mod 64) * 4096 + (b2 mod 64) * 64 + b3 mod 64, 4%nat)
        else bad
    | _ => bad
    end
  else bad.

Fixpoint runes_fuel (fuel : nat) (bs : list Z) : list Z :=
  match fuel, bs with
  | S f, b :: rest =>
      let '(r, w) := decode_rune b rest in r :: runes_fuel f (drop (w - 1) rest)
  | _, _ => []
  end.

(** Every rune takes at least one byte, so the length of the string is enough. *)
Definition runes (s : string) : list Z := let bs := bytes_of s in runes_fuel (length bs) bs.

Definition encode_rune (r : Z) : string :=
  if r <? 128 then utf8 [r]
  else if r <? 2048 then utf8 [192 + r / 64; 128 + r mod 64]
  else if r <? 65536 then utf8 [224 + r / 4096; 128 + (r / 64) mod 64; 128 + r mod 64]
  else utf8 [240 + r / 262144; 128 + (r / 4096) mod 64; 128 + (r / 64) mod 64; 128 + r mod 64].

Definition RuneCountInString (s : string) : Z := Z.of_nat (length (runes s)).


(** ** The bytes of the runes *)

(** At most three bytes, all that decoding looks at after the first. *)
Definition peek3 (s : string) : list Z :=
  match s with
  | String a (String b (String c _)) => [ord a; ord b; ord c]
  | String a (String b _) => [ord a; ord b]
  | String a _ => [ord a]
  | EmptyString => []
  end.

(** A string as its runes, each with the bytes that stand for it; an invalid byte is
    [rune_error] with that one byte. *)
Fixpoint chunks (s : string) : list (Z * string) :=
  match s with
  | EmptyString => []
  | String a s1 =>
      let '(r, w) := decode_rune (ord a) (peek3 s1) in
      match w, s1 with
      | 2%nat, String b s2 => (r, String a (String b EmptyString)) :: chunks s2
      | 3%nat, String b (String c s3) => (r, String a (String b (String c EmptyString))) :: chunks s3
      | 4%nat, String b (String c (String d s4)) =>
          (r, String a (String b (String c (String d EmptyString)))) :: chunks s4
      | _, _ => (r, String a EmptyString) :: chunks s1
      end
  end.

(** A chunk that is not a valid encoding: a single byte that decodes to the error. *)
Definition bad_chunk (c : Z * string) : bool := (c.1 =? rune_error) && (String.length c.2 =? 1)%nat.

Definition concat_strings (l : list string) : string := foldr (λ a b, (a +:+ b)%string) EmptyString l.

(** [strings.ToValidUTF8] with the replacement character, byte by byte. *)
Definition to_valid (s : string) : string :=
  concat_strings ((λ c, if bad_chunk c then encode_rune rune_error else c.2) <$> chunks s).
Definition valid_utf8 (s : string) : bool := forallb (λ c, negb (bad_chunk c)) (chunks s).

(** ** Lemmas on chunks *)

Lemma concat_strings_app l1 l2 : concat_strings (l1 ++ l2) = (concat_strings l1 +:+ concat_strings l2)%string.
Proof. induction l1 as [|x l1 IH]; [done|]. simpl. rewrite IH. by rewrite string_app_assoc. Qed.

(** A rune decoded from several bytes: its width, and that only these bytes matter. *)
Lemma decode_rune_tail b0 rest r w rest' :
  decode_rune b0 rest = (r, w) → (1 < w)%nat →
  (w ≤ S (length rest))%nat ∧ decode_rune b0 (take (w - 1) rest ++ rest') = (r, w).
Proof.
  unfold decode_rune. intros E Hw.
  destruct (b0 <? 128); [simplify_eq; lia|].
  destruct ((194 <=? b0) && (b0 <=? 223)).
  { destruct rest as [|b1 rest]; [simplify_eq; lia|].
    destruct (is_cont b1) eqn:H1; simplify_eq; [|lia]. simpl. by rewrite H1; split; [lia|]. }
  destruct ((224 <=? b0) && (b0 <=? 239)).
  { destruct rest as [|b1 [|b2 rest]]; try (simplify_eq; lia).
    destruct (_ && _ && is_cont b2) eqn:H1; simplify_eq; [|lia]. cbn -[Z.mul Z.add Z.modulo].
    split; [lia|]. by rewrite H1. }
  destruct ((240 <=? b0) && (b0 <=? 244)); [|simplify_eq; lia].
  destruct rest as [|b1 [|b2 [|b3 rest]]]; try (simplify_eq; lia).
  destruct (_ && _ && is_cont b2 && is_cont b3) eqn:H1; simplify_eq; [|lia]. cbn -[Z.mul Z.add Z.modulo].
  split; [lia|]. by rewrite H1.
Qed.

Lemma decode_rune_width b0 rest r w : decode_rune b0 rest = (r, w) → (1 ≤ w ≤ 4)%nat.
Proof. unfold decode_rune. intros E. repeat (case_match; simplify_eq; try lia). Qed.

Lemma decode_rune_ascii b0 rest : b0 < 128 → decode_rune b0 rest = (b0, 1%nat).
Proof. intros. unfold decode_rune. by destruct (Z.ltb_spec b0 128); [|lia]. Qed.

Lemma decode_rune_high b0 rest r w : 128 ≤ b0 → decode_rune b0 rest = (r, w) → w = 1%nat → r = rune_error.
Proof.
  unfold decode_rune. intros Hb E ->. destruct (Z.ltb_spec b0 128); [lia|].
  repeat (case_match; simplify_eq; try done).
Qed.

(** The shapes of a chunk. *)
Inductive chunk_shape : Z * string → Prop :=
| shape_ascii a : ord a < 128 → chunk_shape (ord a, String a EmptyString)
| shape_bad a : 128 ≤ ord a → chunk_shape (rune_error, String a EmptyString)
| shape_multi r a t : 128 ≤ ord a → (1 ≤ String.length t ≤ 3)%nat →
    decode_rune (ord a) (bytes_of t) = (r, S (String.length t)) → chunk_shape (r, String a t).

Lemma chunks_step a s :
  ∃ c t, chunks (String a s) = c :: chunks t ∧ chunk_shape c ∧ String a s = (c.2 +:+ t)%string ∧
    (String.length t ≤ String.length s)%nat.
Proof.
  cbn [chunks]. destruct (decode_rune (ord a) (peek3 s)) as [r w] eqn:E.
  pose proof (decode_rune_width _ _ _ _ E) as Hw.
  destruct (Z.lt_ge_cases (ord a) 128) as [Ha|Ha].
  { rewrite decode_rune_ascii in E by done. simplify_eq. eexists _, s. split; [done|].
    split; [by constructor|done]. }
  destruct (decide (w = 1%nat)) as [->|Hw1].
  { rewrite (decode_rune_high _ _ _ _ Ha E eq_refl). eexists _, s. split; [done|].
    split; [by apply shape_bad|done]. }
  pose proof (decode_rune_tail _ _ _ _ [] E ltac:(lia)) as [Hlen E']. rewrite app_nil_r in E'.
  destruct w as [|[|[|[|[|w]]]]]; try lia; simpl in Hlen, E'.
  - destruct s as [|b s2]; [simpl in Hlen; lia|]. eexists _, s2. split; [done|]. split; [|simpl; split; [done|lia]].
    apply shape_multi; simpl; [done|lia|]. rewrite <- E'. by destruct s2 as [|? [|? ?]].
  - destruct s as [|b [|c s3]]; try (simpl in Hlen; lia). eexists _, s3. split; [done|].
    split; [|simpl; split; [done|lia]]. apply shape_multi; simpl; [done|lia|]. rewrite <- E'. by destruct s3.
  - destruct s as [|b [|c [|d s4]]]; try (simpl in Hlen; lia). eexists _, s4. split; [done|].
    split; [|simpl; split; [done|lia]]. apply shape_multi; simpl; [done|lia|]. by rewrite <- E'.
Qed.

(** Induction on the chunks of a string. *)
Lemma chunks_ind (P : string → Prop) :
  P EmptyString →
  (∀ c t, chunk_shape c → chunks (c.2 +:+ t)%string = c :: chunks t → P t → P (c.2 +:+ t)%string) →
  ∀ s, P s.
Proof.
  intros H0 Hs s. remember (String.length s) as n eqn:Hn. revert s Hn.
  induction (lt_wf n) as [n _ IH]. intros [|a s] ->; [done|].
  destruct (chunks_step a s) as (c & t & Hc & Hsh & Heq & Hl). rewrite Heq in *. apply Hs; [done|done|].
  apply (IH (String.length t)); [|done]. rewrite <- Heq. simpl. lia.
Qed.

Lemma chunks_concat s : concat_strings (chunks s).*2 = s.
Proof. induction s as [|c t Hsh Hc IH] using chunks_ind; [done|]. rewrite Hc. csimpl. by rewrite IH. Qed.

Lemma bad_chunk_shape c : chunk_shape c → bad_chunk c = true → ∃ a, 128 ≤ ord a ∧ c = (rune_error, String a EmptyString).
Proof.
  unfold bad_chunk. intros [a Ha|a Ha|r a t Ha Ht E] Hb; simpl in Hb; boolp.
  - unfold rune_error in *. lia.
  - by exists a.
  - apply Nat.eqb_eq in H0. lia.
Qed.

(** Valid text is left alone; ASCII text is valid. *)
Lemma to_valid_id s : valid_utf8 s = true → to_valid s = s.
Proof.
  unfold valid_utf8, to_valid. intros H. rewrite <- (chunks_concat s) at 2. f_equal.
  rewrite forallb_forall in H. apply list_fmap_ext. intros i c Hc. apply list_elem_of_lookup_2 in Hc.
  apply list_elem_of_In in Hc. specialize (H c Hc). by destruct (bad_chunk c).
Qed.

Lemma ascii_valid s : is_ascii s = true → valid_utf8 s = true.
Proof.
  unfold valid_utf8, is_ascii. induction s as [|c t Hsh Hc IH] using chunks_ind; [done|]. rewrite Hc. simpl.
  destruct Hsh as [a Ha|a Ha|r a t' Ha Ht E]; simpl; intros [H1 H2]%andb_true_iff;
    unfold is_ascii_byte in H1; boolp; try lia.
  rewrite IH by done. unfold bad_chunk. simpl. unfold rune_error. by destruct (Z.eqb_spec (ord a) 65533); [lia|].
Qed.

Lemma utf8_bytes s : utf8 (bytes_of s) = s.
Proof. induction s as [|c s IH]; [done|]. change (String (chr (ord c)) (utf8 (bytes_of s)) = String c s). by rewrite IH, chr_ord. Qed.

(** A valid encoding is the encoding of its rune. *)
Ltac rune_arith := Z.to_euclidean_division_equations; lia.

(** The base-64 digits of a rune, and those of the bytes. *)
Lemma rune_digits x y z w : 0 ≤ y < 64 → 0 ≤ z < 64 → 0 ≤ w < 64 →
  let r := x * 262144 + y * 4096 + z * 64 + w in
  r / 262144 = x ∧ (r / 4096) mod 64 = y ∧ (r / 64) mod 64 = z ∧ r mod 64 = w ∧
  (x = 0 → r / 4096 = y ∧ (y = 0 → r / 64 = z)).
Proof. intros Hy Hz Hw r. unfold r. repeat split; intros; rune_arith. Qed.

Lemma byte_digits b : 0 ≤ b < 256 → 128 ≤ b →
  (b ≤ 191 → b = 128 + b mod 64) ∧ (194 ≤ b → b ≤ 223 → b = 192 + b mod 32 ∧ 2 ≤ b mod 32) ∧
  (224 ≤ b → b ≤ 239 → b = 224 + b mod 16) ∧ (240 ≤ b → b ≤ 247 → b = 240 + b mod 8).
Proof. intros. repeat split; intros; rune_arith. Qed.

Lemma cont_byte x : 128 ≤ ord x → ord x ≤ 191 → ord x = 128 + ord x mod 64.
Proof. intros H1 H2. pose proof (ord_range x). by apply (proj1 (byte_digits (ord x) ltac:(lia) H1)). Qed.
Lemma low_digits x : 0 ≤ x mod 64 < 64.
Proof. apply Z.mod_pos_bound. lia. Qed.

(** The encodings of two, three and four bytes. *)
Lemma encode_two a b : 194 ≤ ord a ≤ 223 → 128 ≤ ord b ≤ 191 →
  encode_rune (ord a mod 32 * 64 + ord b mod 64) = String a (String b "").
Proof.
  intros Ha Hb. pose proof (ord_range a). destruct (byte_digits (ord a)) as (_ & A & _); [lia..|].
  destruct A as [A A']; [lia..|]. pose proof (cont_byte b ltac:(lia) ltac:(lia)) as B. pose proof (low_digits (ord b)).
  rewrite <- (utf8_bytes (String a _)). cbn [bytes_of]. set (x := ord a mod 32) in *. set (y := ord b mod 64) in *.
  assert (x < 32) by (apply Z.mod_pos_bound; lia). unfold encode_rune.
  destruct (Z.ltb_spec (x * 64 + y) 128); [lia|]. destruct (Z.ltb_spec (x * 64 + y) 2048); [|lia].
  destruct (rune_digits 0 0 x y) as (_ & _ & _ & D4 & D5); [lia..|]. destruct D5 as [_ D5]; [done|].
  specialize (D5 eq_refl). change (0 * 262144 + 0 * 4096) with 0 in *. rewrite Z.add_0_l in *. by rewrite D5, D4, <- A, <- B.
Qed.

Lemma encode_three a b c : 224 ≤ ord a ≤ 239 → 128 ≤ ord b ≤ 191 → 128 ≤ ord c ≤ 191 → (ord a = 224 → 160 ≤ ord b) →
  encode_rune (ord a mod 16 * 4096 + ord b mod 64 * 64 + ord c mod 64) = String a (String b (String c "")).
Proof.
  intros Ha Hb Hc Hab. pose proof (ord_range a). destruct (byte_digits (ord a)) as (_ & _ & A & _); [lia..|].
  specialize (A ltac:(lia) ltac:(lia)). pose proof (cont_byte b ltac:(lia) ltac:(lia)) as B.
  pose proof (cont_byte c ltac:(lia) ltac:(lia)) as C. pose proof (low_digits (ord b)). pose proof (low_digits (ord c)).
  rewrite <- (utf8_bytes (String a _)). cbn [bytes_of].
  set (x := ord a mod 16) in *. set (y := ord b mod 64) in *. set (z := ord c mod 64) in *.
  assert (0 ≤ x < 16) by (apply Z.mod_pos_bound; lia). assert (0 < x ∨ 32 ≤ y) as Hxy by lia.
  set (r := x * 4096 + y * 64 + z). unfold encode_rune. destruct (Z.ltb_spec r 128); [lia|].
  destruct (Z.ltb_spec r 2048); [lia|]. destruct (Z.ltb_spec r 65536); [|lia].
  destruct (rune_digits 0 x y z) as (_ & _ & D3 & D4 & D5); [lia..|]. destruct D5 as [D5 _]; [done|].
  change (0 * 262144) with 0 in *. rewrite Z.add_0_l in *. fold r in D3, D4, D5. by rewrite D3, D4, D5, <- A, <- B, <- C.
Qed.

Lemma encode_four a b c d :
  240 ≤ ord a ≤ 244 → 128 ≤ ord b ≤ 191 → 128 ≤ ord c ≤ 191 → 128 ≤ ord d ≤ 191 → (ord a = 240 → 144 ≤ ord b) →
  encode_rune (ord a mod 8 * 262144 + ord b mod 64 * 4096 + ord c mod 64 * 64 + ord d mod 64)
  = String a (String b (String c (String d ""))).
Proof.
  intros Ha Hb Hc Hd Hab. pose proof (ord_range a). destruct (byte_digits (ord a)) as (_ & _ & _ & A); [lia..|].
  specialize (A ltac:(lia) ltac:(lia)). pose proof (cont_byte b ltac:(lia) ltac:(lia)) as B.
  pose proof (cont_byte c ltac:(lia) ltac:(lia)) as C. pose proof (cont_byte d ltac:(lia) ltac:(lia)) as D.
  pose proof (low_digits (ord b)). pose proof (low_digits (ord c)). pose proof (low_digits (ord d)).
  rewrite <- (utf8_bytes (String a _)). cbn [bytes_of].
  set (x := ord a mod 8) in *. set (y := ord b mod 64) in *. set (z := ord c mod 64) in *. set (w := ord d mod 64) in *.
  assert (0 ≤ x < 8) by (apply Z.mod_pos_bound; lia). assert (0 < x ∨ 16 ≤ y) as Hxy by lia.
  set (r := x * 262144 + y * 4096 + z * 64 + w). unfold encode_rune. destruct (Z.ltb_spec r 128); [lia|].
  destruct (Z.ltb_spec r 2048); [lia|]. destruct (Z.ltb_spec r 65536); [lia|].
  destruct (rune_digits x y z w) as (D1 & D2 & D3 & D4 & _); [lia..|]. fold r in D1, D2, D3, D4.
  by rewrite D1, D2, D3, D4, <- A, <- B, <- C, <- D.
Qed.

Lemma encode_decode r a t :
  128 ≤ ord a → decode_rune (ord a) (bytes_of t) = (r, S (String.length t)) → (1 ≤ String.length t)%nat →
  encode_rune r = String a t.
Proof.
  unfold decode_rune, is_cont. intros Ha E Hl. destruct (Z.ltb_spec (ord a) 128); [lia|].
  destruct ((194 <=? ord a) && (ord a <=? 223)) eqn:C1.
  { destruct t as [|b t]; cbn [bytes_of] in E; [simplify_eq/=; lia|].
    destruct (_ && _) eqn:C2 in E; [|simplify_eq/=; lia]. apply pair_equal_spec in E as [<- E].
    destruct t; [|done]. boolp. apply encode_two; lia. }
  destruct ((224 <=? ord a) && (ord a <=? 239)) eqn:C2.
  { destruct t as [|b [|c t]]; cbn [bytes_of] in E; try (simplify_eq/=; lia).
    destruct (_ && _) eqn:C3 in E; [|simplify_eq/=; lia]. apply pair_equal_spec in E as [<- E].
    destruct t; [|done]. clear C1. boolp. apply encode_three; repeat case_match; lia. }
  destruct ((240 <=? ord a) && (ord a <=? 244)) eqn:C3; [|simplify_eq/=; lia].
  destruct t as [|b [|c [|d t]]]; cbn [bytes_of] in E; try (simplify_eq/=; lia).
  destruct (_ && _) eqn:C4 in E; [|simplify_eq/=; lia]. apply pair_equal_spec in E as [<- E].
  destruct t; [|done]. clear C1 C2. boolp. apply encode_four; repeat case_match; lia.
Qed.
