(* ===== verification/GoStrconv.v ===== *)
(** * Go's [strconv] and [time.ParseDuration]

    The conversions of text the repository calls, as the Go standard library defines
    them: booleans, integers of a given base and width, floating-point literals
    (decimal, hexadecimal and the special values, correctly rounded) and durations.
    An error of the library is [None]. *)
From S2P Require Import Prelude GoStrings.

(** ** Booleans *)

Definition ParseBool (s : string) : option bool :=
  if bool_decide (s ∈ ["1"; "t"; "T"; "TRUE"; "true"; "True"]%string) then Some true
  else if bool_decide (s ∈ ["0"; "f"; "F"; "FALSE"; "false"; "False"]%string) then Some false
  else None.

Definition FormatBool (b : bool) : string := if b then "true" else "false".

(** ** Integers *)

(** The value of a digit in bases up to 36, letters in either case. *)
Definition base_digit (c : ascii) : option Z :=
  let l := lower_byte c in
  if is_digit_byte c then Some (ord c - 48)
  else if is_lower_byte l then Some (ord l - 87) else None.

Fixpoint base_val (base acc : Z) (s : string) : option Z :=
  match s with
  | EmptyString => Some acc
  | String c s' =>
      match base_digit c with
      | Some d => if d <? base then base_val base (acc * base + d) s' else None
      | None => None
      end
  end.

(** [strconv.ParseUint] and [strconv.ParseInt] with an explicit base. *)
Definition ParseUint (base bits : Z) (s : string) : option Z :=
  if bool_decide (s = ""%string) then None
  else v ← base_val base 0 s; if v <? 2 ^ bits then Some v else None.

Definition split_sign (s : string) : bool * string :=
  match s with
  | String "-" s' => (true, s')
  | String "+" s' => (false, s')
  | _ => (false, s)
  end%char.

Definition ParseInt (base bits : Z) (s : string) : option Z :=
  let '(neg, ds) := split_sign s in
  if bool_decide (ds = ""%string) then None
  else v ← base_val base 0 ds;
       let v := if neg then - v else v in
       if (- 2 ^ (bits - 1) <=? v) && (v <=? 2 ^ (bits - 1) - 1) then Some v else None.

(** ** Floating-point literals *)

(** The digits of a literal: the mantissa as an integer, how many digits stood after
    the point, whether there was a digit, and the rest. Underscores are skipped here
    and checked by [underscoreOK]. *)
Fixpoint scan_mantissa (base : Z) (mant frac : Z) (dot digits : bool) (s : string)
  : Z * Z * bool * string :=
  match s with
  | EmptyString => (mant, frac, digits, s)
  | String c s' =>
      if Ascii.eqb c "_"%char then scan_mantissa base mant frac dot digits s'
      else if Ascii.eqb c "."%char then
        if dot then (mant, frac, digits, s) else scan_mantissa base mant frac true digits s'
      else match base_digit c with
           | Some d =>
               if d <? base
               then scan_mantissa base (mant * base + d) (if dot then frac + 1 else frac) dot true s'
               else (mant, frac, digits, s)
           | None => (mant, frac, digits, s)
           end
  end.

(** The digits of an exponent, capped as the library caps them. *)
Fixpoint scan_exponent (acc : Z) (s : string) : Z * string :=
  match s with
  | String c s' =>
      if Ascii.eqb c "_"%char then scan_exponent acc s'
      else if is_digit_byte c then
        scan_exponent (if acc <? 10000 then acc * 10 + digit_val c else acc) s'
      else (acc, s)
  | EmptyString => (acc, s)
  end.

(** Underscores stand only between digits, or between the base prefix and a digit.
    [prev] is the previous character class: a digit (or the prefix) or not. *)
Fixpoint underscores_between (hex : bool) (prev : ascii) (s : string) : bool :=
  match s with
  | EmptyString => negb (Ascii.eqb prev "_"%char)
  | String c s' =>
      let digit := is_digit_byte c || (hex && bool_decide (is_Some (base_digit c)) &&
                     bool_decide (default 99 (base_digit c) < 16)) in
      if digit then underscores_between hex "0"%char s'
      else if Ascii.eqb c "_"%char then
        if Ascii.eqb prev "0"%char then underscores_between hex "_"%char s' else false
      else if Ascii.eqb prev "_"%char then false else underscores_between hex "!"%char s'
  end.

Definition hex_prefix (s : string) : bool :=
  match s with String "0" (String x (String _ _)) => Ascii.eqb (lower_byte x) "x" | _ => false end%char.

Definition has_underscore (s : string) : bool := string_existsb (λ c, Ascii.eqb c "_"%char) s.

(** [mant * base^e] correctly rounded; [None] when it overflows. *)
Definition f64_scale (neg : bool) (mant base e : Z) : option float64 :=
  let v := match mant with
           | Zpos m =>
               if 0 <=? e then binary_normalize 53 1024 (if neg then - (mant * base ^ e) else mant * base ^ e) 0 false
               else match base ^ (- e) with
                    | Zpos d => SFdiv 53 1024 (S754_finite neg m 0) (S754_finite false d 0)
                    | _ => S754_nan
                    end
           | _ => S754_zero neg
           end in
  match v with S754_infinity _ => None | _ => Some v end.

Definition parse_float_body (neg : bool) (s : string) : option float64 :=
  let hex := hex_prefix s in
  let body := if hex then drop_bytes 2 s else s in
  let base := if hex then 16 else 10 in
  let '(mant, frac, digits, rest) := scan_mantissa base 0 0 false false body in
  if negb digits then None
  else if has_underscore s && negb (underscores_between hex (if hex then "0" else "^")%char body) then None
  else
    match rest with
    | EmptyString =>
        if hex then None else f64_scale neg mant 10 (- frac)
    | String c rest' =>
        if negb (Ascii.eqb (lower_byte c) (if hex then "p" else "e")%char) then None
        else let '(eneg, ds) := split_sign rest' in
             match ds with
             | String d _ =>
                 if negb (is_digit_byte d) then None
                 else let '(e, tail) := scan_exponent 0 ds in
                      if negb (bool_decide (tail = ""%string)) then None
                      else let e := if eneg then - e else e in
                           if hex then f64_scale neg mant 2 (e - 4 * frac)
                           else f64_scale neg mant 10 (e - frac)
             | EmptyString => None
             end
    end.

(** [strconv.ParseFloat(s, 64)]. *)
Definition ParseFloat (s : string) : option float64 :=
  let '(neg, body) := split_sign s in
  let l := string_map lower_byte body in
  if bool_decide (l ∈ ["inf"; "infinity"]%string) then Some (S754_infinity neg)
  else if bool_decide (string_map lower_byte s = "nan"%string) then Some S754_nan
  else parse_float_body neg body.

(** ** Durations *)

(** [time.ParseDuration]: each group is a number with an optional fraction and a unit.
    [leadingInt] and [leadingFraction] are the loops of the library; the fraction is
    scaled in float64. *)
Fixpoint leadingInt (x : Z) (s : string) : option (Z * string) :=
  match s with
  | String c s' =>
      if is_digit_byte c then
        if 2 ^ 63 / 10 <? x then None
        else let x := x * 10 + digit_val c in
             if 2 ^ 63 <? x then None else leadingInt x s'
      else Some (x, s)
  | EmptyString => Some (x, s)
  end.

Fixpoint leadingFraction (x : Z) (scale : float64) (overflow : bool) (s : string) : Z * float64 * string :=
  match s with
  | String c s' =>
      if is_digit_byte c then
        if overflow then leadingFraction x scale overflow s'
        else if (2 ^ 63 - 1) / 10 <? x then leadingFraction x scale true s'
        else let y := x * 10 + digit_val c in
             if 2 ^ 63 <? y then leadingFraction x scale true s'
             else leadingFraction y (f64_mul scale (f64_of_Z 10)) false s'
      else (x, scale, s)
  | EmptyString => (x, scale, s)
  end.

Definition unit_value (u : string) : option Z :=
  if bool_decide (u = "ns"%string) then Some 1
  else if bool_decide (u ∈ ["us"%string; (utf8 [194; 181] +:+ "s")%string; (utf8 [206; 188] +:+ "s")%string])
  then Some 1000
  else if bool_decide (u = "ms"%string) then Some millisecond
  else if bool_decide (u = "s"%string) then Some second
  else if bool_decide (u = "m"%string) then Some minute
  else if bool_decide (u = "h"%string) then Some hour
  else None.

Definition starts_number (s : string) : bool :=
  match s with String c _ => Ascii.eqb c "."%char || is_digit_byte c | EmptyString => false end.

(** The unit: everything up to the next number. *)
Fixpoint take_unit (s : string) : string * string :=
  match s with
  | String c s' =>
      if starts_number s then (EmptyString, s)
      else let '(u, r) := take_unit s' in (String c u, r)
  | EmptyString => (EmptyString, EmptyString)
  end.

(** [uint64(x)] of a finite non-negative float. *)
Definition f64_trunc (x : float64) : Z :=
  match x with
  | S754_finite s m e =>
      let v := Z.pos m in
      let q := if 0 <=? e then v * 2 ^ e else v / 2 ^ (- e) in
      if s then - q else q
  | _ => 0
  end.

(** [math.Round]: to the nearest integer, halves away from zero. *)
Definition f64_round (x : float64) : float64 :=
  match x with
  | S754_finite s m e =>
      let v := Z.pos m in
      let n := if 0 <=? e then v * 2 ^ e else (2 * v + 2 ^ (- e)) / 2 ^ (1 - e) in
      if n =? 0 then S754_zero s else f64_of_Z (if s then - n else n)
  | _ => x
  end.

Fixpoint zeros (n : nat) : string := match n with O => EmptyString | S n => String "0" (zeros n) end.
Definition fixed_digits (prec : nat) (n : Z) : string :=
  let ds := Itoa n in
  let ds := (zeros (S prec - String.length ds) +:+ ds)%string in
  let k := (String.length ds - prec)%nat in
  (take_bytes k ds +:+ "." +:+ drop_bytes k ds)%string.
(** [strconv.FormatFloat(x, 'f', prec, 64)], for a positive [prec]: the exact value
    rounded to [prec] decimals, halves to even. *)
Definition FormatFloat_f (prec : nat) (x : float64) : string :=
  let sign (s : bool) := if s then "-"%string else ""%string in
  match x with
  | S754_nan => "NaN"
  | S754_infinity s => if s then "-Inf" else "+Inf"
  | S754_zero s => (sign s +:+ fixed_digits prec 0)%string
  | S754_finite s m e =>
      let v := Z.pos m * 10 ^ Z.of_nat prec in
      let n := if 0 <=? e then v * 2 ^ e
               else let q := v / 2 ^ (- e) in
                    let r := v mod 2 ^ (- e) in
                    match Z.compare (2 * r) (2 ^ (- e)) with
                    | Lt => q | Gt => q + 1 | Eq => if Z.even q then q else q + 1
                    end in
      (sign s +:+ fixed_digits prec n)%string
  end.

(** One group: its value in nanoseconds and what follows it. *)
Definition duration_group (s : string) : option (Z * string) :=
  if negb (starts_number s) then None
  else
    '(v, s1) ← leadingInt 0 s;
    let pre := negb (bool_decide (len s = len s1)) in
    let '(f, scale, s2, post) :=
      match s1 with
      | String "." s1' =>
          let '(f, scale, s2) := leadingFraction 0 (f64_of_Z 1) false s1' in
          (f, scale, s2, negb (bool_decide (len s1' = len s2)))
      | _ => (0, f64_of_Z 1, s1, false)
      end%char in
    if negb pre && negb post then None
    else
      let '(u, s3) := take_unit s2 in
      if bool_decide (u = ""%string) then None
      else
        unit ← unit_value u;
        if 2 ^ 63 / unit <? v then None
        else
          let v := v * unit in
          if 0 <? f then
            let v := v + f64_trunc (f64_mul (f64_of_Z f) (f64_div (f64_of_Z unit) scale)) in
            if 2 ^ 63 <? v then None else Some (v, s3)
          else Some (v, s3).

(** The sum of the groups, with the library's 64-bit addition. *)
Fixpoint duration_groups (fuel : nat) (d : Z) (s : string) : option Z :=
  match s, fuel with
  | EmptyString, _ => Some d
  | _, S fuel' =>
      '(v, s') ← duration_group s;
      let d := (d + v) mod 2 ^ 64 in
      if 2 ^ 63 <? d then None else duration_groups fuel' d s'
  | _, O => None
  end.

Definition ParseDuration (s : string) : option Z :=
  let '(neg, body) := split_sign s in
  if bool_decide (body = "0"%string) then Some 0
  else if bool_decide (body = ""%string) then None
  else
    d ← duration_groups (String.length body) 0 body;
    if neg then Some (- d)
    else if 2 ^ 63 - 1 <? d then None else Some d.

(** ** Concrete checks *)

Example parse_duration_ex :
  (ParseDuration "1h30m", ParseDuration "1.5s", ParseDuration "-.5m", ParseDuration "3", ParseDuration "s",
   ParseDuration "9223372036854775807ns", ParseDuration "9223372036854775808ns", ParseDuration "-9223372036854775808ns")
  = (Some 5400000000000, Some 1500000000, Some (-30000000000), None, None,
     Some 9223372036854775807, None, Some (-9223372036854775808)).
Proof. vm_compute. reflexivity. Qed.

Example parse_float_ex :
  (ParseFloat "0.75", ParseFloat "1e3", ParseFloat "0x1p-2", ParseFloat "1_0.5", ParseFloat "_1", ParseFloat "1e400",
   ParseFloat "0.1", ParseFloat "-.5", ParseFloat ".", ParseFloat "1e", ParseFloat "+Inf")
  = (Some (f64_div (f64_of_Z 3) (f64_of_Z 4)), Some (f64_of_Z 1000), Some (f64_div (f64_of_Z 1) (f64_of_Z 4)),
     Some (f64_lit 105 1), None, None, Some (f64_lit 1 1), Some (f64_lit (-5) 1), None, None, Some (S754_infinity false)).
Proof. vm_compute. reflexivity. Qed.

Example parse_int_ex :
  (ParseInt 16 32 "0B", ParseInt 16 32 "ffffffff", ParseUint 10 64 "18446744073709551615",
   ParseUint 10 64 "18446744073709551616", ParseUint 10 64 "-1", ParseInt 16 32 "")
  = (Some 11, None, Some 18446744073709551615, None, None, None).
Proof. vm_compute. reflexivity. Qed.

(** ** Lemmas on durations *)

Example format_ex :
  FormatFloat_f 2 (f64_lit 85 2) = "0.85"%string ∧ FormatFloat_f 2 (f64_lit 1 3) = "0.00"%string ∧
  FormatFloat_f 1 (f64_lit 25 2) = "0.2"%string ∧ FormatFloat_f 2 (f64_lit (-12345) 2) = "-123.45"%string ∧
  f64_round (f64_lit 25 1) = f64_of_Z 3 ∧ f64_round (f64_lit (-4) 1) = S754_zero true ∧ f64_round (f64_of_Z 7) = f64_of_Z 7.
Proof. vm_compute. repeat split. Qed.

Lemma leadingInt_length x s v s' : leadingInt x s = Some (v, s') → (String.length s' ≤ String.length s)%nat.
Proof.
  revert x. induction s as [|c s IH]; intros x; simpl; [intros [= _ <-]; simpl; lia|].
  destruct (is_digit_byte c); [|intros [= _ <-]; simpl; lia].
  destruct (_ <? x); [done|]. destruct (_ <? _); [done|]. intros H%IH. lia.
Qed.

Lemma leadingFraction_length x scale o s r :
  leadingFraction x scale o s = r → (String.length r.2 ≤ String.length s)%nat.
Proof.
  intros <-. revert x scale o. induction s as [|c s IH]; intros x scale o; simpl; [lia|].
  destruct (is_digit_byte c); [|simpl; lia].
  destruct o; [specialize (IH x scale true); lia|]. destruct (_ <? x); [specialize (IH x scale true); lia|].
  destruct (_ <? _); [specialize (IH x scale true); lia|]. etrans; [apply IH|lia].
Qed.

Lemma take_unit_length s : (String.length (take_unit s).1 + String.length (take_unit s).2 = String.length s)%nat.
Proof.
  induction s as [|c s IH]; [done|]. cbn [take_unit]. destruct (starts_number _); [simpl; lia|].
  destruct (take_unit s) as [u r]. simpl in *. lia.
Qed.

(** A group consumes its unit, so at least one byte. *)
Lemma duration_group_shorter s v s' : duration_group s = Some (v, s') → (String.length s' < String.length s)%nat.
Proof.
  unfold duration_group. destruct (negb (starts_number s)); [done|].
  destruct (leadingInt 0 s) as [[x s1]|] eqn:E1; [|done]. apply leadingInt_length in E1. cbn [mbind option_bind].
  set (frac := match s1 with String "." _ => _ | _ => _ end%char).
  assert (String.length frac.1.2 ≤ String.length s1)%nat as E2.
  { unfold frac. destruct s1 as [|c s1']; [simpl; lia|].
    destruct (Ascii.eqb_spec c "."%char) as [->|Hc].
    - destruct (leadingFraction 0 (f64_of_Z 1) false s1') as [[f sc] s2] eqn:E.
      apply leadingFraction_length in E. simpl in *. lia.
    - replace (match c with "."%char => _ | _ => _ end) with (0, f64_of_Z 1, String c s1', false); [simpl; lia|].
      destruct c as [[] [] [] [] [] [] [] []]; try done. }
  destruct frac as [[[f sc] s2] post]. simpl in E2.
  destruct (_ && negb post); [done|]. pose proof (take_unit_length s2) as E3.
  destruct (take_unit s2) as [u s3]. simpl in E3. case_bool_decide as Hu; [done|].
  destruct u as [|c u]; [done|]. simpl in E3.
  destruct (unit_value _); [|done]. cbn [mbind option_bind].
  repeat case_match; try done; intros [= _ <-]; lia.
Qed.

(** Fuel: the length of the text is enough, more changes nothing. *)
Lemma duration_groups_fuel f1 f2 d s :
  (String.length s ≤ f1)%nat → (String.length s ≤ f2)%nat → duration_groups f1 d s = duration_groups f2 d s.
Proof.
  revert f2 d s. induction f1 as [|f1 IH]; intros f2 d s H1 H2.
  - destruct s; [|simpl in H1; lia]. by destruct f2.
  - destruct s as [|c s]; [by destruct f2|]. destruct f2 as [|f2]; [simpl in H2; lia|].
    cbn [duration_groups]. destruct (duration_group _) as [[v s']|] eqn:E; [|done]. cbn [mbind option_bind].
    apply duration_group_shorter in E. destruct (_ <? _); [done|]. apply IH; simpl in *; lia.
Qed.

Lemma duration_groups_range f d s r : 0 ≤ d ≤ 2 ^ 63 → duration_groups f d s = Some r → 0 ≤ r ≤ 2 ^ 63.
Proof.
  revert d s. induction f as [|f IH]; intros d s Hd; destruct s; cbn [duration_groups]; [by intros [= <-]|done|by intros [= <-]|].
  destruct (duration_group _) as [[v s']|]; [|done]. cbn [mbind option_bind].
  destruct (Z.ltb_spec (2 ^ 63) ((d + v) mod 2 ^ 64)); [done|]. apply IH.
  pose proof (Z.mod_pos_bound (d + v) (2 ^ 64)). lia.
Qed.

(** A duration is an [int64]. *)
Lemma ParseDuration_range s d : ParseDuration s = Some d → int64_min ≤ d ≤ int64_max.
Proof.
  unfold ParseDuration, int64_min, int64_max. destruct (split_sign s) as [neg body].
  case_bool_decide; [intros [= <-]; lia|]. case_bool_decide; [done|].
  destruct (duration_groups _ 0 body) as [r|] eqn:E; [|done]. cbn [mbind option_bind].
  apply duration_groups_range in E; [|lia].
  destruct neg; [intros [= <-]; lia|]. destruct (Z.ltb_spec (2 ^ 63 - 1) r); [done|]. intros [= <-]. lia.
Qed.
