(* ===== verification/GoNet.v ===== *)
(** * Go's [net] and [net/netip] on the inputs the repository passes

    Addresses are byte slices as in [net.IP]: 4 or 16 bytes, and [nil] is the
    empty list. Parsing follows [net.ParseIP], [net.ParseCIDR] and
    [netip.ParseAddr] of the Go standard library; a zone ("%eth0") is an error in
    both callers, so no zone is kept. *)
From S2P Require Import Prelude GoStrings.

(** [net.IP]: bytes in [0, 255]; [] is nil. *)
Abbreviation IP := (list Z).

Definition v4InV6Prefix : list Z := replicate 10 0 ++ [255; 255].

(** [IP.To4]: nil when the address is not IPv4. *)
Definition To4 (ip : IP) : IP :=
  if (length ip =? 4)%nat then ip
  else if (length ip =? 16)%nat && bool_decide (take 12 ip = v4InV6Prefix) then drop 12 ip
  else [].

(** [IP.To16] *)
Definition To16 (ip : IP) : IP :=
  if (length ip =? 4)%nat then v4InV6Prefix ++ ip
  else if (length ip =? 16)%nat then ip else [].

(** [net.IPNet]; a mask is a byte slice like an address. *)
Record IPNet := { net_IP : IP; net_Mask : list Z }.

(** [net.CIDRMask(ones, bits)] as bytes. *)
Fixpoint cidr_mask_bytes (n : nat) (ones : Z) : list Z :=
  match n with
  | O => []
  | S n' => (if 8 <=? ones then 255
             else if ones <=? 0 then 0
             else 255 - (2 ^ (8 - ones) - 1)) :: cidr_mask_bytes n' (ones - 8)
  end.
Definition CIDRMask (ones bits : Z) : list Z := cidr_mask_bytes (Z.to_nat (bits / 8)) ones.

Definition mask_and (a b : list Z) : list Z := zip_with Z.land a b.

(** [networkNumberAndMask] of package net; nil on a malformed network. *)
Definition networkNumberAndMask (n : IPNet) : IP * list Z :=
  let ip := match To4 (net_IP n) with [] => net_IP n | v4 => v4 end in
  let m := net_Mask n in
  if negb ((length ip =? 4)%nat || (length ip =? 16)%nat) then ([], [])
  else if (length m =? 4)%nat then (if (length ip =? 4)%nat then (ip, m) else ([], []))
  else if (length m =? 16)%nat then (ip, if (length ip =? 4)%nat then drop 12 m else m)
  else ([], []).

(** [(n *IPNet) Contains(ip)] *)
Definition IPNet_Contains (n : IPNet) (ip : IP) : bool :=
  let '(nn, m) := networkNumberAndMask n in
  let ip := match To4 ip with [] => ip | v4 => v4 end in
  (length ip =? length nn)%nat && bool_decide (mask_and nn m = mask_and ip m).

(** [IP.Mask]: the masked address, nil on a length mismatch. *)
Definition IP_Mask (ip : IP) (mask : list Z) : IP :=
  let mask := if (length mask =? 16)%nat && (length ip =? 4)%nat
                 && forallb (Z.eqb 255) (take 12 mask) then drop 12 mask else mask in
  let ip := if (length mask =? 4)%nat && (length ip =? 16)%nat
               && bool_decide (take 12 ip = v4InV6Prefix) then drop 12 ip else ip in
  if (length ip =? length mask)%nat then mask_and ip mask else [].

(** ** Parsing *)

(** One octet of an IPv4 address: digits, no leading zero, at most 255. *)
Definition parse_octet (s : string) : option Z :=
  if bool_decide (s = EmptyString) then None
  else if negb (string_forallb is_digit_byte s) then None
  else if HasPrefix s "0" && (1 <? len s) then None
  else let v := digits_val 0 s in if v <=? 255 then Some v else None.

(** [netip.parseIPv4Fields]: exactly four octets. *)
Definition parseIPv4Fields (s : string) : option (list Z) :=
  match Split s dot with
  | [a; b; c; d] =>
      match parse_octet a, parse_octet b, parse_octet c, parse_octet d with
      | Some a, Some b, Some c, Some d => Some [a; b; c; d]
      | _, _, _, _ => None
      end
  | _ => None
  end.

Definition hex_val (c : ascii) : option Z :=
  let o := ord c in
  if (48 <=? o) && (o <=? 57) then Some (o - 48)
  else if (97 <=? o) && (o <=? 102) then Some (o - 87)
  else if (65 <=? o) && (o <=? 70) then Some (o - 55)
  else None.

(** The leading hexadecimal digits of a group: the number of digits, the value
    and the rest. *)
Fixpoint hex_prefix (n : nat) (acc : Z) (s : string) : nat * Z * string :=
  match s with
  | EmptyString => (n, acc, s)
  | String c s' =>
      match hex_val c with
      | Some v => hex_prefix (S n) (acc * 16 + v) s'
      | None => (n, acc, s)
      end
  end.

(** The group loop of [netip.parseIPv6]: [ip] holds the bytes so far, [ell] the
    position of the "::". Eight groups of two bytes bound the loop. *)
Fixpoint parse_groups (fuel : nat) (ip : list Z) (ell : option nat) (s : string)
  : option (list Z * option nat * string) :=
  match fuel with
  | O => Some (ip, ell, s)
  | S fuel' =>
      if (16 <=? length ip)%nat then Some (ip, ell, s) else
      let '(off, acc, rest) := hex_prefix 0 0 s in
      if (4 <? off)%nat || (off =? 0)%nat then None else
      if HasPrefix rest "." then
        if bool_decide (ell = None) && negb (length ip =? 12)%nat then None
        else if (16 <? length ip + 4)%nat then None
        else match parseIPv4Fields s with
             | Some v4 => Some (ip ++ v4, ell, EmptyString)
             | None => None
             end
      else
        let ip := ip ++ [acc / 256; acc mod 256] in
        match rest with
        | EmptyString => Some (ip, ell, EmptyString)
        | String c rest' =>
            if negb (Ascii.eqb c colon) then None
            else match rest' with
                 | EmptyString => None
                 | String c2 rest2 =>
                     if Ascii.eqb c2 colon then
                       if bool_decide (is_Some ell) then None
                       else match rest2 with
                            | EmptyString => Some (ip, Some (length ip), EmptyString)
                            | _ => parse_groups fuel' ip (Some (length ip)) rest2
                            end
                     else parse_groups fuel' ip ell rest'
                 end
        end
  end.

Definition parseIPv6 (s : string) : option IP :=
  let '(ell, s') := if HasPrefix s "::" then (Some O, drop_bytes 2 s) else (None, s) in
  if bool_decide (is_Some ell) && bool_decide (s' = EmptyString) then Some (replicate 16 0) else
  match parse_groups 8 [] ell s' with
  | Some (ip, ell, EmptyString) =>
      if (length ip <? 16)%nat then
        match ell with
        | None => None
        | Some e => Some (take e ip ++ replicate (16 - length ip) 0 ++ drop e ip)
        end
      else if bool_decide (is_Some ell) then None else Some ip
  | _ => None
  end.

(** [netip.ParseAddr] without zones: the first of '.', ':' and '%' decides. An
    IPv4 address keeps its four bytes. *)
Fixpoint addr_kind (s : string) : option ascii :=
  match s with
  | EmptyString => None
  | String c s' =>
      if Ascii.eqb c "." || Ascii.eqb c ":" || Ascii.eqb c "%" then Some c else addr_kind s'
  end%char.

Definition ParseAddr (s : string) : option IP :=
  match addr_kind s with
  | Some "."%char => parseIPv4Fields s
  | Some ":"%char => if bool_decide (is_Some (IndexByte s "%")) then None else parseIPv6 s
  | _ => None
  end.

(** [net.ParseIP]: the 16-byte form, or nil. *)
Definition ParseIP (s : string) : IP :=
  match ParseAddr s with Some ip => To16 ip | None => [] end.

(** [dtoi] on a whole string: decimal digits below 0xFFFFFF. *)
Definition dtoi (s : string) : option Z :=
  if bool_decide (s = EmptyString) || negb (string_forallb is_digit_byte s) then None
  else let v := digits_val 0 s in if v <? 16777215 then Some v else None.

(** [net.ParseCIDR], the network it returns. *)
Definition ParseCIDR (s : string) : option IPNet :=
  match IndexByte s "/" with
  | None => None
  | Some i =>
      match ParseAddr (take_bytes i s), dtoi (drop_bytes (S i) s) with
      | Some ip, Some n =>
          let bits := 8 * Z.of_nat (length ip) in
          if bits <? n then None
          else let m := CIDRMask n bits in
               Some {| net_IP := IP_Mask (To16 ip) m; net_Mask := m |}
      | _, _ => None
      end
  end.

(** [net.SplitHostPort] *)
Definition SplitHostPort (hp : string) : option (string * string) :=
  match LastIndexByte hp colon with
  | None => None
  | Some i =>
      let finish (host : string) (j k : nat) :=
        if bool_decide (is_Some (IndexByte (drop_bytes j hp) "[")) then None
        else if bool_decide (is_Some (IndexByte (drop_bytes k hp) "]")) then None
        else Some (host, drop_bytes (S i) hp) in
      if HasPrefix hp "[" then
        match IndexByte hp "]" with
        | None => None
        | Some e =>
            if (S e =? i)%nat then finish (take_bytes (e - 1) (drop_bytes 1 hp)) 1%nat (S e)
            else None
        end
      else
        let host := take_bytes i hp in
        if bool_decide (is_Some (IndexByte host colon)) then None else finish host 0%nat 0%nat
  end%char.

(** [net.JoinHostPort] *)
Definition JoinHostPort (host port : string) : string :=
  if bool_decide (is_Some (IndexByte host colon))
  then ("[" +:+ host +:+ "]:" +:+ port)%string else (host +:+ ":" +:+ port)%string.

(** ** Address classes *)

Definition byte_at (ip : IP) (i : nat) : Z := nth i ip 0.

Definition IsUnspecified (ip : IP) : bool :=
  match To4 ip with
  | [] => bool_decide (ip = replicate 16 0)
  | v4 => bool_decide (v4 = [0; 0; 0; 0])
  end.

Definition IsLoopback (ip : IP) : bool :=
  match To4 ip with
  | [] => bool_decide (ip = replicate 15 0 ++ [1])
  | v4 => byte_at v4 0 =? 127
  end.

Definition IsPrivate (ip : IP) : bool :=
  match To4 ip with
  | [] => (length ip =? 16)%nat && (Z.land (byte_at ip 0) 254 =? 252)
  | v4 => (byte_at v4 0 =? 10)
          || ((byte_at v4 0 =? 172) && (Z.land (byte_at v4 1) 240 =? 16))
          || ((byte_at v4 0 =? 192) && (byte_at v4 1 =? 168))
  end.

Definition IsLinkLocalMulticast (ip : IP) : bool :=
  match To4 ip with
  | [] => (length ip =? 16)%nat && (byte_at ip 0 =? 255) && (Z.land (byte_at ip 1) 15 =? 2)
  | v4 => (byte_at v4 0 =? 224) && (byte_at v4 1 =? 0) && (byte_at v4 2 =? 0)
  end.

Definition IsLinkLocalUnicast (ip : IP) : bool :=
  match To4 ip with
  | [] => (length ip =? 16)%nat && (byte_at ip 0 =? 254) && (Z.land (byte_at ip 1) 192 =? 128)
  | v4 => (byte_at v4 0 =? 169) && (byte_at v4 1 =? 254)
  end.

(** ** Printing: [IP.String] *)

Definition hex_digit (z : Z) : ascii := if z <? 10 then chr (48 + z) else chr (87 + z).

(** A 16-bit group in lower-case hexadecimal without leading zeros. *)
Fixpoint hex_digits (fuel : nat) (z : Z) (acc : string) : string :=
  match fuel with
  | O => acc
  | S f => let acc := String (hex_digit (z mod 16)) acc in
           if z <? 16 then acc else hex_digits f (z / 16) acc
  end.
Definition hex16 (z : Z) : string := hex_digits 4 z EmptyString.

Fixpoint groups_of (ip : list Z) : list Z :=
  match ip with
  | a :: b :: rest => (a * 256 + b) :: groups_of rest
  | _ => []
  end.

(** The length of the run of zero groups at the front. *)
Fixpoint zero_run (g : list Z) : nat :=
  match g with 0 :: g' => S (zero_run g') | _ => O end.

(** The first longest run of at least two zero groups: its start and length. *)
Fixpoint best_run (i : nat) (g : list Z) (best : nat * nat) : nat * nat :=
  match g with
  | [] => best
  | _ :: g' =>
      let n := zero_run g in
      best_run (S i) g' (if (snd best <? n)%nat then (i, n) else best)
  end.

Definition ipv6_string (ip : IP) : string :=
  let g := groups_of ip in
  let '(start, n) := best_run 0 g (0%nat, 0%nat) in
  if (n <? 2)%nat then Join (hex16 <$> g) ":"
  else (Join (hex16 <$> take start g) ":" +:+ "::" +:+ Join (hex16 <$> drop (start + n) g) ":")%string.

Definition hex_byte (z : Z) : string := String (hex_digit (z / 16)) (String (hex_digit (z mod 16)) "").

Definition IP_String (ip : IP) : string :=
  match To4 ip with
  | [] =>
      if (length ip =? 0)%nat then "<nil>"
      else if (length ip =? 16)%nat then ipv6_string ip
      else ("?" +:+ Join (hex_byte <$> ip) "")%string
  | v4 => Join (Itoa <$> v4) "."
  end%string.

(** ** Concrete checks *)

Example parse_ip4 : ParseIP "192.168.1.10" = v4InV6Prefix ++ [192; 168; 1; 10].
Proof. vm_compute. reflexivity. Qed.
Example parse_ip4_bad : ParseIP "192.168.01.10" = [] ∧ ParseIP "1.2.3" = [] ∧ ParseIP "256.1.1.1" = [].
Proof. vm_compute. done. Qed.
Example parse_ip6 : ParseIP "2001:db8::1" = [32; 1; 13; 184] ++ replicate 11 0 ++ [1].
Proof. vm_compute. reflexivity. Qed.
Example parse_ip6_more :
  (IP_String (ParseIP "2001:db8:0:0:1::")) = "2001:db8:0:0:1::"%string
  ∧ IP_String (ParseIP "::ffff:1.2.3.4") = "1.2.3.4"%string
  ∧ IP_String (ParseIP "::") = "::"%string
  ∧ ParseIP "1:2:3:4:5:6:7:8:9" = [] ∧ ParseIP "1::2::3" = [] ∧ ParseIP "fe80::1%eth0" = []
  ∧ ParseIP "1:2:3:4:5:6:7::" ≠ [] ∧ ParseIP "::1:2:3:4:5:6:7:8" = [].
Proof. vm_compute. done. Qed.
Example cidr_ex :
  (λ n, IPNet_Contains n (ParseIP "10.0.0.77")) <$> ParseCIDR "10.0.0.64/26" = Some true
  ∧ (λ n, IPNet_Contains n (ParseIP "10.0.0.7")) <$> ParseCIDR "10.0.0.64/26" = Some false
  ∧ ParseCIDR "10.0.0.64/33" = None.
Proof. vm_compute. done. Qed.
Example split_hp :
  SplitHostPort "192.168.1.10:5353" = Some ("192.168.1.10", "5353")%string
  ∧ SplitHostPort "[::1]:53" = Some ("::1", "53")%string
  ∧ SplitHostPort "::1" = None ∧ SplitHostPort "host" = None ∧ SplitHostPort "[::1]" = None.
Proof. vm_compute. done. Qed.
