(* ===== verification/Policy.v ===== *)
(** * Policies: data, schedules, client scopes and validation

    [internal/policy]: types.go, util.go, schedule.go, scope.go and the validation
    of loader.go. The engine over a set of policies is in PolicyEngine.v. *)
From S2P Require Import Prelude GoStrings GoNet.

(** ** util.go *)

Section Normalize.
  Context `{U : GoUnicode}.

Definition normalizeDomain (d : string) : string :=
    let d := ToLower (TrimSpace d) in
    match LastIndexByte d dot with
    | Some i => if (S i =? String.length d)%nat then take_bytes i d else d
    | None => d
    end.
End Normalize.

(** ** types.go *)

Inductive Action := ActionAllow | ActionDeny | ActionRedirect.
#[global] Instance Action_eq_dec : EqDecision Action.
Proof. solve_decision. Defined.

Definition Action_String (a : Action) : string :=
  match a with
  | ActionAllow => "allow"
  | ActionDeny => "block"
  | ActionRedirect => "redirect"
  end.

(** A [*time.Location]: the offset from UTC, in seconds, in force at a Unix
    time. *)
Definition Location : Type := Z → Z.
Definition UTC : Location := λ _, 0.

(** compiledSchedule of schedule.go; [days] is indexed by [time.Weekday]
    (Sunday is 0). *)
Record compiledSchedule := {
  cs_loc : Location;
  cs_days : list bool;
  cs_hasDays : bool;
  cs_startMin : Z;
  cs_endMin : Z;
  cs_hasWindow : bool;
}.

Record Policy := {
  p_ID : string;
  p_Name : string;
  p_Description : string;
  p_Category : string;
  p_Redirect : string;
  p_Source : string;
  p_Enabled : bool;
  p_Priority : Z;
  p_Action : string;
  p_Domains : list string;
  p_Regexes : list string;
  p_ScheduleDays : list string;
  p_StartTime : string;
  p_EndTime : string;
  p_Timezone : string;
  p_sched : option compiledSchedule;
  p_ClientCIDRs : list string;
}.

Record Decision := {
  d_Action : Action;
  d_PolicyID : string;
  d_Category : string;
  d_RedirectIP : string;
}.
#[global] Instance Decision_eq_dec : EqDecision Decision.
Proof. solve_decision. Defined.

Definition set_sched (p : Policy) (cs : option compiledSchedule) : Policy := {|
  p_ID := p_ID p; p_Name := p_Name p; p_Description := p_Description p;
  p_Category := p_Category p; p_Redirect := p_Redirect p; p_Source := p_Source p;
  p_Enabled := p_Enabled p; p_Priority := p_Priority p; p_Action := p_Action p;
  p_Domains := p_Domains p; p_Regexes := p_Regexes p; p_ScheduleDays := p_ScheduleDays p;
  p_StartTime := p_StartTime p; p_EndTime := p_EndTime p; p_Timezone := p_Timezone p;
  p_sched := cs; p_ClientCIDRs := p_ClientCIDRs p;
|}.

Definition set_enabled (b : bool) (p : Policy) : Policy := {|
  p_ID := p_ID p; p_Name := p_Name p; p_Description := p_Description p;
  p_Category := p_Category p; p_Redirect := p_Redirect p; p_Source := p_Source p;
  p_Enabled := b; p_Priority := p_Priority p; p_Action := p_Action p;
  p_Domains := p_Domains p; p_Regexes := p_Regexes p; p_ScheduleDays := p_ScheduleDays p;
  p_StartTime := p_StartTime p; p_EndTime := p_EndTime p; p_Timezone := p_Timezone p;
  p_sched := p_sched p; p_ClientCIDRs := p_ClientCIDRs p;
|}.

(** ** Calendar *)

(** [t.In(loc)] as seconds of local wall time since 1970-01-01. *)
Definition local_seconds (loc : Location) (now : Z) : Z :=
  let unix := now / second in unix + loc unix.
Definition Weekday (s : Z) : Z := (s / 86400 + 4) mod 7.
Definition Hour (s : Z) : Z := (s mod 86400) / 3600.
Definition Minute (s : Z) : Z := (s mod 3600) / 60.

(** ** Errors of the package *)

Inductive policy_error :=
| ErrIDRequired
| ErrActionRequired
| ErrUnsupportedAction (a : string)
| ErrEmptyDomain (id : string)
| ErrInvalidTimezone (tz : string)
| ErrInvalidDay (d : string)
| ErrBothBounds
| ErrInvalidTime (s : string)
| ErrInvalidHour (s : string)
| ErrInvalidMinute (s : string)
| ErrBoundsEqual
| ErrEmptyScope (id : string)
| ErrInvalidScope (c : string).

(** The IANA time zone database, which [time.LoadLocation] reads. *)
Class TzDatabase := { LoadLocation : string → option Location }.

(** ** schedule.go *)

Section Schedule.
  Context `{U : GoUnicode} `{TZ : TzDatabase}.

Definition weekdayByName : gmap string Z := list_to_map [
    ("sun", 0); ("sunday", 0);
    ("mon", 1); ("monday", 1);
    ("tue", 2); ("tues", 2); ("tuesday", 2);
    ("wed", 3); ("weds", 3); ("wednesday", 3);
    ("thu", 4); ("thur", 4); ("thurs", 4); ("thursday", 4);
    ("fri", 5); ("friday", 5);
    ("sat", 6); ("saturday", 6)]%string.

Definition hasSchedule (p : Policy) : bool :=
    negb (bool_decide (TrimSpace (p_StartTime p) = ""%string))
    || negb (bool_decide (TrimSpace (p_EndTime p) = ""%string))
    || (0 <? length (p_ScheduleDays p))%nat.

Definition parseHHMM (s : string) : result policy_error Z :=
    let s := TrimSpace s in
    match Split s colon with
    | [hs; ms] =>
        match Atoi (TrimSpace hs) with
        | Some h =>
            if (h <? 0) || (23 <? h) then Err (ErrInvalidHour s) else
            match Atoi (TrimSpace ms) with
            | Some m =>
                if (m <? 0) || (59 <? m) then Err (ErrInvalidMinute s)
                else Ok (h * 60 + m)
            | None => Err (ErrInvalidMinute s)
            end
        | None => Err (ErrInvalidHour s)
        end
    | _ => Err (ErrInvalidTime s)
    end.

  (** The loop over [p.ScheduleDays], from the days set so far. *)
Fixpoint compile_days (ds : list string) (days : list bool) (has : bool)
    : result policy_error (list bool * bool) :=
    match ds with
    | [] => Ok (days, has)
    | d :: ds' =>
        let key := ToLower (TrimSpace d) in
        if bool_decide (key = ""%string) then compile_days ds' days has
        else match weekdayByName !! key with
             | None => Err (ErrInvalidDay d)
             | Some wd => compile_days ds' (<[Z.to_nat wd := true]> days) true
             end
    end.

Definition compileSchedule (p : Policy) : result policy_error (option compiledSchedule) :=
    if negb (hasSchedule p) then Ok None else
    let tz := TrimSpace (p_Timezone p) in
    let? loc := (if bool_decide (tz = ""%string) then Ok UTC
                 else match LoadLocation tz with
                      | Some loc => Ok loc
                      | None => Err (ErrInvalidTimezone tz)
                      end) in
    let? dd := compile_days (p_ScheduleDays p) (replicate 7 false) false in
    let start := TrimSpace (p_StartTime p) in
    let end_ := TrimSpace (p_EndTime p) in
    if negb (Bool.eqb (bool_decide (start = ""%string)) (bool_decide (end_ = ""%string)))
    then Err ErrBothBounds
    else if bool_decide (start = ""%string) then
      Ok (Some {| cs_loc := loc; cs_days := fst dd; cs_hasDays := snd dd;
                  cs_startMin := 0; cs_endMin := 0; cs_hasWindow := false |})
    else
      let? sm := parseHHMM start in
      let? em := parseHHMM end_ in
      if sm =? em then Err ErrBoundsEqual
      else Ok (Some {| cs_loc := loc; cs_days := fst dd; cs_hasDays := snd dd;
                       cs_startMin := sm; cs_endMin := em; cs_hasWindow := true |}).

  (** [(s *compiledSchedule) active(now)]; a nil schedule is [None]. *)
Definition active (s : option compiledSchedule) (now : Z) : bool :=
    match s with
    | None => true
    | Some s =>
        let t := local_seconds (cs_loc s) now in
        if cs_hasDays s && negb (nth (Z.to_nat (Weekday t)) (cs_days s) false) then false
        else if cs_hasWindow s then
          let cur := Hour t * 60 + Minute t in
          if cs_startMin s <=? cs_endMin s then
            negb ((cur <? cs_startMin s) || (cs_endMin s <=? cur))
          else
            negb ((cur <? cs_startMin s) && (cs_endMin s <=? cur))
        else true
    end.
End Schedule.

(** ** scope.go *)

Definition parseClientScope (entry : string) : option IPNet :=
  let entry := TrimSpace entry in
  if bool_decide (entry = ""%string) then None
  else if Contains entry "/" then ParseCIDR entry
  else match ParseIP entry with
       | [] => None
       | ip =>
           let bits := if (length (To4 ip) =? 0)%nat then 128 else 32 in
           Some {| net_IP := ip; net_Mask := CIDRMask bits bits |}
       end.

Definition parseClientIP (raw : string) : IP :=
  let raw := TrimSpace raw in
  if bool_decide (raw = ""%string) then []
  else match SplitHostPort raw with
       | Some (host, _) => ParseIP host
       | None => ParseIP raw
       end.

(** ** loader.go: ValidatePolicy *)

Section Validate.
  Context `{U : GoUnicode} `{TZ : TzDatabase}.

Fixpoint validate_domains (id : string) (ds : list string) : result policy_error unit :=
    match ds with
    | [] => Ok ()
    | d :: ds' => if bool_decide (TrimSpace d = ""%string) then Err (ErrEmptyDomain id)
                  else validate_domains id ds'
    end.

Fixpoint validate_scopes (id : string) (cs : list string) : result policy_error unit :=
    match cs with
    | [] => Ok ()
    | c :: cs' =>
        if bool_decide (TrimSpace c = ""%string) then Err (ErrEmptyScope id)
        else match parseClientScope c with
             | None => Err (ErrInvalidScope c)
             | Some _ => validate_scopes id cs'
             end
    end.

Definition ValidatePolicy (p : Policy) : result policy_error unit :=
    if bool_decide (TrimSpace (p_ID p) = ""%string) then Err ErrIDRequired
    else if bool_decide (TrimSpace (p_Action p) = ""%string) then Err ErrActionRequired
    else
      let a := ToUpper (p_Action p) in
      if negb (bool_decide (a = "BLOCK"%string) || bool_decide (a = "ALLOW"%string)
               || bool_decide (a = "REDIRECT"%string))
      then Err (ErrUnsupportedAction (p_Action p))
      else
        let? _ := validate_domains (p_ID p) (p_Domains p) in
        let? _ := compileSchedule p in
        validate_scopes (p_ID p) (p_ClientCIDRs p).
End Validate.

(** ** Schedules *)

Section ScheduleFacts.
  Context `{U : GoUnicode} `{TZ : TzDatabase}.

Lemma weekdayByName_range k w : weekdayByName !! k = Some w → 0 ≤ w < 7.
  Proof.
    assert (map_Forall (λ _ w, 0 ≤ w < 7) weekdayByName) as H; [|apply H].
    apply (bool_decide_unpack _). vm_compute. exact I.
  Qed.

Lemma weekdayByName_blank : weekdayByName !! ""%string = None.
  Proof. vm_compute. reflexivity. Qed.
  #[local] Opaque weekdayByName.

Definition day_key (d : string) : string := ToLower (TrimSpace d).

  (** The days a list names; blank entries are skipped. *)
Lemma compile_days_spec ds days has days' has' :
    compile_days ds days has = Ok (days', has') → length days = 7%nat →
    has' = has || existsb (λ d, negb (bool_decide (day_key d = ""%string))) ds ∧
    ∀ w, 0 ≤ w < 7 →
      nth (Z.to_nat w) days' false
      = nth (Z.to_nat w) days false
        || existsb (λ d, bool_decide (weekdayByName !! day_key d = Some w)) ds.
  Proof.
    revert days has. induction ds as [|d ds IH]; intros days has; simpl.
    - intros [= <- <-] _. split; [|intros w _]; by rewrite orb_false_r.
    - fold (day_key d). case_bool_decide as Hb; simpl.
      + intros H Hl. destruct (IH _ _ H Hl) as [Hh Hd]. split; [done|]. intros w Hw.
        rewrite Hd by done. rewrite Hb, weekdayByName_blank, bool_decide_eq_false_2 by done. done.
      + destruct (weekdayByName !! day_key d) as [wd|] eqn:Hwd; [|done]. intros H Hl.
        destruct (IH _ _ H) as [Hh Hd]; [by rewrite length_insert|].
        split; [by rewrite Hh, orb_true_r|]. intros w Hw. rewrite Hd by done.
        apply weekdayByName_range in Hwd as Hr. rewrite !nth_lookup.
        destruct (decide (w = wd)) as [->|Hne].
        * rewrite list_lookup_insert_eq by lia. rewrite bool_decide_eq_true_2 by done.
          simpl. by rewrite orb_true_r.
        * rewrite list_lookup_insert_ne by lia. rewrite bool_decide_eq_false_2 by congruence. done.
  Qed.

Lemma parseHHMM_Ok_bounds s n : parseHHMM s = Ok n → 0 ≤ n < 1440.
  Proof.
    unfold parseHHMM. intros H. repeat case_match; simplify_eq. boolp. lia.
  Qed.

  (** The two shapes of the window test are one comparison modulo a day. *)
Lemma window_mod a b c :
    0 ≤ a < 1440 → 0 ≤ b < 1440 → 0 ≤ c < 1440 → a ≠ b →
    (if a <=? b then negb ((c <? a) || (b <=? c)) else negb ((c <? a) && (b <=? c))) = true
    ↔ (c - a) mod 1440 < (b - a) mod 1440.
  Proof.
    intros Ha Hb Hc Hab.
    assert (Hm : ∀ x, - 1440 < x < 1440 → x mod 1440 = if decide (0 ≤ x) then x else x + 1440).
    { intros x Hx. case_decide.
      - apply Z.mod_small. lia.
      - rewrite <- (Z.mod_add x 1) by lia. rewrite Z.mul_1_l. apply Z.mod_small. lia. }
    rewrite !Hm by lia.
    destruct (Z.leb_spec a b), (Z.ltb_spec c a), (Z.leb_spec b c); simpl; repeat case_decide;
      split; first [lia|done].
  Qed.

Definition minute_of_day (t : Z) : Z := Hour t * 60 + Minute t.

Lemma minute_of_day_range t : 0 ≤ minute_of_day t < 1440.
  Proof.
    unfold minute_of_day, Hour, Minute.
    pose proof (Z.mod_pos_bound t 86400 eq_refl). pose proof (Z.mod_pos_bound t 3600 eq_refl).
    pose proof (Z.div_pos (t mod 86400) 3600). pose proof (Z.div_lt_upper_bound (t mod 86400) 3600 24).
    pose proof (Z.div_pos (t mod 3600) 60). pose proof (Z.div_lt_upper_bound (t mod 3600) 60 60).
    lia.
  Qed.

  (** The zone a schedule is evaluated in. *)
Definition schedule_zone (p : Policy) (loc : Location) : Prop :=
    let tz := TrimSpace (p_Timezone p) in
    if bool_decide (tz = ""%string) then loc = UTC else LoadLocation tz = Some loc.

Lemma compileSchedule_inv p cs :
    compileSchedule p = Ok (Some cs) →
    schedule_zone p (cs_loc cs) ∧
    compile_days (p_ScheduleDays p) (replicate 7 false) false = Ok (cs_days cs, cs_hasDays cs) ∧
    if cs_hasWindow cs
    then TrimSpace (p_StartTime p) ≠ ""%string ∧
         parseHHMM (TrimSpace (p_StartTime p)) = Ok (cs_startMin cs) ∧
         parseHHMM (TrimSpace (p_EndTime p)) = Ok (cs_endMin cs) ∧ cs_startMin cs ≠ cs_endMin cs
    else TrimSpace (p_StartTime p) = ""%string.
  Proof.
    unfold compileSchedule, schedule_zone. destruct (negb (hasSchedule p)); [done|].
    destruct (if bool_decide (TrimSpace (p_Timezone p) = _) then _ else _) as [loc|] eqn:Eloc; [|done].
    destruct (compile_days _ _ _) as [[days has]|] eqn:Ed; [|done]. cbn [fst snd].
    assert (Hz : if bool_decide (TrimSpace (p_Timezone p) = ""%string) then loc = UTC
                 else LoadLocation (TrimSpace (p_Timezone p)) = Some loc).
    { case_bool_decide; [by simplify_eq|]. by destruct (LoadLocation _); simplify_eq. }
    destruct (negb _); [done|].
    destruct (decide (TrimSpace (p_StartTime p) = ""%string)) as [Hs|Hs];
      [rewrite (bool_decide_eq_true_2 _ Hs); by intros [= <-]|rewrite (bool_decide_eq_false_2 _ Hs)].
    destruct (parseHHMM (TrimSpace (p_StartTime p))) as [sm|]; [|done].
    destruct (parseHHMM (TrimSpace (p_EndTime p))) as [em|]; [|done].
    destruct (sm =? em) eqn:E; [done|]. apply Z.eqb_neq in E. intros [= <-]. done.
  Qed.

Lemma nth_replicate_false n k : nth n (replicate k false) false = false.
  Proof. revert n. induction k; intros [|n]; simpl; auto. Qed.

  (** C11. A compiled schedule is active at an instant exactly when the local
      weekday is one the policy names (or it names none) and the local minute lies
      in the half-open window from start to end, read modulo a day: same-day and
      overnight windows are one statement. *)
Theorem schedule_active_iff p cs now :
    compileSchedule p = Ok (Some cs) →
    let t := local_seconds (cs_loc cs) now in
    active (Some cs) now = true ↔
    ((∀ d, d ∈ p_ScheduleDays p → day_key d = ""%string) ∨
     ∃ d, d ∈ p_ScheduleDays p ∧ weekdayByName !! day_key d = Some (Weekday t)) ∧
    (TrimSpace (p_StartTime p) = ""%string ∨
     ∃ sm em, parseHHMM (TrimSpace (p_StartTime p)) = Ok sm ∧
              parseHHMM (TrimSpace (p_EndTime p)) = Ok em ∧
              (minute_of_day t - sm) mod 1440 < (em - sm) mod 1440).
  Proof.
    intros H t. apply compileSchedule_inv in H as (_ & Hdays & Hwin).
    destruct (compile_days_spec _ _ _ _ _ Hdays) as (Hhas & Hnth); [done|].
    assert (Hw : 0 ≤ Weekday t < 7) by (apply Z.mod_pos_bound; done).
    specialize (Hnth _ Hw). rewrite nth_replicate_false in Hnth. simpl in Hnth, Hhas.
    assert (Hday : (cs_hasDays cs && negb (nth (Z.to_nat (Weekday t)) (cs_days cs) false)) = false ↔
      ((∀ d, d ∈ p_ScheduleDays p → day_key d = ""%string) ∨
       ∃ d, d ∈ p_ScheduleDays p ∧ weekdayByName !! day_key d = Some (Weekday t))).
    { rewrite andb_false_iff, negb_false_iff, Hnth, Hhas, existsb_elem.
      setoid_rewrite bool_decide_eq_true. rewrite <- not_true_iff_false, existsb_elem.
      setoid_rewrite negb_true_iff. setoid_rewrite bool_decide_eq_false. split.
      - intros [Hn|?]; [left|by right].
        intros d Hd. destruct (decide (day_key d = ""%string)); [done|]. destruct Hn. eauto.
      - intros [Hn|?]; [left|by right]. intros (d & Hd & Hne). auto. }
    rewrite <- Hday. unfold active. fold t. fold (minute_of_day t).
    destruct (cs_hasDays cs && _); [split; [done|by intros [? _]]|].
    destruct (cs_hasWindow cs).
    - destruct Hwin as (Hne & Hs & He & Hneq).
      rewrite window_mod; eauto using parseHHMM_Ok_bounds, minute_of_day_range.
      split.
      + intros Hlt. split; [done|right]. eauto.
      + intros [_ [?|(sm & em & ? & ? & ?)]]; [done|].
        assert (sm = cs_startMin cs) as -> by congruence.
        by assert (em = cs_endMin cs) as -> by congruence.
    - split; [by auto|done].
  Qed.

  (** The two-digit spelling of a number below 100. *)
Definition two (n : Z) : string := String (chr (48 + n / 10)) (String (chr (48 + n mod 10)) "").

Lemma parseHHMM_two h m : 0 ≤ h < 24 → 0 ≤ m < 60 →
    parseHHMM (two h +:+ ":" +:+ two m) = Ok (h * 60 + m).
  Proof.
    intros Hh Hm.
    assert (forallb (λ h, forallb (λ m,
      match parseHHMM (two h +:+ ":" +:+ two m) with Ok n => n =? h * 60 + m | Err _ => false end)
      (seqZ 0 60)) (seqZ 0 24) = true) as H by (vm_compute; reflexivity).
    rewrite forallb_forall in H. specialize (H h). rewrite <- list_elem_of_In, elem_of_seqZ in H.
    specialize (H ltac:(lia)). rewrite forallb_forall in H. specialize (H m).
    rewrite <- list_elem_of_In, elem_of_seqZ in H. specialize (H ltac:(lia)).
    destruct (parseHHMM _) as [n|]; [|done]. apply Z.eqb_eq in H. by subst.
  Qed.

  (** The minutes [parseHHMM] can return are exactly those of a day. *)
Theorem parseHHMM_range n : (∃ s, parseHHMM s = Ok n) ↔ 0 ≤ n < 1440.
  Proof.
    split; [intros [s ?]; by eapply parseHHMM_Ok_bounds|]. intros Hn.
    exists (two (n / 60) +:+ ":" +:+ two (n mod 60))%string.
    pose proof (Z.mod_pos_bound n 60 eq_refl). pose proof (Z.div_lt_upper_bound n 60 24).
    pose proof (Z.div_pos n 60). rewrite parseHHMM_two by lia. f_equal.
    pose proof (Z.div_mod n 60). lia.
  Qed.

  (** ** Validation *)

Lemma validate_domains_Ok id ds :
    validate_domains id ds = Ok () ↔ Forall (λ d, TrimSpace d ≠ ""%string) ds.
  Proof.
    induction ds as [|d ds IH]; simpl; [by split|]. rewrite Forall_cons, <- IH.
    case_bool_decide; naive_solver.
  Qed.

Lemma validate_scopes_Ok id cs :
    validate_scopes id cs = Ok () ↔ Forall (λ c, is_Some (parseClientScope c)) cs.
  Proof.
    induction cs as [|c cs IH]; simpl; [by split|]. rewrite Forall_cons, <- IH.
    case_bool_decide as Hb.
    - split; [done|]. unfold parseClientScope. rewrite bool_decide_eq_true_2 by done.
      by intros [[] _].
    - destruct (parseClientScope c); [split; [|by intros []]|split; [done|by intros [[] _]]].
      intros ?. by split; [eexists|].
  Qed.

Lemma ValidatePolicy_Ok p :
    ValidatePolicy p = Ok () ↔
    TrimSpace (p_ID p) ≠ ""%string ∧ TrimSpace (p_Action p) ≠ ""%string ∧
    ToUpper (p_Action p) ∈ ["BLOCK"; "ALLOW"; "REDIRECT"]%string ∧
    Forall (λ d, TrimSpace d ≠ ""%string) (p_Domains p) ∧
    (∃ cs, compileSchedule p = Ok cs) ∧
    Forall (λ c, is_Some (parseClientScope c)) (p_ClientCIDRs p).
  Proof.
    rewrite <- (validate_domains_Ok (p_ID p)), <- (validate_scopes_Ok (p_ID p)).
    unfold ValidatePolicy. rewrite !elem_of_cons, elem_of_nil.
    case_bool_decide; [naive_solver|]. case_bool_decide; [naive_solver|].
    destruct (bool_decide (ToUpper (p_Action p) = "BLOCK"%string) || _ || _) eqn:E; simpl.
    - rewrite !orb_true_iff, !bool_decide_eq_true in E.
      destruct (validate_domains _ _) as [[]|]; [|naive_solver].
      destruct (compileSchedule p) as [cs|]; [|naive_solver]. naive_solver.
    - rewrite !orb_false_iff, !bool_decide_eq_false in E. naive_solver.
  Qed.

  (** [ValidatePolicy] accepts exactly the policies with a non-blank ID, one of
      the three actions in any case, no blank domain, a schedule that compiles and
      client ranges that all parse, so nothing an accepted policy says is dropped
      when the snapshot is built. *)
Theorem ValidatePolicy_iff p :
    ValidatePolicy p = Ok () ↔
    TrimSpace (p_ID p) ≠ ""%string ∧ TrimSpace (p_Action p) ≠ ""%string ∧
    ToUpper (p_Action p) ∈ ["BLOCK"; "ALLOW"; "REDIRECT"]%string ∧
    Forall (λ d, TrimSpace d ≠ ""%string) (p_Domains p) ∧
    (∃ cs, compileSchedule p = Ok cs) ∧
    Forall (λ c, is_Some (parseClientScope c)) (p_ClientCIDRs p).
  Proof. apply ValidatePolicy_Ok. Qed.
End ScheduleFacts.

(** An overnight schedule on Fridays and Saturdays, UTC. *)
Definition ex_night : Policy := {|
  p_ID := "night"; p_Name := ""; p_Description := ""; p_Category := ""; p_Redirect := "";
  p_Source := "local"; p_Enabled := true; p_Priority := 1; p_Action := "BLOCK";
  p_Domains := ["a.com"]; p_Regexes := []; p_ScheduleDays := ["Fri "; "saturday"];
  p_StartTime := "22:00"; p_EndTime := " 06:00"; p_Timezone := ""; p_sched := None;
  p_ClientCIDRs := [] |}%string.

(** 1970-01-02 was a Friday; 23:30 is inside the window. *)
Lemma schedule_active_iff_witness :
  ∃ d, d ∈ p_ScheduleDays ex_night ∧
       weekdayByName !! day_key (U:=ascii_unicode) d
         = Some (Weekday (local_seconds UTC ((86400 + 23 * 3600 + 1800) * second))).
Proof.
  assert (compileSchedule (U:=ascii_unicode) (TZ:={| LoadLocation := λ _, None |}) ex_night
    = Ok (Some {| cs_loc := UTC; cs_days := [false; false; false; false; false; true; true];
                  cs_hasDays := true; cs_startMin := 1320; cs_endMin := 360;
                  cs_hasWindow := true |})) as H by reflexivity.
  pose proof (proj1 (schedule_active_iff (U:=ascii_unicode) (TZ:={| LoadLocation := λ _, None |})
    ex_night _ ((86400 + 23 * 3600 + 1800) * second) H) eq_refl) as [[Hn|Hd] _]; [|exact Hd].
  specialize (Hn "Fri "%string (list_elem_of_here _ _)). vm_compute in Hn. discriminate Hn.
Defined.
