(* ===== verification/PolicyEngine.v ===== *)
(** * The policy engine: snapshot building and evaluation

    [internal/policy]: snapshot.go, engine.go, [matchesClient] of scope.go and
    [LoadPoliciesFromFile] of loader.go. The Bloom filter (github.com/willf/bloom)
    and the regular expressions (Go's [regexp]) are interfaces; the filter's law is
    that it has no false negatives. *)
From S2P Require Import Prelude GoStrings GoNet Policy.

(** ** Interfaces *)

Class BloomLib := {
  bloom : Type;
  NewWithEstimates : Z → float64 → bloom;
  AddString : bloom → string → bloom;
  TestString : bloom → string → bool;
}.

(** A Bloom filter answers yes for every string that was added to it. *)
Class BloomLaws `(BloomLib) : Prop := {
  TestString_AddString : ∀ b s, TestString (AddString b s) s = true;
  TestString_mono : ∀ b s t, TestString b s = true → TestString (AddString b t) s = true;
}.

Class RegexpLib := {
  regex : Type;
  regexp_Compile : string → option regex;
  MatchString : regex → string → bool;
}.

(** Concrete instances: an exact set, a set that answers yes to everything, and
    patterns that are literal substrings (an empty pattern does not compile). *)
Definition set_bloom : BloomLib := {|
  bloom := list string; NewWithEstimates := λ _ _, [];
  AddString := λ b s, s :: b; TestString := λ b s, bool_decide (s ∈ b) |}.

Lemma set_bloom_laws : BloomLaws set_bloom.
Proof.
  split; simpl; intros.
  - apply bool_decide_eq_true. set_solver.
  - apply bool_decide_eq_true in H. apply bool_decide_eq_true. set_solver.
Qed.

Definition literal_regexp : RegexpLib := {|
  regex := string;
  regexp_Compile := λ s, if bool_decide (s = ""%string) then None else Some s;
  MatchString := λ r s, Contains s r |}.

Section Engine.
  Context `{U : GoUnicode} `{TZ : TzDatabase} `{BL : BloomLib} `{RX : RegexpLib}.

(** ** snapshot.go *)

Record compiledRegexRule := { rr_re : regex; rr_policy : Policy }.
Record wildcardRule := { wr_base : string; wr_policy : Policy }.

Record PolicySnapshot := {
  Bloom : option bloom;
  Exact : gmap string (list Policy);
  Regexes : list compiledRegexRule;
  Wildcards : list wildcardRule;
  clientNets : gmap string (list IPNet);
}.

Definition wildcardBase (pattern : string) : string :=
  if HasPrefix pattern "*." then drop_bytes 2 pattern else "".

(** [m[k] = append(m[k], v)] *)
Definition map_append {V} (m : gmap string (list V)) (k : string) (v : V) : gmap string (list V) :=
  <[k := default [] (m !! k) ++ [v]]> m.

(** The state of the second loop of [buildSnapshot]. *)
Record build := {
  b_exact : gmap string (list Policy);
  b_wild : list wildcardRule;
  b_regex : list compiledRegexRule;
  b_nets : gmap string (list IPNet);
  b_total : Z;
}.

Definition compile_policy (p : Policy) : Policy :=
  set_sched p (match compileSchedule p with Ok cs => cs | Err _ => None end).

Definition build_domain (p : Policy) (b : build) (d : string) : build :=
  let normalized := normalizeDomain d in
  if Contains normalized "*" then
    let base := wildcardBase normalized in
    {| b_exact := b_exact b;
       b_wild := if bool_decide (base = ""%string) then b_wild b
                 else b_wild b ++ [{| wr_base := base; wr_policy := p |}];
       b_regex := b_regex b; b_nets := b_nets b; b_total := b_total b + 1 |}
  else
    {| b_exact := map_append (b_exact b) normalized p;
       b_wild := b_wild b; b_regex := b_regex b; b_nets := b_nets b; b_total := b_total b + 1 |}.

Definition build_regex (p : Policy) (b : build) (rx : string) : build :=
  {| b_exact := b_exact b; b_wild := b_wild b;
     b_regex := match regexp_Compile rx with
                | Some re => b_regex b ++ [{| rr_re := re; rr_policy := p |}]
                | None => b_regex b
                end;
     b_nets := b_nets b; b_total := b_total b + 1 |}.

Definition build_scope (p : Policy) (b : build) (c : string) : build :=
  {| b_exact := b_exact b; b_wild := b_wild b; b_regex := b_regex b;
     b_nets := match parseClientScope c with
               | Some n => map_append (b_nets b) (p_ID p) n
               | None => b_nets b
               end;
     b_total := b_total b |}.

Definition build_policy (b : build) (p : Policy) : build :=
  let b := foldl (build_domain p) b (p_Domains p) in
  let b := foldl (build_regex p) b (p_Regexes p) in
  foldl (build_scope p) b (p_ClientCIDRs p).

Definition build_empty : build :=
  {| b_exact := ∅; b_wild := []; b_regex := []; b_nets := ∅; b_total := 0 |}.

(** The strings of the last loop, in the order they are added. *)
Definition policy_tokens (p : Policy) : list string :=
  (normalizeDomain <$> p_Domains p) ++ p_Regexes p.

(** The keys of [exact] are added in the map's iteration order, which Go leaves
    open; here it is that of [map_to_list]. *)
Definition buildSnapshot (policies : list Policy) : PolicySnapshot :=
  let policies := compile_policy <$> policies in
  let b := foldl build_policy build_empty policies in
  let total := if b_total b =? 0 then 1 else b_total b in
  let bf := NewWithEstimates total (f64_lit 1 4) in
  let bf := foldl AddString bf (map_to_list (b_exact b)).*1 in
  let bf := foldl AddString bf (policies ≫= policy_tokens) in
  {| Exact := b_exact b; Bloom := Some bf; Regexes := b_regex b;
     Wildcards := b_wild b; clientNets := b_nets b |}.

(** ** scope.go: matchesClient *)

Definition matchesClient (s : PolicySnapshot) (p : Policy) (clientIP : IP) : bool :=
  if bool_decide (p_ClientCIDRs p = []) then true
  else if bool_decide (clientIP = []) then false
  else existsb (λ n, IPNet_Contains n clientIP) (default [] (clientNets s !! p_ID p)).

(** ** engine.go *)

(** The published snapshot; the clock is an argument of the operations. *)
Record PEngine := { snapshot : PolicySnapshot }.

Definition NewPolicyEngine : PEngine := {| snapshot := buildSnapshot [] |}.
Definition LoadPolicies (e : PEngine) (policies : list Policy) : PEngine :=
  {| snapshot := buildSnapshot policies |}.

Definition filterActive (pols : list Policy) (now : Z) : list Policy :=
  if negb (existsb (λ p, bool_decide (is_Some (p_sched p))) pols) then pols
  else List.filter (λ p, active (p_sched p) now) pols.

Definition pick_step (s : PolicySnapshot) (client : IP) (best : option Policy) (p : Policy)
  : option Policy :=
  if negb (matchesClient s p client) then best
  else match best with
       | None => Some p
       | Some b =>
           if p_Priority b <? p_Priority p then Some p
           else if (p_Priority p =? p_Priority b) && String.ltb (p_ID p) (p_ID b) then Some p
           else best
       end.

Definition pickHighestPriorityScoped (s : PolicySnapshot) (candidates : list Policy) (client : IP)
  : option Policy :=
  foldl (pick_step s client) None candidates.

Definition dynamic_candidates (s : PolicySnapshot) (d : string) : list Policy :=
  (wr_policy <$> List.filter
     (λ w, bool_decide (d = wr_base w) || HasSuffix d ("." +:+ wr_base w)) (Wildcards s))
  ++ (rr_policy <$> List.filter (λ r, MatchString (rr_re r) d) (Regexes s)).

Definition matchDynamic (s : PolicySnapshot) (d : string) (now : Z) (client : IP) : option Policy :=
  match dynamic_candidates s d with
  | [] => None
  | candidates => pickHighestPriorityScoped s (filterActive candidates now) client
  end.

Definition hasScopedAllow (s : PolicySnapshot) (pols : list Policy) (client : IP) : bool :=
  existsb (λ p, matchesClient s p client && bool_decide (ToUpper (p_Action p) = "ALLOW"%string)) pols.

Definition default_decision : Decision :=
  {| d_Action := ActionAllow; d_PolicyID := ""; d_Category := ""; d_RedirectIP := "" |}.

Definition policyDecision (p : option Policy) : Decision :=
  match p with
  | None => default_decision
  | Some p =>
      let a := ToUpper (p_Action p) in
      {| d_Action := if bool_decide (a = "BLOCK"%string) then ActionDeny
                     else if bool_decide (a = "REDIRECT"%string) then ActionRedirect
                     else ActionAllow;
         d_PolicyID := p_ID p; d_Category := p_Category p; d_RedirectIP := p_Redirect p |}
  end.

(** The Bloom filter's answer for a candidate; a nil filter says yes. *)
Definition bloom_maybe (s : PolicySnapshot) (candidate : string) : bool :=
  match Bloom s with Some bf => TestString bf candidate | None => true end.

(** One turn of the exact-match loop of [Evaluate]. *)
Definition eval_level (s : PolicySnapshot) (now : Z) (client : IP) (candidate : string)
  : option Policy :=
  if negb (bloom_maybe s candidate) then None
  else match Exact s !! candidate with
       | None | Some [] => None
       | Some pols =>
           match filterActive pols now with
           | [] => None
           | active => pickHighestPriorityScoped s active client
           end
       end.

Definition Evaluate (e : PEngine) (now : Z) (domain clientIP : string)
  : result string Decision :=
  let d := normalizeDomain domain in
  let s := snapshot e in
  let client := parseClientIP clientIP in
  match first_match (eval_level s now client) (parent_candidates d) with
  | Some best => Ok (policyDecision (Some best))
  | None =>
      match matchDynamic s d now client with
      | Some best => Ok (policyDecision (Some best))
      | None => Ok default_decision
      end
  end.

Definition IsExplicitlyAllowed (e : PEngine) (now : Z) (domain clientIP : string) : bool :=
  let d := normalizeDomain domain in
  let s := snapshot e in
  let client := parseClientIP clientIP in
  existsb (λ candidate,
      bloom_maybe s candidate &&
      match Exact s !! candidate with
      | None => false
      | Some pols => hasScopedAllow s (filterActive pols now) client
      end) (parent_candidates d)
  || hasScopedAllow s (filterActive (dynamic_candidates s d) now) client.

(** ** loader.go: LoadPoliciesFromFile *)

(** Errors of the loader; [LoadRead] and [LoadJSON] come from [os.ReadFile] and
    [encoding/json]. *)
Inductive load_error :=
| LoadNoPath | LoadRead | LoadJSON
| LoadInvalid (i : nat) (e : policy_error)
| LoadRegex (id r : string).

Definition set_domains (p : Policy) (ds : list string) : Policy := {|
  p_ID := p_ID p; p_Name := p_Name p; p_Description := p_Description p;
  p_Category := p_Category p; p_Redirect := p_Redirect p; p_Source := p_Source p;
  p_Enabled := p_Enabled p; p_Priority := p_Priority p; p_Action := p_Action p;
  p_Domains := ds; p_Regexes := p_Regexes p; p_ScheduleDays := p_ScheduleDays p;
  p_StartTime := p_StartTime p; p_EndTime := p_EndTime p; p_Timezone := p_Timezone p;
  p_sched := p_sched p; p_ClientCIDRs := p_ClientCIDRs p;
|}.

Fixpoint load_loop (i : nat) (ps : list Policy) : result load_error (list Policy) :=
  match ps with
  | [] => Ok []
  | p :: ps' =>
      match ValidatePolicy p with
      | Err e => Err (LoadInvalid i e)
      | Ok _ =>
          match first_match (λ r, match regexp_Compile r with Some _ => None | None => Some r end)
                            (p_Regexes p) with
          | Some r => Err (LoadRegex (p_ID p) r)
          | None =>
              let? rest := load_loop (S i) ps' in
              Ok (set_domains p (normalizeDomain <$> p_Domains p) :: rest)
          end
      end
  end.

(** [read] is [os.ReadFile] followed by [json.Unmarshal]. *)
Definition LoadPoliciesFromFile (read : string → result load_error (list Policy)) (path : string)
  : result load_error (list Policy) :=
  if bool_decide (path = ""%string) then Err LoadNoPath
  else let? ps := read path in load_loop 0 ps.

(** ** What the snapshot holds *)

(** The policies listed for an exact name, with their multiplicity; the
    parsed ranges of a policy. *)
Definition exact_of (c : string) (p : Policy) : list Policy :=
  (λ _, p) <$> List.filter
    (λ d, bool_decide (normalizeDomain d = c) && negb (Contains c "*")) (p_Domains p).

Definition wild_of (p : Policy) : list wildcardRule :=
  omap (λ d, let n := normalizeDomain d in
             if Contains n "*" && negb (bool_decide (wildcardBase n = ""%string))
             then Some {| wr_base := wildcardBase n; wr_policy := p |} else None) (p_Domains p).

Definition regex_of (p : Policy) : list compiledRegexRule :=
  omap (λ rx, (λ re, {| rr_re := re; rr_policy := p |}) <$> regexp_Compile rx) (p_Regexes p).

Definition nets_of (id : string) (p : Policy) : list IPNet :=
  if bool_decide (p_ID p = id) then omap parseClientScope (p_ClientCIDRs p) else [].

Lemma map_append_lookup {V} (m : gmap string (list V)) k v c :
  default [] (map_append m k v !! c) = default [] (m !! c) ++ (if bool_decide (k = c) then [v] else []).
Proof.
  unfold map_append. case_bool_decide as H.
  - subst. by rewrite lookup_insert_eq.
  - rewrite lookup_insert_ne by done. by rewrite app_nil_r.
Qed.

Lemma map_append_nonempty {V} (m : gmap string (list V)) k v :
  map_Forall (λ _ l, l ≠ []) m → map_Forall (λ _ l, l ≠ []) (map_append m k v).
Proof.
  intros H. apply map_Forall_insert_2; [|done].
  destruct (default [] (m !! k)); done.
Qed.

(** A fold whose step appends to an observation appends all the pieces. *)
Lemma foldl_observe {A B C} (step : B → A → B) (obs : B → list C) (g : A → list C) l b :
  (∀ b a, obs (step b a) = obs b ++ g a) → obs (foldl step b l) = obs b ++ (l ≫= g).
Proof.
  intros H. revert b. induction l as [|a l IH]; intros b; csimpl; [by rewrite app_nil_r|].
  rewrite IH, H. by rewrite <- app_assoc.
Qed.

Lemma foldl_inv {A B} (step : B → A → B) (P : B → Prop) l b :
  (∀ b a, P b → P (step b a)) → P b → P (foldl step b l).
Proof. intros H. revert b. induction l; simpl; auto. Qed.

Lemma bind_nil {A B} (l : list A) : (l ≫= λ _, [] : list B) = [].
Proof. by induction l. Qed.

Lemma bind_filter {A B} (f : A → bool) (g : A → B) l :
  (l ≫= λ a, if f a then [g a] else []) = g <$> List.filter f l.
Proof. induction l as [|a l IH]; csimpl; [done|]. rewrite IH. by destruct (f a). Qed.

Lemma bind_omap {A B} (f : A → option B) l :
  (l ≫= λ a, match f a with Some b => [b] | None => [] end) = omap f l.
Proof. induction l as [|a l IH]; csimpl; [done|]. rewrite IH. by destruct (f a). Qed.

Lemma build_policy_exact b p c :
  default [] (b_exact (build_policy b p) !! c) = default [] (b_exact b !! c) ++ exact_of c p.
Proof.
  unfold build_policy.
  rewrite (foldl_observe (build_scope p) (λ b, default [] (b_exact b !! c)) (λ _, []))
    by (intros; simpl; by rewrite app_nil_r).
  rewrite (foldl_observe (build_regex p) (λ b, default [] (b_exact b !! c)) (λ _, []))
    by (intros; simpl; by rewrite app_nil_r).
  rewrite !bind_nil, !app_nil_r.
  rewrite (foldl_observe (build_domain p) (λ b, default [] (b_exact b !! c))
    (λ d, if bool_decide (normalizeDomain d = c) && negb (Contains c "*") then [p] else [])).
  - unfold exact_of. by rewrite bind_filter.
  - intros b' d. unfold build_domain. destruct (Contains (normalizeDomain d) "*") eqn:E; simpl.
    + case_bool_decide; simpl; [subst; rewrite E; simpl|]; by rewrite app_nil_r.
    + rewrite map_append_lookup. case_bool_decide; simpl; [subst; by rewrite E|done].
Qed.

Lemma build_policy_exact_nonempty b p :
  map_Forall (λ _ l, l ≠ []) (b_exact b) → map_Forall (λ _ l, l ≠ []) (b_exact (build_policy b p)).
Proof.
  intros H. unfold build_policy.
  apply (foldl_inv _ (λ b, map_Forall (λ _ l, l ≠ []) (b_exact b))); [done|].
  apply (foldl_inv _ (λ b, map_Forall (λ _ l, l ≠ []) (b_exact b))); [done|].
  apply (foldl_inv _ (λ b, map_Forall (λ _ l, l ≠ []) (b_exact b))); [|done].
  intros b' d Hb. unfold build_domain. case_match; simpl; [done|]. by apply map_append_nonempty.
Qed.

Lemma build_policy_wild b p : b_wild (build_policy b p) = b_wild b ++ wild_of p.
Proof.
  unfold build_policy.
  rewrite (foldl_observe (build_scope p) b_wild (λ _, [])) by (intros; simpl; by rewrite app_nil_r).
  rewrite (foldl_observe (build_regex p) b_wild (λ _, [])) by (intros; simpl; by rewrite app_nil_r).
  rewrite !bind_nil, !app_nil_r. unfold wild_of. rewrite <- bind_omap.
  apply foldl_observe. intros b' d. unfold build_domain.
  destruct (Contains _ _); simpl; [|by rewrite app_nil_r].
  by case_bool_decide; simpl; rewrite ?app_nil_r.
Qed.

Lemma build_policy_regex b p : b_regex (build_policy b p) = b_regex b ++ regex_of p.
Proof.
  unfold build_policy.
  rewrite (foldl_observe (build_scope p) b_regex (λ _, [])) by (intros; simpl; by rewrite app_nil_r).
  rewrite bind_nil, app_nil_r. unfold regex_of. rewrite <- bind_omap.
  rewrite (foldl_observe (build_regex p) b_regex
    (λ rx, match (λ re, {| rr_re := re; rr_policy := p |}) <$> regexp_Compile rx with
           | Some r => [r] | None => [] end)).
  - rewrite (foldl_observe (build_domain p) b_regex (λ _, [])), bind_nil, app_nil_r; [done|].
    intros b' d. unfold build_domain. case_match; simpl; by rewrite app_nil_r.
  - intros b' rx. unfold build_regex; simpl. destruct (regexp_Compile rx); simpl; by rewrite ?app_nil_r.
Qed.

Lemma build_policy_nets b p id :
  default [] (b_nets (build_policy b p) !! id) = default [] (b_nets b !! id) ++ nets_of id p.
Proof.
  unfold build_policy.
  rewrite (foldl_observe (build_scope p) (λ b, default [] (b_nets b !! id))
    (λ c, match (if bool_decide (p_ID p = id) then parseClientScope c else None) with
          | Some n => [n] | None => [] end)).
  - rewrite (foldl_observe (build_regex p) (λ b, default [] (b_nets b !! id)) (λ _, []))
      by (intros; simpl; by rewrite app_nil_r).
    rewrite (foldl_observe (build_domain p) (λ b, default [] (b_nets b !! id)) (λ _, []))
      by (intros; unfold build_domain; case_match; simpl; by rewrite app_nil_r).
    rewrite !bind_nil, !app_nil_r. f_equal. unfold nets_of.
    case_bool_decide; [apply bind_omap|apply bind_nil].
  - intros b' c. unfold build_scope; simpl.
    destruct (parseClientScope c); [|case_bool_decide; by rewrite app_nil_r].
    rewrite map_append_lookup. by case_bool_decide.
Qed.

Section Snapshot.
  Context (ps : list Policy).
Let cps := compile_policy <$> ps.
Let snap := buildSnapshot ps.

Lemma snapshot_exact c : default [] (Exact snap !! c) = cps ≫= exact_of c.
  Proof.
    unfold snap, buildSnapshot; simpl. fold cps.
    by rewrite (foldl_observe build_policy (λ b, default [] (b_exact b !! c)) (exact_of c))
      by (intros; apply build_policy_exact).
  Qed.

Lemma snapshot_exact_nonempty c l : Exact snap !! c = Some l → l ≠ [].
  Proof.
    unfold snap, buildSnapshot; simpl. fold cps. revert c l.
    change (map_Forall (λ _ l, l ≠ []) (b_exact (foldl build_policy build_empty cps))).
    apply (foldl_inv _ (λ b, map_Forall (λ _ l, l ≠ []) (b_exact b)));
      [intros; by apply build_policy_exact_nonempty|apply map_Forall_empty].
  Qed.

Lemma snapshot_wild : Wildcards snap = cps ≫= wild_of.
  Proof.
    unfold snap, buildSnapshot; simpl. fold cps.
    by rewrite (foldl_observe build_policy b_wild wild_of) by (intros; apply build_policy_wild).
  Qed.

Lemma snapshot_regex : Regexes snap = cps ≫= regex_of.
  Proof.
    unfold snap, buildSnapshot; simpl. fold cps.
    by rewrite (foldl_observe build_policy b_regex regex_of) by (intros; apply build_policy_regex).
  Qed.

Lemma snapshot_nets id : default [] (clientNets snap !! id) = cps ≫= nets_of id.
  Proof.
    unfold snap, buildSnapshot; simpl. fold cps.
    by rewrite (foldl_observe build_policy (λ b, default [] (b_nets b !! id)) (nets_of id))
      by (intros; apply build_policy_nets).
  Qed.

Lemma bloom_fold `{!BloomLaws BL} l b s :
    TestString b s = true ∨ s ∈ l → TestString (foldl AddString b l) s = true.
  Proof.
    revert b. induction l as [|x l IH]; intros b; simpl; [by intros [?|?%not_elem_of_nil]|].
    intros [H|[->|H]%elem_of_cons]; apply IH; auto using TestString_mono, TestString_AddString.
  Qed.

Lemma snapshot_bloom `{!BloomLaws BL} c l :
    Exact snap !! c = Some l → bloom_maybe snap c = true.
  Proof.
    unfold snap, bloom_maybe, buildSnapshot; simpl. intros H.
    apply bloom_fold; left. apply bloom_fold; right.
    apply list_elem_of_fmap. exists (c, l). split; [done|]. by apply elem_of_map_to_list.
  Qed.
End Snapshot.

End Engine.
