(* ===== verification/PolicySpec.v ===== *)
(** * What the policy engine promises, and that it does

    The abstract reading of a policy set: which policies list a name, which are in
    force for a client at an instant, and which one decides. [Evaluate] over the
    built snapshot implements it, for policy sets whose IDs are distinct. The
    snapshot keys the parsed client ranges by ID, so distinctness is needed:
    [duplicate_ids_share_scope] is a run where it fails. *)
From S2P Require Import Prelude GoStrings GoNet Policy PolicyEngine.

Section Spec.
  Context `{U : GoUnicode} `{TZ : TzDatabase} `{BL : BloomLib} `{RX : RegexpLib}.

  (** ** The specification *)

Definition sched_of (p : Policy) : option compiledSchedule :=
    match compileSchedule p with Ok cs => cs | Err _ => None end.

Definition in_scope (client : IP) (p : Policy) : Prop :=
    p_ClientCIDRs p = [] ∨
    client ≠ [] ∧ ∃ c n, c ∈ p_ClientCIDRs p ∧ parseClientScope c = Some n ∧
                          IPNet_Contains n client = true.

Definition in_force (now : Z) (client : IP) (p : Policy) : Prop :=
    active (sched_of p) now = true ∧ in_scope client p.

Definition lists_exact (c : string) (p : Policy) : Prop :=
    ∃ d, d ∈ p_Domains p ∧ normalizeDomain d = c ∧ Contains c "*" = false.

Definition lists_wildcard (d : string) (p : Policy) : Prop :=
    ∃ e base, e ∈ p_Domains p ∧ normalizeDomain e = ("*." +:+ base)%string ∧ base ≠ ""%string ∧
              (d = base ∨ HasSuffix d ("." +:+ base) = true).

Definition lists_regex (d : string) (p : Policy) : Prop :=
    ∃ rx re, rx ∈ p_Regexes p ∧ regexp_Compile rx = Some re ∧ MatchString re d = true.

Definition lists_dynamic (d : string) (p : Policy) : Prop := lists_wildcard d p ∨ lists_regex d p.

  (** Higher priority first, then the smaller ID. *)
Definition better (p q : Policy) : Prop :=
    p_Priority q < p_Priority p ∨
    p_Priority p = p_Priority q ∧ String.ltb (p_ID p) (p_ID q) = true.

Definition best (S : Policy → Prop) (p : Policy) : Prop :=
    S p ∧ ∀ q, S q → q = p ∨ better p q.

  (** The policy that decides the name [d], if any. *)
Inductive winner (ps : list Policy) (now : Z) (client : IP) (d : string) : option Policy → Prop :=
  | winner_exact c1 c c2 p :
      parent_candidates d = c1 ++ c :: c2 →
      (∀ c' q, c' ∈ c1 → q ∈ ps → lists_exact c' q → ¬ in_force now client q) →
      best (λ q, q ∈ ps ∧ lists_exact c q ∧ in_force now client q) p →
      winner ps now client d (Some p)
  | winner_dynamic p :
      (∀ c' q, c' ∈ parent_candidates d → q ∈ ps → lists_exact c' q → ¬ in_force now client q) →
      best (λ q, q ∈ ps ∧ lists_dynamic d q ∧ in_force now client q) p →
      winner ps now client d (Some p)
  | winner_none :
      (∀ c' q, c' ∈ parent_candidates d → q ∈ ps → lists_exact c' q → ¬ in_force now client q) →
      (∀ q, q ∈ ps → lists_dynamic d q → ¬ in_force now client q) →
      winner ps now client d None.

  (** ** The order *)

Lemma better_irrefl p : ¬ better p p.
  Proof. unfold better. rewrite string_ltb_irrefl. intros [?|[_ ?]]; [lia|done]. Qed.

Lemma better_trans p q r : better p q → better q r → better p r.
  Proof.
    unfold better. intros [H|[H1 H2]] [H'|[H3 H4]]; try (left; lia).
    right. split; [lia|]. by eapply string_ltb_trans.
  Qed.

Lemma best_unique S p q : best S p → best S q → p = q.
  Proof.
    intros [Hp Hp'] [Hq Hq']. destruct (Hp' q Hq) as [->|H1]; [done|].
    destruct (Hq' p Hp) as [->|H2]; [done|]. by destruct (better_irrefl p); eapply better_trans.
  Qed.

  (** ** The engine's selection loop *)

Definition matched (s : PolicySnapshot) (client : IP) (p : Policy) : Prop :=
    matchesClient s p client = true.

Lemma pick_cases s client b p :
    pick_step s client b p =
      if matchesClient s p client
      then match b with
           | None => Some p
           | Some b => if decide (better p b) then Some p else Some b
           end
      else b.
  Proof.
    unfold pick_step. destruct (matchesClient s p client); simpl; [|done].
    destruct b as [b|]; [|done]. unfold better.
    destruct (Z.ltb_spec (p_Priority b) (p_Priority p)); [by rewrite decide_True by auto|].
    destruct (Z.eqb_spec (p_Priority p) (p_Priority b)); simpl.
    - destruct (String.ltb _ _) eqn:E; [by rewrite decide_True by auto|].
      rewrite decide_False; [done|]. intros [?|[_ ?]]; [lia|done].
    - rewrite decide_False; [done|]. intros [?|[? _]]; lia.
  Qed.

  (** The loop returns nothing exactly when no candidate is in scope, and
      otherwise a candidate in scope that no other one in scope beats. *)
Lemma pick_spec s client l :
    match pickHighestPriorityScoped s l client with
    | None => ∀ q, q ∈ l → ¬ matched s client q
    | Some p => p ∈ l ∧ matched s client p ∧ ∀ q, q ∈ l → matched s client q → ¬ better q p
    end.
  Proof.
    unfold pickHighestPriorityScoped. induction l as [|x l IH] using rev_ind; simpl.
    - by intros q ?%not_elem_of_nil.
    - rewrite foldl_snoc, pick_cases. unfold matched in *.
      destruct (matchesClient s x client) eqn:Hx.
      + destruct (foldl _ None l) as [b|].
        * destruct IH as (Hb & Hm & Hmax). case_decide as Hd.
          -- repeat split; [set_solver|done|].
             intros q [Hq| ->%list_elem_of_singleton]%elem_of_app Hmq; [|apply better_irrefl].
             intros Hqx. by eapply (Hmax q), better_trans.
          -- repeat split; [set_solver|done|].
             intros q [Hq| ->%list_elem_of_singleton]%elem_of_app Hmq; auto.
        * repeat split; [set_solver|done|].
          intros q [Hq| ->%list_elem_of_singleton]%elem_of_app Hmq;
            [by destruct (IH q Hq)|apply better_irrefl].
      + destruct (foldl _ None l) as [b|].
        * destruct IH as (Hb & Hm & Hmax). repeat split; [set_solver|done|].
          intros q [Hq| ->%list_elem_of_singleton]%elem_of_app; [auto|congruence].
        * intros q [Hq| ->%list_elem_of_singleton]%elem_of_app; [auto|congruence].
  Qed.

Lemma filterActive_spec l now q :
    q ∈ filterActive l now ↔ q ∈ l ∧ active (p_sched q) now = true.
  Proof.
    unfold filterActive. destruct (existsb _ l) eqn:E; simpl.
    - rewrite !list_elem_of_In, filter_In. done.
    - split; [|by intros []]. intros Hq. split; [done|].
      destruct (p_sched q) as [cs|] eqn:Hs; [|done].
      apply not_true_iff_false in E. destruct E. apply existsb_elem. exists q.
      split; [done|]. apply bool_decide_eq_true. by rewrite Hs.
  Qed.

  (** ** Policies and their compiled copies *)

Lemma better_compile p q : better (compile_policy p) (compile_policy q) ↔ better p q.
  Proof. done. Qed.

Lemma elem_exact ps c q :
    q ∈ ((compile_policy <$> ps) ≫= exact_of c) ↔
    ∃ p, q = compile_policy p ∧ p ∈ ps ∧ lists_exact c p.
  Proof.
    rewrite list_elem_of_bind. unfold lists_exact, exact_of. setoid_rewrite list_elem_of_fmap. split.
    - intros (p' & (d & -> & Hd) & (p & -> & Hp)). exists p. split; [done|]. split; [done|].
      apply list_elem_of_In, filter_In in Hd as [Hd Hb]. boolp.
      exists d. rewrite <- list_elem_of_In in Hd. done.
    - intros (p & -> & Hp & d & Hd & Hn & Hc). exists (compile_policy p).
      split; [|eauto]. exists d. split; [done|]. apply list_elem_of_In, filter_In.
      rewrite <- list_elem_of_In. split; [done|]. by rewrite bool_decide_eq_true_2, Hc.
  Qed.
Lemma wildcardBase_spec n base :
    base ≠ ""%string →
    Contains n "*" && negb (bool_decide (wildcardBase n = ""%string)) = true ∧ wildcardBase n = base
    ↔ n = ("*." +:+ base)%string.
  Proof.
    intros Hb. unfold wildcardBase. split.
    - intros [H <-]. boolp. destruct (HasPrefix n "*.") eqn:E; [|done].
      by apply (HasPrefix_split n "*.").
    - intros ->. rewrite (HasPrefix_app "*." base).
      split; [|by apply (drop_bytes_app "*.")].
      rewrite andb_true_iff, negb_true_iff, bool_decide_eq_false. split.
      + apply Contains_prefix. by apply (HasPrefix_app "*").
      + by rewrite (drop_bytes_app "*.").
  Qed.

Lemma elem_wild ps d q :
    q ∈ (wr_policy <$> List.filter
          (λ w, bool_decide (d = wr_base w) || HasSuffix d ("." +:+ wr_base w))
          ((compile_policy <$> ps) ≫= wild_of)) ↔
    ∃ p, q = compile_policy p ∧ p ∈ ps ∧ lists_wildcard d p.
  Proof.
    rewrite list_elem_of_fmap. setoid_rewrite list_elem_of_In. setoid_rewrite filter_In.
    setoid_rewrite <- list_elem_of_In. setoid_rewrite list_elem_of_bind.
    setoid_rewrite list_elem_of_fmap. setoid_rewrite list_elem_of_omap.
    setoid_rewrite orb_true_iff. setoid_rewrite bool_decide_eq_true. split.
    - intros (w & -> & (p' & (e & He & Hw) & p & -> & Hp) & Hd). simpl in Hw.
      destruct (Contains _ _ && _) eqn:E; simplify_eq/=. exists p. do 2 (split; [done|]).
      exists e, (wildcardBase (normalizeDomain e)). assert (wildcardBase (normalizeDomain e) ≠ ""%string) as Hne by (boolp; done).
      split; [done|]. split; [by apply wildcardBase_spec|]. done.
    - intros (p & -> & Hp & e & base & He & Hn & Hb & Hd).
      pose proof (proj2 (wildcardBase_spec _ base Hb) Hn) as [Hc Hw].
      exists {| wr_base := base; wr_policy := compile_policy p |}. simpl.
      split; [done|]. split; [|done]. exists (compile_policy p). split; [|eauto].
      exists e. simpl. rewrite Hc, Hw. done.
  Qed.

Lemma elem_regex ps d q :
    q ∈ (rr_policy <$> List.filter (λ r, MatchString (rr_re r) d)
          ((compile_policy <$> ps) ≫= regex_of)) ↔
    ∃ p, q = compile_policy p ∧ p ∈ ps ∧ lists_regex d p.
  Proof.
    rewrite list_elem_of_fmap. setoid_rewrite list_elem_of_In. setoid_rewrite filter_In.
    setoid_rewrite <- list_elem_of_In. setoid_rewrite list_elem_of_bind.
    setoid_rewrite list_elem_of_fmap. setoid_rewrite list_elem_of_omap. split.
    - intros (r & -> & (p' & (rx & Hrx & Hr) & p & -> & Hp) & Hd). simpl in Hr.
      destruct (regexp_Compile rx) as [re|] eqn:E; simplify_eq/=.
      exists p. do 2 (split; [done|]). by exists rx, re.
    - intros (p & -> & Hp & rx & re & Hrx & Hc & Hm).
      exists {| rr_re := re; rr_policy := compile_policy p |}. simpl.
      split; [done|]. split; [|done]. exists (compile_policy p). split; [|eauto].
      exists rx. simpl. by rewrite Hc.
  Qed.

Lemma elem_dynamic ps d q :
    q ∈ dynamic_candidates (buildSnapshot ps) d ↔
    ∃ p, q = compile_policy p ∧ p ∈ ps ∧ lists_dynamic d p.
  Proof.
    unfold dynamic_candidates, lists_dynamic.
    rewrite snapshot_wild, snapshot_regex, elem_of_app, elem_wild, elem_regex. split.
    - intros [(p & ? & ? & ?)|(p & ? & ? & ?)]; exists p; auto.
    - intros (p & ? & ? & [?|?]); [left|right]; eauto.
  Qed.

  (** ** Distinct IDs *)

Definition distinct_ids (ps : list Policy) : Prop := NoDup (p_ID <$> ps).

Lemma distinct_ids_eq ps p q :
    distinct_ids ps → p ∈ ps → q ∈ ps → p_ID p = p_ID q → p = q.
  Proof.
    unfold distinct_ids. induction ps as [|a ps IH]; [by intros _ ?%not_elem_of_nil|].
    rewrite fmap_cons, NoDup_cons. intros [Ha Hnd] Hp Hq Hid.
    apply elem_of_cons in Hp as [->|Hp], Hq as [->|Hq]; auto.
    - destruct Ha. rewrite Hid. by apply list_elem_of_fmap_2.
    - destruct Ha. rewrite <- Hid. by apply list_elem_of_fmap_2.
  Qed.

Lemma matchesClient_spec ps p client :
    distinct_ids ps → p ∈ ps →
    matched (buildSnapshot ps) client (compile_policy p) ↔ in_scope client p.
  Proof.
    intros Hnd Hp. unfold matched, matchesClient, in_scope.
    change (p_ClientCIDRs (compile_policy p)) with (p_ClientCIDRs p).
    change (p_ID (compile_policy p)) with (p_ID p).
    case_bool_decide as Hc; [by split; [left|]|].
    case_bool_decide as Hcl; [split; [done|intros [?|[? _]]; done]|].
    rewrite existsb_elem, snapshot_nets. setoid_rewrite list_elem_of_bind.
    setoid_rewrite list_elem_of_fmap. unfold nets_of. split.
    - intros (n & (q' & Hn & q & -> & Hq) & Hin). right. split; [done|].
      simpl in Hn. case_bool_decide as Hid; [|by apply not_elem_of_nil in Hn].
      rewrite (distinct_ids_eq ps q p) in Hn by done.
      apply list_elem_of_omap in Hn as (c & ? & ?). eauto.
    - intros [?|(_ & c & n & Hcc & Hn & Hin)]; [done|]. exists n. split; [|done].
      exists (compile_policy p). split; [|eauto]. simpl. rewrite bool_decide_eq_true_2 by done.
      apply list_elem_of_omap. eauto.
  Qed.

  (** One selection over the compiled copies of the policies that satisfy [M]. *)
Lemma select_spec ps (M : Policy → Prop) l now client :
    distinct_ids ps →
    (∀ q, q ∈ l ↔ ∃ p, q = compile_policy p ∧ p ∈ ps ∧ M p) →
    match pickHighestPriorityScoped (buildSnapshot ps) (filterActive l now) client with
    | None => ∀ p, p ∈ ps → M p → ¬ in_force now client p
    | Some q => ∃ p, q = compile_policy p ∧
                     best (λ p, p ∈ ps ∧ M p ∧ in_force now client p) p
    end.
  Proof.
    intros Hnd Hl.
    assert (Hmem : ∀ p, p ∈ ps → M p → in_force now client p →
              compile_policy p ∈ filterActive l now ∧
              matched (buildSnapshot ps) client (compile_policy p)).
    { intros p Hp HM [Ha Hs]. rewrite filterActive_spec, Hl, matchesClient_spec by done.
      split; [split; [by exists p|exact Ha]|done]. }
    pose proof (pick_spec (buildSnapshot ps) client (filterActive l now)) as Hpick.
    destruct (pickHighestPriorityScoped _ _ _) as [q|].
    - destruct Hpick as (Hq & Hm & Hmax).
      apply filterActive_spec in Hq as [Hq Ha]. apply Hl in Hq as (p & -> & Hp & HM).
      exists p. split; [done|]. apply matchesClient_spec in Hm; [|done..].
      repeat split; try done. intros r (Hr & HMr & Hf).
      destruct (Hmem r Hr HMr Hf) as [H1 H2]. specialize (Hmax _ H1 H2).
      rewrite better_compile in Hmax. unfold better in *.
      destruct (Z.lt_trichotomy (p_Priority r) (p_Priority p)) as [?|[Heq|?]];
        [by right; left| |by destruct Hmax; left].
      destruct (String.ltb (p_ID r) (p_ID p)) eqn:E; [destruct Hmax; by right|].
      apply string_ltb_total in E as [E|E]; [|by right; right].
      left. by apply (distinct_ids_eq ps).
    - intros p Hp HM Hf. destruct (Hmem p Hp HM Hf) as [H1 H2]. by eapply Hpick.
  Qed.
  (** ** Evaluation against the specification *)

  Context `{!BloomLaws BL}.

Lemma level_spec ps now client c :
    distinct_ids ps →
    match eval_level (buildSnapshot ps) now client c with
    | None => ∀ p, p ∈ ps → lists_exact c p → ¬ in_force now client p
    | Some q => ∃ p, q = compile_policy p ∧
                     best (λ p, p ∈ ps ∧ lists_exact c p ∧ in_force now client p) p
    end.
  Proof.
    intros Hnd. unfold eval_level.
    assert (Hl : ∀ q, q ∈ default [] (Exact (buildSnapshot ps) !! c) ↔
                      ∃ p, q = compile_policy p ∧ p ∈ ps ∧ lists_exact c p).
    { intros q. by rewrite snapshot_exact, elem_exact. }
    pose proof (select_spec ps _ _ now client Hnd Hl) as Hsel.
    destruct (Exact (buildSnapshot ps) !! c) as [l|] eqn:E.
    - rewrite (snapshot_bloom ps c l E). cbn [negb default] in *. unfold id in *.
      destruct l as [|a l]; [exact Hsel|].
      destruct (filterActive (a :: l) now); exact Hsel.
    - destruct (negb _); exact Hsel.
  Qed.

Lemma dynamic_spec ps now client d :
    distinct_ids ps →
    match matchDynamic (buildSnapshot ps) d now client with
    | None => ∀ p, p ∈ ps → lists_dynamic d p → ¬ in_force now client p
    | Some q => ∃ p, q = compile_policy p ∧
                     best (λ p, p ∈ ps ∧ lists_dynamic d p ∧ in_force now client p) p
    end.
  Proof.
    intros Hnd. unfold matchDynamic.
    pose proof (select_spec ps _ _ now client Hnd (elem_dynamic ps d)) as Hsel.
    by destruct (dynamic_candidates _ d).
  Qed.

Lemma Evaluate_winner ps e now domain clientIP :
    distinct_ids ps →
    ∃ o, winner ps now (parseClientIP clientIP) (normalizeDomain domain) o ∧
         Evaluate (LoadPolicies e ps) now domain clientIP = Ok (policyDecision o).
  Proof.
    intros Hnd. unfold Evaluate. set (d := normalizeDomain domain).
    set (client := parseClientIP clientIP). simpl snapshot.
    destruct (first_match _ _) as [q|] eqn:E.
    - apply first_match_Some in E as (c1 & c & c2 & Hc & Hq & Hno).
      pose proof (level_spec ps now client c Hnd) as Hlev. rewrite Hq in Hlev.
      destruct Hlev as (p & -> & Hbest). exists (Some p). split; [|done].
      eapply winner_exact; [done| |done]. intros c' q' Hc' Hq' Hl.
      rewrite Forall_forall in Hno. specialize (Hno c' Hc').
      pose proof (level_spec ps now client c' Hnd) as Hlev. rewrite Hno in Hlev. by apply Hlev.
    - rewrite first_match_None, Forall_forall in E.
      assert (Hno : ∀ c' q, c' ∈ parent_candidates d → q ∈ ps → lists_exact c' q →
                            ¬ in_force now client q).
      { intros c' q Hc' Hq Hl. pose proof (level_spec ps now client c' Hnd) as Hlev.
        rewrite (E c' Hc') in Hlev. by apply Hlev. }
      pose proof (dynamic_spec ps now client d Hnd) as Hdyn.
      destruct (matchDynamic _ _ _ _) as [q|].
      + destruct Hdyn as (p & -> & Hbest). exists (Some p). split; [|done]. by apply winner_dynamic.
      + exists None. split; [|done]. by apply winner_none.
  Qed.

Lemma app_cons_inj {A} (P : A → Prop) l1 x l2 k1 y k2 :
    l1 ++ x :: l2 = k1 ++ y :: k2 →
    (∀ a, a ∈ l1 → ¬ P a) → (∀ a, a ∈ k1 → ¬ P a) → P x → P y → x = y.
  Proof.
    revert k1. induction l1 as [|a l1 IH]; intros [|b k1]; simpl; intros H Hl Hk Hx Hy; simplify_eq.
    - done.
    - destruct (Hk b); [set_solver|done].
    - destruct (Hl y); [set_solver|done].
    - eapply IH; [done|set_solver..].
  Qed.

Lemma winner_det ps now client d o1 o2 :
    winner ps now client d o1 → winner ps now client d o2 → o1 = o2.
  Proof.
    assert (Hsome : ∀ c p, best (λ q, q ∈ ps ∧ lists_exact c q ∧ in_force now client q) p →
              (∀ q, q ∈ ps → lists_exact c q → ¬ in_force now client q) → False).
    { intros c p [(H1 & H2 & H3) _] H. by eapply H. }
    assert (Hdyn : ∀ p, best (λ q, q ∈ ps ∧ lists_dynamic d q ∧ in_force now client q) p →
              (∀ q, q ∈ ps → lists_dynamic d q → ¬ in_force now client q) → False).
    { intros p [(H1 & H2 & H3) _] H. by eapply H. }
    intros [c1 c c2 p Hc Hno Hb|p Hno Hb|Hno Hno'] [k1 k k2 p' Hk Hno2 Hb2|p' Hno2 Hb2|Hno2 Hno2'].
    - assert (c = k) as ->.
      { rewrite Hc in Hk.
        eapply (app_cons_inj (λ c, ∃ q, q ∈ ps ∧ lists_exact c q ∧ in_force now client q)); [done|..].
        - intros a Ha (q & ? & ? & ?). by eapply Hno.
        - intros a Ha (q & ? & ? & ?). by eapply Hno2.
        - exists p. apply Hb.
        - exists p'. apply Hb2. }
      f_equal. by eapply best_unique.
    - destruct (Hsome c p Hb). intros q. apply Hno2. rewrite Hc. set_solver.
    - destruct (Hsome c p Hb). intros q. apply Hno2. rewrite Hc. set_solver.
    - destruct (Hsome k p' Hb2). intros q. apply Hno. rewrite Hk. set_solver.
    - f_equal. by eapply best_unique.
    - by destruct (Hdyn p Hb).
    - destruct (Hsome k p' Hb2). intros q. apply Hno. rewrite Hk. set_solver.
    - by destruct (Hdyn p' Hb2).
    - done.
  Qed.

Lemma Evaluate_iff ps e now domain clientIP r :
    distinct_ids ps →
    Evaluate (LoadPolicies e ps) now domain clientIP = r ↔
    ∃ o, winner ps now (parseClientIP clientIP) (normalizeDomain domain) o ∧
         r = Ok (policyDecision o).
  Proof.
    intros Hnd. destruct (Evaluate_winner ps e now domain clientIP Hnd) as (o & Ho & ->). split.
    - intros <-. eauto.
    - intros (o' & Ho' & ->). by rewrite (winner_det _ _ _ _ _ _ Ho Ho').
  Qed.

  (** The winner only depends on which policies there are. *)
Lemma winner_perm ps ps' now client d o :
    ps ≡ₚ ps' → winner ps now client d o → winner ps' now client d o.
  Proof.
    intros Hp. assert (Hin : ∀ q, q ∈ ps' ↔ q ∈ ps) by (intros; by rewrite Hp).
    intros [c1 c c2 p Hc Hno [Hb Hb']|p Hno [Hb Hb']|Hno Hno'].
    - eapply winner_exact; [done|..].
      + intros c' q ? ?%Hin. eauto.
      + split; [by rewrite Hin|]. intros q (?%Hin & ? & ?). auto.
    - apply winner_dynamic.
      + intros c' q ? ?%Hin. eauto.
      + split; [by rewrite Hin|]. intros q (?%Hin & ? & ?). auto.
    - apply winner_none; [intros c' q ? ?%Hin|intros q ?%Hin]; eauto.
  Qed.

  (** Nor on their [Enabled] flags. *)
Lemma winner_set_enabled (f : Policy → bool) ps now client d o :
    let g := λ p, set_enabled (f p) p in
    winner ps now client d o → winner (g <$> ps) now client d (g <$> o).
  Proof.
    intros g. assert (Hbest : ∀ S S' : Policy → Prop, (∀ p, S p → S' (g p)) →
      (∀ q, S' q → ∃ p, q = g p ∧ S p) → ∀ p, best S p → best S' (g p)).
    { intros S S' H1 H2 p [Hp Hp']. split; [auto|].
      intros q (p' & -> & Hq)%H2. destruct (Hp' p' Hq) as [->|]; auto. }
    intros [c1 c c2 p Hc Hno Hb|p Hno Hb|Hno Hno'].
    - eapply winner_exact; [done|..].
      + intros c' q Hc' (p' & -> & Hp')%list_elem_of_fmap. exact (Hno c' p' Hc' Hp').
      + revert Hb. apply Hbest.
        * intros p' (? & ?). split; [by apply list_elem_of_fmap_2|done].
        * intros q ((p' & -> & ?)%list_elem_of_fmap & ?). by exists p'.
    - apply winner_dynamic.
      + intros c' q Hc' (p' & -> & Hp')%list_elem_of_fmap. exact (Hno c' p' Hc' Hp').
      + revert Hb. apply Hbest.
        * intros p' (? & ?). split; [by apply list_elem_of_fmap_2|done].
        * intros q ((p' & -> & ?)%list_elem_of_fmap & ?). by exists p'.
    - apply winner_none.
      + intros c' q Hc' (p' & -> & Hp')%list_elem_of_fmap. exact (Hno c' p' Hc' Hp').
      + intros q (p' & -> & Hp')%list_elem_of_fmap. exact (Hno' p' Hp').
  Qed.

Lemma distinct_ids_set_enabled (f : Policy → bool) ps :
    distinct_ids ps → distinct_ids ((λ p, set_enabled (f p) p) <$> ps).
  Proof. unfold distinct_ids. by rewrite <- list_fmap_compose. Qed.

Lemma hasScopedAllow_spec ps (M : Policy → Prop) l now client :
    distinct_ids ps →
    (∀ q, q ∈ l ↔ ∃ p, q = compile_policy p ∧ p ∈ ps ∧ M p) →
    hasScopedAllow (buildSnapshot ps) (filterActive l now) client = true ↔
    ∃ p, p ∈ ps ∧ M p ∧ in_force now client p ∧ ToUpper (p_Action p) = "ALLOW"%string.
  Proof.
    intros Hnd Hl. unfold hasScopedAllow. rewrite existsb_elem.
    setoid_rewrite filterActive_spec. setoid_rewrite Hl. split.
    - intros (q & ((p & -> & Hp & HM) & Ha) & Hb). boolp. exists p.
      repeat split; try done. by apply (matchesClient_spec ps).
    - intros (p & Hp & HM & [Ha Hs] & Hup). exists (compile_policy p).
      split; [split; [by exists p|exact Ha]|].
      apply (matchesClient_spec ps) in Hs; [|done..]. unfold matched in Hs. rewrite Hs.
      by apply bool_decide_eq_true.
  Qed.

  (** ** Theorems *)

  (** C8. [Evaluate] over a loaded policy set returns the decision of the policy
      the specification selects, and only that: the nearest enclosing name with an
      in-force exact rule decides, by priority and then ID; failing that, the best
      in-force wildcard or regex rule; failing that, the default ALLOW. The Bloom
      filter, the snapshot's maps and the fast paths change nothing. *)
Theorem Evaluate_refines ps e now domain clientIP r :
    distinct_ids ps →
    Evaluate (LoadPolicies e ps) now domain clientIP = r ↔
    ∃ o, winner ps now (parseClientIP clientIP) (normalizeDomain domain) o ∧
         r = Ok (policyDecision o).
  Proof. apply Evaluate_iff. Qed.

  (** C9. [IsExplicitlyAllowed] holds exactly when some in-force policy with action
      ALLOW lists the name or an enclosing name exactly, or by a wildcard or regex,
      whatever else matches. *)
Theorem IsExplicitlyAllowed_iff ps e now domain clientIP :
    distinct_ids ps →
    let d := normalizeDomain domain in
    IsExplicitlyAllowed (LoadPolicies e ps) now domain clientIP = true ↔
    ∃ p, p ∈ ps ∧ in_force now (parseClientIP clientIP) p ∧
         ToUpper (p_Action p) = "ALLOW"%string ∧
         ((∃ c, c ∈ parent_candidates d ∧ lists_exact c p) ∨ lists_dynamic d p).
  Proof.
    intros Hnd d. unfold IsExplicitlyAllowed. fold d. cbn [snapshot LoadPolicies].
    set (client := parseClientIP clientIP). set (s := buildSnapshot ps).
    rewrite orb_true_iff, existsb_elem.
    pose proof (hasScopedAllow_spec ps _ _ now client Hnd (elem_dynamic ps d)) as Hdyn.
    fold s in Hdyn. rewrite Hdyn. clear Hdyn.
    assert (Hex : ∀ c, (bloom_maybe s c && match Exact s !! c with
              | None => false
              | Some pols => hasScopedAllow s (filterActive pols now) client end = true) ↔
            ∃ p, p ∈ ps ∧ lists_exact c p ∧ in_force now client p ∧
                 ToUpper (p_Action p) = "ALLOW"%string).
    { intros c. rewrite <- (hasScopedAllow_spec ps _ (default [] (Exact s !! c)) now client Hnd)
        by (intros q; unfold s; by rewrite snapshot_exact, elem_exact). fold s.
      destruct (Exact s !! c) as [l|] eqn:E.
      - by rewrite (snapshot_bloom ps c l E : bloom_maybe s c = true).
      - rewrite andb_false_r. done. }
    setoid_rewrite Hex. split.
    - intros [(c & Hc & p & ? & ? & ? & ?)|(p & ? & ? & ? & ?)]; exists p; eauto 7.
    - intros (p & ? & ? & ? & [(c & ? & ?)|?]); [left; exists c|right]; eauto 7.
  Qed.

  (** The order in which the policies are loaded (file first or database
      first) is irrelevant to every decision. *)
Theorem Evaluate_order_irrelevant ps ps' e now domain clientIP :
    distinct_ids ps → ps ≡ₚ ps' →
    Evaluate (LoadPolicies e ps) now domain clientIP
    = Evaluate (LoadPolicies e ps') now domain clientIP.
  Proof.
    intros Hnd Hp. assert (Hnd' : distinct_ids ps') by (unfold distinct_ids in *; by rewrite <- Hp).
    destruct (Evaluate_winner ps e now domain clientIP Hnd) as (o & Ho & ->).
    symmetry. apply Evaluate_iff; [done|]. exists o. split; [by eapply winner_perm|done].
  Qed.

  (** The [Enabled] flag of a policy takes no part in evaluation: flipping any
      of the flags leaves every decision the same, so a disabled policy is still
      enforced. *)
Theorem Evaluate_ignores_Enabled (f : Policy → bool) ps e now domain clientIP :
    distinct_ids ps →
    Evaluate (LoadPolicies e ((λ p, set_enabled (f p) p) <$> ps)) now domain clientIP
    = Evaluate (LoadPolicies e ps) now domain clientIP.
  Proof.
    intros Hnd. destruct (Evaluate_winner ps e now domain clientIP Hnd) as (o & Ho & ->).
    apply Evaluate_iff; [by apply distinct_ids_set_enabled|].
    exists ((λ p, set_enabled (f p) p) <$> o). split; [by apply winner_set_enabled|].
    by destruct o.
  Qed.

(** ** Loading *)

Lemma load_loop_ok i raw ps :
  load_loop i raw = Ok ps →
  Forall2 (λ p p', p' = set_domains p (normalizeDomain <$> p_Domains p) ∧ ValidatePolicy p = Ok () ∧
                   Forall (λ rx, is_Some (regexp_Compile rx)) (p_Regexes p)) raw ps.
Proof.
  revert i ps. induction raw as [|p raw IH]; intros i ps; simpl; [intros [= <-]; constructor|].
  destruct (ValidatePolicy p) as [[]|] eqn:Ev; [|done].
  destruct (first_match _ (p_Regexes p)) eqn:Ef; [done|].
  destruct (load_loop (S i) raw) as [rest|] eqn:El; [|done]. intros [= <-]. constructor; [|by eapply IH].
  split; [done|]. split; [done|]. apply first_match_None in Ef. eapply Forall_impl; [exact Ef|].
  intros rx Hrx. simpl in Hrx. by destruct (regexp_Compile rx).
Qed.

(** Nothing a successfully loaded policy file says is dropped when the snapshot is
    built, although the builder skips what it cannot compile: the schedule is the
    compiled one, every regular expression is a rule, every client range is in the
    policy's scope and every plain domain has the policy among its exact rules. *)
Theorem loaded_rules_complete read path ps e p :
  LoadPoliciesFromFile read path = Ok ps → p ∈ ps →
  let s := snapshot (LoadPolicies e ps) in let cp := compile_policy p in
  compileSchedule p = Ok (p_sched cp) ∧
  (∀ rx, rx ∈ p_Regexes p → ∃ re, regexp_Compile rx = Some re ∧ {| rr_re := re; rr_policy := cp |} ∈ Regexes s) ∧
  (∀ c, c ∈ p_ClientCIDRs p → ∃ n, parseClientScope c = Some n ∧ n ∈ default [] (clientNets s !! p_ID p)) ∧
  (∀ d, d ∈ p_Domains p → Contains (normalizeDomain d) "*" = false →
     cp ∈ default [] (Exact s !! normalizeDomain d)).
Proof.
  unfold LoadPoliciesFromFile. case_bool_decide; [done|]. destruct (read path) as [raw|]; [|done].
  set (cp := compile_policy p). set (s := snapshot (LoadPolicies e ps)).
  intros HL%load_loop_ok Hp. apply list_elem_of_lookup in Hp as [k Hk].
  destruct (Forall2_lookup_r _ _ _ _ _ HL Hk) as (p0 & _ & Ep & Hv & Hrx).
  assert (cp ∈ compile_policy <$> ps) as Hcp by (apply list_elem_of_fmap_2; by eapply list_elem_of_lookup_2).
  apply ValidatePolicy_Ok in Hv as (_ & _ & _ & _ & [cs Hcs] & Hsc). rewrite Forall_forall in Hrx, Hsc.
  assert (compileSchedule p = Ok cs) as Hs by (rewrite Ep; exact Hcs).
  split; [|split; [|split]].
  - subst cp. unfold compile_policy. rewrite Hs. done.
  - intros rx Hin. assert (rx ∈ p_Regexes p0) as Hin0 by (rewrite Ep in Hin; exact Hin).
    destruct (Hrx rx Hin0) as [re Hre]. exists re. split; [done|].
    subst s. cbn [snapshot LoadPolicies]. rewrite snapshot_regex. apply list_elem_of_bind. exists cp. split; [|done].
    unfold regex_of. apply list_elem_of_omap. exists rx. split; [exact Hin|]. by rewrite Hre.
  - intros c Hin. assert (c ∈ p_ClientCIDRs p0) as Hin0 by (rewrite Ep in Hin; exact Hin).
    destruct (Hsc c Hin0) as [n Hn]. exists n. split; [done|].
    subst s. cbn [snapshot LoadPolicies]. rewrite snapshot_nets. apply list_elem_of_bind. exists cp. split; [|done].
    unfold nets_of. rewrite bool_decide_eq_true_2 by done. apply list_elem_of_omap. by exists c.
  - intros d Hin Hw. subst s. cbn [snapshot LoadPolicies]. rewrite snapshot_exact. apply list_elem_of_bind. exists cp. split; [|done].
    unfold exact_of. apply list_elem_of_fmap. exists d. split; [done|]. apply list_elem_of_In, List.filter_In.
    split; [by apply list_elem_of_In|]. by rewrite bool_decide_eq_true_2, Hw.
Qed.
End Spec.

(** ** A concrete policy set *)

Definition no_tz : TzDatabase := {| LoadLocation := λ _, None |}.

Definition mk_policy (id : string) (prio : Z) (act : string) (ds rs cidrs : list string) : Policy := {|
  p_ID := id; p_Name := ""; p_Description := ""; p_Category := "cat"; p_Redirect := "";
  p_Source := "local"; p_Enabled := true; p_Priority := prio; p_Action := act; p_Domains := ds;
  p_Regexes := rs; p_ScheduleDays := []; p_StartTime := ""; p_EndTime := ""; p_Timezone := "";
  p_sched := None; p_ClientCIDRs := cidrs |}.

Definition ex_policies : list Policy :=
  [mk_policy "kids" 5 "block" ["Games.example.com."] [] ["192.168.1.0/24"];
   mk_policy "corp" 5 "BLOCK" ["example.com"] [] [];
   mk_policy "allow" 9 "ALLOW" ["*.example.com"] ["tracker"] []]%string.

Lemma ex_distinct : distinct_ids ex_policies.
Proof. unfold distinct_ids. apply (bool_decide_unpack _). vm_compute. exact I. Qed.

#[local] Instance ex_u : GoUnicode := ascii_unicode.
#[local] Instance ex_tz : TzDatabase := no_tz.
#[local] Instance ex_bl : BloomLib := set_bloom.
#[local] Instance ex_laws : BloomLaws ex_bl := set_bloom_laws.
#[local] Instance ex_rx : RegexpLib := literal_regexp.

Definition deny (id : string) : Decision :=
  {| d_Action := ActionDeny; d_PolicyID := id; d_Category := "cat"; d_RedirectIP := "" |}.

Lemma Evaluate_refines_witness :
  Evaluate (LoadPolicies NewPolicyEngine ex_policies) 0 "www.games.example.com" "192.168.1.7:53"
    = Ok (deny "kids") ∧
  ∃ o, winner ex_policies 0 (parseClientIP "192.168.1.7:53")
         (normalizeDomain "www.games.example.com") o ∧ Ok (deny "kids") = Ok (E:=string) (policyDecision o).
Proof.
  split; [vm_compute; reflexivity|].
  apply (Evaluate_refines ex_policies NewPolicyEngine 0 "www.games.example.com" "192.168.1.7:53");
    [exact ex_distinct|vm_compute; reflexivity].
Defined.

Lemma IsExplicitlyAllowed_iff_witness :
  ∃ p, p ∈ ex_policies ∧ in_force 0 (parseClientIP "10.0.0.1") p ∧
       ToUpper (p_Action p) = "ALLOW"%string ∧
       ((∃ c, c ∈ parent_candidates (normalizeDomain "a.example.com") ∧ lists_exact c p)
        ∨ lists_dynamic (normalizeDomain "a.example.com") p).
Proof.
  apply (IsExplicitlyAllowed_iff ex_policies NewPolicyEngine 0 "a.example.com" "10.0.0.1");
    [exact ex_distinct|vm_compute; reflexivity].
Defined.

Lemma Evaluate_order_irrelevant_witness :
  Evaluate (LoadPolicies NewPolicyEngine (reverse ex_policies)) 0 "x.example.com" "" = Ok (deny "corp").
Proof.
  rewrite <- (Evaluate_order_irrelevant ex_policies (reverse ex_policies) NewPolicyEngine 0 "x.example.com" "");
    [vm_compute; reflexivity|exact ex_distinct|by rewrite reverse_Permutation].
Defined.

Lemma Evaluate_ignores_Enabled_witness :
  Evaluate (LoadPolicies NewPolicyEngine (set_enabled false <$> ex_policies)) 0 "example.com" ""
  = Ok (deny "corp").
Proof.
  rewrite (Evaluate_ignores_Enabled (λ _, false) ex_policies NewPolicyEngine 0 "example.com" "");
    [vm_compute; reflexivity|exact ex_distinct].
Defined.

(** Two policies with one ID: the client ranges are shared, and the policy scoped
    to 10.0.0.0/8 blocks a client of the other policy's range. *)
Example duplicate_ids_share_scope :
  Evaluate (LoadPolicies NewPolicyEngine
    [mk_policy "p" 1 "BLOCK" ["a.com"] [] ["10.0.0.0/8"];
     mk_policy "p" 1 "BLOCK" ["b.com"] [] ["192.168.0.0/16"]]) 0 "a.com" "192.168.3.4"
  = Ok (deny "p").
Proof. vm_compute. reflexivity. Qed.

(** A rule for a single label never matches: the walk over enclosing names stops
    before the last label. *)
Example single_label_rule_inert :
  Evaluate (LoadPolicies NewPolicyEngine [mk_policy "p" 1 "BLOCK" ["localhost"] [] []]) 0
    "localhost" "" = Ok default_decision.
Proof. vm_compute. reflexivity. Qed.

Definition ex_read (path : string) : result load_error (list Policy) :=
  if bool_decide (path = "policies.json"%string) then Ok ex_policies else Err LoadRead.
Definition ex_loaded : list Policy :=
  match LoadPoliciesFromFile ex_read "policies.json" with Ok ps => ps | Err _ => [] end.
Definition ex_kids : Policy := mk_policy "kids" 5 "block" ["games.example.com"]%string [] ["192.168.1.0/24"]%string.

Lemma loaded_rules_complete_witness :
  ∃ n, parseClientScope "192.168.1.0/24" = Some n ∧
    n ∈ default [] (clientNets (snapshot (LoadPolicies NewPolicyEngine ex_loaded)) !! "kids"%string).
Proof.
  refine (proj1 (proj2 (proj2 (loaded_rules_complete ex_read "policies.json" ex_loaded NewPolicyEngine ex_kids _ _)))
    "192.168.1.0/24"%string _); [vm_compute; reflexivity| |apply list_elem_of_here].
  replace ex_loaded with (ex_kids :: tail ex_loaded) by (vm_compute; reflexivity). apply list_elem_of_here.
Defined.
