(* ===== verification/DnsMsg.v ===== *)
(** * DNS messages, as the code uses github.com/miekg/dns

    The fields of a message the repository reads or writes; the remaining header
    bits are one opaque number. Building a reply and parsing a record from its text
    are the library's: an interface, with the documented effect on the fields as
    its laws. *)
From S2P Require Import Prelude GoStrings GoNet.

Record Question := { q_Name : string; q_Qtype : Z; q_Qclass : Z }.
Record RR_Header := { h_Name : string; h_Ttl : Z }.

(** Records the code tells apart; the rest keep their data as a string. *)
Inductive RR :=
| RR_A (h : RR_Header) (ip : IP)
| RR_AAAA (h : RR_Header) (ip : IP)
| RR_CNAME (h : RR_Header) (target : string)
| RR_other (h : RR_Header) (rrtype : Z) (data : string).

Record Msg := {
  m_Id : Z;
  m_Response : bool;
  m_Rcode : Z;
  m_Truncated : bool;
  m_flags : Z;
  m_Question : list Question;
  m_Answer : list RR;
  m_Ns : list RR;
  m_Extra : list RR;
}.

Definition TypeA : Z := 1.
Definition TypeCNAME : Z := 5.
Definition TypeAAAA : Z := 28.
Definition RcodeSuccess : Z := 0.
Definition RcodeServerFailure : Z := 2.
Definition RcodeRefused : Z := 5.

Definition rr_header (rr : RR) : RR_Header :=
  match rr with
  | RR_A h _ | RR_AAAA h _ | RR_CNAME h _ | RR_other h _ _ => h
  end.

Definition rr_set_header (rr : RR) (h : RR_Header) : RR :=
  match rr with
  | RR_A _ ip => RR_A h ip
  | RR_AAAA _ ip => RR_AAAA h ip
  | RR_CNAME _ t => RR_CNAME h t
  | RR_other _ ty d => RR_other h ty d
  end.

Definition rr_ttl (rr : RR) : Z := h_Ttl (rr_header rr).
Definition rr_name (rr : RR) : string := h_Name (rr_header rr).
Definition rr_set_ttl (ttl : Z) (rr : RR) : RR :=
  rr_set_header rr {| h_Name := rr_name rr; h_Ttl := ttl |}.
Definition rr_set_name (n : string) (rr : RR) : RR :=
  rr_set_header rr {| h_Name := n; h_Ttl := rr_ttl rr |}.

Lemma rr_ttl_set ttl rr : rr_ttl (rr_set_ttl ttl rr) = ttl.
Proof. by destruct rr. Qed.
Lemma rr_name_set n rr : rr_name (rr_set_name n rr) = n.
Proof. by destruct rr. Qed.
#[export] Hint Rewrite rr_ttl_set rr_name_set : phantom.

(** [new(dns.Msg)] *)
Definition empty_msg : Msg := {|
  m_Id := 0; m_Response := false; m_Rcode := 0; m_Truncated := false; m_flags := 0;
  m_Question := []; m_Answer := []; m_Ns := []; m_Extra := [] |}.

Definition set_answer (m : Msg) (a : list RR) : Msg := {|
  m_Id := m_Id m; m_Response := m_Response m; m_Rcode := m_Rcode m;
  m_Truncated := m_Truncated m; m_flags := m_flags m; m_Question := m_Question m;
  m_Answer := a; m_Ns := m_Ns m; m_Extra := m_Extra m |}.

Definition set_questions (m : Msg) (qs : list Question) : Msg := {|
  m_Id := m_Id m; m_Response := m_Response m; m_Rcode := m_Rcode m;
  m_Truncated := m_Truncated m; m_flags := m_flags m; m_Question := qs;
  m_Answer := m_Answer m; m_Ns := m_Ns m; m_Extra := m_Extra m |}.

(** ** The library *)

(** [SetReply r] and [SetRcode r c] are those methods on a fresh message. *)
Class DnsLib := {
  NewRR : string → option RR;
  Fqdn : string → string;
  SetReply : Msg → Msg;
  SetRcode : Msg → Z → Msg;
}.

Class DnsLaws `(DnsLib) : Prop := {
  SetReply_Id : ∀ r, m_Id (SetReply r) = m_Id r;
  SetReply_Response : ∀ r, m_Response (SetReply r) = true;
  SetReply_Rcode : ∀ r, m_Rcode (SetReply r) = RcodeSuccess;
  SetReply_Question : ∀ r, m_Question (SetReply r) = take 1 (m_Question r);
  SetReply_Answer : ∀ r, m_Answer (SetReply r) = [];
  SetRcode_eq : ∀ r c,
    SetRcode r c = {| m_Id := m_Id (SetReply r); m_Response := m_Response (SetReply r);
      m_Rcode := c; m_Truncated := m_Truncated (SetReply r); m_flags := m_flags (SetReply r);
      m_Question := m_Question (SetReply r); m_Answer := m_Answer (SetReply r);
      m_Ns := m_Ns (SetReply r); m_Extra := m_Extra (SetReply r) |};
}.

(** A concrete library: records of the shape ["name ttl IN TYPE data"]. *)
Definition simple_NewRR (s : string) : option RR :=
  match Split s " "%char with
  | [n; ttl; "IN"; ty; data]%string =>
      match Atoi ttl with
      | None => None
      | Some t =>
          let h := {| h_Name := n; h_Ttl := t |} in
          if bool_decide (ty = "A"%string) then
            match ParseIP data with [] => None | ip => Some (RR_A h ip) end
          else if bool_decide (ty = "AAAA"%string) then
            match ParseIP data with [] => None | ip => Some (RR_AAAA h ip) end
          else if bool_decide (ty = "CNAME"%string) then Some (RR_CNAME h data)
          else None
      end
  | _ => None
  end.

Definition simple_reply (r : Msg) : Msg := {|
  m_Id := m_Id r; m_Response := true; m_Rcode := 0; m_Truncated := false; m_flags := m_flags r;
  m_Question := take 1 (m_Question r); m_Answer := []; m_Ns := []; m_Extra := [] |}.

Definition simple_dns : DnsLib := {|
  NewRR := simple_NewRR;
  Fqdn := λ s, if HasSuffix s "." then s else (s +:+ ".")%string;
  SetReply := simple_reply;
  SetRcode := λ r c, {|
    m_Id := m_Id r; m_Response := true; m_Rcode := c; m_Truncated := false; m_flags := m_flags r;
    m_Question := take 1 (m_Question r); m_Answer := []; m_Ns := []; m_Extra := [] |};
|}.

Lemma simple_dns_laws : DnsLaws simple_dns.
Proof. by split. Qed.

Example simple_rr_ex :
  simple_NewRR "a.com. 60 IN A 0.0.0.0"
  = Some (RR_A {| h_Name := "a.com."; h_Ttl := 60 |} (ParseIP "0.0.0.0")).
Proof. vm_compute. reflexivity. Qed.
