(* ===== verification/AnswerCache.v ===== *)
(** * The serve-stale answer cache

    [internal/dnsengine/cache.go]. The doubly linked list of [container/list] is
    the list of its elements' identities, front first, with the elements' values in
    a heap; [items] maps a key to its element. The cache refines an association
    list in recency order. *)
From S2P Require Import Prelude GoStrings GoNet DnsMsg.

Definition defaultCacheSize : Z := 20000.
Definition defaultStaleFor : Z := hour.
Definition staleTTL : Z := 30.

Record cacheEntry := { ce_msg : Msg; ce_expiresAt : Z }.

Definition setTTL (rrs : list RR) (ttl : Z) : list RR := rr_set_ttl ttl <$> rrs.

(** [(ce *cacheEntry) reply(r, ttl)]: the copy of the message, readdressed. *)
Definition cache_reply (ce : cacheEntry) (r : Msg) (ttl : Z) : Msg :=
  let m := ce_msg ce in {|
    m_Id := m_Id r; m_Response := true; m_Rcode := m_Rcode m; m_Truncated := m_Truncated m;
    m_flags := m_flags m; m_Question := m_Question r;
    m_Answer := setTTL (m_Answer m) ttl; m_Ns := setTTL (m_Ns m) ttl; m_Extra := m_Extra m |}.

Record lruItem := { it_key : string; it_entry : cacheEntry }.

Record answerCache := {
  c_max : Z;
  c_staleFor : Z;
  c_ll : list positive;
  c_heap : gmap positive lruItem;
  c_items : gmap string positive;
}.

Definition newAnswerCache (max staleFor : Z) : answerCache := {|
  c_max := if max <=? 0 then defaultCacheSize else max;
  c_staleFor := if staleFor <=? 0 then defaultStaleFor else staleFor;
  c_ll := []; c_heap := ∅; c_items := ∅ |}.

Definition cacheKey `{U : GoUnicode} (q : Question) : string :=
  (ToLower (q_Name q) +:+ "|" +:+ Itoa (q_Qtype q) +:+ "|" +:+ Itoa (q_Qclass q))%string.

(** The loop of [minTTL]; [None] while [first] holds. *)
Definition minTTL_step (acc : option Z) (rr : RR) : option Z :=
  let t := rr_ttl rr in
  match acc with
  | None => Some t
  | Some m => if t <? m then Some t else acc
  end.

Definition minTTL (msg : Msg) : Z :=
  match foldl minTTL_step None (m_Answer msg) with None => 0 | Some m => m end.

(** [container/list] *)
Definition move_to_front (ll : list positive) (el : positive) : list positive :=
  el :: List.filter (λ x, negb (bool_decide (x = el))) ll.
Definition list_remove_el (ll : list positive) (el : positive) : list positive :=
  List.filter (λ x, negb (bool_decide (x = el))) ll.

Definition evictOldest (c : answerCache) : answerCache :=
  match last (c_ll c) with
  | None => c
  | Some el => {|
      c_max := c_max c; c_staleFor := c_staleFor c;
      c_ll := list_remove_el (c_ll c) el; c_heap := delete el (c_heap c);
      c_items := match c_heap c !! el with
                 | Some it => delete (it_key it) (c_items c)
                 | None => c_items c
                 end |}
  end.

Definition Put (now : Z) (key : string) (msg : Msg) (c : answerCache) : answerCache :=
  let ttl := minTTL msg in
  if ttl =? 0 then c else
  let ent := {| ce_msg := msg; ce_expiresAt := now + ttl * second |} in
  match c_items c !! key with
  | Some el => {|
      c_max := c_max c; c_staleFor := c_staleFor c;
      c_ll := move_to_front (c_ll c) el;
      c_heap := alter (λ it, {| it_key := it_key it; it_entry := ent |}) el (c_heap c);
      c_items := c_items c |}
  | None =>
      let el := fresh (dom (c_heap c)) in
      let c' := {|
        c_max := c_max c; c_staleFor := c_staleFor c;
        c_ll := el :: c_ll c;
        c_heap := <[el := {| it_key := key; it_entry := ent |}]> (c_heap c);
        c_items := <[key := el]> (c_items c) |} in
      if c_max c' <? Z.of_nat (length (c_ll c')) then evictOldest c' else c'
  end.

Definition touch (c : answerCache) (el : positive) : answerCache := {|
  c_max := c_max c; c_staleFor := c_staleFor c; c_ll := move_to_front (c_ll c) el;
  c_heap := c_heap c; c_items := c_items c |}.

(** Lookups return the entry and the cache after the call. *)
Definition Get (now : Z) (key : string) (c : answerCache) : option cacheEntry * answerCache :=
  match c_items c !! key with
  | None => (None, c)
  | Some el =>
      match c_heap c !! el with
      | None => (None, c)
      | Some it =>
          if ce_expiresAt (it_entry it) <? now then (None, c)
          else (Some (it_entry it), touch c el)
      end
  end.

Definition GetStale (now : Z) (key : string) (c : answerCache) : option cacheEntry * answerCache :=
  match c_items c !! key with
  | None => (None, c)
  | Some el =>
      match c_heap c !! el with
      | None => (None, c)
      | Some it =>
          if ce_expiresAt (it_entry it) + c_staleFor c <? now
          then (None, {|
            c_max := c_max c; c_staleFor := c_staleFor c;
            c_ll := list_remove_el (c_ll c) el; c_heap := delete el (c_heap c);
            c_items := delete (it_key it) (c_items c) |})
          else (Some (it_entry it), touch c el)
      end
  end.

(** ** The specification: an association list, most recently used first *)

Definition alist : Type := list (string * cacheEntry).

Definition alist_find (k : string) (l : alist) : option cacheEntry :=
  first_match (λ p, if bool_decide (p.1 = k) then Some p.2 else None) l.
Definition alist_remove (k : string) (l : alist) : alist :=
  List.filter (λ p, negb (bool_decide (p.1 = k))) l.

Inductive cache_op :=
| OpPut (now : Z) (key : string) (msg : Msg)
| OpGet (now : Z) (key : string)
| OpGetStale (now : Z) (key : string).

Definition cache_step (op : cache_op) (c : answerCache) : option cacheEntry * answerCache :=
  match op with
  | OpPut now k m => (None, Put now k m c)
  | OpGet now k => Get now k c
  | OpGetStale now k => GetStale now k c
  end.

Definition alist_step (max staleFor : Z) (op : cache_op) (l : alist)
  : option cacheEntry * alist :=
  match op with
  | OpPut now k m =>
      if minTTL m =? 0 then (None, l) else
      (None, take (Z.to_nat max)
        ((k, {| ce_msg := m; ce_expiresAt := now + minTTL m * second |}) :: alist_remove k l))
  | OpGet now k =>
      match alist_find k l with
      | Some e => if ce_expiresAt e <? now then (None, l) else (Some e, (k, e) :: alist_remove k l)
      | None => (None, l)
      end
  | OpGetStale now k =>
      match alist_find k l with
      | Some e => if ce_expiresAt e + staleFor <? now then (None, alist_remove k l)
                  else (Some e, (k, e) :: alist_remove k l)
      | None => (None, l)
      end
  end.

(** Runs: the answers of a sequence of operations, and the final state. *)
Fixpoint cache_run (ops : list cache_op) (c : answerCache)
  : list (option cacheEntry) * answerCache :=
  match ops with
  | [] => ([], c)
  | op :: ops' => let '(o, c') := cache_step op c in
                  let '(os, c'') := cache_run ops' c' in (o :: os, c'')
  end.

Fixpoint alist_run (max staleFor : Z) (ops : list cache_op) (l : alist)
  : list (option cacheEntry) * alist :=
  match ops with
  | [] => ([], l)
  | op :: ops' => let '(o, l') := alist_step max staleFor op l in
                  let '(os, l'') := alist_run max staleFor ops' l' in (o :: os, l'')
  end.

(** ** The invariant and the abstraction *)

Definition item_pair (it : lruItem) : string * cacheEntry := (it_key it, it_entry it).
Definition view (h : gmap positive lruItem) (ll : list positive) : alist :=
  omap (λ el, item_pair <$> h !! el) ll.
Definition cache_view (c : answerCache) : alist := view (c_heap c) (c_ll c).

Record cache_inv (c : answerCache) : Prop := {
  ci_max : 0 < c_max c;
  ci_nodup : NoDup (c_ll c);
  ci_heap : ∀ el, el ∈ c_ll c ↔ is_Some (c_heap c !! el);
  ci_items : ∀ k el, c_items c !! k = Some el ↔ ∃ it, c_heap c !! el = Some it ∧ it_key it = k;
  ci_size : Z.of_nat (length (c_ll c)) ≤ c_max c;
}.

(** ** Lemmas on the linked list *)

Lemma elem_remove_el ll el x : x ∈ list_remove_el ll el ↔ x ∈ ll ∧ x ≠ el.
Proof.
  unfold list_remove_el. rewrite !list_elem_of_In, filter_In, negb_true_iff, bool_decide_eq_false.
  done.
Qed.

Lemma remove_el_notin ll el : el ∉ ll → list_remove_el ll el = ll.
Proof.
  unfold list_remove_el. induction ll as [|x ll IH]; simpl; [done|]. intros H.
  rewrite bool_decide_eq_false_2 by set_solver. simpl. rewrite IH; [done|set_solver].
Qed.

Lemma NoDup_remove_el ll el : NoDup ll → NoDup (list_remove_el ll el).
Proof.
  intros H. induction H as [|x ll Hx H IH]; simpl; [constructor|].
  destruct (bool_decide _); simpl; [done|]. constructor; [|done].
  fold (list_remove_el ll el). rewrite elem_remove_el. tauto.
Qed.

Lemma length_remove_el ll el : (length (list_remove_el ll el) ≤ length ll)%nat.
Proof. apply filter_length_le. Qed.

Lemma length_remove_el_in ll el :
  el ∈ ll → (length (list_remove_el ll el) < length ll)%nat.
Proof.
  induction ll as [|x ll IH]; [by intros ?%not_elem_of_nil|]. simpl.
  pose proof (length_remove_el ll el). unfold list_remove_el in *.
  intros [->|Hin]%elem_of_cons.
  - rewrite bool_decide_eq_true_2 by done. simpl. lia.
  - destruct (bool_decide _); simpl; [lia|]. specialize (IH Hin). lia.
Qed.

Lemma remove_el_last ll x : NoDup (ll ++ [x]) → list_remove_el (ll ++ [x]) x = ll.
Proof.
  intros (_ & Hx & _)%NoDup_app. unfold list_remove_el. rewrite List.filter_app. simpl.
  rewrite bool_decide_eq_true_2 by done. simpl. rewrite app_nil_r. apply remove_el_notin.
  intros Hin. apply (Hx x); set_solver.
Qed.

(** ** Lemmas on the view *)

Lemma view_cons h el ll it :
  h !! el = Some it → view h (el :: ll) = item_pair it :: view h ll.
Proof. intros H. unfold view; simpl. by rewrite H. Qed.

Lemma view_ext h h' ll : (∀ el, el ∈ ll → h !! el = h' !! el) → view h ll = view h' ll.
Proof.
  unfold view. induction ll as [|x ll IH]; csimpl; [done|]. intros H.
  rewrite (H x), IH; [done| |]; intros; try apply H; set_solver.
Qed.

Lemma view_length h ll : (∀ el, el ∈ ll → is_Some (h !! el)) → length (view h ll) = length ll.
Proof.
  induction ll as [|x ll IH]; [done|]. intros H.
  destruct (H x) as [it Hit]; [set_solver|]. rewrite (view_cons _ _ _ _ Hit). simpl.
  rewrite IH; [done|]. intros; apply H; set_solver.
Qed.

Lemma view_app h l1 l2 : view h (l1 ++ l2) = view h l1 ++ view h l2.
Proof. apply omap_app. Qed.

Lemma view_remove h ll el k :
  (∀ x, x ∈ ll → ∃ it, h !! x = Some it ∧ (it_key it = k ↔ x = el)) →
  view h (list_remove_el ll el) = alist_remove k (view h ll).
Proof.
  induction ll as [|x ll IH]; [done|]. intros H.
  destruct (H x) as (it & Hit & Hk); [set_solver|].
  rewrite (view_cons _ _ _ _ Hit). unfold alist_remove, list_remove_el in *; simpl.
  destruct (decide (x = el)) as [Hx|Hx].
  - rewrite !bool_decide_eq_true_2 by tauto. cbn [negb]. apply IH. set_solver.
  - rewrite !bool_decide_eq_false_2 by tauto. cbn [negb].
    rewrite (view_cons _ _ _ _ Hit). f_equal. apply IH. set_solver.
Qed.

Lemma alist_remove_none k l : alist_find k l = None → alist_remove k l = l.
Proof.
  unfold alist_find, alist_remove. induction l as [|[k' e] l IH]; simpl; [done|].
  case_bool_decide; [done|]. simpl. intros Hn. by rewrite IH.
Qed.

Section Inv.
Context (c : answerCache) (Hc : cache_inv c).

Lemma inv_keys k el :
  c_items c !! k = Some el →
  ∀ x, x ∈ c_ll c → ∃ it, c_heap c !! x = Some it ∧ (it_key it = k ↔ x = el).
Proof.
  intros Hk x Hx. apply (ci_heap _ Hc) in Hx as [it Hit]. exists it. split; [done|]. split.
  - intros Hkey. assert (c_items c !! k = Some x) by (apply (ci_items _ Hc); eauto). congruence.
  - intros ->. apply (ci_items _ Hc) in Hk as (it' & ? & ?). congruence.
Qed.

Lemma inv_find_None k : c_items c !! k = None → alist_find k (cache_view c) = None.
Proof.
  intros Hk. unfold alist_find. apply first_match_None, Forall_forall. intros [k' e] Hin.
  unfold cache_view, view in Hin. apply list_elem_of_omap in Hin as (x & Hx & Hp).
  destruct (c_heap c !! x) as [it|] eqn:Hit; [|done]. injection Hp as <- <-. cbn [fst snd].
  case_bool_decide as Hkey; [|done].
  assert (c_items c !! k = Some x) by (apply (ci_items _ Hc); eauto). congruence.
Qed.

Lemma inv_find_Some k el it :
  c_items c !! k = Some el → c_heap c !! el = Some it →
  alist_find k (cache_view c) = Some (it_entry it).
Proof.
  intros Hk Hit.
  assert (el ∈ c_ll c) as Hin by (apply (ci_heap _ Hc); eauto).
  apply list_elem_of_split in Hin as (l1 & l2 & Hl).
  pose proof (inv_keys _ _ Hk) as Hkeys. pose proof (ci_nodup _ Hc) as Hnd. rewrite Hl in Hkeys, Hnd.
  unfold cache_view. rewrite Hl, view_app, (view_cons _ _ _ _ Hit).
  unfold alist_find. apply first_match_Some. do 3 eexists. split; [done|]. split.
  - simpl. destruct (Hkeys el) as (it' & ? & ?); [set_solver|].
    assert (it' = it) as -> by congruence. by rewrite bool_decide_eq_true_2 by naive_solver.
  - apply Forall_forall. intros [k' e] Hin. unfold view in Hin.
    apply list_elem_of_omap in Hin as (x & Hx & Hp).
    destruct (Hkeys x) as (it' & Hit' & Hiff); [set_solver|]. rewrite Hit' in Hp. injection Hp as <- <-. cbn [fst snd].
    rewrite bool_decide_eq_false_2; [done|]. rewrite Hiff. intros ->.
    apply NoDup_app in Hnd as (_ & Hd & _). apply (Hd el Hx). set_solver.
Qed.

Lemma inv_heap_items k el : c_items c !! k = Some el → ∃ it, c_heap c !! el = Some it ∧ it_key it = k.
Proof. apply (ci_items _ Hc). Qed.

Lemma touch_view k el it :
  c_items c !! k = Some el → c_heap c !! el = Some it →
  cache_view (touch c el) = (k, it_entry it) :: alist_remove k (cache_view c).
Proof.
  intros Hk Hit. unfold cache_view, touch, move_to_front. cbn [c_heap c_ll].
  rewrite (view_cons _ _ _ _ Hit). fold (list_remove_el (c_ll c) el).
  rewrite (view_remove _ _ _ k) by (by apply inv_keys).
  unfold item_pair. apply inv_heap_items in Hk as (it' & ? & <-). congruence.
Qed.

Lemma length_move_to_front el : el ∈ c_ll c → (length (move_to_front (c_ll c) el) ≤ length (c_ll c))%nat.
Proof. intros H. apply length_remove_el_in in H. simpl. unfold list_remove_el in H. lia. Qed.

Lemma elem_move_to_front ll el x : el ∈ ll → x ∈ move_to_front ll el ↔ x ∈ ll.
Proof.
  intros H. unfold move_to_front. fold (list_remove_el ll el).
  rewrite elem_of_cons, elem_remove_el. destruct (decide (x = el)); naive_solver.
Qed.

Lemma NoDup_move_to_front ll el : NoDup ll → NoDup (move_to_front ll el).
Proof.
  intros H. unfold move_to_front. fold (list_remove_el ll el). constructor.
  - rewrite elem_remove_el. tauto.
  - by apply NoDup_remove_el.
Qed.

Lemma touch_inv k el : c_items c !! k = Some el → cache_inv (touch c el).
Proof.
  intros Hk. apply inv_heap_items in Hk as (it & Hit & _).
  assert (el ∈ c_ll c) as Hin by (apply (ci_heap _ Hc); eauto).
  split; cbn [touch c_max c_ll c_heap c_items];
    [apply Hc|by apply NoDup_move_to_front, Hc| |apply Hc|].
  - intros x. rewrite elem_move_to_front by done. apply Hc.
  - pose proof (ci_size _ Hc). pose proof (length_move_to_front el Hin). lia.
Qed.

(** Dropping an element together with its key. *)
Definition drop_el (el : positive) (k : string) : answerCache := {|
  c_max := c_max c; c_staleFor := c_staleFor c; c_ll := list_remove_el (c_ll c) el;
  c_heap := delete el (c_heap c); c_items := delete k (c_items c) |}.

Lemma drop_el_view el k :
  c_items c !! k = Some el → cache_view (drop_el el k) = alist_remove k (cache_view c).
Proof.
  intros Hk. unfold cache_view, drop_el. cbn [c_heap c_ll].
  rewrite <- (view_remove _ _ el k) by (by apply inv_keys).
  apply view_ext. intros x (_ & Hx)%elem_remove_el. by rewrite lookup_delete_ne.
Qed.

Lemma drop_el_inv el k : c_items c !! k = Some el → cache_inv (drop_el el k).
Proof.
  intros Hk. split; simpl; [apply Hc|by apply NoDup_remove_el, Hc| | |].
  - intros x. rewrite elem_remove_el, (ci_heap _ Hc).
    destruct (decide (x = el)) as [->|].
    + rewrite lookup_delete_eq. split; [tauto|by intros []].
    + rewrite lookup_delete_ne by done. tauto.
  - intros k' x. destruct (decide (k' = k)) as [->|].
    + rewrite lookup_delete_eq. split; [done|]. intros (it & Hit & Hkey).
      apply lookup_delete_Some in Hit as [Hne Hit].
      assert (c_items c !! k = Some x) by (apply (ci_items _ Hc); eauto). congruence.
    + rewrite lookup_delete_ne by done. rewrite (ci_items _ Hc).
      setoid_rewrite lookup_delete_Some. split; [|naive_solver].
      intros (it & Hit & Hkey). exists it. repeat split; try done. intros ->.
      apply inv_heap_items in Hk as (? & ? & ?). congruence.
  - pose proof (ci_size _ Hc). pose proof (length_remove_el (c_ll c) el). lia.
Qed.

Lemma cache_view_length : length (cache_view c) = length (c_ll c).
Proof. apply view_length. intros el. apply (ci_heap _ Hc). Qed.

Lemma evictOldest_eq ll el :
  c_ll c = ll ++ [el] → ∃ k, c_items c !! k = Some el ∧ evictOldest c = drop_el el k.
Proof.
  intros Hll. assert (is_Some (c_heap c !! el)) as [it Hit]
    by (apply (ci_heap _ Hc); rewrite Hll; set_solver).
  exists (it_key it). split; [apply (ci_items _ Hc); eauto|].
  unfold evictOldest, drop_el. by rewrite Hll, last_snoc, Hit.
Qed.

(** Writing a key that is present. *)
Definition overwrite (el : positive) (ent : cacheEntry) : answerCache := {|
  c_max := c_max c; c_staleFor := c_staleFor c; c_ll := move_to_front (c_ll c) el;
  c_heap := alter (λ it, {| it_key := it_key it; it_entry := ent |}) el (c_heap c);
  c_items := c_items c |}.

Lemma overwrite_view k el ent :
  c_items c !! k = Some el →
  cache_view (overwrite el ent) = (k, ent) :: alist_remove k (cache_view c).
Proof.
  intros Hk. pose proof (inv_heap_items _ _ Hk) as (it & Hit & Hkey).
  unfold cache_view, overwrite, move_to_front. cbn [c_heap c_ll].
  rewrite (view_cons _ _ _ {| it_key := it_key it; it_entry := ent |})
    by (by rewrite lookup_alter_eq, Hit).
  fold (list_remove_el (c_ll c) el). rewrite <- (view_remove _ _ el k) by (by apply inv_keys).
  unfold item_pair at 1. cbn [it_key it_entry]. rewrite Hkey. f_equal.
  apply view_ext. intros x (_ & Hx)%elem_remove_el. by rewrite lookup_alter_ne.
Qed.

Lemma overwrite_inv k el ent : c_items c !! k = Some el → cache_inv (overwrite el ent).
Proof.
  intros Hk. pose proof (inv_heap_items _ _ Hk) as (it & Hit & Hkey).
  assert (el ∈ c_ll c) as Hin by (apply (ci_heap _ Hc); eauto).
  split; cbn [overwrite c_max c_ll c_heap c_items];
    [apply Hc|by apply NoDup_move_to_front, Hc| | |].
  - intros x. rewrite elem_move_to_front by done. rewrite (ci_heap _ Hc).
    destruct (decide (x = el)) as [->|];
      [rewrite lookup_alter_eq, Hit; by split|by rewrite lookup_alter_ne].
  - intros k' x. rewrite (ci_items _ Hc). destruct (decide (x = el)) as [->|].
    + rewrite lookup_alter_eq, Hit. simpl. naive_solver.
    + by rewrite lookup_alter_ne.
  - pose proof (ci_size _ Hc). pose proof (length_move_to_front el Hin). lia.
Qed.

(** Adding a key that is absent, before any eviction. *)
Definition push (k : string) (ent : cacheEntry) : answerCache :=
  let el := fresh (dom (c_heap c)) in {|
  c_max := c_max c; c_staleFor := c_staleFor c; c_ll := el :: c_ll c;
  c_heap := <[el := {| it_key := k; it_entry := ent |}]> (c_heap c);
  c_items := <[k := el]> (c_items c) |}.

Lemma fresh_el : c_heap c !! fresh (dom (c_heap c)) = None.
Proof. apply not_elem_of_dom, is_fresh. Qed.

Lemma push_view k ent : cache_view (push k ent) = (k, ent) :: cache_view c.
Proof.
  unfold cache_view, push. cbn [c_heap c_ll].
  rewrite (view_cons _ _ _ _ (lookup_insert_eq _ _ _)). unfold item_pair at 1. cbn. f_equal.
  apply view_ext. intros x Hx%(ci_heap _ Hc). rewrite lookup_insert_ne; [done|].
  intros <-. rewrite fresh_el in Hx. by destruct Hx.
Qed.

Lemma push_inv k ent :
  c_items c !! k = None → Z.of_nat (length (c_ll c)) < c_max c → cache_inv (push k ent).
Proof.
  intros Hk Hsz. split; cbn [push c_max c_ll c_heap c_items]; [apply Hc| | | |simpl; lia].
  - constructor; [|apply Hc]. rewrite (ci_heap _ Hc), fresh_el. by intros [].
  - intros x. rewrite elem_of_cons, (ci_heap _ Hc), lookup_insert_is_Some'. naive_solver.
  - intros k' x. rewrite lookup_insert_Some, (ci_items _ Hc).
    setoid_rewrite lookup_insert_Some. split.
    + intros [[-> <-]|(Hne & it & Hit & Hkey)].
      * eexists. split; [left; by split|done].
      * exists it. split; [|done]. right. split; [|done]. intros <-. by rewrite fresh_el in Hit.
    + intros (it & [[<- <-]|[Hne Hit]] & Hkey); [by left|right].
      split; [|eauto]. intros ->. assert (c_items c !! k' = Some x) by (apply (ci_items _ Hc); eauto).
      congruence.
Qed.
End Inv.

(** The whole of a [push] followed by the eviction, when the list is full. *)
Lemma push_full_eq c k ent :
  cache_inv c → c_items c !! k = None → c_max c ≤ Z.of_nat (length (c_ll c)) →
  let c' := evictOldest (push c k ent) in
  cache_inv c' ∧ cache_view c' = take (Z.to_nat (c_max c)) ((k, ent) :: cache_view c).
Proof.
  intros Hc Hk Hfull. pose proof (ci_max _ Hc) as Hm. pose proof (ci_size _ Hc) as Hs.
  (* with one more slot the pushed cache is well formed, and evicting ignores the bound *)
  set (c1 := {| c_max := c_max c + 1; c_staleFor := c_staleFor c; c_ll := c_ll c;
                c_heap := c_heap c; c_items := c_items c |}).
  assert (Hc1 : cache_inv c1) by (destruct Hc; split; simpl in *; auto with lia).
  assert (Hp : cache_inv (push c1 k ent)) by (apply push_inv; simpl; auto with lia).
  assert (∃ ll el, c_ll (push c1 k ent) = ll ++ [el]) as (ll & el & Hll).
  { destruct (exists_last (l:=c_ll (push c1 k ent))) as (ll & el & ?); [done|eauto]. }
  destruct (evictOldest_eq _ Hp ll el Hll) as (k' & Hk' & Hev).
  pose proof (drop_el_inv _ Hp _ _ Hk') as Hinv. pose proof (drop_el_view _ Hp _ _ Hk') as Hv.
  assert (Hlen : length (list_remove_el (c_ll (push c1 k ent)) el) = length (c_ll c)).
  { rewrite Hll, remove_el_last by (rewrite <- Hll; apply Hp).
    apply (f_equal length) in Hll. rewrite length_app in Hll. simpl in Hll. lia. }
  assert (Heq : evictOldest (push c k ent)
    = {| c_max := c_max c; c_staleFor := c_staleFor c;
         c_ll := c_ll (drop_el (push c1 k ent) el k');
         c_heap := c_heap (drop_el (push c1 k ent) el k');
         c_items := c_items (drop_el (push c1 k ent) el k') |}).
  { rewrite <- Hev. unfold evictOldest. change (c_ll (push c k ent)) with (c_ll (push c1 k ent)).
    rewrite Hll, last_snoc. done. }
  cbn zeta. rewrite Heq. split.
  - destruct Hinv; split; simpl in *; auto. rewrite Hlen. lia.
  - transitivity (cache_view (drop_el (push c1 k ent) el k')); [done|].
    transitivity (view (c_heap (push c1 k ent)) ll).
    + unfold cache_view, drop_el. cbn [c_heap c_ll]. rewrite Hll, remove_el_last by (rewrite <- Hll; apply Hp).
      apply view_ext. intros x Hx. rewrite lookup_delete_ne; [done|]. intros <-.
      pose proof (ci_nodup _ Hp) as Hnd. rewrite Hll in Hnd.
      apply NoDup_app in Hnd as (_ & Hd & _). apply (Hd _ Hx). set_solver.
    + change (cache_view c) with (cache_view c1). rewrite <- (push_view c1 Hc1).
      unfold cache_view. rewrite Hll, view_app, take_app_length'; [done|].
      rewrite view_length.
      * apply (f_equal length) in Hll. rewrite length_app in Hll. simpl in Hll. lia.
      * intros x Hx. apply (ci_heap _ Hp). rewrite Hll. set_solver.
Qed.

(** ** Refinement *)

Lemma alist_remove_length_le k (l : alist) : (length (alist_remove k l) ≤ length l)%nat.
Proof. apply filter_length_le. Qed.

Lemma alist_find_remove_length k e (l : alist) :
  alist_find k l = Some e → (length (alist_remove k l) < length l)%nat.
Proof.
  unfold alist_find, alist_remove. induction l as [|[k' e'] l IH]; simpl; [done|].
  case_bool_decide; simpl.
  - intros _. pose proof (alist_remove_length_le k l). unfold alist_remove in *. lia.
  - intros ?%IH. lia.
Qed.

Lemma Put_refines now k m c :
  cache_inv c → minTTL m ≠ 0 →
  cache_inv (Put now k m c) ∧
  cache_view (Put now k m c) = take (Z.to_nat (c_max c))
    ((k, {| ce_msg := m; ce_expiresAt := now + minTTL m * second |}) :: alist_remove k (cache_view c)).
Proof.
  intros Hc Hm. unfold Put. rewrite (proj2 (Z.eqb_neq _ _) Hm).
  set (ent := {| ce_msg := m; ce_expiresAt := _ |}).
  pose proof (ci_size _ Hc) as Hs. destruct (c_items c !! k) as [el|] eqn:Hk.
  - fold (overwrite c el ent). split; [by eapply overwrite_inv|].
    rewrite (overwrite_view c Hc k) by done. rewrite take_ge; [done|].
    pose proof (inv_heap_items _ Hc _ _ Hk) as (it & Hit & _).
    pose proof (alist_find_remove_length _ _ _ (inv_find_Some _ Hc _ _ _ Hk Hit)) as Hlt.
    rewrite cache_view_length in Hlt by done. simpl. lia.
  - fold (push c k ent). cbv zeta. fold (push c k ent).
    rewrite (alist_remove_none _ _ (inv_find_None _ Hc _ Hk)).
    cbn [push c_max c_ll]. destruct (Z.ltb_spec (c_max c) (Z.of_nat (length (fresh (dom (c_heap c)) :: c_ll c))))
      as [Hlt|Hge]; simpl in *.
    + apply push_full_eq; [done..|lia].
    + change (cache_inv (push c k ent) ∧ cache_view (push c k ent)
              = take (Z.to_nat (c_max c)) ((k, ent) :: cache_view c)).
      rewrite push_view by done. split; [apply push_inv; [done..|lia]|].
      rewrite take_ge; [done|]. simpl. rewrite cache_view_length by done. lia.
Qed.

Lemma cache_step_refines op c :
  cache_inv c →
  let '(o, c') := cache_step op c in
  alist_step (c_max c) (c_staleFor c) op (cache_view c) = (o, cache_view c') ∧ cache_inv c' ∧
  c_max c' = c_max c ∧ c_staleFor c' = c_staleFor c.
Proof.
  intros Hc. destruct op as [now k m|now k|now k]; simpl.
  - destruct (Z.eqb_spec (minTTL m) 0) as [E|E].
    + unfold Put. by rewrite E.
    + destruct (Put_refines now k m c Hc E) as [H1 H2]. rewrite H2. split; [done|]. split; [done|].
      unfold Put, evictOldest. split; repeat (case_match; simpl; try done).
  - unfold Get. destruct (c_items c !! k) as [el|] eqn:Hk.
    + pose proof (inv_heap_items _ Hc _ _ Hk) as (it & Hit & _). rewrite Hit.
      rewrite (inv_find_Some _ Hc _ _ _ Hk Hit). destruct (_ <? now); [done|].
      split; [|split; [by eapply touch_inv|done]]. by rewrite (touch_view _ Hc _ _ _ Hk Hit).
    + by rewrite inv_find_None.
  - unfold GetStale. destruct (c_items c !! k) as [el|] eqn:Hk.
    + pose proof (inv_heap_items _ Hc _ _ Hk) as (it & Hit & Hkey). rewrite Hit, Hkey.
      rewrite (inv_find_Some _ Hc _ _ _ Hk Hit). fold (drop_el c el k). destruct (_ <? now).
      * split; [|split; [by apply drop_el_inv|done]]. by rewrite drop_el_view.
      * split; [|split; [by eapply touch_inv|done]]. by rewrite (touch_view _ Hc _ _ _ Hk Hit).
    + by rewrite inv_find_None.
Qed.

Lemma cache_run_refines ops c :
  cache_inv c →
  let '(os, c') := cache_run ops c in
  alist_run (c_max c) (c_staleFor c) ops (cache_view c) = (os, cache_view c') ∧ cache_inv c' ∧
  c_max c' = c_max c ∧ c_staleFor c' = c_staleFor c.
Proof.
  revert c. induction ops as [|op ops IH]; intros c Hc; simpl; [done|].
  pose proof (cache_step_refines op c Hc) as H. destruct (cache_step op c) as [o c'].
  destruct H as (H & Hc' & Hm & Hs). rewrite H.
  specialize (IH c' Hc'). destruct (cache_run ops c') as [os c''].
  rewrite Hm, Hs in IH. destruct IH as (-> & ? & ? & ?). done.
Qed.

Lemma newAnswerCache_inv max staleFor : cache_inv (newAnswerCache max staleFor).
Proof.
  split; cbn [newAnswerCache c_max c_ll c_heap c_items].
  - destruct (Z.leb_spec max 0); [done|lia].
  - constructor.
  - intros el. rewrite lookup_empty. split; [by intros ?%not_elem_of_nil|by intros []].
  - intros k el. rewrite lookup_empty. split; [done|]. intros (it & Hit & _).
    by rewrite lookup_empty in Hit.
  - simpl. destruct (Z.leb_spec max 0); [done|lia].
Qed.

(** What the last [Put] of a key in a run stored. *)
Definition last_put_step (k : string) (acc : option cacheEntry) (op : cache_op) : option cacheEntry :=
  match op with
  | OpPut now k' m =>
      if bool_decide (k' = k) && negb (minTTL m =? 0)
      then Some {| ce_msg := m; ce_expiresAt := now + minTTL m * second |} else acc
  | _ => acc
  end.
Definition last_put (ops : list cache_op) (k : string) : option cacheEntry :=
  foldl (last_put_step k) None ops.

Definition alist_sound (l : alist) (f : string → option cacheEntry) : Prop :=
  ∀ k e, (k, e) ∈ l → f k = Some e.

Lemma elem_alist_remove k k' e (l : alist) : (k', e) ∈ alist_remove k l → (k', e) ∈ l ∧ k' ≠ k.
Proof.
  unfold alist_remove. rewrite !list_elem_of_In, filter_In, negb_true_iff, bool_decide_eq_false.
  done.
Qed.

Lemma alist_find_elem k e (l : alist) : alist_find k l = Some e → (k, e) ∈ l.
Proof.
  unfold alist_find. intros (l1 & [k' e'] & l2 & -> & H & _)%first_match_Some. simpl in H.
  case_bool_decide; simplify_eq. set_solver.
Qed.

Lemma elem_take_weaken {A} (x : A) n l : x ∈ take n l → x ∈ l.
Proof. intros H. rewrite <- (take_drop n l). set_solver. Qed.

Lemma alist_step_sound max sf op l f :
  alist_sound l f → alist_sound (alist_step max sf op l).2 (λ k, last_put_step k (f k) op).
Proof.
  intros H. destruct op as [now k m|now k|now k]; simpl.
  - destruct (Z.eqb_spec (minTTL m) 0) as [E|E]; simpl.
    + intros k' e Hin. rewrite andb_false_r. exact (H _ _ Hin).
    + intros k' e [[= -> ->]|Hin]%elem_take_weaken%elem_of_cons.
      * by rewrite bool_decide_eq_true_2.
      * apply elem_alist_remove in Hin as [Hin Hne].
        rewrite bool_decide_eq_false_2 by done. exact (H _ _ Hin).
  - destruct (alist_find k l) as [e|] eqn:E; [|done]. case_match; [done|].
    intros k' e' [[= -> ->]|Hin]%elem_of_cons; [by apply H, alist_find_elem|].
    apply elem_alist_remove in Hin as [Hin _]. exact (H _ _ Hin).
  - destruct (alist_find k l) as [e|] eqn:E; [|done]. case_match.
    + intros k' e' [Hin _]%elem_alist_remove. exact (H _ _ Hin).
    + intros k' e' [[= -> ->]|Hin]%elem_of_cons; [by apply H, alist_find_elem|].
      apply elem_alist_remove in Hin as [Hin _]. exact (H _ _ Hin).
Qed.

Lemma alist_run_sound max sf ops l f :
  alist_sound l f →
  alist_sound (alist_run max sf ops l).2 (λ k, foldl (last_put_step k) (f k) ops).
Proof.
  revert l f. induction ops as [|op ops IH]; intros l f H; simpl; [done|].
  pose proof (alist_step_sound max sf op l f H) as Hs.
  destruct (alist_step max sf op l) as [o l']. specialize (IH l' _ Hs).
  by destruct (alist_run max sf ops l').
Qed.

(** C12. The cache is its specification: over any sequence of calls on a new cache,
    the map-and-linked-list code answers as the recency-ordered association list
    cut at the size bound does, and ends in a well-formed state that holds the same
    entries. In particular the size bound holds after every call. *)
Theorem answerCache_refines max staleFor ops :
  let c0 := newAnswerCache max staleFor in
  let '(os, c) := cache_run ops c0 in
  alist_run (c_max c0) (c_staleFor c0) ops [] = (os, cache_view c) ∧
  cache_inv c ∧ Z.of_nat (length (cache_view c)) ≤ c_max c0.
Proof.
  cbv zeta. pose proof (cache_run_refines ops _ (newAnswerCache_inv max staleFor)) as H.
  destruct (cache_run ops _) as [os c]. destruct H as (H & Hc & Hm & _).
  split; [exact H|]. split; [done|]. rewrite cache_view_length by done. rewrite <- Hm. apply Hc.
Qed.

(** A stale answer is the message of the last cached response for that name,
    type and class, and never one that is further past its expiry than the stale
    window. *)
Theorem GetStale_sound max staleFor ops now k e :
  let c0 := newAnswerCache max staleFor in
  (GetStale now k (cache_run ops c0).2).1 = Some e →
  last_put ops k = Some e ∧ now ≤ ce_expiresAt e + c_staleFor c0.
Proof.
  cbv zeta. pose proof (cache_run_refines ops _ (newAnswerCache_inv max staleFor)) as H.
  destruct (cache_run ops _) as [os c]. destruct H as (H & Hc & Hm & Hs). cbn [snd].
  pose proof (cache_step_refines (OpGetStale now k) c Hc) as Hst. cbn [cache_step] in Hst.
  destruct (GetStale now k c) as [o c']. destruct Hst as (Hst & _). intros Ho. simpl in Ho. subst o.
  cbn [alist_step] in Hst. destruct (alist_find k (cache_view c)) as [e'|] eqn:Hf; [|done].
  destruct (Z.ltb_spec (ce_expiresAt e' + c_staleFor c) now); simplify_eq. split.
  - apply alist_find_elem in Hf.
    pose proof (alist_run_sound (c_max (newAnswerCache max staleFor))
      (c_staleFor (newAnswerCache max staleFor)) ops [] (λ _, None)) as Hsound.
    change [] with (cache_view (newAnswerCache max staleFor)) in Hsound at 2.
    rewrite H in Hsound. apply Hsound; [by intros ?? ?%not_elem_of_nil|exact Hf].
  - rewrite <- Hs. lia.
Qed.

Definition ex_cached : Msg :=
  set_answer empty_msg [RR_A {| h_Name := "a.com."; h_Ttl := 60 |} [1; 2; 3; 4]].

Lemma GetStale_sound_witness :
  last_put [OpPut 0 "k" ex_cached; OpGet (90 * second) "k"] "k"
    = Some {| ce_msg := ex_cached; ce_expiresAt := 60 * second |} ∧
  100 * second ≤ 60 * second + hour.
Proof.
  apply (GetStale_sound 10 0 [OpPut 0 "k" ex_cached; OpGet (90 * second) "k"] (100 * second) "k"
           {| ce_msg := ex_cached; ce_expiresAt := 60 * second |}).
  vm_compute. reflexivity.
Defined.
