(* ===== verification/RateLimiter.v ===== *)
(** * Per-client rate limiting

    [internal/dnsengine/ratelimit.go]: a fixed one-second window per client IP in
    a map that is swept of idle clients when it is full. *)
From S2P Require Import Prelude.

Definition rateLimitMaxClients : Z := 65536.
Definition rateLimitIdleEvict : Z := 10 * second.

Record clientWindow := { w_start : Z; w_count : Z; w_lastSeen : Z }.

Record rateLimiter := {
  rl_perSec : Z;
  rl_maxClients : Z;
  rl_idleAfter : Z;
  rl_clients : gmap string clientWindow;
}.

Definition newRateLimiter (perSec : Z) : rateLimiter := {|
  rl_perSec := perSec; rl_maxClients := rateLimitMaxClients;
  rl_idleAfter := rateLimitIdleEvict; rl_clients := ∅ |}.

Definition rl_set_clients (rl : rateLimiter) (m : gmap string clientWindow) : rateLimiter := {|
  rl_perSec := rl_perSec rl; rl_maxClients := rl_maxClients rl;
  rl_idleAfter := rl_idleAfter rl; rl_clients := m |}.

(** The sweep deletes while it ranges over the map; each entry is judged on its
    own, so the iteration order does not matter. *)
Definition evictIdle (now : Z) (rl : rateLimiter) : rateLimiter :=
  rl_set_clients rl
    (filter (λ kv, time_sub now (w_lastSeen kv.2) < rl_idleAfter rl) (rl_clients rl)).

(** [allow]; a nil limiter is [None]. *)
Definition allow (orl : option rateLimiter) (now : Z) (clientIP : string)
  : bool * option rateLimiter :=
  match orl with
  | None => (true, None)
  | Some rl =>
      if rl_perSec rl <=? 0 then (true, Some rl) else
      let '(w, rl) :=
        match rl_clients rl !! clientIP with
        | Some w => (w, rl)
        | None =>
            let rl := if rl_maxClients rl <=? Z.of_nat (size (rl_clients rl))
                      then evictIdle now rl else rl in
            ({| w_start := now; w_count := 0; w_lastSeen := 0 |}, rl)
        end in
      let w := if second <=? time_sub now (w_start w)
               then {| w_start := now; w_count := 0; w_lastSeen := w_lastSeen w |} else w in
      if rl_perSec rl <=? w_count w
      then (false, Some (rl_set_clients rl
             (<[clientIP := {| w_start := w_start w; w_count := w_count w; w_lastSeen := now |}]>
                (rl_clients rl))))
      else (true, Some (rl_set_clients rl
             (<[clientIP := {| w_start := w_start w; w_count := w_count w + 1; w_lastSeen := now |}]>
                (rl_clients rl))))
  end.

(** Decisions over a sequence of queries, each with its instant and client. *)
Fixpoint rl_run (orl : option rateLimiter) (calls : list (Z * string)) : list bool :=
  match calls with
  | [] => []
  | (now, ip) :: calls' =>
      let '(b, orl') := allow orl now ip in b :: rl_run orl' calls'
  end.

(** ** One client, with no map and no eviction *)

(** A window (start, count); a client not seen yet has none. *)
Definition win_step (perSec : Z) (st : option (Z * Z)) (now : Z) : bool * option (Z * Z) :=
  let '(s, n) := match st with
                 | Some (s, n) => if second <=? now - s then (now, 0) else (s, n)
                 | None => (now, 0)
                 end in
  if perSec <=? n then (false, Some (s, n)) else (true, Some (s, n + 1)).

Fixpoint win_run (perSec : Z) (st : option (Z * Z)) (times : list Z) : list bool :=
  match times with
  | [] => []
  | now :: times' => let '(b, st') := win_step perSec st now in b :: win_run perSec st' times'
  end.

(** The instants of one client's queries, and the decisions taken on them. *)
Definition calls_of (ip : string) (calls : list (Z * string)) : list Z :=
  (filter (λ c, c.2 = ip) calls).*1.
Definition decisions_of (ip : string) (calls : list (Z * string)) (ds : list bool) : list bool :=
  (filter (λ cd, cd.1.2 = ip) (zip calls ds)).*2.

(** ** The map simulates the clients one by one *)

(** The tracked window of a client agrees with its abstract one, or the client was
    evicted and its window is over in any case. *)
Definition client_agrees (now : Z) (m : gmap string clientWindow) (ip : string)
  (st : option (Z * Z)) : Prop :=
  match m !! ip, st with
  | Some w, Some (s, n) => w_start w = s ∧ w_count w = n ∧ s ≤ w_lastSeen w ≤ now
  | None, Some (s, n) => second ≤ now - s
  | None, None => True
  | Some _, None => False
  end.

Definition rl_agrees (perSec now : Z) (rl : rateLimiter) (sts : string → option (Z * Z)) : Prop :=
  rl_perSec rl = perSec ∧ rl_idleAfter rl = rateLimitIdleEvict ∧
  ∀ ip, client_agrees now (rl_clients rl) ip (sts ip).

Lemma evictIdle_agrees perSec now rl sts :
  rl_agrees perSec now rl sts → rl_agrees perSec now (evictIdle now rl) sts.
Proof.
  intros (Hp & Hi & Hc). split; [done|]. split; [done|]. intros ip. specialize (Hc ip).
  unfold evictIdle, client_agrees in *. cbn [rl_set_clients rl_clients]. rewrite Hi.
  rewrite map_lookup_filter. destruct (rl_clients rl !! ip) as [w|]; simpl; [|done].
  destruct (sts ip) as [[s n]|]; [|done]. case_guard as Hg; simpl; [done|].
  apply Z.nlt_ge in Hg. apply time_sub_ge in Hg; [|done..].
  unfold rateLimitIdleEvict, second in *. lia.
Qed.

Lemma client_agrees_later now now' m ip st :
  now ≤ now' → client_agrees now m ip st → client_agrees now' m ip st.
Proof.
  unfold client_agrees. intros Hle. destruct (m !! ip), st as [[s n]|]; try done; intros H; [|lia]. revert H.
  intros (? & ? & ?). repeat split; try done; lia.
Qed.

Definition st_upd (sts : string → option (Z * Z)) (ip : string) (st : option (Z * Z)) :=
  λ i, if decide (i = ip) then st else sts i.

Lemma allow_step perSec now rl sts ip :
  0 < perSec → rl_agrees perSec now rl sts →
  ∃ rl', allow (Some rl) now ip = ((win_step perSec (sts ip) now).1, Some rl') ∧
         rl_agrees perSec now rl' (st_upd sts ip (win_step perSec (sts ip) now).2).
Proof.
  intros Hp Hagr. pose proof Hagr as (Hper & Hidle & Hc). unfold allow.
  rewrite Hper. rewrite (proj2 (Z.leb_gt _ _) Hp).
  set (pr := match rl_clients rl !! ip with Some w => _ | None => _ end).
  assert (∃ w rl1 s n, pr = (w, rl1) ∧ rl_agrees perSec now rl1 sts ∧
    w_start (if second <=? time_sub now (w_start w)
             then {| w_start := now; w_count := 0; w_lastSeen := w_lastSeen w |} else w) = s ∧
    w_count (if second <=? time_sub now (w_start w)
             then {| w_start := now; w_count := 0; w_lastSeen := w_lastSeen w |} else w) = n ∧
    s ≤ now ∧ win_step perSec (sts ip) now
      = (if perSec <=? n then (false, Some (s, n)) else (true, Some (s, n + 1))))
    as (w & rl1 & s & n & -> & Hagr1 & Hs & Hn & Hle & ->).
  { specialize (Hc ip). unfold client_agrees in Hc. unfold pr, win_step.
    destruct (rl_clients rl !! ip) as [w|] eqn:E.
    - destruct (sts ip) as [[s n]|]; [|done]. destruct Hc as (<- & <- & Hls).
      assert ((second <=? now - w_start w) = (second <=? time_sub now (w_start w))) as ->.
      { apply eq_true_iff_eq. rewrite !Z.leb_le. symmetry. by apply time_sub_ge. }
      exists w, rl. destruct (second <=? time_sub now (w_start w)); do 2 eexists;
        (split; [done|]); (split; [exact Hagr|]); (split; [done|]); (split; [done|]);
        (split; [simpl; lia|done]).
    - exists {| w_start := now; w_count := 0; w_lastSeen := 0 |}. eexists. exists now, 0.
      split; [done|].
      split; [destruct (rl_maxClients rl <=? _); [by apply evictIdle_agrees|done]|].
      split; [by destruct (second <=? _)|]. split; [by destruct (second <=? _)|]. split; [done|].
      destruct (sts ip) as [[s n]|]; [|done].
      by rewrite (proj2 (Z.leb_le second (now - s)) Hc). }
  destruct Hagr1 as (Hper1 & Hidle1 & Hc1). rewrite Hper1.
  set (w' := if second <=? _ then _ else _) in *. rewrite Hs, Hn.
  destruct (perSec <=? n); eexists; (split; [reflexivity|]); (split; [done|split; [done|]]);
    intros ip'; cbn [rl_set_clients rl_clients snd]; unfold st_upd, client_agrees;
    (destruct (decide (ip' = ip)) as [->|Hne];
     [rewrite lookup_insert_eq; simpl; repeat split; lia
     |rewrite lookup_insert_ne by done; apply Hc1]).
Qed.

Lemma sorted_cons_times {A} (t : Z) (i : A) (calls : list (Z * A)) :
  StronglySorted Z.le ((t, i) :: calls).*1 →
  Forall (λ c, t ≤ c.1) calls ∧ StronglySorted Z.le calls.*1.
Proof.
  intros [H1 H2]%StronglySorted_inv. split; [|done]. exact (proj1 (Forall_fmap fst _ _) H2).
Qed.

Fixpoint ideal_run (perSec : Z) (sts : string → option (Z * Z)) (calls : list (Z * string)) : list bool :=
  match calls with
  | [] => []
  | (now, ip) :: calls' =>
      let '(b, st) := win_step perSec (sts ip) now in b :: ideal_run perSec (st_upd sts ip st) calls'
  end.

Lemma rl_run_ideal perSec now rl sts calls :
  0 < perSec → rl_agrees perSec now rl sts →
  Forall (λ c, now ≤ c.1) calls → StronglySorted Z.le calls.*1 →
  rl_run (Some rl) calls = ideal_run perSec sts calls.
Proof.
  intros Hp. revert now rl sts. induction calls as [|[t ip] calls IH]; intros now rl sts Hagr Hall Hsort;
    [done|]. cbn [rl_run ideal_run].
  apply Forall_cons in Hall as [Ht Hall]. apply sorted_cons_times in Hsort as [Hmin Hsort'].
  assert (Hagr' : rl_agrees perSec t rl sts).
  { destruct Hagr as (? & ? & Hc). repeat split; try done. intros i.
    by eapply client_agrees_later. }
  destruct (allow_step perSec t rl sts ip Hp Hagr') as (rl' & -> & Hagr'').
  destruct (win_step perSec (sts ip) t) as [b st]; cbn [fst snd] in *. f_equal.
  by eapply IH.
Qed.

Lemma ideal_run_client perSec sts calls ip :
  decisions_of ip calls (ideal_run perSec sts calls) = win_run perSec (sts ip) (calls_of ip calls).
Proof.
  revert sts. induction calls as [|[t i] calls IH]; intros sts; [done|].
  unfold decisions_of, calls_of in *. cbn [ideal_run].
  destruct (win_step perSec (sts i) t) as [b st] eqn:E. cbn [zip zip_with].
  destruct (decide (i = ip)) as [->|Hne].
  - rewrite !filter_cons_True by done. rewrite !fmap_cons. cbn [fst snd win_run]. rewrite E. f_equal.
    rewrite IH. unfold st_upd. by rewrite decide_True.
  - rewrite !filter_cons_False by done. rewrite IH. unfold st_upd. by rewrite decide_False.
Qed.

(** ** How many queries one client gets through *)

(** The accepted instants of a run that fall in [t, t + 1s). *)
Definition accepted_in (t : Z) (times : list Z) (ds : list bool) : Z :=
  Z.of_nat (length (filter (λ cd, cd.2 = true ∧ t ≤ cd.1 < t + second) (zip times ds))).

Lemma accepted_in_cons t now times b ds :
  accepted_in t (now :: times) (b :: ds) =
    (if b then if decide (t ≤ now < t + second) then 1 else 0 else 0) + accepted_in t times ds.
Proof.
  unfold accepted_in. cbn [zip zip_with]. rewrite filter_cons. cbn [fst snd].
  destruct b; [|rewrite decide_False by (by intros []); lia].
  destruct (decide (t ≤ now < t + second)).
  - rewrite decide_True by done. simpl. lia.
  - rewrite decide_False by (by intros []). lia.
Qed.

(** From a window that opened at [s] with [n] queries counted: what is left of
    it, plus one more window when it opened before [t] and all queries are in or
    after the span. *)
Lemma win_run_bound_in perSec t s n times :
  0 < perSec → 0 ≤ n ≤ perSec → Forall (Z.le s) times → Forall (Z.le t) times →
  StronglySorted Z.le times →
  accepted_in t times (win_run perSec (Some (s, n)) times) ≤
    if decide (t + second ≤ s) then 0 else if decide (t ≤ s) then perSec - n else 2 * perSec - n.
Proof.
  intros Hp. revert s n. induction times as [|now times IH]; intros s n Hn Hall Ht Hsort.
  { unfold accepted_in; simpl. repeat case_decide; lia. }
  apply Forall_cons in Hall as [Hs Hall], Ht as [Hnt Ht].
  apply StronglySorted_inv in Hsort as [Hsort' Hmin].
  cbn [win_run]. unfold win_step.
  destruct (Z.leb_spec second (now - s)) as [Hroll|Hroll]; cbn beta iota.
  - rewrite (proj2 (Z.leb_gt perSec 0)) by lia. cbn beta iota. rewrite accepted_in_cons.
    change (0 + 1) with 1. specialize (IH now 1 ltac:(lia) Hmin Ht Hsort').
    unfold second in *. repeat case_decide; lia.
  - destruct (Z.leb_spec perSec n) as [Hfull|Hroom]; cbn beta iota; rewrite accepted_in_cons.
    + specialize (IH s n Hn Hall Ht Hsort'). lia.
    + specialize (IH s (n + 1) ltac:(lia) Hall Ht Hsort'). unfold second in *.
      repeat case_decide; lia.
Qed.

Lemma win_run_bound perSec t s n times :
  0 < perSec → 0 ≤ n ≤ perSec → Forall (Z.le s) times → StronglySorted Z.le times →
  accepted_in t times (win_run perSec (Some (s, n)) times) ≤ 2 * perSec.
Proof.
  intros Hp. revert s n. induction times as [|now times IH]; intros s n Hn Hall Hsort.
  { unfold accepted_in; simpl. lia. }
  pose proof (StronglySorted_inv Hsort) as [Hsort' Hmin].
  destruct (Z.le_gt_cases t now) as [Hle|Hlt].
  - assert (Forall (Z.le t) (now :: times)) as Ht.
    { constructor; [done|]. eapply Forall_impl; [exact Hmin|]. intros; simpl in *. lia. }
    pose proof (win_run_bound_in perSec t s n _ Hp Hn Hall Ht Hsort). repeat case_decide; lia.
  - apply Forall_cons in Hall as [Hs Hall]. cbn [win_run]. unfold win_step.
    destruct (second <=? now - s); cbn beta iota.
    + rewrite (proj2 (Z.leb_gt perSec 0)) by lia. cbn beta iota. rewrite accepted_in_cons.
      rewrite decide_False by lia. apply IH; [lia|done..].
    + destruct (Z.leb_spec perSec n); cbn beta iota; rewrite accepted_in_cons.
      * by apply IH.
      * rewrite decide_False by lia. apply IH; [lia|done..].
Qed.

(** ** Theorems *)

Lemma rl_run_per_client perSec calls ip :
  0 < perSec → StronglySorted Z.le calls.*1 →
  decisions_of ip calls (rl_run (Some (newRateLimiter perSec)) calls)
  = win_run perSec None (calls_of ip calls).
Proof.
  intros Hp Hsort. destruct calls as [|[t i] calls]; [done|].
  rewrite (rl_run_ideal perSec t _ (λ _, None)); [apply ideal_run_client|done| | |done].
  - repeat split.
  - constructor; [done|]. by apply sorted_cons_times in Hsort as [Hmin _].
Qed.

Lemma calls_of_sorted ip calls : StronglySorted Z.le calls.*1 → StronglySorted Z.le (calls_of ip calls).
Proof.
  unfold calls_of. induction calls as [|[t i] calls IH]; [constructor|].
  intros [Hmin Hsort]%sorted_cons_times.
  rewrite filter_cons. case_decide; [|by apply IH]. cbn [fmap list_fmap fst]. constructor; [by apply IH|].
  apply Forall_fmap, Forall_forall. intros c [_ Hc]%list_elem_of_filter.
  rewrite Forall_forall in Hmin. by apply Hmin.
Qed.

(** C13. Over any sequence of queries with a clock that does not go back, each
    client gets the decisions of a fixed one-second window of its own: other
    clients, the full map and the eviction of idle clients change none of them. *)
Theorem allow_per_client perSec calls ip :
  0 < perSec → StronglySorted Z.le calls.*1 →
  decisions_of ip calls (rl_run (Some (newRateLimiter perSec)) calls)
  = win_run perSec None (calls_of ip calls).
Proof. apply rl_run_per_client. Qed.

(** C36. No client gets more than twice its per-second limit through in any span of
    one second, wherever the span falls against the windows. *)
Theorem allow_rate_bound perSec calls ip t :
  0 < perSec → StronglySorted Z.le calls.*1 →
  accepted_in t (calls_of ip calls)
    (decisions_of ip calls (rl_run (Some (newRateLimiter perSec)) calls)) ≤ 2 * perSec.
Proof.
  intros Hp Hsort. rewrite rl_run_per_client by done.
  apply (calls_of_sorted ip) in Hsort. destruct (calls_of ip calls) as [|now times].
  { unfold accepted_in; simpl. lia. }
  assert (win_run perSec None (now :: times) = win_run perSec (Some (now, 0)) (now :: times)) as ->.
  { cbn [win_run]. unfold win_step. by rewrite Z.sub_diag. }
  apply win_run_bound; [done|lia| |done]. apply StronglySorted_inv in Hsort as [_ ?].
  by constructor.
Qed.

Definition ex_calls : list (Z * string) :=
  [(0, "a"); (10, "b"); (500 * millisecond, "a"); (900 * millisecond, "a"); (11 * second, "a")]%string.

Lemma ex_calls_sorted : StronglySorted Z.le ex_calls.*1.
Proof. repeat constructor; by vm_compute. Qed.

Lemma allow_per_client_witness :
  decisions_of "a" ex_calls (rl_run (Some (newRateLimiter 2)) ex_calls) = [true; true; false; true].
Proof.
  rewrite (allow_per_client 2 ex_calls "a"); [reflexivity|lia|exact ex_calls_sorted].
Defined.

Lemma allow_rate_bound_witness :
  accepted_in 0 (calls_of "a" ex_calls)
    (decisions_of "a" ex_calls (rl_run (Some (newRateLimiter 2)) ex_calls)) ≤ 4.
Proof. apply (allow_rate_bound 2 ex_calls "a" 0); [lia|exact ex_calls_sorted]. Defined.
