(* ===== verification/Trackers.v ===== *)
(** * Bounded detectors: newly observed domains and fast flux

    [internal/dnsengine/nod.go] and fastflux.go. Where the code ranges over a map
    to find the oldest entry, the iteration order is an argument: a permutation of
    the map's pairs. *)
From S2P Require Import Prelude GoStrings GoNet DnsMsg.

(** ** The oldest entry of a map, as the eviction loops find it *)

Definition oldest_step {A} (time : A → Z) (best : option (string * A)) (kv : string * A)
  : option (string * A) :=
  match best with
  | None => Some kv
  | Some b => if time kv.2 <? time b.2 then Some kv else best
  end.
Definition oldest {A} (time : A → Z) (order : list (string * A)) : option (string * A) :=
  foldl (oldest_step time) None order.

Lemma oldest_spec {A} (time : A → Z) order :
  match oldest time order with
  | None => order = []
  | Some kv => kv ∈ order ∧ ∀ kv', kv' ∈ order → time kv.2 ≤ time kv'.2
  end.
Proof.
  unfold oldest. induction order as [|x order IH] using rev_ind; simpl; [done|].
  rewrite foldl_snoc. destruct (foldl _ None order) as [b|]; simpl.
  - destruct IH as [Hin Hmin]. destruct (Z.ltb_spec (time x.2) (time b.2)).
    + split; [set_solver|]. intros kv [Hkv| ->%list_elem_of_singleton]%elem_of_app; [|lia].
      specialize (Hmin _ Hkv). lia.
    + split; [set_solver|]. intros kv [Hkv| ->%list_elem_of_singleton]%elem_of_app; [auto|lia].
  - subst. split; [set_solver|]. intros kv ->%list_elem_of_singleton. lia.
Qed.

(** ** nod.go *)

Definition nodDefaultMaxEntries : Z := 100000.

Record nodLedger := { nl_firstSeen : gmap string Z; nl_window : Z; nl_maxEntries : Z }.

Definition newNODLedger (window maxEntries : Z) : nodLedger := {|
  nl_firstSeen := ∅; nl_window := window;
  nl_maxEntries := if maxEntries <=? 0 then nodDefaultMaxEntries else maxEntries |}.

Definition nl_set (l : nodLedger) (m : gmap string Z) : nodLedger :=
  {| nl_firstSeen := m; nl_window := nl_window l; nl_maxEntries := nl_maxEntries l |}.

Definition evictIfFullLocked (order : list (string * Z)) (l : nodLedger) : nodLedger :=
  if Z.of_nat (size (nl_firstSeen l)) <? nl_maxEntries l then l
  else match oldest id order with
       | Some (k, _) => nl_set l (delete k (nl_firstSeen l))
       | None => l
       end.

Definition nod_observe (order : list (string * Z)) (now : Z) (domain : string) (l : nodLedger)
  : bool * nodLedger :=
  if bool_decide (domain = ""%string) then (false, l)
  else match nl_firstSeen l !! domain with
       | None =>
           let l := evictIfFullLocked order l in
           (true, nl_set l (<[domain := now]> (nl_firstSeen l)))
       | Some first => (time_sub now first <? nl_window l, l)
       end.

(** ** fastflux.go *)

Definition defaultFastFluxWindow : Z := 5 * minute.
Definition defaultFastFluxMaxDomains : Z := 4096.
Definition defaultFastFluxIPThresh : Z := 8.
Definition defaultFastFluxTTLMaxSec : Z := 300.

Record ipRecord := { ir_lastSeen : Z; ir_ttl : Z }.
Record ffDomainEntry := { fe_ips : gmap string ipRecord; fe_lastSeen : Z }.
Record fastFluxTracker := {
  ff_domains : gmap string ffDomainEntry;
  ff_window : Z;
  ff_ipThreshold : Z;
  ff_ttlMax : Z;
  ff_maxDomains : Z;
}.

Definition newFastFluxTracker (ipThreshold ttlMaxSec window maxDomains : Z) : fastFluxTracker := {|
  ff_domains := ∅;
  ff_window := if window <=? 0 then defaultFastFluxWindow else window;
  ff_ipThreshold := if ipThreshold <=? 0 then defaultFastFluxIPThresh else ipThreshold;
  ff_ttlMax := (if ttlMaxSec <=? 0 then defaultFastFluxTTLMaxSec else ttlMaxSec) mod 2 ^ 32;
  ff_maxDomains := if maxDomains <=? 0 then defaultFastFluxMaxDomains else maxDomains |}.

Definition ff_set (t : fastFluxTracker) (m : gmap string ffDomainEntry) : fastFluxTracker := {|
  ff_domains := m; ff_window := ff_window t; ff_ipThreshold := ff_ipThreshold t;
  ff_ttlMax := ff_ttlMax t; ff_maxDomains := ff_maxDomains t |}.

Definition evictOldestLocked (order : list (string * ffDomainEntry)) (t : fastFluxTracker)
  : fastFluxTracker :=
  match oldest fe_lastSeen order with
  | Some (k, _) => if bool_decide (k = ""%string) then t else ff_set t (delete k (ff_domains t))
  | None => t
  end.

Definition record_ips (now ttl : Z) (ips : list IP) (m : gmap string ipRecord)
  : gmap string ipRecord :=
  foldl (λ m ip, if bool_decide (ip = []) then m
                 else <[IP_String ip := {| ir_lastSeen := now; ir_ttl := ttl |}]> m) m ips.

(** The pruning pass judges each record on its own: a filter, and the least TTL of
    what is left, which no iteration order changes. *)
Definition prune_ips (cutoff : Z) (m : gmap string ipRecord) : gmap string ipRecord :=
  filter (λ kv, cutoff ≤ ir_lastSeen kv.2) m.
Definition min_ttl (m : gmap string ipRecord) : Z :=
  map_fold (λ _ r acc, if ir_ttl r <? acc then ir_ttl r else acc) uint32_max m.

Definition ff_observe (order : list (string * ffDomainEntry)) (now : Z) (domain : string)
  (ips : list IP) (ttl : Z) (ot : option fastFluxTracker) : bool * option fastFluxTracker :=
  match ot with
  | None => (false, None)
  | Some t =>
      if bool_decide (domain = ""%string) || bool_decide (ips = []) then (false, Some t) else
      let '(entry, t) :=
        match ff_domains t !! domain with
        | Some entry => (entry, t)
        | None =>
            let t := if ff_maxDomains t <=? Z.of_nat (size (ff_domains t))
                     then evictOldestLocked order t else t in
            ({| fe_ips := ∅; fe_lastSeen := 0 |}, t)
        end in
      let m := prune_ips (now - ff_window t) (record_ips now ttl ips (fe_ips entry)) in
      if bool_decide (m = ∅) then (false, Some (ff_set t (delete domain (ff_domains t))))
      else ((ff_ipThreshold t <=? Z.of_nat (size m)) && (min_ttl m <=? ff_ttlMax t),
            Some (ff_set t (<[domain := {| fe_ips := m; fe_lastSeen := now |}]> (ff_domains t))))
  end.

(** [extractAnswerIPs]; [None] is [ok = false]. *)
Definition extract_step (acc : list IP * Z) (rr : RR) : list IP * Z :=
  let '(ips, mt) := acc in
  match rr with
  | RR_A h ip | RR_AAAA h ip => (ips ++ [ip], if h_Ttl h <? mt then h_Ttl h else mt)
  | _ => acc
  end.
Definition extractAnswerIPs (resp : Msg) : option (list IP * Z) :=
  let '(ips, mt) := foldl extract_step ([], uint32_max) (m_Answer resp) in
  if bool_decide (ips = []) then None else Some (ips, mt).

(** ** Bounds *)

Definition nod_ok (l : nodLedger) : Prop :=
  0 < nl_maxEntries l ∧ Z.of_nat (size (nl_firstSeen l)) ≤ nl_maxEntries l.

Lemma evictIfFull_room order l :
  order ≡ₚ map_to_list (nl_firstSeen l) → nod_ok l →
  Z.of_nat (size (nl_firstSeen (evictIfFullLocked order l))) < nl_maxEntries l ∧
  nl_maxEntries (evictIfFullLocked order l) = nl_maxEntries l.
Proof.
  intros Ho [Hpos Hsz]. unfold evictIfFullLocked.
  destruct (Z.ltb_spec (Z.of_nat (size (nl_firstSeen l))) (nl_maxEntries l)); [done|].
  pose proof (oldest_spec id order) as Hold. destruct (oldest id order) as [[k t]|].
  - destruct Hold as [Hin _]. rewrite Ho, elem_of_map_to_list in Hin. simpl.
    rewrite map_size_delete_Some by eauto. split; [lia|done].
  - subst. symmetry in Ho. apply Permutation_nil_r, map_to_list_empty_iff in Ho.
    rewrite Ho, map_size_empty in *. lia.
Qed.

Lemma nod_observe_ok order now d l :
  order ≡ₚ map_to_list (nl_firstSeen l) → nod_ok l → nod_ok (nod_observe order now d l).2.
Proof.
  intros Ho Hok. unfold nod_observe. case_bool_decide; [done|].
  destruct (nl_firstSeen l !! d) as [first|] eqn:E; [done|].
  destruct (evictIfFull_room order l Ho Hok) as [Hroom Hmax].
  destruct Hok as [Hpos Hsz]. split; cbn [snd nl_set nl_maxEntries nl_firstSeen]; [lia|].
  pose proof (map_size_insert_le (nl_firstSeen (evictIfFullLocked order l)) d now) as H'.
  lia.
Qed.

(** ** Traces: each call with its result, whatever the iteration orders were *)

Inductive nod_trace (l0 : nodLedger) : list (Z * string * bool) → nodLedger → Prop :=
| nod_trace_nil : nod_trace l0 [] l0
| nod_trace_snoc h l order now d :
    nod_trace l0 h l → order ≡ₚ map_to_list (nl_firstSeen l) →
    nod_trace l0 (h ++ [(now, d, (nod_observe order now d l).1)]) (nod_observe order now d l).2.

Definition first_time (d : string) (h : list (Z * string * bool)) : option Z :=
  first_match (λ ev, if bool_decide (ev.1.2 = d) then Some ev.1.1 else None) h.
Definition nod_domains (h : list (Z * string * bool)) : gset string :=
  list_to_set (filter (λ d, d ≠ ""%string) (h.*1.*2)).

Lemma first_match_app {A B} (f : A → option B) l1 l2 :
  first_match f (l1 ++ l2) = match first_match f l1 with Some b => Some b | None => first_match f l2 end.
Proof. induction l1 as [|a l1 IH]; simpl; [done|]. destruct (f a); [done|apply IH]. Qed.

Lemma nod_domains_app h1 h2 : nod_domains (h1 ++ h2) = nod_domains h1 ∪ nod_domains h2.
Proof. unfold nod_domains. by rewrite !fmap_app, filter_app, list_to_set_app_L. Qed.

Lemma nod_domains_single ev :
  nod_domains [ev] = if bool_decide (ev.1.2 = ""%string) then ∅ else {[ev.1.2]}.
Proof.
  unfold nod_domains. cbn [fmap list_fmap]. case_bool_decide.
  - rewrite filter_cons_False by tauto. done.
  - rewrite filter_cons_True by done. cbn. set_solver.
Qed.

Lemma first_time_in d h t : d ≠ ""%string → first_time d h = Some t → d ∈ nod_domains h.
Proof.
  unfold first_time. intros Hd (l1 & [[t' d'] b] & l2 & -> & H & _)%first_match_Some.
  simpl in H. case_bool_decide; simplify_eq.
  rewrite nod_domains_app, elem_of_union. right.
  change ((t, d, b) :: l2) with ([(t, d, b)] ++ l2).
  rewrite nod_domains_app, nod_domains_single, bool_decide_eq_false_2 by done. set_solver.
Qed.

Lemma nod_trace_ok l0 h l :
  nod_ok l0 → nod_trace l0 h l → nod_ok l ∧ nl_window l = nl_window l0 ∧ nl_maxEntries l = nl_maxEntries l0.
Proof.
  intros Hok. induction 1 as [|h l order now d Htr (IH & Hw & Hm) Ho]; [done|].
  split; [by apply nod_observe_ok|]. unfold nod_observe, evictIfFullLocked.
  repeat (case_match; try done).
Qed.

Lemma newNODLedger_ok window maxEntries : nod_ok (newNODLedger window maxEntries).
Proof.
  split; unfold newNODLedger; simpl; [|rewrite map_size_empty]; destruct (Z.leb_spec maxEntries 0);
    unfold nodDefaultMaxEntries in *; lia.
Qed.

(** With room for all the domains seen, the ledger holds their first sightings. *)
Lemma nod_trace_history window maxEntries h l :
  let l0 := newNODLedger window maxEntries in
  nod_trace l0 h l → Z.of_nat (size (nod_domains h)) ≤ nl_maxEntries l0 →
  (∀ d, d ≠ ""%string → nl_firstSeen l !! d = first_time d h) ∧ nl_firstSeen l !! ""%string = None.
Proof.
  intros l0. induction 1 as [|h l order now d Htr IH Ho]; intros Hsz.
  { split; [intros d _|]; apply lookup_empty. }
  rewrite nod_domains_app, nod_domains_single in Hsz. cbn [fst snd] in Hsz.
  destruct IH as [IH IH0].
  { etrans; [|exact Hsz]. apply inj_le, subseteq_size. set_solver. }
  assert (Hft : ∀ d', first_time d' (h ++ [(now, d, (nod_observe order now d l).1)])
    = match first_time d' h with Some t => Some t | None => if bool_decide (d = d') then Some now else None end).
  { intros d'. unfold first_time. rewrite first_match_app. cbn [first_match fst snd].
    by destruct (first_match _ h), (bool_decide (d = d')). }
  setoid_rewrite Hft. clear Hft. unfold nod_observe. case_bool_decide as Hd; cbn [snd].
  { subst. split; [|done]. intros d' Hd'. rewrite IH by done.
    rewrite bool_decide_eq_false_2 by done. by destruct (first_time d' h). }
  destruct (nl_firstSeen l !! d) as [t0|] eqn:E; cbn [snd].
  - split; [|done]. intros d' Hd'. destruct (decide (d' = d)) as [->|Hne].
    + rewrite IH in E by done. by rewrite IH, E.
    + rewrite IH by done. rewrite bool_decide_eq_false_2 by done. by destruct (first_time d' h).
  - assert (Hroom : evictIfFullLocked order l = l).
    { unfold evictIfFullLocked. rewrite (proj2 (Z.ltb_lt _ _)); [done|].
      apply (nod_trace_ok l0) in Htr as (_ & _ & ->); [|apply newNODLedger_ok].
      eapply Z.lt_le_trans; [|exact Hsz]. apply inj_lt.
      apply (map_size_lt_set _ _ d); [|done|set_solver].
      intros k [t Hk]. apply elem_of_union. left.
      destruct (decide (k = ""%string)) as [->|Hk0]; [congruence|].
      rewrite IH in Hk by done. by eapply first_time_in. }
    rewrite Hroom. cbn [nl_set nl_firstSeen]. split.
    + intros d' Hd'. destruct (decide (d' = d)) as [->|Hne].
      * rewrite lookup_insert_eq. rewrite IH in E by done. by rewrite E, bool_decide_eq_true_2.
      * rewrite lookup_insert_ne by done. rewrite IH by done.
        rewrite bool_decide_eq_false_2 by done. by destruct (first_time d' h).
    + by rewrite lookup_insert_ne.
Qed.

(** However long the ledger runs and in whatever order the eviction scan meets
    the map, it never holds more than its bound, and what it evicts is an oldest
    first sighting. *)
Theorem nod_ledger_bounded window maxEntries h l order now d :
  nod_trace (newNODLedger window maxEntries) h l →
  order ≡ₚ map_to_list (nl_firstSeen l) →
  let l' := (nod_observe order now d l).2 in
  Z.of_nat (size (nl_firstSeen l')) ≤ nl_maxEntries l' ∧
  ∀ k t, nl_firstSeen l !! k = Some t → nl_firstSeen l' !! k = None →
         ∀ k' t', nl_firstSeen l !! k' = Some t' → t ≤ t'.
Proof.
  intros Htr Ho l'. apply nod_trace_ok in Htr as (Hok & _); [|apply newNODLedger_ok].
  split; [by apply nod_observe_ok|]. intros k t Hk Hk' k' t' Hkt.
  unfold l', nod_observe in Hk'. case_bool_decide; [simpl in Hk'; congruence|].
  destruct (nl_firstSeen l !! d) as [t0|] eqn:E; [simpl in Hk'; congruence|].
  cbn [snd nl_set nl_firstSeen] in Hk'. apply lookup_insert_None in Hk' as [Hk' _].
  unfold evictIfFullLocked in Hk'. destruct (_ <? _); [congruence|].
  pose proof (oldest_spec id order) as Hold. destruct (oldest id order) as [[k0 t0]|]; [|congruence].
  destruct Hold as [Hin Hmin]. rewrite Ho, elem_of_map_to_list in Hin.
  simpl in Hk'. apply lookup_delete_None in Hk' as [->|?]; [|congruence].
  assert (t0 = t) as -> by congruence. apply (Hmin (k', t')). by rewrite Ho, elem_of_map_to_list.
Qed.

(** While the ledger has room for every domain it was shown, a domain is
    reported new exactly while less than the window has passed since it was first
    shown, on every call. *)
Theorem nod_new_iff window maxEntries h l order now d :
  let l0 := newNODLedger window maxEntries in
  let h' := h ++ [(now, d, (nod_observe order now d l).1)] in
  0 < window →
  nod_trace l0 h l → order ≡ₚ map_to_list (nl_firstSeen l) →
  Z.of_nat (size (nod_domains h')) ≤ nl_maxEntries l0 → d ≠ ""%string →
  ∃ t0, first_time d h' = Some t0 ∧ (nod_observe order now d l).1 = (time_sub now t0 <? window).
Proof.
  intros l0 h' Hw Htr Ho Hsz Hd.
  destruct (nod_trace_history window maxEntries h l Htr) as [Hl _].
  { etrans; [|exact Hsz]. unfold h'. rewrite nod_domains_app. apply inj_le, subseteq_size. set_solver. }
  assert (Hwin : nl_window l = window).
  { by apply nod_trace_ok in Htr as (_ & -> & _); [|apply newNODLedger_ok]. }
  specialize (Hl d Hd). unfold h', first_time. rewrite first_match_app. fold (first_time d h).
  rewrite <- Hl. cbn [first_match fst snd]. rewrite bool_decide_eq_true_2 by done.
  unfold nod_observe. rewrite bool_decide_eq_false_2 by done.
  destruct (nl_firstSeen l !! d) as [t0|]; eexists; (split; [done|]); cbn [fst].
  - by rewrite Hwin.
  - symmetry. apply Z.ltb_lt. unfold time_sub, clamp_int64, int64_min, int64_max. lia.
Qed.

(** ** Fast flux *)

Lemma prune_lookup c m k :
  prune_ips c m !! k = match m !! k with
                       | Some r => if decide (c ≤ ir_lastSeen r) then Some r else None
                       | None => None
                       end.
Proof.
  unfold prune_ips. rewrite map_lookup_filter. destruct (m !! k) as [r|]; simpl; [|done].
  repeat (case_guard || case_decide); done.
Qed.

Lemma prune_prune c c' m : c' ≤ c → prune_ips c (prune_ips c' m) = prune_ips c m.
Proof.
  intros Hc. apply map_eq. intros k. rewrite !prune_lookup.
  destruct (m !! k) as [r|]; [|done]. repeat case_decide; try done; lia.
Qed.

Lemma prune_record c now ttl ips m m' :
  prune_ips c m = prune_ips c m' →
  prune_ips c (record_ips now ttl ips m) = prune_ips c (record_ips now ttl ips m').
Proof.
  unfold record_ips. revert m m'. induction ips as [|ip ips IH]; intros m m' H; simpl; [done|].
  apply IH. case_bool_decide; [done|]. apply map_eq. intros k. rewrite !prune_lookup.
  destruct (decide (k = IP_String ip)) as [->|Hne]; [by rewrite !lookup_insert_eq|].
  rewrite !lookup_insert_ne by done. by rewrite <- !prune_lookup, H.
Qed.

Lemma min_ttl_le x m :
  x < uint32_max → min_ttl m ≤ x ↔ ∃ k r, m !! k = Some r ∧ ir_ttl r ≤ x.
Proof.
  intros Hx. unfold min_ttl.
  apply (map_fold_weak_ind (λ acc m, acc ≤ x ↔ ∃ k r, m !! k = Some r ∧ ir_ttl r ≤ x)).
  - split; [lia|]. intros (k & r & Hk & _). by rewrite lookup_empty in Hk.
  - intros k r m' acc Hk IH. destruct (Z.ltb_spec (ir_ttl r) acc).
    + split; [intros Hle; exists k, r; by rewrite lookup_insert_eq|].
      intros (k' & r' & [[<- <-]|[Hne Hk']]%lookup_insert_Some & Hle); [done|].
      assert (acc ≤ x) by (apply IH; eauto). lia.
    + rewrite IH. split.
      * intros (k' & r' & Hk' & Hle). exists k', r'. rewrite lookup_insert_ne; [done|congruence].
      * intros (k' & r' & [[<- <-]|[Hne Hk']]%lookup_insert_Some & Hle); [|eauto].
        assert (acc ≤ x) as Hacc by lia. by apply IH in Hacc.
Qed.

Record ff_event := { ev_now : Z; ev_domain : string; ev_ips : list IP; ev_ttl : Z }.
Definition ff_counts (ev : ff_event) : bool :=
  negb (bool_decide (ev_domain ev = ""%string) || bool_decide (ev_ips ev = [])).

Inductive ff_trace (t0 : fastFluxTracker) : list ff_event → fastFluxTracker → Prop :=
| ff_trace_nil : ff_trace t0 [] t0
| ff_trace_snoc h t order ev b t' :
    ff_trace t0 h t → order ≡ₚ map_to_list (ff_domains t) →
    ff_observe order (ev_now ev) (ev_domain ev) (ev_ips ev) (ev_ttl ev) (Some t) = (b, Some t') →
    ff_trace t0 (h ++ [ev]) t'.

(** Every IP ever answered for a domain, with its latest sighting. *)
Definition ff_history_step (d : string) (m : gmap string ipRecord) (ev : ff_event)
  : gmap string ipRecord :=
  if ff_counts ev && bool_decide (ev_domain ev = d)
  then record_ips (ev_now ev) (ev_ttl ev) (ev_ips ev) m else m.
Definition ff_history (d : string) (h : list ff_event) : gmap string ipRecord :=
  foldl (ff_history_step d) ∅ h.
Definition ff_seen (h : list ff_event) : gset string :=
  list_to_set (ev_domain <$> filter (λ ev, ff_counts ev = true) h).

Definition ff_entry (t : fastFluxTracker) (d : string) : gmap string ipRecord :=
  match ff_domains t !! d with Some e => fe_ips e | None => ∅ end.

Definition ff_room (t : fastFluxTracker) (d : string) : Prop :=
  ff_domains t !! d = None → Z.of_nat (size (ff_domains t)) < ff_maxDomains t.

(** One call, when no eviction is needed. *)
Lemma ff_observe_room order ev t :
  ff_room t (ev_domain ev) → ff_counts ev = true →
  let m := prune_ips (ev_now ev - ff_window t)
             (record_ips (ev_now ev) (ev_ttl ev) (ev_ips ev) (ff_entry t (ev_domain ev))) in
  ff_observe order (ev_now ev) (ev_domain ev) (ev_ips ev) (ev_ttl ev) (Some t)
  = if bool_decide (m = ∅)
    then (false, Some (ff_set t (delete (ev_domain ev) (ff_domains t))))
    else ((ff_ipThreshold t <=? Z.of_nat (size m)) && (min_ttl m <=? ff_ttlMax t),
          Some (ff_set t (<[ev_domain ev := {| fe_ips := m; fe_lastSeen := ev_now ev |}]>
                            (ff_domains t)))).
Proof.
  unfold ff_room, ff_counts, ff_observe, ff_entry. intros Hroom Hcnt.
  apply negb_true_iff in Hcnt. rewrite Hcnt.
  destruct (ff_domains t !! ev_domain ev) as [e|]; [done|].
  by rewrite (proj2 (Z.leb_gt _ _) (Hroom eq_refl)).
Qed.

Definition ff_same (t t0 : fastFluxTracker) : Prop :=
  ff_window t = ff_window t0 ∧ ff_ipThreshold t = ff_ipThreshold t0 ∧
  ff_ttlMax t = ff_ttlMax t0 ∧ ff_maxDomains t = ff_maxDomains t0.

(** The tracker forgets only what has left the window. *)
Definition ff_tracks (t : fastFluxTracker) (h : list ff_event) : Prop :=
  (∀ d, is_Some (ff_domains t !! d) → d ∈ ff_seen h) ∧
  ∀ d c, Forall (λ ev, ev_now ev - ff_window t ≤ c) h →
         prune_ips c (ff_entry t d) = prune_ips c (ff_history d h).

Lemma ff_seen_snoc h ev :
  ff_seen (h ++ [ev]) = ff_seen h ∪ (if ff_counts ev then {[ev_domain ev]} else ∅).
Proof.
  unfold ff_seen. rewrite filter_app, fmap_app, list_to_set_app_L. f_equal.
  rewrite filter_cons. destruct (ff_counts ev).
  - rewrite decide_True by done. cbn. set_solver.
  - rewrite decide_False by done. done.
Qed.

Lemma ff_step_tracks order ev t h :
  ff_tracks t h → ff_counts ev = true → ff_room t (ev_domain ev) →
  ∀ b t', ff_observe order (ev_now ev) (ev_domain ev) (ev_ips ev) (ev_ttl ev) (Some t) = (b, Some t') →
  ff_same t' t ∧ ff_tracks t' (h ++ [ev]).
Proof.
  intros [Hdom Htr] Hcnt Hroom b t' Hobs. rewrite ff_observe_room in Hobs by done.
  set (m := prune_ips _ _) in Hobs.
  assert (Hent : ff_same t' t ∧ ∀ d, ff_entry t' d = if decide (d = ev_domain ev) then m else ff_entry t d).
  { case_bool_decide as Hm; injection Hobs as _ <-; (split; [done|]); intros d;
      unfold ff_entry; cbn [ff_set ff_domains]; case_decide as Hd;
      [subst d; by rewrite lookup_delete_eq, Hm|by rewrite lookup_delete_ne
      |subst d; by rewrite lookup_insert_eq|by rewrite lookup_insert_ne]. }
  destruct Hent as [Hsame Hent]. split; [done|]. split.
  - intros d Hd. rewrite ff_seen_snoc, Hcnt.
    destruct (decide (d = ev_domain ev)) as [->|Hne]; [set_solver|].
    apply elem_of_union_l, Hdom. case_bool_decide; injection Hobs as _ <-;
      cbn [ff_set ff_domains] in Hd.
    + by rewrite lookup_delete_ne in Hd.
    + by rewrite lookup_insert_ne in Hd.
  - intros d c. destruct Hsame as (-> & _). rewrite Forall_app, Forall_singleton.
    intros [Hall Hc]. rewrite Hent. unfold ff_history. rewrite foldl_snoc. fold (ff_history d h).
    unfold ff_history_step. rewrite Hcnt. cbn [andb]. case_decide as Hd.
    + subst d. rewrite bool_decide_eq_true_2 by done. unfold m.
      rewrite prune_prune by lia. apply prune_record. by apply Htr.
    + rewrite bool_decide_eq_false_2 by done. by apply Htr.
Qed.

Lemma ff_trace_tracks t0 h t :
  ff_domains t0 = ∅ → ff_trace t0 h t → Z.of_nat (size (ff_seen h)) ≤ ff_maxDomains t0 →
  ff_same t t0 ∧ ff_tracks t h.
Proof.
  intros H0. induction 1 as [|h t order ev b t' Htr IH Ho Hobs]; intros Hsz.
  { split; [done|]. split; [intros d; rewrite H0, lookup_empty; by intros []|].
    intros d c _. unfold ff_entry. by rewrite H0, lookup_empty. }
  rewrite ff_seen_snoc in Hsz.
  destruct IH as [Hsame Htracks]; [etrans; [|exact Hsz]; apply inj_le, subseteq_size; set_solver|].
  destruct (ff_counts ev) eqn:Hcnt.
  - destruct (ff_step_tracks order ev t h Htracks Hcnt) with (b := b) (t' := t') as [Hs' ?]; [|done|].
    + intros Hnone. destruct Hsame as (_ & _ & _ & ->). eapply Z.lt_le_trans; [|exact Hsz].
      apply inj_lt, (map_size_lt_set _ _ (ev_domain ev)); [|done|set_solver].
      intros k Hk. apply elem_of_union_l. by apply Htracks.
    + split; [|done]. unfold ff_same in *. intuition congruence.
  - unfold ff_counts in Hcnt. apply negb_false_iff in Hcnt as Hc. unfold ff_observe in Hobs.
    rewrite Hc in Hobs. injection Hobs as <- <-. split; [done|]. destruct Htracks as [Hd Htk]. split.
    + intros d Hd'. rewrite ff_seen_snoc. set_solver.
    + intros d c [Hall _]%Forall_app. unfold ff_history. rewrite foldl_snoc.
      unfold ff_history_step, ff_counts. rewrite Hc. by apply Htk.
Qed.

(** While the tracker has room for the domains it is shown and the clock does
    not go back, an answer is flagged exactly when the domain has at least
    [ipThreshold] distinct answer IPs within the sliding window and the lowest of
    their TTLs is at most [ttlMax]. *)
Theorem fastflux_flag_iff ipThreshold ttlMaxSec window maxDomains h t order ev :
  let t0 := newFastFluxTracker ipThreshold ttlMaxSec window maxDomains in
  ff_trace t0 h t → order ≡ₚ map_to_list (ff_domains t) →
  Forall (λ e, ev_now e ≤ ev_now ev) h →
  Z.of_nat (size (ff_seen (h ++ [ev]))) ≤ ff_maxDomains t0 →
  ff_ttlMax t0 < uint32_max →
  let m := prune_ips (ev_now ev - ff_window t0) (ff_history (ev_domain ev) (h ++ [ev])) in
  (ff_observe order (ev_now ev) (ev_domain ev) (ev_ips ev) (ev_ttl ev) (Some t)).1 = true ↔
  ff_counts ev = true ∧ ff_ipThreshold t0 ≤ Z.of_nat (size m) ∧
  ∃ k r, m !! k = Some r ∧ ir_ttl r ≤ ff_ttlMax t0.
Proof.
  intros t0 Htr Ho Hmono Hsz Hmax m.
  destruct (ff_trace_tracks t0 h t eq_refl Htr) as [Hsame Htracks].
  { etrans; [|exact Hsz]. rewrite ff_seen_snoc. apply inj_le, subseteq_size. set_solver. }
  destruct Hsame as (Hw & Hth & Htt & Hmd).
  destruct (ff_counts ev) eqn:Hcnt.
  - rewrite ff_observe_room; [|intros Hnone|done].
    2: { rewrite Hmd. eapply Z.lt_le_trans; [|exact Hsz]. rewrite ff_seen_snoc, Hcnt.
         apply inj_lt, (map_size_lt_set _ _ (ev_domain ev)); [|done|set_solver].
         intros k Hk. apply elem_of_union_l. by apply Htracks. }
    assert (prune_ips (ev_now ev - ff_window t)
              (record_ips (ev_now ev) (ev_ttl ev) (ev_ips ev) (ff_entry t (ev_domain ev))) = m) as ->.
    { unfold m, ff_history. rewrite foldl_snoc, Hw. unfold ff_history_step at 1.
      rewrite Hcnt, bool_decide_eq_true_2 by done. apply prune_record. apply Htracks.
      eapply Forall_impl; [exact Hmono|]. intros e He. simpl in He. lia. }
    rewrite Hth, Htt, <- (min_ttl_le _ _ Hmax). case_bool_decide as Hm; cbn [fst].
    + split; [done|]. intros (_ & Hge & _). exfalso. rewrite Hm, map_size_empty in Hge.
      unfold t0, newFastFluxTracker, defaultFastFluxIPThresh in Hge. simpl in Hge.
      destruct (Z.leb_spec ipThreshold 0); lia.
    + rewrite andb_true_iff, !Z.leb_le. tauto.
  - unfold ff_counts in Hcnt. apply negb_false_iff in Hcnt. unfold ff_observe. rewrite Hcnt.
    simpl. split; [done|by intros []].
Qed.

(** ** Runs *)

Lemma nod_new_iff_witness :
  ∃ t0, first_time "a.com" [(0, "a.com", true); (30 * minute, "a.com", true)]%string = Some t0 ∧
        true = (time_sub (30 * minute) t0 <? hour).
Proof.
  pose proof (nod_trace_snoc _ _ _ [] 0 "a.com" (nod_trace_nil (newNODLedger hour 0))
    ltac:(reflexivity)) as Htr.
  exact (nod_new_iff hour 0 _ _ [("a.com"%string, 0)] (30 * minute) "a.com"
    ltac:(reflexivity) Htr ltac:(reflexivity) ltac:(vm_compute; discriminate) ltac:(discriminate)).
Defined.

Lemma nod_ledger_bounded_witness :
  let l := newNODLedger hour 1 in
  Z.of_nat (size (nl_firstSeen (nod_observe [("a.com"%string, 0)] second "b.com"
     (nod_observe [] 0 "a.com" l).2).2)) ≤ 1.
Proof.
  intros l. pose proof (nod_trace_snoc _ _ _ [] 0 "a.com" (nod_trace_nil l) ltac:(reflexivity)) as Htr.
  exact (proj1 (nod_ledger_bounded hour 1 _ _ [("a.com"%string, 0)] second "b.com" Htr ltac:(reflexivity))).
Defined.

Definition ex_ff_event : ff_event := {|
  ev_now := 0; ev_domain := "flux.com"; ev_ips := [[1; 2; 3; 4]; [1; 2; 3; 5]]; ev_ttl := 10 |}.

Lemma fastflux_flag_iff_witness :
  (ff_observe [] 0 "flux.com" [[1; 2; 3; 4]; [1; 2; 3; 5]] 10
     (Some (newFastFluxTracker 2 0 0 0))).1 = true.
Proof.
  apply (fastflux_flag_iff 2 0 0 0 [] _ [] ex_ff_event (ff_trace_nil _)).
  - reflexivity.
  - constructor.
  - vm_compute. discriminate.
  - reflexivity.
  - split; [reflexivity|]. split; [vm_compute; discriminate|].
    exists "1.2.3.4"%string, {| ir_lastSeen := 0; ir_ttl := 10 |}.
    split; [vm_compute; reflexivity|vm_compute; discriminate].
Defined.
