(* ===== verification/Case0x20.v ===== *)
(** * DNS 0x20 case randomisation

    [internal/dnsengine/case_randomize.go]. The [*rand.Rand] is its stream of
    [Intn(2)] draws and the position reached in it. *)
From S2P Require Import Prelude GoStrings GoNet DnsMsg.

Section Case0x20.
Context `{U : GoUnicode}.

Definition coins : Type := nat → bool.

Fixpoint randomizeCase (name : string) (r : coins) (i : nat) : string * nat :=
  match name with
  | EmptyString => (EmptyString, i)
  | String c s =>
      if is_lower_byte c then
        let '(s', j) := randomizeCase s r (S i) in
        (String (if r i then chr (ord c - 32) else c) s', j)
      else if is_upper_byte c then
        let '(s', j) := randomizeCase s r (S i) in
        (String (if r i then chr (ord c + 32) else c) s', j)
      else let '(s', j) := randomizeCase s r i in (String c s', j)
  end.

Definition equalNameFold (a b : string) : bool := EqualFold a b.

(** The loop over the questions: the new ones and the original names. *)
Fixpoint encode_questions (qs : list Question) (r : coins) (i : nat)
  : list Question * list string * nat :=
  match qs with
  | [] => ([], [], i)
  | q :: qs' =>
      let '(n, j) := randomizeCase (q_Name q) r i in
      let '(qs'', ns, k) := encode_questions qs' r j in
      ({| q_Name := n; q_Qtype := q_Qtype q; q_Qclass := q_Qclass q |} :: qs'', q_Name q :: ns, k)
  end.

Definition encodeCase0x20 (q : Msg) (r : coins) : Msg * list string :=
  let '(qs, originals, _) := encode_questions (m_Question q) r 0 in
  (set_questions q qs, originals).

Definition restoreOwnerNames (rrs : list RR) (original : string) : list RR :=
  (λ rr, if equalNameFold (rr_name rr) original then rr_set_name original rr else rr) <$> rrs.

(** One turn of the loop of [restoreCase0x20], for question [i] and its original
    name. *)
Definition restore_step (resp : Msg) (io : nat * string) : Msg :=
  let '(i, original) := io in
  match m_Question resp !! i with
  | None => resp
  | Some q =>
      if negb (equalNameFold (q_Name q) original) then resp
      else {|
        m_Id := m_Id resp; m_Response := m_Response resp; m_Rcode := m_Rcode resp;
        m_Truncated := m_Truncated resp; m_flags := m_flags resp;
        m_Question := <[i := {| q_Name := original; q_Qtype := q_Qtype q; q_Qclass := q_Qclass q |}]>
                        (m_Question resp);
        m_Answer := restoreOwnerNames (m_Answer resp) original;
        m_Ns := restoreOwnerNames (m_Ns resp) original;
        m_Extra := restoreOwnerNames (m_Extra resp) original |}
  end.

(** The loop stops at the shorter of the questions and the originals; the steps
    past the last question change nothing. *)
Definition restoreCase0x20 (resp : option Msg) (originals : list string) : option Msg :=
  match resp with
  | None => None
  | Some m => Some (foldl restore_step m (zip (seq 0 (length originals)) originals))
  end.

(** ** Randomising keeps the name *)

Lemma lower_up_down c : is_lower_byte c = true → lower_byte (chr (ord c - 32)) = lower_byte c.
Proof.
  unfold is_lower_byte, lower_byte, is_upper_byte. intros H. boolp.
  rewrite ord_chr by lia.
  rewrite (proj2 (Z.leb_le 65 (ord c - 32))), (proj2 (Z.leb_le (ord c - 32) 90)) by lia.
  rewrite (proj2 (Z.leb_gt (ord c) 90)), andb_false_r by lia. cbn [andb].
  rewrite <- (chr_ord c) at 2. f_equal. lia.
Qed.

Lemma lower_down_up c : is_upper_byte c = true → lower_byte (chr (ord c + 32)) = lower_byte c.
Proof.
  intros H. assert (lower_byte c = chr (ord c + 32)) as E by (unfold lower_byte; by rewrite H).
  by rewrite <- E, lower_byte_idemp.
Qed.

Lemma randomizeCase_lower name r i :
  string_map lower_byte (randomizeCase name r i).1 = string_map lower_byte name.
Proof.
  revert i. induction name as [|c s IH]; intros i; simpl; [done|].
  destruct (is_lower_byte c) eqn:El.
  - specialize (IH (S i)). destruct (randomizeCase s r (S i)) as [s' j]. cbn [fst] in *.
    simpl. rewrite IH. f_equal. destruct (r i); [by apply lower_up_down|done].
  - destruct (is_upper_byte c) eqn:Eu.
    + specialize (IH (S i)). destruct (randomizeCase s r (S i)) as [s' j]. cbn [fst] in *.
      simpl. rewrite IH. f_equal. destruct (r i); [by apply lower_down_up|done].
    + specialize (IH i). destruct (randomizeCase s r i) as [s' j]. cbn [fst] in *. simpl. by rewrite IH.
Qed.

Lemma is_ascii_lower s : is_ascii (string_map lower_byte s) = is_ascii s.
Proof. apply is_ascii_map, is_ascii_lower_byte. Qed.

Lemma EqualFold_lower a b :
  is_ascii a = true → string_map lower_byte a = string_map lower_byte b → EqualFold a b = true.
Proof.
  intros Ha H. unfold EqualFold. rewrite <- (is_ascii_lower b), <- H, is_ascii_lower, Ha. simpl.
  by apply bool_decide_eq_true.
Qed.

Lemma randomizeCase_ascii name r i :
  is_ascii name = true → is_ascii (randomizeCase name r i).1 = true.
Proof. intros H. by rewrite <- is_ascii_lower, randomizeCase_lower, is_ascii_lower. Qed.

Definition ascii_questions (qs : list Question) : Prop :=
  Forall (λ q, is_ascii (q_Name q) = true) qs.

(** Two questions that differ at most in the ASCII case of the name. *)
Definition same_question (q q' : Question) : Prop :=
  q_Qtype q = q_Qtype q' ∧ q_Qclass q = q_Qclass q' ∧ is_ascii (q_Name q) = true ∧
  string_map lower_byte (q_Name q) = string_map lower_byte (q_Name q').

Lemma encode_questions_spec qs r i :
  ascii_questions qs →
  (encode_questions qs r i).1.2 = q_Name <$> qs ∧
  Forall2 same_question (encode_questions qs r i).1.1 qs.
Proof.
  unfold ascii_questions. revert i. induction qs as [|q qs IH]; intros i H; simpl; [done|].
  apply Forall_cons in H as [Hq H].
  pose proof (randomizeCase_lower (q_Name q) r i) as Hl.
  pose proof (randomizeCase_ascii (q_Name q) r i Hq) as Ha.
  destruct (randomizeCase (q_Name q) r i) as [n j]. cbn [fst] in *. specialize (IH j H).
  destruct (encode_questions qs r j) as [[qs' ns] k]. cbn [fst snd] in *.
  destruct IH as [-> IH]. split; [done|]. constructor; [|done]. done.
Qed.

(** ** Restoring *)

Lemma restore_step_question resp i o q :
  m_Question resp !! i = Some q → is_ascii (q_Name q) = true →
  string_map lower_byte (q_Name q) = string_map lower_byte o →
  m_Question (restore_step resp (i, o))
  = <[i := {| q_Name := o; q_Qtype := q_Qtype q; q_Qclass := q_Qclass q |}]> (m_Question resp).
Proof.
  intros Hq Ha Hl. unfold restore_step, equalNameFold. by rewrite Hq, EqualFold_lower.
Qed.

(** Over a suffix of the questions, all still as the upstream echoed them. *)
Lemma restore_fold_questions originals n : ∀ resp pre qs,
  m_Question resp = pre ++ qs → length pre = n →
  Forall2 (λ q o, is_ascii (q_Name q) = true ∧
                  string_map lower_byte (q_Name q) = string_map lower_byte o) qs originals →
  m_Question (foldl restore_step resp (zip (seq n (length originals)) originals))
  = pre ++ zip_with (λ q o, {| q_Name := o; q_Qtype := q_Qtype q; q_Qclass := q_Qclass q |}) qs originals.
Proof.
  revert n. induction originals as [|o os IH]; intros n resp pre qs Hq Hn Hall.
  { inversion Hall; subst. done. }
  inversion Hall as [|q ? qs' ? [Ha Hl] Hall']; subst. cbn [length seq zip zip_with foldl].
  assert (Hlk : m_Question resp !! length pre = Some q).
  { rewrite Hq, lookup_app_r by lia. by rewrite Nat.sub_diag. }
  rewrite (IH (S (length pre)) _ (pre ++ [{| q_Name := o; q_Qtype := q_Qtype q; q_Qclass := q_Qclass q |}]) qs').
  - by rewrite <- app_assoc.
  - rewrite (restore_step_question _ _ _ q) by done. rewrite Hq, insert_app_r_alt by lia.
    rewrite Nat.sub_diag. cbn. by rewrite <- app_assoc.
  - rewrite length_app. simpl. lia.
  - done.
Qed.

(** C32. What is sent upstream is the client's query up to ASCII case, and a
    response that echoes it comes back with the client's own question section,
    byte for byte, whatever the draws were. *)
Theorem restore_encode q r resp :
  ascii_questions (m_Question q) →
  let '(out, originals) := encodeCase0x20 q r in
  Forall2 same_question (m_Question out) (m_Question q) ∧
  (m_Question resp = m_Question out →
   ∃ m, restoreCase0x20 (Some resp) originals = Some m ∧ m_Question m = m_Question q).
Proof.
  intros Ha. unfold encodeCase0x20.
  pose proof (encode_questions_spec (m_Question q) r 0 Ha) as [Hns Hsame].
  destruct (encode_questions (m_Question q) r 0) as [[qs ns] k]. cbn [fst snd] in *.
  split; [exact Hsame|]. cbn [set_questions m_Question]. intros Hecho. eexists. split; [reflexivity|].
  rewrite (restore_fold_questions ns 0 resp [] qs); [|done..|].
  - subst ns. clear -Hsame. rewrite app_nil_l.
    induction Hsame as [|q' q0 qs qs0 (Ht & Hc & _) Hs IH]; [done|].
    rewrite fmap_cons. cbn [zip_with]. rewrite IH, Ht, Hc. by destruct q0.
  - subst ns. clear -Hsame. induction Hsame as [|q' q0 qs qs0 (_ & _ & ? & ?) Hs IH]; simpl;
      constructor; done.
Qed.

(** The restored message depends on the echoed questions only up to case. *)
Lemma restore_fold_blind originals n : ∀ resp pre qs1 qs2,
  length pre = n → Forall2 same_question qs1 qs2 →
  Forall2 (λ q o, string_map lower_byte (q_Name q) = string_map lower_byte o) qs1 originals →
  foldl restore_step (set_questions resp (pre ++ qs1)) (zip (seq n (length originals)) originals)
  = foldl restore_step (set_questions resp (pre ++ qs2)) (zip (seq n (length originals)) originals).
Proof.
  revert n. induction originals as [|o os IH]; intros n resp pre qs1 qs2 Hn Hsame Hall.
  { inversion Hall; subst. inversion Hsame; subst. done. }
  inversion Hall as [|q1 ? qs1' ? Hl Hall']; subst.
  inversion Hsame as [|? q2 ? qs2' (Ht & Hc & Ha & Hl') Hsame']; subst.
  cbn [length seq zip zip_with foldl].
  assert (Hstep : ∀ q qs, is_ascii (q_Name q) = true →
    string_map lower_byte (q_Name q) = string_map lower_byte o →
    restore_step (set_questions resp (pre ++ q :: qs)) (length pre, o)
    = set_questions {|
        m_Id := m_Id resp; m_Response := m_Response resp; m_Rcode := m_Rcode resp;
        m_Truncated := m_Truncated resp; m_flags := m_flags resp; m_Question := [];
        m_Answer := restoreOwnerNames (m_Answer resp) o;
        m_Ns := restoreOwnerNames (m_Ns resp) o;
        m_Extra := restoreOwnerNames (m_Extra resp) o |}
      ((pre ++ [{| q_Name := o; q_Qtype := q_Qtype q; q_Qclass := q_Qclass q |}]) ++ qs)).
  { intros q qs Haq Hlq. unfold restore_step. cbn [set_questions m_Question].
    rewrite lookup_app_r, Nat.sub_diag by lia. cbn [lookup list_lookup].
    unfold equalNameFold. rewrite EqualFold_lower by done. cbn [negb].
    rewrite insert_app_r_alt, Nat.sub_diag by lia. cbn. by rewrite <- app_assoc. }
  assert (Ha2 : is_ascii (q_Name q2) = true).
  { by rewrite <- is_ascii_lower, <- Hl', is_ascii_lower. }
  rewrite (Hstep q1), (Hstep q2) by congruence. rewrite Ht, Hc.
  apply IH; [rewrite length_app; simpl; lia|done|done].
Qed.

(** The case the upstream echoes is never compared with the case that was
    sent: two responses whose question names differ in ASCII case alone are
    treated alike, so the randomised bits add nothing a spoofer has to guess. *)
Theorem restore_ignores_echo_case resp qs1 qs2 originals :
  Forall2 same_question qs1 qs2 →
  Forall2 (λ q o, string_map lower_byte (q_Name q) = string_map lower_byte o) qs1 originals →
  restoreCase0x20 (Some (set_questions resp qs1)) originals
  = restoreCase0x20 (Some (set_questions resp qs2)) originals.
Proof. intros Hs Ho. unfold restoreCase0x20. f_equal. by apply (restore_fold_blind originals 0 resp []). Qed.

End Case0x20.

(** ** Runs *)

Definition ex_query : Msg :=
  set_questions empty_msg [{| q_Name := "WWW.a1.com."; q_Qtype := 1; q_Qclass := 1 |}].

Lemma restore_encode_witness :
  let '(out, originals) := encodeCase0x20 ex_query Nat.even in
  m_Question out = [{| q_Name := "wWw.a1.CoM."; q_Qtype := 1; q_Qclass := 1 |}] ∧
  ∃ m, restoreCase0x20 (U := ascii_unicode) (Some out) originals = Some m ∧
       m_Question m = m_Question ex_query.
Proof.
  assert (ascii_questions (m_Question ex_query)) as Ha by (repeat constructor).
  pose proof (restore_encode (U := ascii_unicode) ex_query Nat.even
    (encodeCase0x20 ex_query Nat.even).1 Ha) as H.
  change (encodeCase0x20 ex_query Nat.even)
    with ((encodeCase0x20 ex_query Nat.even).1, (encodeCase0x20 ex_query Nat.even).2) in H |- *.
  destruct H as [_ H]. split; [vm_compute; reflexivity|]. exact (H eq_refl).
Defined.

Lemma restore_ignores_echo_case_witness :
  restoreCase0x20 (U := ascii_unicode)
    (Some (set_questions empty_msg [{| q_Name := "A.com."; q_Qtype := 1; q_Qclass := 1 |}])) ["a.com."%string]
  = restoreCase0x20 (U := ascii_unicode)
    (Some (set_questions empty_msg [{| q_Name := "a.COM."; q_Qtype := 1; q_Qclass := 1 |}])) ["a.com."%string].
Proof. apply restore_ignores_echo_case; repeat constructor. Defined.
