(* ===== verification/Upstream.v ===== *)
(** * Upstream resolvers: addresses, fail-over and the connection pool

    [internal/dnsengine]: upstream_manager.go, connections.go and
    encrypted_upstream.go. Dialling and the wire are oracles: each transport's
    exchange is a state transformer of the client, and the pool is a state machine
    whose steps are the critical sections of its mutex, so the unlock around the
    dial is an interleaving point. *)
From S2P Require Import Prelude GoStrings GoText GoUrl GoNet DnsMsg Case0x20.

(** ** parseResolverScheme *)

Inductive scheme := schemePlain | schemeDoT | schemeDoH.
#[global] Instance scheme_eq_dec : EqDecision scheme.
Proof. solve_decision. Defined.

Inductive upstream_error :=
| ErrEmptyResolver
| ErrMissingHost (entry : string)
| ErrUnsupportedScheme (entry : string)
| ErrBadMaxConns
| ErrDial (addr : string)
| ErrDoTAddress (addr : string)
| ErrDoHEndpoint (url : string)
| ErrPoolClosed
| ErrPoolExhausted
| ErrNonTCP
| ErrIO (s : string).

Definition defaultDoTPort : string := "853".

Definition ensurePort (host defPort : string) : string :=
  match SplitHostPort host with
  | Some _ => host
  | None => JoinHostPort host defPort
  end.

Section Parse.
Context `{U : GoUnicode}.

Definition parseResolverScheme (entry : string) : result upstream_error (scheme * string) :=
  let entry := TrimSpace entry in
  if bool_decide (entry = ""%string) then Err ErrEmptyResolver else
  match Index entry "://" with
  | None => Ok (schemePlain, entry)
  | Some idx =>
      let sch := ToLower (take_bytes idx entry) in
      let rest := drop_bytes (idx + 3) entry in
      if bool_decide (sch = "udp"%string) || bool_decide (sch = "plain"%string) then
        if bool_decide (rest = ""%string) then Err (ErrMissingHost entry)
        else Ok (schemePlain, rest)
      else if bool_decide (sch = "tls"%string) then
        if bool_decide (rest = ""%string) then Err (ErrMissingHost entry)
        else Ok (schemeDoT, ensurePort rest defaultDoTPort)
      else if bool_decide (sch = "https"%string) then Ok (schemeDoH, entry)
      else Err (ErrUnsupportedScheme entry)
  end.
End Parse.

(** ** The pool of one plain upstream *)

(** A TCP connection is named by a number; what the network does with it is
    outside. *)
Record UpstreamPool := {
  up_conns : list (option Z);
  up_inUse : list bool;
  up_maxConns : nat;
  up_next : nat;
  up_closed : bool;
}.

Definition NewUpstreamPool (maxConns : Z) : result upstream_error UpstreamPool :=
  if maxConns <? 1 then Err ErrBadMaxConns
  else Ok {|
    up_conns := replicate (Z.to_nat maxConns) None;
    up_inUse := replicate (Z.to_nat maxConns) false;
    up_maxConns := Z.to_nat maxConns; up_next := 0; up_closed := false |}.

Definition set_inUse (p : UpstreamPool) (idx : nat) (b : bool) : UpstreamPool := {|
  up_conns := up_conns p; up_inUse := <[idx := b]> (up_inUse p); up_maxConns := up_maxConns p;
  up_next := up_next p; up_closed := up_closed p |}.
Definition set_conn (p : UpstreamPool) (idx : nat) (c : option Z) : UpstreamPool := {|
  up_conns := <[idx := c]> (up_conns p); up_inUse := up_inUse p; up_maxConns := up_maxConns p;
  up_next := up_next p; up_closed := up_closed p |}.
Definition set_next (p : UpstreamPool) (n : nat) : UpstreamPool := {|
  up_conns := up_conns p; up_inUse := up_inUse p; up_maxConns := up_maxConns p;
  up_next := n; up_closed := up_closed p |}.

(** What the first critical section of [getTCPConn] ends with: a pooled
    connection, or a reserved slot to dial for. *)
Inductive reservation := GotConn (idx : nat) (c : Z) | MustDial (idx : nat).
Definition res_idx (r : reservation) : nat :=
  match r with GotConn idx _ | MustDial idx => idx end.

(** The first free slot of the round-robin scan. *)
Definition free_slot (p : UpstreamPool) : option nat :=
  first_match (λ i, let idx := ((up_next p + i) mod up_maxConns p)%nat in
                    if nth idx (up_inUse p) false then None else Some idx)
    (seq 0 (up_maxConns p)).

Definition getTCPConn_reserve (p : UpstreamPool) : result upstream_error (reservation * UpstreamPool) :=
  if up_closed p then Err ErrPoolClosed else
  match free_slot p with
  | None => Err ErrPoolExhausted
  | Some idx =>
      let p := set_next (set_inUse p idx true) ((idx + 1) mod up_maxConns p) in
      match nth idx (up_conns p) None with
      | Some c => Ok (GotConn idx c, p)
      | None => Ok (MustDial idx, p)
      end
  end.

(** The second critical section, after the dial: a TCP connection, a failure, or a
    connection that is not TCP. *)
Inductive dialled := DialTCP (c : Z) | DialErr | DialOther.
Definition getTCPConn_commit (idx : nat) (d : dialled) (p : UpstreamPool)
  : result upstream_error Z * UpstreamPool :=
  match d with
  | DialErr => (Err (ErrDial ""), set_inUse p idx false)
  | DialTCP c => (Ok c, set_conn p idx (Some c))
  | DialOther => (Err ErrNonTCP, set_inUse p idx false)
  end.

Definition releaseTCPConn (idx : nat) (hadErr : bool) (p : UpstreamPool) : UpstreamPool :=
  if (length (up_conns p) <=? idx)%nat then p
  else if hadErr then
    let p := match nth idx (up_conns p) None with Some _ => set_conn p idx None | None => p end in
    set_inUse p idx false
  else p.

Fixpoint close_slots (conns : list (option Z)) (inUse : list bool) : list (option Z) * list bool :=
  match conns, inUse with
  | c :: conns', u :: inUse' =>
      let '(cs, us) := close_slots conns' inUse' in
      match c with
      | Some _ => (None :: cs, false :: us)
      | None => (None :: cs, u :: us)
      end
  | _, _ => (conns, inUse)
  end.

Definition pool_Close (p : UpstreamPool) : UpstreamPool :=
  if up_closed p then p else
  let '(cs, us) := close_slots (up_conns p) (up_inUse p) in
  {| up_conns := cs; up_inUse := us; up_maxConns := up_maxConns p; up_next := up_next p;
     up_closed := true |}.

(** Interleavings: the pool, the slots reserved by callers that are dialling, and
    those whose connection a caller is using. *)
Record pool_world := { pw_pool : UpstreamPool; pw_dialling : list nat; pw_holders : list nat }.

Definition drop_one (i : nat) (l : list nat) : list nat := filter (λ x, x ≠ i) l.

Inductive pool_step : pool_world → pool_world → Prop :=
| step_reserve_conn p p' ds hs idx c :
    getTCPConn_reserve p = Ok (GotConn idx c, p') →
    pool_step {| pw_pool := p; pw_dialling := ds; pw_holders := hs |}
              {| pw_pool := p'; pw_dialling := ds; pw_holders := idx :: hs |}
| step_reserve_dial p p' ds hs idx :
    getTCPConn_reserve p = Ok (MustDial idx, p') →
    pool_step {| pw_pool := p; pw_dialling := ds; pw_holders := hs |}
              {| pw_pool := p'; pw_dialling := idx :: ds; pw_holders := hs |}
| step_commit_ok p p' ds hs idx d c :
    idx ∈ ds → getTCPConn_commit idx d p = (Ok c, p') →
    pool_step {| pw_pool := p; pw_dialling := ds; pw_holders := hs |}
              {| pw_pool := p'; pw_dialling := drop_one idx ds; pw_holders := idx :: hs |}
| step_commit_err p p' ds hs idx d e :
    idx ∈ ds → getTCPConn_commit idx d p = (Err e, p') →
    pool_step {| pw_pool := p; pw_dialling := ds; pw_holders := hs |}
              {| pw_pool := p'; pw_dialling := drop_one idx ds; pw_holders := hs |}
| step_release p ds hs idx hadErr :
    idx ∈ hs →
    pool_step {| pw_pool := p; pw_dialling := ds; pw_holders := hs |}
              {| pw_pool := releaseTCPConn idx hadErr p; pw_dialling := ds;
                 pw_holders := drop_one idx hs |}
| step_close p ds hs :
    pool_step {| pw_pool := p; pw_dialling := ds; pw_holders := hs |}
              {| pw_pool := pool_Close p; pw_dialling := ds; pw_holders := hs |}.

Inductive pool_reachable (n : Z) : pool_world → Prop :=
| reach_new p : NewUpstreamPool n = Ok p →
    pool_reachable n {| pw_pool := p; pw_dialling := []; pw_holders := [] |}
| reach_step w w' : pool_reachable n w → pool_step w w' → pool_reachable n w'.

(** ** The shared UDP socket *)

(** Datagrams wait in the socket's buffer in arrival order; [Exchange] sends the
    query, the network delivers [arrivals] within the deadline, and the first
    datagram waiting is the response. *)
Record UDPClient := { u_open : bool; u_inbox : list Msg }.

Definition udp_Exchange (arrivals : list Msg) (q : Msg) (u : UDPClient)
  : option (result upstream_error Msg) * UDPClient :=
  if negb (u_open u) then (None, u) (* a nil connection: the call panics *)
  else match u_inbox u ++ arrivals with
       | [] => (Some (Err (ErrIO "timeout")), u)
       | resp :: rest => (Some (Ok resp), {| u_open := true; u_inbox := rest |})
       end.

Definition udp_Close (u : UDPClient) : UDPClient := {| u_open := false; u_inbox := u_inbox u |}.

(** The exchange over a TCP connection: setting the deadline, then writing and
    reading, may fail; only the latter counts as an error of the connection. *)
Inductive tcp_outcome := TcpDeadline (e : upstream_error) | TcpIO (e : upstream_error) | TcpOk (m : Msg).
Definition tcp_result (t : tcp_outcome) : result upstream_error Msg :=
  match t with TcpDeadline e | TcpIO e => Err e | TcpOk m => Ok m end.
Definition tcp_hadErr (t : tcp_outcome) : bool := match t with TcpIO _ => true | _ => false end.

Definition tcp_fallback (d : dialled) (tcp : tcp_outcome) (p : UpstreamPool)
  : result upstream_error Msg * UpstreamPool :=
  match getTCPConn_reserve p with
  | Err e => (Err e, p)
  | Ok (GotConn idx _, p) => (tcp_result tcp, releaseTCPConn idx (tcp_hadErr tcp) p)
  | Ok (MustDial idx, p) =>
      match getTCPConn_commit idx d p with
      | (Err e, p) => (Err e, p)
      | (Ok _, p) => (tcp_result tcp, releaseTCPConn idx (tcp_hadErr tcp) p)
      end
  end.

(** [(p *UpstreamPool) Exchange], with no other caller in between: the UDP result,
    then, on an error or a truncated answer, the TCP one. *)
Definition pool_Exchange (udp : result upstream_error Msg) (d : dialled) (tcp : tcp_outcome)
  (p : UpstreamPool) : result upstream_error Msg * UpstreamPool :=
  match udp with
  | Ok resp => if negb (m_Truncated resp) then (Ok resp, p) else tcp_fallback d tcp p
  | Err _ => tcp_fallback d tcp p
  end.

(** ** encrypted_upstream.go: the exchanges *)

(** [newDoHClient] checks the endpoint. *)
Definition doh_endpoint_ok (endpoint : string) : bool :=
  match url_Parse endpoint with
  | Some (scheme, host) => bool_decide (scheme = "https"%string) && negb (bool_decide (host = ""%string))
  | None => false
  end.

(** The wire format of the DNS library, and what a POST comes back with: the status, and
    the body unless reading it fails. *)
Class DnsWire := { Pack : Msg → option string; Unpack : string → option Msg }.
Definition MaxMsgSize : Z := 65535.
Inductive doh_error := DohPack | DohBuildRequest | DohExchange | DohStatus (code : Z) | DohRead | DohUnpack.
Record http_reply := { hr_status : Z; hr_body : option string }.

Definition doh_Exchange `{DnsWire} (post : string → string → option http_reply) (endpoint : string) (q : Msg)
  : result doh_error Msg :=
  match Pack q with
  | None => Err DohPack
  | Some packed =>
      if negb (NewRequest_ok endpoint) then Err DohBuildRequest
      else match post endpoint packed with
           | None => Err DohExchange
           | Some r =>
               if negb (hr_status r =? 200) then Err (DohStatus (hr_status r))
               else match hr_body r with
                    | None => Err DohRead
                    | Some body => match Unpack (take_bytes (Z.to_nat MaxMsgSize) body) with None => Err DohUnpack | Some m => Ok m end
                    end
           end
  end.
(** The library's TLS client does the work. *)
Definition dot_Exchange (client : Msg → string → option Msg) (addr : string) (q : Msg) : option Msg := client q addr.

(** A client that could be built never fails to build a request, and a query that packs
    to an answer of the size of a message comes back as it was packed. *)
Lemma doh_Exchange_ok `{DnsWire} post endpoint q m packed body :
  doh_endpoint_ok endpoint = true → Pack q = Some packed → post endpoint packed = Some {| hr_status := 200; hr_body := Some body |} →
  Pack m = Some body → Unpack body = Some m → Z.of_nat (String.length body) ≤ MaxMsgSize →
  doh_Exchange post endpoint q = Ok m.
Proof.
  intros He Hq Hp _ Hu Hl. assert (∀ n s, (String.length s ≤ n)%nat → take_bytes n s = s) as Ht.
  { clear. induction n as [|n IH]; intros [|c s] Hl; simpl in *; try done; [lia|]. by rewrite IH by lia. }
  unfold doh_Exchange. rewrite Hq, Hp. assert (NewRequest_ok endpoint = true) as ->.
  { unfold doh_endpoint_ok, NewRequest_ok in *. destruct (url_Parse endpoint); [|done]. by apply bool_decide_eq_true_2. }
  cbn [negb hr_status hr_body Z.eqb Pos.eqb]. by rewrite Ht, Hu by lia.
Qed.

(** ** The manager *)

(** Building a transport from a parsed entry: the pool size is checked first; the
    dial of the UDP socket is the environment's. *)
Class TransportEnv := { udp_dials : string → bool }.

Inductive Upstream := UpPool (addr : string) (p : UpstreamPool) | UpDoT (addr : string) | UpDoH (url : string).

Definition Addr (u : Upstream) : string :=
  match u with UpPool a _ => a | UpDoT a => ("tls://" +:+ a)%string | UpDoH u => u end.

Record UpstreamManager := { um_upstreams : list Upstream; um_dns0x20 : bool }.

Section Manager.
Context `{U : GoUnicode} `{T : TransportEnv}.

(** The DoT client: whom it dials, and the name its certificate is checked for. *)
Record dotClient := { dc_addr : string; dc_ServerName : string }.
Definition newDoTClient (addr : string) : result upstream_error dotClient :=
  match SplitHostPort addr with
  | Some (host, _) => Ok {| dc_addr := addr; dc_ServerName := host |}
  | None => Err (ErrDoTAddress addr)
  end.

Definition newUpstream (entry : string) (poolSize : Z) : result upstream_error Upstream :=
  let? st := parseResolverScheme entry in
  match st with
  | (schemePlain, target) =>
      if poolSize <? 1 then Err ErrBadMaxConns
      else if negb (udp_dials target) then Err (ErrDial target)
      else let? p := NewUpstreamPool poolSize in Ok (UpPool target p)
  | (schemeDoT, target) =>
      let? c := newDoTClient target in Ok (UpDoT (dc_addr c))
  | (schemeDoH, target) =>
      if doh_endpoint_ok target then Ok (UpDoH target) else Err (ErrDoHEndpoint target)
  end.

Fixpoint new_upstreams (entries : list string) (poolSize : Z) : result upstream_error (list Upstream) :=
  match entries with
  | [] => Ok []
  | e :: es => let? u := newUpstream e poolSize in
               let? us := new_upstreams es poolSize in Ok (u :: us)
  end.

Definition NewUpstreamManager (resolvers : list string) (poolSize : Z) (dns0x20 : bool)
  : result upstream_error UpstreamManager :=
  let? us := new_upstreams resolvers poolSize in
  Ok {| um_upstreams := us; um_dns0x20 := dns0x20 |}.

Definition prepareOutbound (m : UpstreamManager) (q : Msg) (r : coins) : Msg * option (list string) :=
  if um_dns0x20 m then let '(out, originals) := encodeCase0x20 q r in (out, Some originals)
  else (q, None).

(** The two loops of [Exchange]. The transports' joint state is [W]; [xchg i msg]
    is one [Exchange] of the [i]-th upstream. A response may be nil. *)
Section Exchange.
Context {W : Type}.
Context (xchg : nat → Msg → W → result upstream_error (option Msg) * W).

Fixpoint attempts (i : nat) (n : nat) (out : Msg) (lastErr : option upstream_error) (w : W)
  : result (option upstream_error) (option Msg) * W :=
  match n with
  | O => (Err lastErr, w)
  | S n' =>
      match xchg i out w with
      | (Ok resp, w') => (Ok resp, w')
      | (Err e, w') => attempts i n' out (Some e) w'
      end
  end.

Fixpoint failover (ups : list nat) (n : nat) (out : Msg) (lastErr : option upstream_error) (w : W)
  : result (option upstream_error) (option Msg) * W :=
  match ups with
  | [] => (Err lastErr, w)
  | i :: ups' =>
      match attempts i n out lastErr w with
      | (Ok resp, w') => (Ok resp, w')
      | (Err e, w') => failover ups' n out e w'
      end
  end.

(** The pair (response, error) of the code; both are nil when nothing was tried. *)
Definition mgr_Exchange (m : UpstreamManager) (r : coins) (q : Msg) (maxRetries : Z) (w : W)
  : (option Msg * option upstream_error) * W :=
  let '(out, originals) := prepareOutbound m q r in
  match failover (seq 0 (length (um_upstreams m))) (Z.to_nat maxRetries) out None w with
  | (Ok resp, w') =>
      ((match originals with Some os => restoreCase0x20 resp os | None => resp end, None), w')
  | (Err e, w') => ((None, e), w')
  end.

(** The schedule of attempts and its reading as one list. *)
Definition schedule (nups n : nat) : list nat := seq 0 nups ≫= replicate n.

Fixpoint first_success (sched : list nat) (out : Msg) (lastErr : option upstream_error) (w : W)
  : result (option upstream_error) (option Msg) * W :=
  match sched with
  | [] => (Err lastErr, w)
  | i :: sched' =>
      match xchg i out w with
      | (Ok resp, w') => (Ok resp, w')
      | (Err e, w') => first_success sched' out (Some e) w'
      end
  end.
End Exchange.
End Manager.

(** ** Fail-over *)

Section Failover.
Context `{U : GoUnicode} {W : Type}.
Context (xchg : nat → Msg → W → result upstream_error (option Msg) * W).

Lemma attempts_schedule i n out e w sched :
  first_success xchg (replicate n i ++ sched) out e w
  = match attempts xchg i n out e w with
    | (Ok resp, w') => (Ok resp, w')
    | (Err e', w') => first_success xchg sched out e' w'
    end.
Proof.
  revert e w. induction n as [|n IH]; intros e w; simpl; [done|].
  destruct (xchg i out w) as [[resp|e'] w']; [done|apply IH].
Qed.

Lemma failover_schedule ups n out e w :
  failover xchg ups n out e w = first_success xchg (ups ≫= replicate n) out e w.
Proof.
  revert e w. induction ups as [|i ups IH]; intros e w; [done|]. csimpl.
  rewrite attempts_schedule. destruct (attempts xchg i n out e w) as [[resp|e'] w']; [done|apply IH].
Qed.

(** A run of attempts that all failed, with the last error. *)
Inductive all_fail (out : Msg) : list nat → option upstream_error → W → option upstream_error → W → Prop :=
| all_fail_nil e w : all_fail out [] e w e w
| all_fail_cons i sched e w e1 w1 e2 w2 :
    xchg i out w = (Err e1, w1) → all_fail out sched (Some e1) w1 e2 w2 →
    all_fail out (i :: sched) e w e2 w2.

Lemma first_success_spec sched out e w :
  match first_success xchg sched out e w with
  | (Ok resp, w') =>
      ∃ s1 i s2 e1 w1, sched = s1 ++ i :: s2 ∧ all_fail out s1 e w e1 w1 ∧
                       xchg i out w1 = (Ok resp, w')
  | (Err e', w') => all_fail out sched e w e' w'
  end.
Proof.
  revert e w. induction sched as [|i sched IH]; intros e w; simpl; [constructor|].
  destruct (xchg i out w) as [[resp|e1] w1] eqn:E.
  - exists [], i, sched, e, w. repeat split; [constructor|done].
  - specialize (IH (Some e1) w1). destruct (first_success _ _ _ _ _) as [[resp|e2] w2].
    + destruct IH as (s1 & i' & s2 & e3 & w3 & -> & Hf & Hx).
      exists (i :: s1), i', s2, e3, w3. repeat split; [|done]. by econstructor.
    + by econstructor.
Qed.

(** C26. [Exchange] tries the upstreams in configured order, each up to
    [maxRetries] times, with one and the same outbound message, and stops at the
    first response, which it returns with the client's spelling restored when 0x20
    is on. When every attempt fails it returns the last error, and no response. *)
Theorem Exchange_failover m r q maxRetries w :
  let '(out, originals) := prepareOutbound m q r in
  let sched := schedule (length (um_upstreams m)) (Z.to_nat maxRetries) in
  match mgr_Exchange xchg m r q maxRetries w with
  | (None, err, w') =>
      all_fail out sched None w err w' ∨
      ∃ s1 i s2 e1 w1, sched = s1 ++ i :: s2 ∧ all_fail out s1 None w e1 w1 ∧
                       xchg i out w1 = (Ok None, w') ∧ err = None
  | (Some resp, err, w') =>
      ∃ s1 i s2 e1 w1 resp0, sched = s1 ++ i :: s2 ∧ all_fail out s1 None w e1 w1 ∧
        xchg i out w1 = (Ok (Some resp0), w') ∧ err = None ∧
        Some resp = match originals with
                    | Some os => restoreCase0x20 (Some resp0) os
                    | None => Some resp0
                    end
  end.
Proof.
  unfold mgr_Exchange, schedule. destruct (prepareOutbound m q r) as [out originals]. cbv zeta.
  rewrite failover_schedule.
  pose proof (first_success_spec (seq 0 (length (um_upstreams m)) ≫= replicate (Z.to_nat maxRetries)) out None w)
    as H. destruct (first_success _ _ _ _ _) as [[resp|e] w']; [|by left].
  destruct H as (s1 & i & s2 & e1 & w1 & Hs & Hf & Hx).
  destruct resp as [resp0|]; destruct originals as [os|]; cbn [restoreCase0x20].
  - exists s1, i, s2, e1, w1, resp0. done.
  - exists s1, i, s2, e1, w1, resp0. done.
  - right. exists s1, i, s2, e1, w1. done.
  - right. exists s1, i, s2, e1, w1. done.
Qed.
End Failover.

(** ** The pool *)

Record pool_inv (n : Z) (w : pool_world) : Prop := {
  pi_max : Z.of_nat (up_maxConns (pw_pool w)) = n ∧ 0 < n;
  pi_conns : length (up_conns (pw_pool w)) = up_maxConns (pw_pool w);
  pi_inUse : length (up_inUse (pw_pool w)) = up_maxConns (pw_pool w);
  pi_nodup : NoDup (pw_dialling w ++ pw_holders w);
  pi_busy : up_closed (pw_pool w) = false →
    ∀ i, i ∈ pw_dialling w ++ pw_holders w → up_inUse (pw_pool w) !! i = Some true;
}.

Lemma free_slot_spec p idx :
  free_slot p = Some idx → length (up_inUse p) = up_maxConns p →
  (0 < up_maxConns p)%nat → up_inUse p !! idx = Some false ∧ (idx < up_maxConns p)%nat.
Proof.
  unfold free_slot. intros (l1 & i & l2 & _ & H & _)%first_match_Some Hlen Hpos.
  set (j := ((up_next p + i) mod up_maxConns p)%nat) in *.
  assert (j < up_maxConns p)%nat as Hj by (apply Nat.mod_upper_bound; lia).
  destruct (nth j (up_inUse p) false) eqn:E; [done|]. injection H as <-. split; [|done].
  rewrite nth_lookup in E. destruct (lookup_lt_is_Some_2 (up_inUse p) j) as [b Hb]; [lia|].
  rewrite Hb in E. simpl in E. by subst.
Qed.

Lemma reserve_spec p r p' :
  getTCPConn_reserve p = Ok (r, p') → length (up_inUse p) = up_maxConns p →
  (0 < up_maxConns p)%nat →
  up_closed p = false ∧ up_inUse p !! res_idx r = Some false ∧ (res_idx r < up_maxConns p)%nat ∧
  up_conns p' = up_conns p ∧ up_inUse p' = <[res_idx r := true]> (up_inUse p) ∧
  up_maxConns p' = up_maxConns p ∧ up_closed p' = false.
Proof.
  unfold getTCPConn_reserve. destruct (up_closed p) eqn:Hc; [done|].
  destruct (free_slot p) as [idx|] eqn:E; [|done]. intros H Hlen Hpos.
  destruct (free_slot_spec p idx E Hlen Hpos) as [Hf Hlt].
  destruct (nth idx (up_conns _) None); injection H as <- <-; simpl; done.
Qed.

Lemma reserve_inv n p ds hs r p' :
  pool_inv n {| pw_pool := p; pw_dialling := ds; pw_holders := hs |} →
  getTCPConn_reserve p = Ok (r, p') →
  (res_idx r ∉ ds ++ hs) ∧ (res_idx r < up_maxConns p)%nat ∧
  (∀ ds' hs', ds' ++ hs' ≡ₚ res_idx r :: ds ++ hs →
    pool_inv n {| pw_pool := p'; pw_dialling := ds'; pw_holders := hs' |}).
Proof.
  intros [[Hm Hn] Hcl Hul Hnd Hbusy] H. simpl in *.
  destruct (reserve_spec p r p' H Hul ltac:(lia)) as (Hc & Hf & Hlt & Hcc & Hu & Hmm & Hcl').
  assert (Hni : res_idx r ∉ ds ++ hs).
  { intros Hin. specialize (Hbusy Hc _ Hin). congruence. }
  split; [done|]. split; [done|]. intros ds' hs' Hp. split; simpl.
  - by rewrite Hmm.
  - by rewrite Hcc, Hmm.
  - by rewrite Hu, Hmm, length_insert.
  - rewrite Hp. by constructor.
  - intros _ i. rewrite Hp, Hu. intros [->|Hi]%elem_of_cons.
    + rewrite list_lookup_insert_eq by lia. done.
    + rewrite list_lookup_insert_ne by set_solver. by apply Hbusy.
Qed.

Lemma elem_drop_one i x l : x ∈ drop_one i l ↔ x ∈ l ∧ x ≠ i.
Proof. unfold drop_one. rewrite list_elem_of_filter. tauto. Qed.

Lemma NoDup_drop_one i l : NoDup l → NoDup (drop_one i l).
Proof. apply NoDup_filter. Qed.

(** Dropping slot [i] from the callers while the pool frees or keeps it. *)
Lemma drop_inv n p p' ds hs ds' hs' i :
  pool_inv n {| pw_pool := p; pw_dialling := ds; pw_holders := hs |} →
  up_maxConns p' = up_maxConns p → length (up_conns p') = length (up_conns p) →
  length (up_inUse p') = length (up_inUse p) → up_closed p' = up_closed p →
  (∀ j, j ≠ i → up_inUse p' !! j = up_inUse p !! j) →
  NoDup (ds' ++ hs') → (∀ j, j ∈ ds' ++ hs' → j ∈ ds ++ hs ∧ j ≠ i) →
  pool_inv n {| pw_pool := p'; pw_dialling := ds'; pw_holders := hs' |}.
Proof.
  intros [Hm Hcl Hul Hnd Hbusy] Hmm Hc Hu Hcc Hj Hnd' Hin. simpl in *.
  split; simpl; [by rewrite Hmm|congruence|congruence|done|].
  rewrite Hcc. intros Hopen j [Hjin Hne]%Hin. rewrite Hj by done. by apply Hbusy.
Qed.

Lemma close_slots_length conns inUse :
  length (close_slots conns inUse).1 = length conns ∧ length (close_slots conns inUse).2 = length inUse.
Proof.
  revert inUse. induction conns as [|c cs IH]; intros [|u us]; simpl; try done.
  specialize (IH us). destruct (close_slots cs us) as [cs' us']. simpl in IH.
  destruct c; simpl; lia.
Qed.

Lemma NoDup_app_drop (i : nat) ds hs :
  NoDup (ds ++ hs) → NoDup (drop_one i ds ++ drop_one i hs).
Proof.
  intros (Hd & Hdis & Hh)%NoDup_app. apply NoDup_app. split; [by apply NoDup_drop_one|].
  split; [|by apply NoDup_drop_one]. intros x [Hx _]%elem_drop_one [Hx' _]%elem_drop_one.
  by apply (Hdis x).
Qed.

Lemma drop_one_notin i l : i ∉ l → drop_one i l = l.
Proof.
  unfold drop_one. induction l as [|x l IH]; [done|]. intros H.
  rewrite filter_cons_True by set_solver. rewrite IH; [done|set_solver].
Qed.

Lemma release_fields idx b p :
  up_maxConns (releaseTCPConn idx b p) = up_maxConns p ∧
  length (up_conns (releaseTCPConn idx b p)) = length (up_conns p) ∧
  length (up_inUse (releaseTCPConn idx b p)) = length (up_inUse p) ∧
  up_closed (releaseTCPConn idx b p) = up_closed p ∧
  ∀ j, j ≠ idx → up_inUse (releaseTCPConn idx b p) !! j = up_inUse p !! j.
Proof.
  unfold releaseTCPConn. destruct (_ <=? _)%nat; [done|]. destruct b; [|done].
  destruct (nth idx (up_conns p) None); simpl; rewrite ?length_insert;
    repeat split; intros j Hj; by rewrite list_lookup_insert_ne by done.
Qed.

Lemma pool_step_inv n w w' : pool_inv n w → pool_step w w' → pool_inv n w'.
Proof.
  intros Hinv Hstep. destruct Hstep.
  - eapply (reserve_inv _ _ _ _ (GotConn idx c)); [done..|]. simpl. solve_Permutation.
  - by eapply (reserve_inv _ _ _ _ (MustDial idx)).
  - unfold getTCPConn_commit in H0. destruct d; [|done..]. injection H0 as -> <-.
    pose proof (pi_nodup _ _ Hinv) as Hnd. simpl in Hnd.
    assert (Hp : drop_one idx ds ++ idx :: hs ≡ₚ ds ++ hs).
    { apply NoDup_app in Hnd as (Hd & Hdis & Hh). rewrite <- Permutation_middle.
      rewrite app_comm_cons. f_equiv. apply NoDup_Permutation.
      - constructor; [rewrite elem_drop_one; tauto|by apply NoDup_drop_one].
      - done.
      - intros x. rewrite elem_of_cons, elem_drop_one. destruct (decide (x = idx)); naive_solver. }
    destruct Hinv as [Hm Hcl Hul _ Hbusy]. simpl in *. split; simpl; try done.
    + by rewrite length_insert.
    + by rewrite Hp.
    + intros Hopen i. rewrite Hp. by apply Hbusy.
  - pose proof (pi_nodup _ _ Hinv) as Hnd. simpl in Hnd.
    pose proof (NoDup_app_drop idx _ _ Hnd) as Hnd'.
    assert (idx ∉ hs) as Hni by (apply NoDup_app in Hnd as (_ & Hdis & _); by apply Hdis).
    rewrite (drop_one_notin idx hs) in Hnd' by done.
    assert (p' = set_inUse p idx false) as -> by (destruct d; simpl in H0; by simplify_eq).
    eapply (drop_inv n p _ ds hs _ _ idx Hinv); simpl; try done.
    + by rewrite length_insert.
    + intros j Hj. by rewrite list_lookup_insert_ne by done.
    + intros j. rewrite !elem_of_app, elem_drop_one. intros [[]|Hj]; [by auto|].
      split; [by auto|congruence].
  - pose proof (pi_nodup _ _ Hinv) as Hnd. simpl in Hnd.
    pose proof (NoDup_app_drop idx _ _ Hnd) as Hnd'.
    assert (idx ∉ ds) as Hni by (apply NoDup_app in Hnd as (_ & Hdis & _); intros ?; by eapply Hdis).
    rewrite (drop_one_notin idx ds) in Hnd' by done.
    pose proof (release_fields idx hadErr p) as (? & ? & ? & ? & ?).
    eapply (drop_inv n p _ ds hs _ _ idx Hinv); try done.
    intros j. rewrite !elem_of_app, elem_drop_one. intros [Hj|[]]; [|by auto].
    split; [by auto|congruence].
  - unfold pool_Close. destruct (up_closed p) eqn:Hc; [done|].
    pose proof (close_slots_length (up_conns p) (up_inUse p)) as [H1 H2].
    destruct (close_slots _ _) as [cs us]. destruct Hinv as [Hm Hcl Hul Hnd Hbusy]. simpl in *.
    split; simpl; try done; congruence.
Qed.

Lemma pool_reachable_inv n w : pool_reachable n w → pool_inv n w.
Proof.
  induction 1 as [p H|w w' _ IH Hs]; [|by eapply pool_step_inv].
  unfold NewUpstreamPool in H. destruct (Z.ltb_spec n 1); [done|]. injection H as <-.
  split; simpl; rewrite ?length_replicate; try done; [lia|by apply NoDup_nil|].
  intros _ i Hi. by apply elem_of_nil in Hi.
Qed.

(** C29. Whatever the interleaving of callers, dials, releases and a close, the
    pool never hands a slot to two callers: what [getTCPConn] reserves is held by
    nobody, is in range, and a closed pool reserves nothing. *)
Theorem pool_exclusive n w r p' :
  pool_reachable n w → getTCPConn_reserve (pw_pool w) = Ok (r, p') →
  (res_idx r ∉ pw_dialling w ++ pw_holders w) ∧ NoDup (res_idx r :: pw_dialling w ++ pw_holders w) ∧
  Z.of_nat (res_idx r) < n ∧ up_closed (pw_pool w) = false.
Proof.
  intros Hw Hr. apply pool_reachable_inv in Hw as Hinv.
  destruct w as [p ds hs]. simpl in *.
  destruct (reserve_inv n p ds hs r p' Hinv Hr) as (Hni & Hlt & _).
  destruct Hinv as [[Hm Hn] Hcl Hul Hnd Hbusy]. simpl in *.
  destruct (reserve_spec p r p' Hr Hul ltac:(lia)) as (Hc & _).
  split; [done|]. split; [by constructor|]. split; [lia|done].
Qed.

(** ** Successful TCP exchanges *)

(** An exchange that falls back to TCP, dials if it must, and gets its answer. *)
Definition tcp_success (c : Z) (m : Msg) (p : UpstreamPool) : UpstreamPool :=
  (pool_Exchange (Err (ErrIO "timeout")) (DialTCP c) (TcpOk m) p).2.

(** A new pool of [n] slots after [k] of them. *)
Definition pool_after (c : Z) (n k : nat) : UpstreamPool := {|
  up_conns := replicate k (Some c) ++ replicate (n - k) None;
  up_inUse := replicate k true ++ replicate (n - k) false;
  up_maxConns := n; up_next := k mod n; up_closed := false |}.

Lemma insert_replicate_mid {A} (x y : A) k m :
  <[k := x]> (replicate k x ++ replicate (S m) y) = replicate (S k) x ++ replicate m y.
Proof.
  rewrite insert_app_r_alt by (rewrite length_replicate; lia). rewrite length_replicate, Nat.sub_diag.
  rewrite (replicate_S_end k x), <- app_assoc. done.
Qed.

Lemma free_slot_after c n k : (k < n)%nat → free_slot (pool_after c n k) = Some k.
Proof.
  intros Hk. unfold free_slot. cbn [pool_after up_maxConns up_next up_inUse].
  destruct n as [|n]; [lia|]. cbn [seq first_match]. rewrite Nat.add_0_r.
  rewrite (Nat.mod_small k) by lia. rewrite (Nat.mod_small k) by lia.
  rewrite app_nth2 by (rewrite length_replicate; lia). rewrite length_replicate, Nat.sub_diag.
  by destruct (S n - k)%nat eqn:E; [lia|].
Qed.

Lemma tcp_success_after c m n k :
  (k < n)%nat → tcp_success c m (pool_after c n k) = pool_after c n (S k).
Proof.
  intros Hk. unfold tcp_success, pool_Exchange, tcp_fallback, getTCPConn_reserve.
  rewrite free_slot_after by done. cbn [pool_after up_closed set_next set_inUse up_conns].
  rewrite app_nth2 by (rewrite length_replicate; lia). rewrite length_replicate, Nat.sub_diag.
  destruct (n - k)%nat as [|j] eqn:E; [lia|].
  change (nth 0 (replicate (S j) (@None Z)) None) with (@None Z).
  cbn [getTCPConn_commit snd tcp_hadErr tcp_result].
  unfold releaseTCPConn, pool_after, set_conn, set_next, set_inUse.
  cbn [up_conns up_inUse up_maxConns up_next up_closed]. rewrite !E, !insert_replicate_mid.
  replace (n - S k)%nat with j by lia. replace (k + 1)%nat with (S k) by lia.
  by destruct (_ <=? k)%nat.
Qed.

(** A slot is not given back after a successful exchange: a pool of [n]
    connections is exhausted by its first [n] successful TCP exchanges, one after
    the other, and every later query that needs TCP fails. *)
Theorem pool_exhausted_by_success n p c m :
  NewUpstreamPool n = Ok p →
  let p' := Nat.iter (Z.to_nat n) (tcp_success c m) p in
  getTCPConn_reserve p' = Err ErrPoolExhausted ∧
  ∀ d tcp udp_err, (pool_Exchange (Err udp_err) d tcp p').1 = Err ErrPoolExhausted.
Proof.
  unfold NewUpstreamPool. destruct (Z.ltb_spec n 1) as [|Hn]; [done|]. intros [= <-].
  set (k := Z.to_nat n).
  assert (Hiter : ∀ j, (j ≤ k)%nat → Nat.iter j (tcp_success c m) (pool_after c k 0) = pool_after c k j).
  { induction j as [|j IH]; intros Hj; [done|]. rewrite Nat.iter_succ, IH by lia.
    apply tcp_success_after. lia. }
  assert (Hp0 : pool_after c k 0 = {| up_conns := replicate k None; up_inUse := replicate k false;
    up_maxConns := k; up_next := 0; up_closed := false |}).
  { unfold pool_after. rewrite Nat.sub_0_r, Nat.Div0.mod_0_l. done. }
  rewrite <- Hp0, Hiter by lia. cbv zeta.
  assert (Hres : getTCPConn_reserve (pool_after c k k) = Err ErrPoolExhausted).
  { assert (free_slot (pool_after c k k) = None) as Hfree;
      [|unfold getTCPConn_reserve; by rewrite Hfree].
    unfold free_slot. apply first_match_None, Forall_forall. intros i _.
    cbn [pool_after up_maxConns up_inUse]. rewrite Nat.sub_diag, app_nil_r.
    rewrite nth_lookup, lookup_replicate_2; [done|]. apply Nat.mod_upper_bound. lia. }
  split; [done|]. intros d tcp e. unfold pool_Exchange, tcp_fallback. by rewrite Hres.
Qed.

(** ** Runs *)

Lemma pool_exhausted_by_success_witness :
  ∃ p, NewUpstreamPool 4 = Ok p ∧
  getTCPConn_reserve (Nat.iter 4 (tcp_success 7 empty_msg) p) = Err ErrPoolExhausted.
Proof.
  eexists. split; [reflexivity|].
  exact (proj1 (pool_exhausted_by_success 4 _ 7 empty_msg eq_refl)).
Defined.

Lemma pool_exclusive_witness :
  ∃ w r p', pool_reachable 2 w ∧ pw_holders w = [0%nat] ∧
            getTCPConn_reserve (pw_pool w) = Ok (r, p') ∧ res_idx r = 1%nat ∧
            NoDup (res_idx r :: pw_dialling w ++ pw_holders w).
Proof.
  pose proof (reach_new 2 _ eq_refl) as H0.
  epose proof (reach_step 2 _ _ H0 ltac:(eapply (step_reserve_dial _ _ _ _ 0); reflexivity)) as H1.
  epose proof (reach_step 2 _ _ H1 ltac:(eapply (step_commit_ok _ _ _ _ 0 (DialTCP 7));
    [apply list_elem_of_here|reflexivity])) as H2.
  eexists _, (MustDial 1), _. split; [exact H2|]. split; [reflexivity|]. split; [reflexivity|].
  split; [reflexivity|]. exact (proj1 (proj2 (pool_exclusive 2 _ (MustDial 1) _ H2 eq_refl))).
Defined.

(** A close that falls between a dial's start and its end leaves the connection
    open in the closed pool. *)
Example close_during_dial_leaks :
  ∃ w, pool_reachable 1 w ∧ up_closed (pw_pool w) = true ∧ up_conns (pw_pool w) = [Some 7].
Proof.
  pose proof (reach_new 1 _ eq_refl) as H0.
  epose proof (reach_step 1 _ _ H0 ltac:(eapply (step_reserve_dial _ _ _ _ 0); reflexivity)) as H1.
  pose proof (reach_step 1 _ _ H1 (step_close _ _ _)) as H2.
  epose proof (reach_step 1 _ _ H2 ltac:(eapply (step_commit_ok _ _ _ _ 0 (DialTCP 7));
    [apply list_elem_of_here|reflexivity])) as H3.
  eexists. split; [exact H3|]. split; reflexivity.
Qed.

Definition with_id (i : Z) : Msg := {|
  m_Id := i; m_Response := true; m_Rcode := 0; m_Truncated := false; m_flags := 0;
  m_Question := []; m_Answer := []; m_Ns := []; m_Extra := [] |}.

(** An answer that arrives after its query timed out is returned to the next
    query: the response's ID is not compared with the query's. *)
Example udp_late_answer :
  let u := {| u_open := true; u_inbox := [] |} in
  let '(r1, u1) := udp_Exchange [] (with_id 1) u in
  r1 = Some (Err (ErrIO "timeout")) ∧
  (udp_Exchange [with_id 1; with_id 2] (with_id 2) u1).1 = Some (Ok (with_id 1)).
Proof. split; reflexivity. Qed.
