(* ===== verification/QueryLog.v ===== *)
(** * Bounded asynchronous queues: the query-log writer and the event exporter

    [internal/dnsengine/querylog_writer.go] and the queue of export.go. A buffered
    channel is its list of waiting items; the writer's goroutines are a state
    machine whose steps interleave freely with the callers'. *)
From S2P Require Import Prelude GoStrings.

Definition u64 (z : Z) : Z := z mod 2 ^ 64.

(** ** Rows *)

(** The fields of [models.DNSQuery] the engine sets. *)
Record DNSQuery := {
  dq_Domain : string;
  dq_ClientIP : string;
  dq_Action : string;
  dq_BlockReason : string;
  dq_IsSuspicious : bool;
  dq_ThreatScore : float64;
  dq_DetectionMethod : string;
  dq_ThreatReason : string;
}.

Record queryLogEntry := { qe_query : DNSQuery; qe_statsAction : string }.

Definition defaultQueryLogBufferSize : Z := 1024.
Definition defaultQueryLogWorkers : Z := 2.

(** ** The channel send both queues share *)

(** A non-blocking send: [None] is the panic of a send on a closed channel. *)
Inductive send_result (Q : Type) := Sent (q : Q) | Full.
Arguments Sent {Q} q.
Arguments Full {Q}.
Definition try_send {A} (cap : Z) (closed : bool) (q : list A) (a : A) : option (send_result (list A)) :=
  if closed then None
  else if Z.of_nat (length q) <? cap then Some (Sent (q ++ [a])) else Some Full.

(** ** The writer *)

(** What the workers did with a row: the error results of the two repositories are
    only logged, so every row is offered to both. [w_stats] says whether a
    statistics repository is attached. *)
Record queryLogWriter := {
  w_queue : list queryLogEntry;
  w_cap : Z;
  w_stats : bool;
  w_closed : bool;
  w_dropped : Z;
  w_metricsDropped : option Z; (* the counter of an attached QueryMetrics *)
  w_idle : nat;                (* workers waiting on the channel *)
  w_busy : list queryLogEntry; (* rows in the hands of a worker *)
  w_saved : list DNSQuery;     (* rows offered to QueryLogRepository.Save *)
  w_counted : list string;     (* actions offered to IncrementCounter *)
}.

Definition newQueryLogWriter (stats : bool) (qm : option Z) (bufferSize workers : Z)
  : queryLogWriter := {|
  w_queue := [];
  w_cap := if bufferSize <=? 0 then defaultQueryLogBufferSize else bufferSize;
  w_stats := stats; w_closed := false; w_dropped := 0; w_metricsDropped := qm;
  w_idle := Z.to_nat (if workers <=? 0 then defaultQueryLogWorkers else workers);
  w_busy := []; w_saved := []; w_counted := [] |}.

Definition w_with_queue (w : queryLogWriter) (q : list queryLogEntry) (idle : nat)
  (busy : list queryLogEntry) : queryLogWriter := {|
  w_queue := q; w_cap := w_cap w; w_stats := w_stats w; w_closed := w_closed w;
  w_dropped := w_dropped w; w_metricsDropped := w_metricsDropped w; w_idle := idle;
  w_busy := busy; w_saved := w_saved w; w_counted := w_counted w |}.

(** [Submit]; [None] as the outer result is a panic, a nil writer is [None]
    inside. *)
Definition Submit (q : DNSQuery) (statsAction : string) (ow : option queryLogWriter)
  : option (option queryLogWriter) :=
  match ow with
  | None => Some None
  | Some w =>
      match try_send (w_cap w) (w_closed w) (w_queue w) {| qe_query := q; qe_statsAction := statsAction |} with
      | None => None
      | Some (Sent queue) => Some (Some (w_with_queue w queue (w_idle w) (w_busy w)))
      | Some Full => Some (Some {|
          w_queue := w_queue w; w_cap := w_cap w; w_stats := w_stats w; w_closed := w_closed w;
          w_dropped := u64 (w_dropped w + 1);
          w_metricsDropped := (λ n, u64 (n + 1)) <$> w_metricsDropped w;
          w_idle := w_idle w; w_busy := w_busy w; w_saved := w_saved w; w_counted := w_counted w |})
      end
  end.

Definition Dropped (ow : option queryLogWriter) : Z :=
  match ow with None => 0 | Some w => w_dropped w end.

(** The body of [run] for one row. *)
Definition persist (e : queryLogEntry) (w : queryLogWriter) : queryLogWriter := {|
  w_queue := w_queue w; w_cap := w_cap w; w_stats := w_stats w; w_closed := w_closed w;
  w_dropped := w_dropped w; w_metricsDropped := w_metricsDropped w; w_idle := w_idle w;
  w_busy := w_busy w; w_saved := w_saved w ++ [qe_query e];
  w_counted := if w_stats w then w_counted w ++ [qe_statsAction e] else w_counted w |}.

Definition close_queue (w : queryLogWriter) : queryLogWriter := {|
  w_queue := w_queue w; w_cap := w_cap w; w_stats := w_stats w; w_closed := true;
  w_dropped := w_dropped w; w_metricsDropped := w_metricsDropped w; w_idle := w_idle w;
  w_busy := w_busy w; w_saved := w_saved w; w_counted := w_counted w |}.

(** [Close] returns once every worker has left its loop: the channel is closed,
    nothing waits in it and no row is in a worker's hands. *)
Definition close_returns (w : queryLogWriter) : Prop :=
  w_closed w = true ∧ w_queue w = [] ∧ w_busy w = [].

(** The steps of callers and workers, with the rows submitted so far and those
    dropped as history. *)
Inductive qlw_step : queryLogWriter * list queryLogEntry * list queryLogEntry →
                     queryLogWriter * list queryLogEntry * list queryLogEntry → Prop :=
| qlw_submit w w' sub drops q sa :
    Submit q sa (Some w) = Some (Some w') →
    qlw_step (w, sub, drops)
      (w', sub ++ [{| qe_query := q; qe_statsAction := sa |}],
       if Z.of_nat (length (w_queue w)) <? w_cap w then drops
       else drops ++ [{| qe_query := q; qe_statsAction := sa |}])
| qlw_take w e rest idle sub drops :
    w_queue w = e :: rest → w_idle w = S idle →
    qlw_step (w, sub, drops) (w_with_queue w rest idle (w_busy w ++ [e]), sub, drops)
| qlw_done w e b1 b2 sub drops :
    w_busy w = b1 ++ e :: b2 →
    qlw_step (w, sub, drops)
      (w_with_queue (persist e w) (w_queue w) (S (w_idle w)) (b1 ++ b2), sub, drops)
| qlw_close w sub drops :
    qlw_step (w, sub, drops) (close_queue w, sub, drops).

Inductive qlw_reachable (stats : bool) (bufferSize workers : Z)
  : queryLogWriter * list queryLogEntry * list queryLogEntry → Prop :=
| qlw_start : qlw_reachable stats bufferSize workers (newQueryLogWriter stats (Some 0) bufferSize workers, [], [])
| qlw_next s s' : qlw_reachable stats bufferSize workers s → qlw_step s s' →
                  qlw_reachable stats bufferSize workers s'.

(** ** The exporter's queue *)

Definition exportQueueSize : Z := 1024.

Record Exporter {Ev : Type} := {
  ex_queue : list Ev;
  ex_closed : bool;
  ex_dropped : Z;
}.
Arguments Exporter : clear implicits.

(** [Export] on an exporter, nil or not; the outer [None] is a panic. *)
Definition Export {Ev} (ev : Ev) (oe : option (Exporter Ev)) : option (option (Exporter Ev)) :=
  match oe with
  | None => Some None
  | Some e =>
      match try_send exportQueueSize (ex_closed e) (ex_queue e) ev with
      | None => None
      | Some (Sent q) => Some (Some {| ex_queue := q; ex_closed := ex_closed e; ex_dropped := ex_dropped e |})
      | Some Full => Some (Some {| ex_queue := ex_queue e; ex_closed := ex_closed e;
                                   ex_dropped := u64 (ex_dropped e + 1) |})
      end
  end.

(** ** Accounting *)

Record qlw_inv (stats : bool) (bufferSize workers : Z)
  (s : queryLogWriter * list queryLogEntry * list queryLogEntry) : Prop := {
  qi_cap : w_cap s.1.1 = if bufferSize <=? 0 then defaultQueryLogBufferSize else bufferSize;
  qi_stats : w_stats s.1.1 = stats;
  qi_size : Z.of_nat (length (w_queue s.1.1)) ≤ w_cap s.1.1;
  qi_workers : (w_idle s.1.1 + length (w_busy s.1.1))%nat
               = Z.to_nat (if workers <=? 0 then defaultQueryLogWorkers else workers);
  qi_dropped : w_dropped s.1.1 = u64 (Z.of_nat (length s.2));
  qi_metrics : w_metricsDropped s.1.1 = Some (w_dropped s.1.1);
  qi_rows : ∃ done, w_saved s.1.1 = qe_query <$> done ∧
            w_counted s.1.1 = (if stats then qe_statsAction <$> done else []) ∧
            s.1.2 ≡ₚ done ++ w_busy s.1.1 ++ w_queue s.1.1 ++ s.2;
}.

Lemma u64_succ n : u64 (u64 n + 1) = u64 (n + 1).
Proof. unfold u64. by rewrite Zplus_mod_idemp_l. Qed.

Lemma qlw_step_inv st bs wk s s' : qlw_inv st bs wk s → qlw_step s s' → qlw_inv st bs wk s'.
Proof.
  intros Hinv Hstep. destruct Hstep as [w w' sub drops q sa H|w e rest idle sub drops Hq Hi
    |w e b1 b2 sub drops Hb|w sub drops];
    destruct Hinv as [Hcap Hst Hsz Hwk Hdr Hmet (done & Hsv & Hct & Hrows)]; cbn [fst snd] in *.
  - unfold Submit, try_send in H. destruct (w_closed w); [done|].
    destruct (Z.ltb_spec (Z.of_nat (length (w_queue w))) (w_cap w)) as [Hlt|Hge];
      injection H as <-; split; cbn; try done.
    + rewrite length_app. simpl. lia.
    + exists done. split; [done|]. split; [done|]. rewrite Hrows. solve_Permutation.
    + rewrite Hdr, u64_succ, length_app. simpl. f_equal. lia.
    + by rewrite Hmet.
    + exists done. split; [done|]. split; [done|]. rewrite Hrows. solve_Permutation.
  - split; cbn; try done.
    + rewrite Hq in Hsz. simpl in Hsz. lia.
    + rewrite <- Hwk, Hi, length_app. simpl. lia.
    + exists done. split; [done|]. split; [done|]. rewrite Hrows, Hq. solve_Permutation.
  - split; cbn; try done.
    + rewrite <- Hwk, Hb, !length_app. simpl. lia.
    + exists (done ++ [e]). split; [by rewrite Hsv, fmap_app|]. split.
      * rewrite Hst, Hct. destruct st; [by rewrite fmap_app|done].
      * rewrite Hrows, Hb. solve_Permutation.
  - split; cbn; try done. by exists done.
Qed.

Lemma qlw_reachable_inv st bs wk s : qlw_reachable st bs wk s → qlw_inv st bs wk s.
Proof.
  induction 1 as [|s s' _ IH Hs]; [|by eapply qlw_step_inv].
  split; cbn; try done.
  - unfold defaultQueryLogBufferSize. destruct (Z.leb_spec bs 0); lia.
  - exists []. by destruct st.
Qed.

(** C31. Accounting of the query log over every interleaving of callers and
    workers: the queue never exceeds its bound, no more rows are in hand than
    there are workers, every submitted row is exactly one of saved, in hand,
    queued or dropped, each saved row's action is counted once when statistics are
    attached, and both drop counters hold the number dropped (modulo 2^64). *)
Theorem querylog_accounting st bs wk w sub drops :
  qlw_reachable st bs wk (w, sub, drops) →
  Z.of_nat (length (w_queue w)) ≤ w_cap w ∧
  Z.of_nat (length (w_busy w)) ≤ (if wk <=? 0 then defaultQueryLogWorkers else wk) ∧
  Dropped (Some w) = u64 (Z.of_nat (length drops)) ∧ w_metricsDropped w = Some (w_dropped w) ∧
  ∃ done, w_saved w = qe_query <$> done ∧
          w_counted w = (if st then qe_statsAction <$> done else []) ∧
          sub ≡ₚ done ++ w_busy w ++ w_queue w ++ drops.
Proof.
  intros [Hcap Hst Hsz Hwk Hdr Hmet Hrows]%qlw_reachable_inv. cbn [fst snd] in *.
  repeat split; try done. unfold defaultQueryLogWorkers in *. destruct (Z.leb_spec wk 0); lia.
Qed.

(** When [Close] returns, every row that was submitted and not dropped has
    been offered to the repository, each exactly once. *)
Theorem querylog_close_drains st bs wk w sub drops :
  qlw_reachable st bs wk (w, sub, drops) → close_returns w →
  (qe_query <$> sub) ≡ₚ w_saved w ++ (qe_query <$> drops).
Proof.
  intros [_ _ _ _ _ _ (done & Hsv & _ & Hrows)]%qlw_reachable_inv (_ & Hq & Hb).
  cbn [fst snd] in *. rewrite Hq, Hb in Hrows. rewrite Hrows, Hsv, fmap_app. done.
Qed.

(** A run: one slot, one worker, two rows. *)
Definition ex_row (d : string) : DNSQuery := {|
  dq_Domain := d; dq_ClientIP := ""; dq_Action := "allow"; dq_BlockReason := "";
  dq_IsSuspicious := false; dq_ThreatScore := f64_zero; dq_DetectionMethod := "";
  dq_ThreatReason := "" |}.

Definition ex_entry (d : string) : queryLogEntry := {| qe_query := ex_row d; qe_statsAction := "allow" |}.

Lemma ex_qlw_run :
  ∃ w, qlw_reachable true 1 1 (w, [ex_entry "a"; ex_entry "b"], [ex_entry "b"]) ∧
       close_returns w ∧ w_saved w = [ex_row "a"].
Proof.
  pose proof (qlw_start true 1 1) as H0.
  epose proof (qlw_next _ _ _ _ _ H0 ltac:(eapply (qlw_submit _ _ _ _ (ex_row "a") "allow"); reflexivity)) as H1.
  epose proof (qlw_next _ _ _ _ _ H1 ltac:(eapply (qlw_submit _ _ _ _ (ex_row "b") "allow"); reflexivity)) as H2.
  epose proof (qlw_next _ _ _ _ _ H2 ltac:(eapply (qlw_take _ (ex_entry "a") [] 0); reflexivity)) as H3.
  epose proof (qlw_next _ _ _ _ _ H3 ltac:(eapply (qlw_done _ (ex_entry "a") [] []); reflexivity)) as H4.
  epose proof (qlw_next _ _ _ _ _ H4 ltac:(eapply qlw_close)) as H5.
  eexists. split; [exact H5|]. repeat split.
Qed.

Lemma querylog_accounting_witness :
  ∃ w, qlw_reachable true 1 1 (w, [ex_entry "a"; ex_entry "b"], [ex_entry "b"]) ∧
       Dropped (Some w) = 1.
Proof.
  destruct ex_qlw_run as (w & Hw & _). exists w. split; [exact Hw|].
  exact (proj1 (proj2 (proj2 (querylog_accounting true 1 1 w _ _ Hw)))).
Defined.

Lemma querylog_close_drains_witness :
  ∃ w, close_returns w ∧
  (qe_query <$> [ex_entry "a"; ex_entry "b"]) ≡ₚ w_saved w ++ (qe_query <$> [ex_entry "b"]).
Proof.
  destruct ex_qlw_run as (w & Hw & Hc & _). exists w. split; [exact Hc|].
  exact (querylog_close_drains true 1 1 w _ _ Hw Hc).
Defined.

(** A row submitted after [Close] panics the query path. *)
Example submit_after_close_panics :
  Submit (ex_row "a") "allow" (Some (close_queue (newQueryLogWriter true None 0 0))) = None.
Proof. reflexivity. Qed.
