(* ===== verification/Alert.v ===== *)
(** * Infected-device alerting

    [internal/alert/alert.go]. The device inventory is an argument of the calls
    that consult it; the alerts handed to the sink are the results of
    [RecordBlocked]. *)
From S2P Require Import Prelude GoStrings.

Definition DefaultWindow : Z := 10 * minute.

Record DeviceInfo := { di_IP : string; di_MAC : string; di_Hostname : string }.

Record Alert := {
  al_Device : DeviceInfo;
  al_Hits : Z;
  al_Threshold : Z;
  al_FirstHit : Z;
  al_FiredAt : Z;
  al_Domain : string;
}.

Record AlertConfig := { ac_Threshold : Z; ac_Window : Z }.

(** [ConfigFromEnv] from the values of the two variables; [parse_duration] is
    [time.ParseDuration]. *)
Definition ConfigFromEnv (parse_duration : string → option Z) (threshold window : string)
  : AlertConfig := {|
  ac_Threshold := if bool_decide (threshold = ""%string) then 0
                  else match Atoi threshold with
                       | Some n => if 0 <? n then n else 0
                       | None => 0
                       end;
  ac_Window := if bool_decide (window = ""%string) then DefaultWindow
               else match parse_duration window with
                    | Some d => if 0 <? d then d else DefaultWindow
                    | None => DefaultWindow
                    end |}.

Record Alerter := {
  a_cfg : AlertConfig;
  a_resolver : option (string → option DeviceInfo);
  a_counters : gmap string (list Z);
  a_suspected : gmap string Alert;
}.

Definition NewAlerter (cfg : AlertConfig) (resolver : option (string → option DeviceInfo)) : Alerter := {|
  a_cfg := {| ac_Threshold := ac_Threshold cfg;
              ac_Window := if ac_Window cfg <=? 0 then DefaultWindow else ac_Window cfg |};
  a_resolver := resolver; a_counters := ∅; a_suspected := ∅ |}.

Definition alert_Enabled (a : Alerter) : bool := 0 <? ac_Threshold (a_cfg a).

Definition SetResolver (r : option (string → option DeviceInfo)) (a : Alerter) : Alerter := {|
  a_cfg := a_cfg a; a_resolver := r; a_counters := a_counters a; a_suspected := a_suspected a |}.

Definition resolveLocked (a : Alerter) (clientIP : string) : DeviceInfo :=
  let dev := {| di_IP := clientIP; di_MAC := ""; di_Hostname := "" |} in
  match a_resolver a with
  | None => dev
  | Some lookup =>
      match lookup clientIP with
      | None => dev
      | Some d => if bool_decide (di_IP d = ""%string)
                  then {| di_IP := clientIP; di_MAC := di_MAC d; di_Hostname := di_Hostname d |} else d
      end
  end.

(** [RecordBlocked] on an alerter, nil or not; the clock is read at [now]. *)
Definition RecordBlocked (now : Z) (clientIP domain : string) (oa : option Alerter)
  : option Alert * option Alerter :=
  match oa with
  | None => (None, None)
  | Some a =>
      if (ac_Threshold (a_cfg a) <=? 0) || bool_decide (clientIP = ""%string) then (None, Some a) else
      let cutoff := now - ac_Window (a_cfg a) in
      let hits := default [] (a_counters a !! clientIP) in
      let hits := List.filter (λ t, cutoff <? t) hits ++ [now] in
      if Z.of_nat (length hits) <? ac_Threshold (a_cfg a) then
        (None, Some {| a_cfg := a_cfg a; a_resolver := a_resolver a;
                       a_counters := <[clientIP := hits]> (a_counters a);
                       a_suspected := a_suspected a |})
      else
        let alert := {|
          al_Device := resolveLocked a clientIP; al_Hits := Z.of_nat (length hits);
          al_Threshold := ac_Threshold (a_cfg a); al_FirstHit := default 0 (head hits);
          al_FiredAt := now; al_Domain := domain |} in
        (Some alert, Some {| a_cfg := a_cfg a; a_resolver := a_resolver a;
                             a_counters := <[clientIP := []]> (a_counters a);
                             a_suspected := <[clientIP := alert]> (a_suspected a) |})
  end.

Definition IsSuspected (a : Alerter) (clientIP : string) : bool :=
  bool_decide (is_Some (a_suspected a !! clientIP)).

(** [Suspected]: the alerts in any order that is sorted by IP. *)
Definition Suspected (a : Alerter) (out : list Alert) : Prop :=
  out ≡ₚ (map_to_list (a_suspected a)).*2 ∧
  StronglySorted (λ x y, String.ltb (di_IP (al_Device y)) (di_IP (al_Device x)) = false) out.

(** ** Histories *)

(** The blocked hits of all clients in order, with their instants. *)
Record hit := { hit_at : Z; hit_client : string; hit_domain : string }.

Fixpoint alert_run (a : Alerter) (hs : list hit) : list (option Alert) * Alerter :=
  match hs with
  | [] => ([], a)
  | h :: hs' =>
      match RecordBlocked (hit_at h) (hit_client h) (hit_domain h) (Some a) with
      | (o, Some a') => let '(os, a'') := alert_run a' hs' in (o :: os, a'')
      | (o, None) => ([o], a)
      end
  end.

(** The specification of one client: all its hits since it last fired, none
    forgotten; it fires when enough of them lie in the window. *)
Definition fires_now (threshold window : Z) (since : list Z) (now : Z) : bool :=
  threshold <=? Z.of_nat (length (List.filter (λ t, now - window <? t) since)) + 1.

Definition since_step (threshold window : Z) (ip : string) (since : list Z) (h : hit) : list Z :=
  if bool_decide (hit_client h = ip) then
    if fires_now threshold window since (hit_at h) then [] else since ++ [hit_at h]
  else since.
Definition since_last_alert (threshold window : Z) (ip : string) (hs : list hit) : list Z :=
  foldl (since_step threshold window ip) [] hs.

(** ** The counters forget only what has left the window *)

Definition counter (a : Alerter) (ip : string) : list Z := default [] (a_counters a !! ip).
Definition recent (c : Z) (l : list Z) : list Z := List.filter (λ t, c <? t) l.

Lemma recent_recent c c' l : c' ≤ c → recent c (recent c' l) = recent c l.
Proof.
  intros Hc. unfold recent. induction l as [|x l IH]; simpl; [done|].
  destruct (Z.ltb_spec c' x), (Z.ltb_spec c x) as [|]; simpl; try lia.
  - rewrite (proj2 (Z.ltb_lt c x)) by lia. by rewrite IH.
  - rewrite (proj2 (Z.ltb_ge c x)) by lia. done.
  - done.
Qed.

Lemma recent_app c l1 l2 : recent c (l1 ++ l2) = recent c l1 ++ recent c l2.
Proof. apply List.filter_app. Qed.

Definition alert_tracks (th win : Z) (a : Alerter) (hs : list hit) : Prop :=
  ac_Threshold (a_cfg a) = th ∧ ac_Window (a_cfg a) = win ∧
  ∀ ip, ip ≠ ""%string →
    Z.of_nat (length (counter a ip)) < th ∧
    ∀ c, Forall (λ h, hit_at h - win ≤ c) hs →
      recent c (counter a ip) = recent c (since_last_alert th win ip hs).

Lemma since_last_alert_snoc th win ip hs h :
  since_last_alert th win ip (hs ++ [h]) = since_step th win ip (since_last_alert th win ip hs) h.
Proof. unfold since_last_alert. by rewrite foldl_snoc. Qed.

(** The test of the code on the pruned counter is the specification's. *)
Lemma fires_now_counter th win a ip now since :
  recent (now - win) (counter a ip) = recent (now - win) since →
  fires_now th win since now
  = negb (Z.of_nat (length (recent (now - win) (counter a ip) ++ [now])) <? th).
Proof.
  intros ->. rewrite length_app. simpl. unfold fires_now, recent. rewrite <- Z.leb_antisym.
  apply eq_true_iff_eq. rewrite !Z.leb_le. lia.
Qed.

Lemma alert_step_tracks th win a hs h :
  0 < th → 0 < win → alert_tracks th win a hs →
  Forall (λ h', hit_at h' ≤ hit_at h) hs →
  ∃ a', (RecordBlocked (hit_at h) (hit_client h) (hit_domain h) (Some a)).2 = Some a' ∧
        alert_tracks th win a' (hs ++ [h]) ∧
        (is_Some (RecordBlocked (hit_at h) (hit_client h) (hit_domain h) (Some a)).1 ↔
         hit_client h ≠ ""%string ∧
         fires_now th win (since_last_alert th win (hit_client h) hs) (hit_at h) = true).
Proof.
  intros Hth Hwin (Hcth & Hcwin & Htr) Hmono. unfold RecordBlocked. rewrite Hcth, Hcwin.
  rewrite (proj2 (Z.leb_gt th 0)) by lia. cbn [orb].
  case_bool_decide as Hemp.
  { exists a. split; [done|]. split.
    - split; [done|]. split; [done|]. intros ip Hip. destruct (Htr ip Hip) as [Hlt Hrec].
      split; [done|]. intros c [Hall _]%Forall_app. rewrite since_last_alert_snoc. unfold since_step.
      rewrite bool_decide_eq_false_2 by congruence. by apply Hrec.
    - cbn [fst]. split; [by intros []|by intros []]. }
  destruct (Htr (hit_client h) Hemp) as [Hlt Hrec]. fold (counter a (hit_client h)).
  fold (recent (hit_at h - win) (counter a (hit_client h))).
  assert (Hsame : recent (hit_at h - win) (counter a (hit_client h))
                  = recent (hit_at h - win) (since_last_alert th win (hit_client h) hs)).
  { apply Hrec. eapply Forall_impl; [exact Hmono|]. intros h' ?. simpl in *. lia. }
  pose proof (fires_now_counter th win a (hit_client h) (hit_at h) _ Hsame) as Hfire.
  assert (Hkeep : ∀ cs ip c, ip ≠ ""%string → ip ≠ hit_client h →
    Forall (λ h, hit_at h - win ≤ c) (hs ++ [h]) →
    default [] (<[hit_client h := cs]> (a_counters a) !! ip) = counter a ip ∧
    recent c (counter a ip) = recent c (since_last_alert th win ip (hs ++ [h]))).
  { intros cs ip c Hip Hne [Hall _]%Forall_app. rewrite lookup_insert_ne by done. split; [done|].
    rewrite since_last_alert_snoc. unfold since_step. rewrite bool_decide_eq_false_2 by done. by apply Htr. }
  destruct (Z.of_nat (length _) <? th) eqn:El; cbn [fst snd].
  - eexists. split; [reflexivity|]. split; [|rewrite Hfire; simpl; split; [by intros []|by intros []]].
    split; [done|]. split; [done|]. intros ip Hip. unfold counter; cbn [a_counters].
    destruct (decide (ip = hit_client h)) as [->|Hne].
    + rewrite lookup_insert_eq. cbn [default]. apply Z.ltb_lt in El. split; [done|].
      intros c [Hall Hc]%Forall_app. apply Forall_inv in Hc. rewrite since_last_alert_snoc. unfold since_step.
      rewrite bool_decide_eq_true_2, Hfire by done. cbn [negb]. unfold id.
      rewrite !recent_app, recent_recent by done. f_equal. exact (Hrec c Hall).
    + rewrite lookup_insert_ne by done. split; [by apply Htr|]. intros c Hc.
      by apply (Hkeep [] ip c).
  - eexists. split; [reflexivity|]. split; [|rewrite Hfire; simpl; split; [by auto|by eauto]].
    split; [done|]. split; [done|]. intros ip Hip. unfold counter; cbn [a_counters].
    destruct (decide (ip = hit_client h)) as [->|Hne].
    + rewrite lookup_insert_eq. cbn [default length]. split; [done|].
      intros c _. rewrite since_last_alert_snoc. unfold since_step.
      by rewrite bool_decide_eq_true_2, Hfire by done.
    + rewrite lookup_insert_ne by done. split; [by apply Htr|]. intros c Hc.
      by apply (Hkeep [] ip c).
Qed.

Lemma NewAlerter_tracks cfg r :
  0 < ac_Threshold cfg →
  let a := NewAlerter cfg r in alert_tracks (ac_Threshold cfg) (ac_Window (a_cfg a)) a [].
Proof.
  intros Hth a. split; [done|]. split; [done|]. intros ip _. unfold counter. simpl.
  rewrite lookup_empty. done.
Qed.

Lemma NewAlerter_window cfg r : 0 < ac_Window (a_cfg (NewAlerter cfg r)).
Proof. simpl. unfold DefaultWindow, minute, second. destruct (Z.leb_spec (ac_Window cfg) 0); lia. Qed.

(** Runs that continue a history. *)
Lemma alert_run_tracks th win hs : ∀ a hs0,
  0 < th → 0 < win → alert_tracks th win a hs0 →
  StronglySorted Z.le (hit_at <$> hs0 ++ hs) →
  alert_tracks th win (alert_run a hs).2 (hs0 ++ hs).
Proof.
  induction hs as [|h hs IH]; intros a hs0 Hth Hwin Htr Hsort; [by rewrite app_nil_r|].
  cbn [alert_run].
  destruct (alert_step_tracks th win a hs0 h Hth Hwin Htr) as (a' & Ha' & Htr' & _).
  { rewrite fmap_app in Hsort. apply StronglySorted_app in Hsort as (Hle & _ & _).
    apply Forall_forall. intros h' Hh'. apply Hle; [by apply list_elem_of_fmap_2|].
    rewrite fmap_cons. apply list_elem_of_here. }
  destruct (RecordBlocked _ _ _ _) as [o oa]. simpl in Ha'. subst oa.
  rewrite cons_middle, app_assoc in Hsort |- *. specialize (IH a' (hs0 ++ [h]) Hth Hwin Htr' Hsort).
  by destruct (alert_run a' hs).
Qed.

(** An alert fires exactly when the client has reached the threshold of
    blocked hits inside the sliding window since its last alert, counting no hit
    twice and forgetting none that is still in the window; other clients do not
    matter. *)
Theorem RecordBlocked_fires_iff cfg r hs h :
  0 < ac_Threshold cfg → StronglySorted Z.le (hit_at <$> hs ++ [h]) →
  let a := (alert_run (NewAlerter cfg r) hs).2 in
  let win := ac_Window (a_cfg (NewAlerter cfg r)) in
  is_Some (RecordBlocked (hit_at h) (hit_client h) (hit_domain h) (Some a)).1 ↔
  hit_client h ≠ ""%string ∧
  fires_now (ac_Threshold cfg) win
    (since_last_alert (ac_Threshold cfg) win (hit_client h) hs) (hit_at h) = true.
Proof.
  intros Hth Hsort a win. pose proof (NewAlerter_window cfg r) as Hwin.
  rewrite fmap_app in Hsort. apply StronglySorted_app in Hsort as (Hle & Hs & _).
  pose proof (alert_run_tracks _ _ hs _ [] Hth Hwin (NewAlerter_tracks cfg r Hth) Hs) as Htr.
  destruct (alert_step_tracks _ _ _ hs h Hth Hwin Htr) as (a' & _ & _ & Hiff); [|exact Hiff].
  apply Forall_forall. intros h' Hh'. apply Hle; [by apply list_elem_of_fmap_2|].
  apply list_elem_of_here.
Qed.

(** A fired alert reports exactly the threshold as its hits, its first hit lies
    inside the window, and the device is suspected from then on, under this alert. *)
Theorem fired_alert_fields cfg r hs h al :
  0 < ac_Threshold cfg → StronglySorted Z.le (hit_at <$> hs) →
  let a := (alert_run (NewAlerter cfg r) hs).2 in
  let res := RecordBlocked (hit_at h) (hit_client h) (hit_domain h) (Some a) in
  res.1 = Some al →
  al_Hits al = ac_Threshold cfg ∧ al_Threshold al = ac_Threshold cfg ∧ al_FiredAt al = hit_at h ∧
  hit_at h - ac_Window (a_cfg (NewAlerter cfg r)) < al_FirstHit al ∧
  ∃ a', res.2 = Some a' ∧ a_suspected a' !! hit_client h = Some al.
Proof.
  intros Hth Hs a. cbv zeta. pose proof (NewAlerter_window cfg r) as Hwin.
  pose proof (alert_run_tracks _ _ hs _ [] Hth Hwin (NewAlerter_tracks cfg r Hth) Hs)
    as (Hcth & Hcwin & Htr). fold a in Hcth, Hcwin, Htr. clearbody a.
  set (win := ac_Window (a_cfg (NewAlerter cfg r))) in *. clearbody win.
  unfold RecordBlocked. rewrite Hcth, Hcwin, (proj2 (Z.leb_gt _ 0) Hth). cbn [orb].
  case_bool_decide as Hemp; [done|]. fold (counter a (hit_client h)).
  destruct (Htr _ Hemp) as [Hlt _].
  assert (Hl : (length (recent (hit_at h - win) (counter a (hit_client h)))
                ≤ length (counter a (hit_client h)))%nat) by apply List.filter_length_le.
  assert (Hall : Forall (λ t, hit_at h - win < t) (recent (hit_at h - win) (counter a (hit_client h)))).
  { apply Forall_forall. intros t Ht. apply list_elem_of_In, filter_In in Ht as [_ Ht].
    by apply Z.ltb_lt in Ht. }
  fold (recent (hit_at h - win) (counter a (hit_client h))).
  set (l := recent _ _) in *. clearbody l.
  destruct (Z.ltb_spec (Z.of_nat (length (l ++ [hit_at h]))) (ac_Threshold cfg)) as [|Hge]; [done|].
  cbn [fst snd]. intros [= <-]. cbn [al_Hits al_Threshold al_FiredAt al_FirstHit].
  rewrite length_app in *. cbn [length] in *. repeat split; [lia| |].
  - destruct l as [|t l]; cbn; [lia|]. by apply Forall_inv in Hall.
  - eexists. split; [reflexivity|]. cbn [a_suspected]. by rewrite lookup_insert_eq.
Qed.

Definition ex_hits : list hit :=
  [{| hit_at := 0; hit_client := "10.0.0.5"; hit_domain := "c2.example" |};
   {| hit_at := minute; hit_client := "10.0.0.9"; hit_domain := "x.example" |}].
Definition ex_hit : hit :=
  {| hit_at := 2 * minute; hit_client := "10.0.0.5"; hit_domain := "c2.example" |}.
Definition ex_alert_cfg : AlertConfig := {| ac_Threshold := 2; ac_Window := 0 |}.

Lemma RecordBlocked_fires_iff_witness :
  is_Some (RecordBlocked (hit_at ex_hit) (hit_client ex_hit) (hit_domain ex_hit)
    (Some (alert_run (NewAlerter ex_alert_cfg None) ex_hits).2)).1.
Proof.
  apply (RecordBlocked_fires_iff ex_alert_cfg None ex_hits ex_hit).
  - reflexivity.
  - repeat constructor; vm_compute; discriminate.
  - split; [discriminate|reflexivity].
Defined.

Lemma fired_alert_fields_witness :
  ∃ al, al_Hits al = 2 ∧ al_FirstHit al = 0 ∧ al_FiredAt al = 2 * minute ∧
        2 * minute - 10 * minute < al_FirstHit al.
Proof.
  eexists. split; [|split; [|split]].
  4: { refine (proj1 (proj2 (proj2 (proj2 (fired_alert_fields ex_alert_cfg None ex_hits ex_hit _ _ _ _))))).
       - reflexivity.
       - repeat constructor; vm_compute; discriminate.
       - vm_compute. reflexivity. }
  all: reflexivity.
Defined.
