(* ===== verification/Metrics.v ===== *)
(** * Rolling query metrics

    [internal/metrics]: buckets.go and query_metrics.go. Every call reads the
    clock; the counters are 64-bit and wrap. *)
From S2P Require Import Prelude GoStrings QueryLog.

(** ** buckets.go *)

Definition BucketCount : nat := 8.
Definition bucketUpperBounds : list Z :=
  [5 * millisecond; 10 * millisecond; 20 * millisecond; 50 * millisecond; 100 * millisecond;
   250 * millisecond; 500 * millisecond; 5 * second].

Definition BucketForLatency (d : Z) : nat :=
  if d <? 5 * millisecond then 0
  else if d <? 10 * millisecond then 1
  else if d <? 20 * millisecond then 2
  else if d <? 50 * millisecond then 3
  else if d <? 100 * millisecond then 4
  else if d <? 250 * millisecond then 5
  else if d <? 500 * millisecond then 6
  else 7.

Definition BucketUpperBound (b : Z) : Z :=
  if (b <? 0) || (Z.of_nat BucketCount <=? b) then nth 7 bucketUpperBounds 0
  else nth (Z.to_nat b) bucketUpperBounds 0.

(** ** query_metrics.go *)

Record metricsSlice := {
  s_startUnix : Z;
  s_total : Z;
  s_errors : Z;
  s_blocked : Z;
  s_latency : list Z;
}.

Record QueryMetrics := {
  qm_windowSec : Z;
  qm_sliceSec : Z;
  qm_slices : list metricsSlice;
  qm_current : nat;
  qm_queryLogDropped : Z;
}.

Record AggregatedMetrics := {
  ag_Total : Z; ag_Errors : Z; ag_Blocked : Z; ag_Buckets : list Z; ag_QueryLogDropped : Z;
}.

Definition defaultWindowSize : Z := 5 * minute.
Definition defaultSliceSize : Z := 30 * second.

Definition new_slice (now : Z) : metricsSlice := {|
  s_startUnix := now; s_total := 0; s_errors := 0; s_blocked := 0;
  s_latency := replicate BucketCount 0 |}.

(** [now] is in Unix seconds. *)
Definition NewQueryMetrics (now : Z) : QueryMetrics :=
  let sliceCount := defaultWindowSize / defaultSliceSize in
  let sliceCount := if (sliceCount <=? 0) || (uint32_max <? sliceCount) then 1 else sliceCount in
  {| qm_windowSec := defaultWindowSize / second; qm_sliceSec := defaultSliceSize / second;
     qm_slices := replicate (Z.to_nat sliceCount) (new_slice now);
     qm_current := 0; qm_queryLogDropped := 0 |}.

(** The index of the slice to write to, after the rotation if one is due. *)
Definition currentSlice (now : Z) (m : QueryMetrics) : nat * QueryMetrics :=
  match qm_slices m !! qm_current m with
  | None => (qm_current m, m)
  | Some s =>
      if now <? s_startUnix s + qm_sliceSec m then (qm_current m, m)
      else
        let next := ((qm_current m + 1) mod length (qm_slices m))%nat in
        (next, {| qm_windowSec := qm_windowSec m; qm_sliceSec := qm_sliceSec m;
                  qm_slices := <[next := new_slice now]> (qm_slices m);
                  qm_current := next; qm_queryLogDropped := qm_queryLogDropped m |})
  end.

Definition update_slice (i : nat) (f : metricsSlice → metricsSlice) (m : QueryMetrics) : QueryMetrics := {|
  qm_windowSec := qm_windowSec m; qm_sliceSec := qm_sliceSec m;
  qm_slices := alter f i (qm_slices m); qm_current := qm_current m;
  qm_queryLogDropped := qm_queryLogDropped m |}.

Definition record_in (elapsed : Z) (success : bool) (s : metricsSlice) : metricsSlice := {|
  s_startUnix := s_startUnix s;
  s_total := u64 (s_total s + 1);
  s_errors := if success then s_errors s else u64 (s_errors s + 1);
  s_blocked := s_blocked s;
  s_latency := alter (λ n, u64 (n + 1)) (BucketForLatency elapsed) (s_latency s) |}.

Definition Record_ (now elapsed : Z) (success : bool) (m : QueryMetrics) : QueryMetrics :=
  let '(i, m) := currentSlice now m in update_slice i (record_in elapsed success) m.

Definition RecordBlockedMetric (now : Z) (m : QueryMetrics) : QueryMetrics :=
  let '(i, m) := currentSlice now m in
  update_slice i (λ s, {| s_startUnix := s_startUnix s; s_total := s_total s; s_errors := s_errors s;
                          s_blocked := u64 (s_blocked s + 1); s_latency := s_latency s |}) m.

Definition RecordQueryLogDropped (m : QueryMetrics) : QueryMetrics := {|
  qm_windowSec := qm_windowSec m; qm_sliceSec := qm_sliceSec m; qm_slices := qm_slices m;
  qm_current := qm_current m; qm_queryLogDropped := u64 (qm_queryLogDropped m + 1) |}.

Definition agg_step (cutoff : Z) (out : AggregatedMetrics) (s : metricsSlice) : AggregatedMetrics :=
  if s_startUnix s <? cutoff then out
  else {| ag_Total := u64 (ag_Total out + s_total s); ag_Errors := u64 (ag_Errors out + s_errors s);
          ag_Blocked := u64 (ag_Blocked out + s_blocked s);
          ag_Buckets := zip_with (λ a b, u64 (a + b)) (ag_Buckets out) (s_latency s);
          ag_QueryLogDropped := ag_QueryLogDropped out |}.

Definition Aggregate (now : Z) (m : QueryMetrics) : AggregatedMetrics :=
  let out := foldl (agg_step (now - qm_windowSec m))
    {| ag_Total := 0; ag_Errors := 0; ag_Blocked := 0; ag_Buckets := replicate BucketCount 0;
       ag_QueryLogDropped := 0 |} (qm_slices m) in
  {| ag_Total := ag_Total out; ag_Errors := ag_Errors out; ag_Blocked := ag_Blocked out;
     ag_Buckets := ag_Buckets out; ag_QueryLogDropped := qm_queryLogDropped m |}.

Definition sum (l : list Z) : Z := foldr Z.add 0 l.

(** The search for the first bucket that reaches the target. *)
Fixpoint percentile_loop (i : Z) (cumulative target : Z) (buckets : list Z) : Z :=
  match buckets with
  | [] => BucketUpperBound 7
  | c :: rest =>
      let cumulative := u64 (cumulative + c) in
      if target <=? cumulative then BucketUpperBound i
      else percentile_loop (i + 1) cumulative target rest
  end.

Definition EstimatePercentile (buckets : list Z) (p : float64) : Z :=
  let total := foldl (λ t c, u64 (t + c)) 0 buckets in
  if total =? 0 then 0 else
  let target := u64 (f64_ceil (f64_mul (f64_of_Z total) p)) in
  percentile_loop 0 0 (if target =? 0 then 1 else target) buckets.

(** ** Consistency *)

Definition slice_ok (s : metricsSlice) : Prop :=
  length (s_latency s) = BucketCount ∧ u64 (s_total s) = u64 (sum (s_latency s)).

Lemma u64_add_r a b : u64 (a + u64 b) = u64 (a + b).
Proof. unfold u64. by rewrite Zplus_mod_idemp_r. Qed.
Lemma u64_add_l a b : u64 (u64 a + b) = u64 (a + b).
Proof. unfold u64. by rewrite Zplus_mod_idemp_l. Qed.
Lemma u64_u64 a : u64 (u64 a) = u64 a.
Proof. unfold u64. by rewrite Zmod_mod. Qed.

Lemma sum_alter l i :
  (i < length l)%nat → u64 (sum (alter (λ n, u64 (n + 1)) i l)) = u64 (sum l + 1).
Proof.
  set (f := λ n, u64 (n + 1)). revert i.
  induction l as [|x l IH]; intros [|i] Hi; cbn [length] in Hi; [lia|lia| |].
  - change (u64 (f x + sum l) = u64 (x + sum l + 1)). unfold f. rewrite u64_add_l. f_equal. lia.
  - change (u64 (x + sum (alter f i l)) = u64 (x + sum l + 1)).
    rewrite <- u64_add_r, IH, u64_add_r by lia. f_equal. lia.
Qed.

Lemma BucketForLatency_lt d : (BucketForLatency d < BucketCount)%nat.
Proof. unfold BucketForLatency, BucketCount. repeat case_match; lia. Qed.

Lemma sum_replicate_0 n : sum (replicate n 0) = 0.
Proof. unfold sum. induction n; simpl; lia. Qed.

Lemma new_slice_ok now : slice_ok (new_slice now).
Proof. split; [apply length_replicate|]. simpl. done. Qed.

Lemma record_in_ok e b s : slice_ok s → slice_ok (record_in e b s).
Proof.
  intros [Hl Ht]. split; simpl; [by rewrite length_alter|].
  rewrite u64_u64, sum_alter by (rewrite Hl; apply BucketForLatency_lt).
  by rewrite <- u64_add_l, Ht, u64_add_l.
Qed.

Definition metrics_ok (m : QueryMetrics) : Prop := Forall slice_ok (qm_slices m).

Lemma Forall_alter {A} (P : A → Prop) f i l :
  Forall P l → (∀ x, P x → P (f x)) → Forall P (alter f i l).
Proof.
  intros H Hf. revert i. induction H as [|x l Hx H IH]; intros [|i]; try constructor; auto.
Qed.

Lemma currentSlice_ok now m : metrics_ok m → metrics_ok (currentSlice now m).2.
Proof.
  unfold currentSlice, metrics_ok. intros H. destruct (qm_slices m !! qm_current m); [|done].
  case_match; [done|]. simpl. apply Forall_insert; [done|apply new_slice_ok].
Qed.

(** The operations that change the metrics, as one step. *)
Inductive metrics_step : QueryMetrics → QueryMetrics → Prop :=
| ms_record now elapsed ok m : metrics_step m (Record_ now elapsed ok m)
| ms_blocked now m : metrics_step m (RecordBlockedMetric now m)
| ms_dropped m : metrics_step m (RecordQueryLogDropped m).

Lemma metrics_step_ok m m' : metrics_ok m → metrics_step m m' → metrics_ok m'.
Proof.
  intros Hm Hs. destruct Hs as [now e ok m|now m|m]; [| |done].
  - unfold Record_. pose proof (currentSlice_ok now m Hm) as H.
    destruct (currentSlice now m) as [i m']. apply Forall_alter; [done|]. apply record_in_ok.
  - unfold RecordBlockedMetric. pose proof (currentSlice_ok now m Hm) as H.
    destruct (currentSlice now m) as [i m']. by apply Forall_alter.
Qed.

Lemma sum_zip a b : length a = length b → u64 (sum (zip_with (λ x y, u64 (x + y)) a b)) = u64 (sum a + sum b).
Proof.
  revert b. induction a as [|x a IH]; intros [|y b] H; simpl in *; try done.
  unfold sum in *; simpl. rewrite u64_add_l, <- u64_add_r, IH, u64_add_r by lia. f_equal. lia.
Qed.

Lemma Aggregate_ok now m :
  metrics_ok m → u64 (ag_Total (Aggregate now m)) = u64 (sum (ag_Buckets (Aggregate now m))).
Proof.
  intros Hm. unfold Aggregate. cbn [ag_Total ag_Buckets]. unfold metrics_ok in Hm.
  set (out0 := {| ag_Total := 0 |}).
  assert (H0 : length (ag_Buckets out0) = BucketCount ∧ u64 (ag_Total out0) = u64 (sum (ag_Buckets out0))) by done.
  clearbody out0. revert out0 H0. induction Hm as [|s l [Hl Ht] Hm IH]; intros out [H1 H2]; simpl; [done|].
  apply IH. unfold agg_step. case_match; [done|]. simpl. split.
  - rewrite length_zip_with. lia.
  - rewrite u64_u64, sum_zip by congruence.
    by rewrite <- u64_add_l, H2, u64_add_l, <- u64_add_r, Ht, u64_add_r.
Qed.

(** After any sequence of records, block marks and drops, at any instants, the
    aggregated total is the sum of the latency buckets (both modulo 2^64): rotation
    resets a slice as a whole and no query is counted in one and not in the other. *)
Theorem metrics_total_is_bucket_sum t0 m now :
  rtc metrics_step (NewQueryMetrics t0) m →
  u64 (ag_Total (Aggregate now m)) = u64 (sum (ag_Buckets (Aggregate now m))).
Proof.
  intros H. apply Aggregate_ok.
  assert (metrics_ok (NewQueryMetrics t0)) as H0 by (apply Forall_replicate, new_slice_ok).
  induction H as [|m1 m2 m3 Hs _ IH]; [done|]. apply IH. by eapply metrics_step_ok.
Qed.

(** ** Percentiles *)

Definition below (b : nat) (buckets : list Z) : Z := sum (take b buckets).

Lemma sum_app a b : sum (a ++ b) = sum a + sum b.
Proof. unfold sum. induction a; simpl; lia. Qed.

Lemma percentile_loop_spec target buckets : ∀ pre,
  Forall (λ c, 0 ≤ c) (pre ++ buckets) → sum (pre ++ buckets) < 2 ^ 64 →
  sum pre < target ≤ sum (pre ++ buckets) →
  ∃ b, (length pre ≤ b < length (pre ++ buckets))%nat ∧
       percentile_loop (Z.of_nat (length pre)) (sum pre) target buckets = BucketUpperBound (Z.of_nat b) ∧
       below b (pre ++ buckets) < target ≤ below (S b) (pre ++ buckets).
Proof.
  induction buckets as [|c rest IH]; intros pre Hnn Hmax Ht.
  { rewrite app_nil_r in Ht. lia. }
  assert (Hsum : sum (pre ++ c :: rest) = sum (pre ++ [c]) + sum rest).
  { by rewrite cons_middle, app_assoc, sum_app. }
  assert (0 ≤ sum rest) as Hr.
  { apply Forall_app in Hnn as [_ Hnn]. apply Forall_cons in Hnn as [_ Hnn].
    clear -Hnn. induction Hnn; unfold sum in *; simpl; lia. }
  assert (0 ≤ sum pre ∧ 0 ≤ c) as [Hp Hc].
  { apply Forall_app in Hnn as [Hnn Hnn']. apply Forall_cons in Hnn' as [? _]. split; [|done].
    clear -Hnn. induction Hnn; unfold sum in *; simpl; lia. }
  assert (sum (pre ++ [c]) = sum pre + c) as Hpc by (rewrite sum_app; unfold sum; simpl; lia).
  cbn [percentile_loop]. unfold u64. rewrite Z.mod_small by lia.
  destruct (Z.leb_spec target (sum pre + c)).
  - exists (length pre). split; [rewrite length_app; simpl; lia|]. split; [done|].
    unfold below. rewrite take_app_length.
    assert (take (S (length pre)) (pre ++ c :: rest) = pre ++ [c]) as ->; [|lia].
    rewrite cons_middle, app_assoc. apply take_app_length'. rewrite length_app. simpl. lia.
  - destruct (IH (pre ++ [c])) as (b & Hb & Heq & Hbt).
    + by rewrite <- app_assoc.
    + by rewrite <- app_assoc.
    + rewrite <- app_assoc. simpl. lia.
    + exists b. rewrite <- app_assoc in Hb, Hbt. simpl in Hb, Hbt.
      rewrite length_app in Hb. simpl in Hb. split; [lia|]. split; [|done].
      rewrite <- Heq, Hpc, length_app. f_equal. simpl. lia.
Qed.

(** The buckets that a list of latencies fills. *)
Definition bucket_counts (ds : list Z) : list Z :=
  (λ b, Z.of_nat (length (filter (λ d, BucketForLatency d = b) ds))) <$> seq 0 BucketCount.

Lemma latency_below_bound d b : (b < 7)%nat → (BucketForLatency d ≤ b)%nat → d < BucketUpperBound (Z.of_nat b).
Proof.
  unfold BucketForLatency. intros Hb.
  destruct b as [|[|[|[|[|[|[|b]]]]]]]; try lia; unfold BucketUpperBound; simpl;
    repeat case_match; boolp; unfold millisecond in *; lia.
Qed.

Lemma below_counts ds b :
  (b ≤ BucketCount)%nat →
  below b (bucket_counts ds) = Z.of_nat (length (filter (λ d, (BucketForLatency d < b)%nat) ds)).
Proof.
  intros Hb. unfold below, bucket_counts. rewrite <- fmap_take, take_seq, Nat.min_l by done. clear Hb.
  induction b as [|b IH].
  - simpl. induction ds as [|d ds IHd]; [done|]. rewrite filter_cons_False by lia. done.
  - rewrite seq_S, fmap_app, sum_app, IH. unfold sum; simpl. clear IH.
    induction ds as [|d ds IHd]; [done|]. rewrite !filter_cons.
    destruct (decide (BucketForLatency d < b)%nat), (decide (BucketForLatency d < S b)%nat),
      (decide (BucketForLatency d = b)); simpl; lia.
Qed.

(** For a non-empty sample, at least [target] of the latencies lie below the
    percentile returned for rank [target], unless it is the cap of the slowest
    bucket, and fewer than [target] lie in faster buckets. *)
Theorem percentile_rank ds target :
  Z.of_nat (length ds) < 2 ^ 64 → 1 ≤ target ≤ Z.of_nat (length ds) →
  ∃ b, (b < BucketCount)%nat ∧
    percentile_loop 0 0 target (bucket_counts ds) = BucketUpperBound (Z.of_nat b) ∧
    Z.of_nat (length (filter (λ d, (BucketForLatency d < b)%nat) ds)) < target ∧
    ((b < 7)%nat → target ≤ Z.of_nat (length (filter (λ d, d < BucketUpperBound (Z.of_nat b)) ds))).
Proof.
  intros Hmax Ht.
  assert (Hlen : length (bucket_counts ds) = BucketCount) by done.
  assert (Htot : sum (bucket_counts ds) = Z.of_nat (length ds)).
  { rewrite <- (firstn_all (bucket_counts ds)), Hlen. change (firstn BucketCount (bucket_counts ds))
      with (take BucketCount (bucket_counts ds)). fold (below BucketCount (bucket_counts ds)).
    rewrite below_counts by done. f_equal. clear. induction ds as [|d ds IH]; [done|].
    rewrite filter_cons_True by apply BucketForLatency_lt. simpl. by rewrite IH. }
  destruct (percentile_loop_spec target (bucket_counts ds) []) as (b & Hb & Heq & Hlo & Hhi).
  - apply Forall_forall. intros c (b & -> & _)%list_elem_of_fmap. lia.
  - by rewrite app_nil_l, Htot.
  - rewrite app_nil_l, Htot. change (sum []) with 0. lia.
  - rewrite app_nil_l in Hb, Hlo, Hhi. rewrite Hlen in Hb. change (sum []) with 0 in Heq.
    exists b. split; [unfold BucketCount in *; lia|]. split; [done|].
    rewrite below_counts in Hlo, Hhi by (unfold BucketCount in *; lia). split; [done|].
    intros Hb7. etrans; [exact Hhi|]. apply inj_le.
    clear -Hb7. induction ds as [|d ds IH]; [done|]. rewrite !filter_cons.
    repeat case_decide; simpl; try lia.
    exfalso. pose proof (latency_below_bound d b Hb7). lia.
Qed.

Lemma metrics_total_is_bucket_sum_witness :
  u64 (ag_Total (Aggregate 40 (Record_ 40 (7 * millisecond) true (NewQueryMetrics 0)))) = 1.
Proof.
  rewrite (metrics_total_is_bucket_sum 0 _ 40 (rtc_once _ _ (ms_record 40 (7 * millisecond) true _))).
  vm_compute. reflexivity.
Defined.

Lemma percentile_rank_witness :
  ∃ b, (b < BucketCount)%nat ∧
    percentile_loop 0 0 2 (bucket_counts [millisecond; 30 * millisecond; second]) = BucketUpperBound (Z.of_nat b).
Proof.
  destruct (percentile_rank [millisecond; 30 * millisecond; second] 2 eq_refl) as (b & Hb & He & _);
    [vm_compute; split; discriminate|]. exists b. split; [exact Hb|exact He].
Defined.
