(* ===== verification/Threat.v ===== *)
(** * The heuristic threat detector

    [internal/threat/detector.go]. Strings are decoded to runes as Go's [range] and
    [[]rune] do. The three regular expressions are written as recognisers.
    [math.Log2], the "%.2f" and "%q" formats, the IDNA decoder and the iteration order of the
    rune-frequency map are an interface. *)
From S2P Require Import Prelude GoStrings GoUtf8.

(** ** The environment *)

Class ThreatEnv := {
  log2 : float64 → float64;
  format_float2 : float64 → string;
  quote : string → string;
  punycode_to_unicode : string → option string;
  freq_order : gmap Z Z → list (Z * Z);
}.

(** [math.Min] *)
Definition f64_is_nan (x : float64) : bool := match x with S754_nan => true | _ => false end.
Definition f64_min (x y : float64) : float64 :=
  if f64_is_nan x || f64_is_nan y then S754_nan
  else match x, y with
       | S754_zero true, S754_zero _ => x
       | S754_zero false, S754_zero _ => y
       | _, _ => if f64_ltb x y then x else y
       end.

(** ** Types *)

Record Result := {
  r_IsSuspicious : bool;
  r_ThreatScore : float64;
  r_DetectionMethod : string;
  r_Reason : string;
  r_Block : bool;
}.

Definition no_result : Result := {|
  r_IsSuspicious := false; r_ThreatScore := f64_zero; r_DetectionMethod := ""; r_Reason := "";
  r_Block := false |}.

Definition flag (score : float64) (method reason : string) : Result := {|
  r_IsSuspicious := true; r_ThreatScore := score; r_DetectionMethod := method; r_Reason := reason;
  r_Block := false |}.

Record brandEntry := { be_domain : string; be_label : string; be_tld : string }.

Record Detector := {
  d_entropyThreshold : float64;
  d_lengthThreshold : Z;
  d_brands : list brandEntry;
  d_typoMaxDistance : Z;
  d_blockTyposquat : bool;
}.

(** ** Tables *)

Definition infraDomains : list string :=
  ["cloudfront.net"; "amazonaws.com"; "akamaihd.net"; "akamaized.net"; "sentry.io"; "fastly.net";
   "cloudflare.com"; "azurewebsites.net"]%string.

Definition twoLevelTLDs : list string :=
  ["co.uk"; "org.uk"; "ac.uk"; "gov.uk"; "co.in"; "co.jp"; "co.kr"; "co.za"; "com.au"; "net.au";
   "org.au"; "com.br"; "com.cn"; "com.sg"; "com.mx"; "com.tr"]%string.

(** Digits and the capital I, then Cyrillic small and capital letters, then
    Greek. *)
Definition confusables : list (Z * string) :=
  [(48, "o"); (49, "l"); (51, "e"); (52, "a"); (53, "s"); (73, "l");
   (1072, "a"); (1077, "e"); (1086, "o"); (1088, "p"); (1089, "c");
   (1093, "x"); (1091, "y"); (1110, "i"); (1109, "s"); (1281, "d"); (1082, "k"); (1075, "r");
   (1040, "a"); (1045, "e"); (1054, "o"); (1056, "p"); (1057, "c");
   (1061, "x"); (1042, "b"); (1052, "m"); (1053, "h"); (1058, "t");
   (959, "o"); (945, "a"); (957, "v"); (961, "p"); (953, "i"); (954, "k"); (956, "u")]%string.

(** ** Edit distance *)

Definition min3 (a b c : Z) : Z :=
  let m := a in
  let m := if b <? m then b else m in
  if c <? m then c else m.

(** [s[i]] for an index the code knows to be in range. *)
Definition at_ (l : list Z) (i : nat) : Z := nth i l 0.

Definition dp_cell (ra rb prev2 prev : list Z) (i : nat) (curr : list Z) (j : nat) : list Z :=
  let cost := if at_ ra (i - 1) =? at_ rb (j - 1) then 0 else 1 in
  let c := min3 (at_ prev j + 1) (at_ curr (j - 1) + 1) (at_ prev (j - 1) + cost) in
  let c :=
    if (1 <? i)%nat && (1 <? j)%nat && (at_ ra (i - 1) =? at_ rb (j - 2))
       && (at_ ra (i - 2) =? at_ rb (j - 1))
    then let t := at_ prev2 (j - 2) + 1 in if t <? c then t else c
    else c in
  <[j := c]> curr.

(** One row, and the rotation of the three buffers. *)
Definition dp_row (ra rb : list Z) (rows : list Z * list Z * list Z) (i : nat)
  : list Z * list Z * list Z :=
  let '(prev2, prev, curr) := rows in
  let curr := <[0%nat := Z.of_nat i]> curr in
  let curr := foldl (dp_cell ra rb prev2 prev i) curr (seq 1 (length rb)) in
  (prev, curr, prev2).

Definition damerauLevenshtein_runes (ra rb : list Z) : Z :=
  let la := length ra in
  let lb := length rb in
  if (la =? 0)%nat then Z.of_nat lb
  else if (lb =? 0)%nat then Z.of_nat la
  else
    let zeros := replicate (lb + 1) 0 in
    let '(_, prev, _) := foldl (dp_row ra rb) (zeros, Z.of_nat <$> seq 0 (lb + 1), zeros) (seq 1 la) in
    at_ prev lb.

Definition damerauLevenshtein (a b : string) : Z := damerauLevenshtein_runes (runes a) (runes b).

(** ** Heuristics *)

Definition is_hex_byte (c : ascii) : bool :=
  is_digit_byte c || ((97 <=? ord c) && (ord c <=? 102)).
(** [^[0-9a-f]{16,}$] *)
Definition hexPattern (s : string) : bool :=
  (16 <=? String.length s)%nat && string_forallb is_hex_byte s.

(** A maximal run of lower-case letters and what follows it. *)
Fixpoint span_lower (s : string) : nat * string :=
  match s with
  | String c s' => if is_lower_byte c then let '(n, r) := span_lower s' in (S n, r) else (0%nat, s)
  | EmptyString => (0%nat, s)
  end.
Definition eat_digit (s : string) : option string :=
  match s with String c s' => if is_digit_byte c then Some s' else None | _ => None end.
(** [^[a-z]{2,4}\d[a-z]{2,4}\d[a-z]*\d?$]: letters and digits are disjoint, so
    each run is maximal. *)
Definition dgaMixPattern (s : string) : bool :=
  let '(n1, s1) := span_lower s in
  if negb ((2 <=? n1)%nat && (n1 <=? 4)%nat) then false else
  match eat_digit s1 with
  | None => false
  | Some s2 =>
      let '(n2, s3) := span_lower s2 in
      if negb ((2 <=? n2)%nat && (n2 <=? 4)%nat) then false else
      match eat_digit s3 with
      | None => false
      | Some s4 =>
          let '(_, s5) := span_lower s4 in
          match s5 with
          | EmptyString => true
          | String c EmptyString => is_digit_byte c
          | _ => false
          end
      end
  end.

Definition is_b64_byte (c : ascii) : bool :=
  is_upper_byte c || is_lower_byte c || is_digit_byte c || (ord c =? 43) || (ord c =? 47).
Definition is_b64_mark (c : ascii) : bool := (ord c =? 43) || (ord c =? 47) || (ord c =? 61).
(** [^[A-Za-z0-9+/]*[+/=][A-Za-z0-9+/=]{15,}$]: some place to split. *)
Fixpoint base64Pattern (s : string) : bool :=
  match s with
  | EmptyString => false
  | String c s' =>
      (is_b64_mark c && (15 <=? String.length s')%nat
       && string_forallb (λ d, is_b64_byte d || (ord d =? 61)) s')
      || (is_b64_byte c && base64Pattern s')
  end.

Section Threat.
Context `{U : GoUnicode} `{TE : ThreatEnv}.

Definition longestLabel (labels : list string) : string :=
  foldl (λ longest l, if (String.length longest <? String.length l)%nat then l else longest) ""%string labels.

Definition isInfraDomain (domain : string) : bool :=
  let parts := Split domain dot in
  existsb (λ i, bool_decide (Join (drop i parts) "." ∈ infraDomains)) (seq 1 (length parts - 1)).

Definition is_digit_rune (r : Z) : bool :=
  if r <? 128 then (48 <=? r) && (r <=? 57) else unicode_is_digit r.

Definition checkDGAPattern (label domain : string) : Result :=
  if isInfraDomain domain then no_result else
  let lower := ToLower label in
  if hexPattern lower then
    flag (f64_lit 9 1) "dga_hex" "hexadecimal domain pattern (possible C2 beacon)"
  else if dgaMixPattern lower && (10 <? len lower) then
    flag (f64_lit 7 1) "dga_pattern" "algorithmic domain pattern (possible DGA)"
  else if base64Pattern label then
    flag (f64_lit 8 1) "dga_base64" "base64-encoded domain pattern (possible data exfiltration)"
  else
    let digitCount := Z.of_nat (length (List.filter is_digit_rune (runes lower))) in
    if (8 <? len lower)
       && f64_ltb (f64_lit 5 1) (f64_div (f64_of_Z digitCount) (f64_of_Z (len lower)))
    then flag (f64_lit 6 1) "dga_digits" "high digit ratio in domain (possible DGA)"
    else no_result.

Definition rune_freq (rs : list Z) : gmap Z Z :=
  foldl (λ m r, <[r := default 0 (m !! r) + 1]> m) ∅ rs.

Definition shannonEntropy (s : string) : float64 :=
  if (String.length s =? 0)%nat then f64_zero else
  let length := f64_of_Z (RuneCountInString s) in
  foldl (λ entropy kv,
    let p := f64_div (f64_of_Z kv.2) length in
    if f64_ltb f64_zero p then f64_sub entropy (f64_mul p (log2 p)) else entropy)
    f64_zero (freq_order (rune_freq (runes s))).

Definition checkEntropy (d : Detector) (label domain : string) : Result :=
  if len label <? 6 then no_result else
  let entropy := shannonEntropy label in
  let threshold := if 20 <? len label then f64_lit 35 1 else d_entropyThreshold d in
  if f64_ltb threshold entropy then
    flag (f64_min (f64_div (f64_sub entropy threshold) (f64_sub (f64_lit 45 1) threshold)) (f64_of_Z 1))
      "entropy" ("high entropy domain (randomness score: " +:+ format_float2 entropy +:+ ")")
  else no_result.

Definition checkLength (d : Detector) (domain : string) : Result :=
  if d_lengthThreshold d <? len domain then
    flag (f64_min (f64_div (f64_of_Z (len domain - d_lengthThreshold d)) (f64_of_Z 50)) (f64_of_Z 1))
      "length" "unusually long domain name (possible DNS tunneling)"
  else no_result.

Definition checkExcessiveSubdomains (domain : string) : Result :=
  if (5 <? length (Split domain dot))%nat then
    flag (f64_lit 5 1) "subdomain_depth" "excessive subdomain depth (possible DNS tunneling)"
  else no_result.

(** ** Typosquats *)

Definition confusable_rune (r : Z) : string :=
  match first_match (λ kv, if kv.1 =? r then Some kv.2 else None) confusables with
  | Some repl => repl
  | None => ToLower (encode_rune r)
  end.
Definition confusableSkeleton (s : string) : string :=
  foldr (λ r acc, (confusable_rune r +:+ acc)%string) ""%string (runes s).

Definition decodePunycodeDomain (domain : string) : string :=
  if negb (Contains domain "xn--") then domain
  else match punycode_to_unicode domain with Some u => u | None => domain end.

Definition registrableParts (domain : string) : string * string :=
  let domain := TrimSuffix domain "." in
  let parts := Split domain dot in
  let n := length parts in
  let part i := nth i parts ""%string in
  if (n <? 2)%nat then (""%string, ""%string) else
  let lastTwo := ToLower (part (n - 2)%nat +:+ "." +:+ part (n - 1)%nat) in
  if (3 <=? n)%nat && bool_decide (lastTwo ∈ twoLevelTLDs) then (part (n - 3)%nat, lastTwo)
  else (part (n - 2)%nat, ToLower (part (n - 1)%nat)).

Definition normalize_brand (raw : string) : option brandEntry :=
  let b := TrimSuffix (TrimSpace (ToLower raw)) "." in
  if bool_decide (b = ""%string) then None else
  let '(label, tld) := registrableParts b in
  if bool_decide (label = ""%string) || bool_decide (tld = ""%string) then None
  else Some {| be_domain := (label +:+ "." +:+ tld)%string; be_label := label; be_tld := tld |}.
Definition normalizeBrands (brands : list string) : list brandEntry := omap normalize_brand brands.

Definition typosquatResult (d : Detector) (domain brand why : string) : Result := {|
  r_IsSuspicious := true; r_ThreatScore := f64_lit 85 2; r_DetectionMethod := "typosquat";
  r_Reason := ("lookalike of protected brand " +:+ quote brand +:+ " (" +:+ why +:+ ")")%string;
  r_Block := d_blockTyposquat d |}.

(** The verdict of one brand: [None] goes on to the next. *)
Definition check_brand (d : Detector) (domain fullReg lowerLabel skel : string) (b : brandEntry)
  : option Result :=
  if bool_decide (fullReg = be_domain b) then None
  else if bool_decide (skel = be_label b) then
    if negb (bool_decide (lowerLabel = be_label b))
    then Some (typosquatResult d domain (be_domain b) "homoglyph/confusable lookalike") else None
  else
    let dist := damerauLevenshtein skel (be_label b) in
    if (1 <=? dist) && (dist <=? d_typoMaxDistance d)
    then Some (typosquatResult d domain (be_domain b)
                 ("edit distance " +:+ Itoa dist +:+ " from brand label")) else None.

Definition checkTyposquat (d : Detector) (domain : string) : Result :=
  match d_brands d with
  | [] => no_result
  | brands =>
      if isInfraDomain domain then no_result else
      let '(label, tld) := registrableParts (decodePunycodeDomain domain) in
      if bool_decide (label = ""%string) then no_result else
      let fullReg := (ToLower label +:+ "." +:+ tld)%string in
      let skel := confusableSkeleton label in
      if bool_decide (skel = ""%string) then no_result else
      match first_match (check_brand d domain fullReg (ToLower label) skel) brands with
      | Some r => r
      | None => no_result
      end
  end.

Definition NewDetectorWithBrands (brands : list string) : Detector := {|
  d_entropyThreshold := f64_lit 37 1; d_lengthThreshold := 50;
  d_brands := normalizeBrands brands; d_typoMaxDistance := 2; d_blockTyposquat := false |}.

Definition SetTyposquatBlock (b : bool) (d : Detector) : Detector := {|
  d_entropyThreshold := d_entropyThreshold d; d_lengthThreshold := d_lengthThreshold d;
  d_brands := d_brands d; d_typoMaxDistance := d_typoMaxDistance d; d_blockTyposquat := b |}.

Definition or_else (r : Result) (k : Result) : Result := if r_IsSuspicious r then r else k.

Definition Analyze (d : Detector) (domain : string) : Result :=
  let parts := Split domain dot in
  let n := length parts in
  if (n <=? 1)%nat then no_result else
  let target := if (3 <=? n)%nat then longestLabel (take (n - 1) parts)
                else Join (take (n - 1) parts) "." in
  or_else (checkTyposquat d domain)
  (or_else (checkDGAPattern target domain)
  (or_else (checkEntropy d target domain)
  (or_else (checkLength d domain)
  (or_else (checkExcessiveSubdomains domain) no_result)))).
End Threat.

(** ** The edit distance by recursion *)

(** Optimal string alignment, on the two words read from the back. *)
Fixpoint osa (a : list Z) : list Z → Z :=
  fix go (b : list Z) : Z :=
    match a, b with
    | [], _ => Z.of_nat (length b)
    | _, [] => Z.of_nat (length a)
    | x :: a', y :: b' =>
        let c := min3 (osa a' b + 1) (go b' + 1) (osa a' b' + (if x =? y then 0 else 1)) in
        match a', b' with
        | x2 :: a'', y2 :: b'' =>
            if (x =? y2) && (x2 =? y) then
              let t := osa a'' b'' + 1 in if t <? c then t else c
            else c
        | _, _ => c
        end
    end.

Lemma osa_cons x a y b :
  osa (x :: a) (y :: b) =
  let c := min3 (osa a (y :: b) + 1) (osa (x :: a) b + 1) (osa a b + (if x =? y then 0 else 1)) in
  match a, b with
  | x2 :: a'', y2 :: b'' =>
      if (x =? y2) && (x2 =? y) then let t := osa a'' b'' + 1 in if t <? c then t else c else c
  | _, _ => c
  end.
Proof. done. Qed.

Lemma osa_nil_l b : osa [] b = Z.of_nat (length b).
Proof. by destruct b. Qed.
Lemma osa_nil_r a : osa a [] = Z.of_nat (length a).
Proof. by destruct a. Qed.

Section DP.
Context (ra rb : list Z).

(** The cell of the full table. *)
Definition cell (i j : nat) : Z := osa (reverse (take i ra)) (reverse (take j rb)).

Lemma at_lookup l i x : l !! i = Some x → at_ l i = x.
Proof. unfold at_. intros H. rewrite nth_lookup, H. done. Qed.

Lemma reverse_take_S {A} (l : list A) i x :
  l !! i = Some x → reverse (take (S i) l) = x :: reverse (take i l).
Proof. intros H. rewrite (take_S_r _ _ _ H), reverse_snoc. done. Qed.

Lemma take_reverse_length (l : list Z) i : (i ≤ length l)%nat → length (reverse (take i l)) = i.
Proof. intros H. rewrite length_reverse, length_take. lia. Qed.

Lemma cell_0_j j : (j ≤ length rb)%nat → cell 0 j = Z.of_nat j.
Proof. intros H. unfold cell. simpl. by rewrite osa_nil_l, take_reverse_length. Qed.
Lemma cell_i_0 i : (i ≤ length ra)%nat → cell i 0 = Z.of_nat i.
Proof. intros H. unfold cell. simpl. by rewrite osa_nil_r, take_reverse_length. Qed.

(** The recurrence the code evaluates, with its guards on the indices. *)
Lemma cell_S i j :
  (i < length ra)%nat → (j < length rb)%nat →
  cell (S i) (S j) =
    let cost := if at_ ra i =? at_ rb j then 0 else 1 in
    let c := min3 (cell i (S j) + 1) (cell (S i) j + 1) (cell i j + cost) in
    if (1 <? S i)%nat && (1 <? S j)%nat && (at_ ra i =? at_ rb (S j - 2)) && (at_ ra (S i - 2) =? at_ rb j)
    then let t := cell (S i - 2) (S j - 2) + 1 in if t <? c then t else c
    else c.
Proof.
  intros Hi Hj. destruct (lookup_lt_is_Some_2 ra i Hi) as [x Hx], (lookup_lt_is_Some_2 rb j Hj) as [y Hy].
  unfold cell. rewrite !(reverse_take_S _ _ _ Hx), !(reverse_take_S _ _ _ Hy), osa_cons.
  rewrite (at_lookup _ _ _ Hx), (at_lookup _ _ _ Hy). cbv zeta.
  destruct i as [|i']; [done|]. destruct j as [|j']; [by destruct (reverse (take (S i') ra))|].
  destruct (lookup_lt_is_Some_2 ra i' ltac:(lia)) as [x2 Hx2].
  destruct (lookup_lt_is_Some_2 rb j' ltac:(lia)) as [y2 Hy2].
  rewrite !(reverse_take_S _ _ _ Hx2), !(reverse_take_S _ _ _ Hy2).
  replace (S (S i') - 2)%nat with i' by lia. replace (S (S j') - 2)%nat with j' by lia.
  rewrite (at_lookup _ _ _ Hx2), (at_lookup _ _ _ Hy2).
  rewrite (proj2 (Nat.ltb_lt 1 (S (S i')))), (proj2 (Nat.ltb_lt 1 (S (S j')))) by lia. done.
Qed.

(** A buffer that holds row [i] up to column [k]. *)
Definition row_is (row : list Z) (i k : nat) : Prop :=
  length row = S (length rb) ∧ ∀ j, (j ≤ k)%nat → row !! j = Some (cell i j).

Lemma row_at row i k j : row_is row i k → (j ≤ k)%nat → at_ row j = cell i j.
Proof. intros [_ H] Hj. by apply at_lookup, H. Qed.

Lemma dp_cell_row prev2 prev i curr j :
  (i < length ra)%nat → (j < length rb)%nat →
  row_is prev i (length rb) → (1 ≤ i → row_is prev2 (i - 1) (length rb))%nat →
  row_is curr (S i) j →
  row_is (dp_cell ra rb prev2 prev (S i) curr (S j)) (S i) (S j).
Proof.
  intros Hi Hj Hprev Hprev2 Hcurr. split.
  { unfold dp_cell. rewrite length_insert. apply Hcurr. }
  assert (Hval : dp_cell ra rb prev2 prev (S i) curr (S j) = <[S j := cell (S i) (S j)]> curr).
  { unfold dp_cell. f_equal. rewrite cell_S by done. cbv zeta.
    replace (S i - 1)%nat with i by lia. replace (S j - 1)%nat with j by lia.
    rewrite (row_at prev i _ (S j) Hprev), (row_at prev i _ j Hprev), (row_at curr _ _ j Hcurr) by lia.
    destruct ((1 <? S i)%nat && (1 <? S j)%nat) eqn:E; [|done].
    apply andb_true_iff in E as [E1 E2]. apply Nat.ltb_lt in E1, E2.
    rewrite (row_at prev2 (S i - 2) (length rb) (S j - 2)); [done| |lia].
    replace (S i - 2)%nat with (i - 1)%nat by lia. apply Hprev2. lia. }
  intros k Hk. rewrite Hval. destruct (decide (k = S j)) as [->|Hne].
  - apply list_lookup_insert_eq. destruct Hcurr as [-> _]. lia.
  - rewrite list_lookup_insert_ne by done. apply Hcurr. lia.
Qed.

Lemma dp_inner prev2 prev i curr k :
  (i < length ra)%nat → (k ≤ length rb)%nat →
  row_is prev i (length rb) → (1 ≤ i → row_is prev2 (i - 1) (length rb))%nat →
  row_is curr (S i) 0 →
  row_is (foldl (dp_cell ra rb prev2 prev (S i)) curr (seq 1 k)) (S i) k.
Proof.
  intros Hi Hk Hprev Hprev2 Hcurr. induction k as [|k IH]; [done|].
  rewrite seq_S, foldl_snoc. apply dp_cell_row; try done. apply IH. lia.
Qed.

Lemma dp_outer k :
  (k ≤ length ra)%nat →
  let zeros := replicate (length rb + 1) 0 in
  let '(prev2, prev, curr) :=
    foldl (dp_row ra rb) (zeros, Z.of_nat <$> seq 0 (length rb + 1), zeros) (seq 1 k) in
  row_is prev k (length rb) ∧ (1 ≤ k → row_is prev2 (k - 1) (length rb))%nat ∧
  length curr = S (length rb) ∧ length prev2 = S (length rb).
Proof.
  intros Hk zeros. induction k as [|k IH].
  - cbn [foldl]. change (seq 1 0) with (@nil nat). cbn [foldl].
    split; [|split; [lia|split; unfold zeros; rewrite length_replicate; lia]].
    split; [by rewrite length_fmap, length_seq, Nat.add_1_r|].
    intros j Hj. rewrite list_lookup_fmap, lookup_seq_lt by lia. simpl. by rewrite cell_0_j.
  - rewrite seq_S, foldl_snoc.
    destruct (foldl (dp_row ra rb) _ (seq 1 k)) as [[prev2 prev] curr].
    destruct IH as (Hprev & Hprev2 & Hlc & Hlp); [lia|].
    cbn [dp_row]. change (1 + k)%nat with (S k).
    split; [|split; [intros _; by replace (S k - 1)%nat with k by lia|]].
    + apply dp_inner; try done. split; [by rewrite length_insert|].
      intros j Hj. replace j with 0%nat by lia. rewrite list_lookup_insert_eq by lia.
      by rewrite cell_i_0 by lia.
    + split; [done|apply Hprev].
Qed.

Lemma damerau_osa : damerauLevenshtein_runes ra rb = osa (reverse ra) (reverse rb).
Proof.
  unfold damerauLevenshtein_runes.
  destruct (Nat.eqb_spec (length ra) 0) as [Ha|Ha].
  { apply nil_length_inv in Ha. subst. by rewrite osa_nil_l, length_reverse. }
  destruct (Nat.eqb_spec (length rb) 0) as [Hb|Hb].
  { apply nil_length_inv in Hb. subst. by rewrite osa_nil_r, length_reverse. }
  pose proof (dp_outer (length ra) ltac:(lia)) as H. cbv zeta in *.
  destruct (foldl _ _ _) as [[prev2 prev] curr]. destruct H as (Hprev & _).
  rewrite (row_at prev (length ra) (length rb)) by done. unfold cell. by rewrite !firstn_all.
Qed.
End DP.

(** ** Facts about the distance *)

Lemma min3_spec a b c : min3 a b c = Z.min a (Z.min b c).
Proof. unfold min3. destruct (Z.ltb_spec b a), (Z.ltb_spec c a), (Z.ltb_spec c b); lia. Qed.

Lemma osa_nonneg a b : 0 ≤ osa a b.
Proof.
  revert b. induction a as [a IHa] using (induction_ltof1 _ (@length Z)). intros b.
  induction b as [|y b IHb]; [rewrite osa_nil_r; lia|].
  destruct a as [|x a]; [rewrite osa_nil_l; lia|]. rewrite osa_cons. cbv zeta.
  assert (0 ≤ osa a (y :: b)) by (apply IHa; unfold ltof; simpl; lia).
  assert (0 ≤ osa a b) by (apply IHa; unfold ltof; simpl; lia).
  rewrite min3_spec.
  assert (0 ≤ if x =? y then 0 else 1) by (case_match; lia).
  destruct a as [|x2 a], b as [|y2 b]; try lia.
  assert (0 ≤ osa a b) by (apply IHa; unfold ltof; simpl; lia).
  destruct (_ && _); [|lia]. destruct (_ <? _); lia.
Qed.

Lemma osa_refl a : osa a a = 0.
Proof.
  induction a as [|x a IH]; [done|]. pose proof (osa_nonneg (x :: a) (x :: a)) as Hn.
  revert Hn. rewrite osa_cons. cbv zeta. rewrite Z.eqb_refl, IH, min3_spec.
  pose proof (osa_nonneg a (x :: a)). pose proof (osa_nonneg (x :: a) a).
  destruct a as [|x2 a]; [lia|]. destruct (_ && _); [|lia]. destruct (Z.ltb_spec (osa a a + 1) (Z.min (osa (x2 :: a) (x :: x2 :: a) + 1) (Z.min (osa (x :: x2 :: a) (x2 :: a) + 1) (0 + 0)))); lia.
Qed.

(** The distance is at least the difference of the lengths. *)
Lemma osa_length a b : Z.abs (Z.of_nat (length a) - Z.of_nat (length b)) ≤ osa a b.
Proof.
  revert b. induction a as [a IHa] using (induction_ltof1 _ (@length Z)). intros b.
  induction b as [|y b IHb]; [rewrite osa_nil_r; simpl; lia|].
  destruct a as [|x a]; [rewrite osa_nil_l; simpl; lia|]. rewrite osa_cons. cbv zeta.
  pose proof (IHa a ltac:(unfold ltof; simpl; lia) (y :: b)).
  pose proof (IHa a ltac:(unfold ltof; simpl; lia) b).
  rewrite min3_spec. cbn [length] in *.
  assert (0 ≤ if x =? y then 0 else 1) by (case_match; lia).
  destruct a as [|x2 a], b as [|y2 b]; cbn [length] in *; try lia.
  pose proof (IHa a ltac:(unfold ltof; simpl; lia) b).
  destruct (_ && _); [|lia]. destruct (_ <? _); lia.
Qed.

Lemma osa_zero a b : osa a b = 0 → a = b.
Proof.
  revert b. induction a as [|x a IH]; intros b H.
  { rewrite osa_nil_l in H. symmetry. apply nil_length_inv. lia. }
  destruct b as [|y b]; [rewrite osa_nil_r in H; simpl in H; lia|].
  rewrite osa_cons in H. cbv zeta in H. rewrite min3_spec in H.
  pose proof (osa_nonneg a (y :: b)). pose proof (osa_nonneg (x :: a) b). pose proof (osa_nonneg a b).
  assert (Hc : Z.min (osa a (y :: b) + 1) (Z.min (osa (x :: a) b + 1) (osa a b + (if x =? y then 0 else 1))) = 0).
  { destruct a as [|x2 a], b as [|y2 b]; try exact H. pose proof (osa_nonneg a b).
    destruct (_ && _); [|exact H]. case_match; [lia|exact H]. }
  destruct (Z.eqb_spec x y) as [->|]; [|lia]. f_equal. apply IH. lia.
Qed.

(** ** Theorems *)

(** The three-row dynamic program computes the optimal-string-alignment
    distance of its recursive definition, on the runes of the two strings; it is
    zero only for equal words, and at least the difference of their lengths. *)
Theorem damerauLevenshtein_osa a b :
  damerauLevenshtein a b = osa (reverse (runes a)) (reverse (runes b)) ∧
  (damerauLevenshtein a b = 0 ↔ runes a = runes b) ∧
  Z.abs (RuneCountInString a - RuneCountInString b) ≤ damerauLevenshtein a b.
Proof.
  unfold damerauLevenshtein, RuneCountInString. rewrite damerau_osa. split; [done|]. split.
  - split; [|intros ->; apply osa_refl]. intros H%osa_zero. by apply (inj reverse).
  - rewrite <- (length_reverse (runes a)), <- (length_reverse (runes b)). apply osa_length.
Qed.

Section Detect.
Context `{U : GoUnicode} `{TE : ThreatEnv}.

(** A brand a name looks like, on the watchlist's terms. *)
Definition lookalike (d : Detector) (label tld : string) (b : brandEntry) : Prop :=
  (ToLower label +:+ "." +:+ tld)%string ≠ be_domain b ∧
  (confusableSkeleton label = be_label b ∧ ToLower label ≠ be_label b ∨
   confusableSkeleton label ≠ be_label b ∧
   1 ≤ damerauLevenshtein (confusableSkeleton label) (be_label b) ≤ d_typoMaxDistance d).

Lemma check_brand_spec d domain label tld b :
  is_Some (check_brand d domain (ToLower label +:+ "." +:+ tld) (ToLower label)
             (confusableSkeleton label) b) ↔ lookalike d label tld b.
Proof.
  unfold check_brand, lookalike. case_bool_decide; [split; [by intros []|by intros []]|].
  case_bool_decide as Hs.
  - case_bool_decide; simpl; split; [by intros []|naive_solver|naive_solver|by eexists].
  - destruct (Z.leb_spec 1 (damerauLevenshtein (confusableSkeleton label) (be_label b))),
      (Z.leb_spec (damerauLevenshtein (confusableSkeleton label) (be_label b)) (d_typoMaxDistance d));
      simpl; (split; [try by intros []|]);
      [by auto|by eexists|intros [_ [[]|(_ & ? & ?)]]; [done|lia]..].
Qed.

Lemma check_brand_result d domain f l s b r :
  check_brand d domain f l s b = Some r →
  r_IsSuspicious r = true ∧ r_DetectionMethod r = "typosquat"%string ∧ r_Block r = d_blockTyposquat d.
Proof. unfold check_brand. intros H. repeat case_match; simplify_eq; done. Qed.

(** C30. A name is a typosquat exactly when it is not an infrastructure name, has a
    registrable label whose skeleton is not empty, and some brand of the watchlist is
    neither the name's own registrable domain nor merely the same label under another
    suffix, and is either what the label's skeleton collapses to or within the distance of
    it. That the name is itself a brand of the watchlist saves it from no other brand, as
    [brand_flagged_for_another] shows. *)
Theorem checkTyposquat_iff d domain :
  let '(label, tld) := registrableParts (decodePunycodeDomain domain) in
  r_IsSuspicious (checkTyposquat d domain) = true ↔
  isInfraDomain domain = false ∧ label ≠ ""%string ∧ confusableSkeleton label ≠ ""%string ∧
  ∃ b, b ∈ d_brands d ∧ lookalike d label tld b.
Proof.
  unfold checkTyposquat. destruct (registrableParts _) as [label tld].
  destruct (d_brands d) as [|b0 bs] eqn:Eb.
  { split; [done|]. intros (_ & _ & _ & b & Hb & _). by apply not_elem_of_nil in Hb. }
  rewrite <- Eb. clear Eb.
  destruct (isInfraDomain domain); [split; [done|by intros []]|].
  case_bool_decide; [split; [done|by intros (_ & ? & _)]|].
  case_bool_decide; [split; [done|by intros (_ & _ & ? & _)]|].
  destruct (first_match _ _) as [r|] eqn:E.
  - apply first_match_Some in E as (l1 & b & l2 & Hl & Hb & _).
    pose proof (check_brand_result _ _ _ _ _ _ _ Hb) as [-> _].
    split; [|done]. intros _. repeat split; try done. exists b. split; [rewrite Hl; set_solver|].
    apply (check_brand_spec d domain). by eexists.
  - split; [done|]. intros (_ & _ & _ & b & Hin & Hlook).
    rewrite first_match_None, Forall_forall in E. specialize (E b Hin).
    apply (check_brand_spec d domain) in Hlook. rewrite E in Hlook. by destruct Hlook.
Qed.

Lemma checkTyposquat_block d domain :
  r_Block (checkTyposquat d domain) = true →
  d_blockTyposquat d = true ∧ d_brands d ≠ [] ∧
  r_DetectionMethod (checkTyposquat d domain) = "typosquat"%string.
Proof.
  unfold checkTyposquat. destruct (d_brands d) as [|b0 bs] eqn:Eb; [done|].
  destruct (isInfraDomain domain); [done|]. destruct (registrableParts _) as [label tld].
  repeat (case_bool_decide; [done|]). destruct (first_match _ _) as [r|] eqn:E; [|done].
  apply first_match_Some in E as (l1 & b & l2 & _ & Hb & _).
  apply check_brand_result in Hb as (_ & Hm & Hbl). intros Hr. split; [congruence|done].
Qed.

Lemma checkTyposquat_suspicious_or d domain :
  r_IsSuspicious (checkTyposquat d domain) = false → checkTyposquat d domain = no_result.
Proof.
  unfold checkTyposquat. destruct (d_brands d); [done|].
  destruct (isInfraDomain domain); [done|]. destruct (registrableParts _) as [label tld].
  repeat (case_bool_decide; [done|]). destruct (first_match _ _) as [r|] eqn:E; [|done].
  apply first_match_Some in E as (l1 & b' & l2 & _ & Hb & _).
  apply check_brand_result in Hb as (Hs & _). congruence.
Qed.

(** The heuristics other than the typosquat check only ever flag. *)
Lemma heuristics_no_block d label domain :
  r_Block (checkDGAPattern label domain) = false ∧ r_Block (checkEntropy d label domain) = false ∧
  r_Block (checkLength d domain) = false ∧ r_Block (checkExcessiveSubdomains domain) = false.
Proof.
  unfold checkDGAPattern, checkEntropy, checkLength, checkExcessiveSubdomains, flag.
  repeat split; repeat case_match; done.
Qed.

(** [Analyze] asks for a block only for a typosquat hit of a detector that was
    told to block and has a watchlist; a typosquat hit is always what it reports,
    whatever the other heuristics say; and a result that is not suspicious is
    empty. *)
Theorem Analyze_block_is_typosquat d domain :
  (r_Block (Analyze d domain) = true →
     d_blockTyposquat d = true ∧ d_brands d ≠ [] ∧
     r_DetectionMethod (Analyze d domain) = "typosquat"%string) ∧
  ((1 < length (Split domain dot))%nat → r_IsSuspicious (checkTyposquat d domain) = true →
     Analyze d domain = checkTyposquat d domain) ∧
  (r_IsSuspicious (Analyze d domain) = false → Analyze d domain = no_result).
Proof.
  unfold Analyze. destruct (Nat.leb_spec (length (Split domain dot)) 1) as [Hn|Hn].
  { split; [done|]. split; [lia|done]. }
  set (target := if (3 <=? _)%nat then _ else _).
  pose proof (heuristics_no_block d target domain) as (H1 & H2 & H3 & H4).
  pose proof (checkTyposquat_block d domain) as Hb.
  unfold or_else. destruct (r_IsSuspicious (checkTyposquat d domain)) eqn:Et.
  { split; [done|]. split; [done|]. congruence. }
  destruct (r_IsSuspicious (checkDGAPattern target domain)) eqn:E1;
    [|destruct (r_IsSuspicious (checkEntropy d target domain)) eqn:E2;
    [|destruct (r_IsSuspicious (checkLength d domain)) eqn:E3;
    [|destruct (r_IsSuspicious (checkExcessiveSubdomains domain)) eqn:E4]]];
    (split; [intros Hblk|split; [done|intros Hsus]]); try done; congruence.
Qed.
End Detect.

(** ** Runs *)

Definition ex_threat_env : ThreatEnv := {|
  log2 := λ x, x; format_float2 := λ _, "?"%string; quote := λ s, s;
  punycode_to_unicode := λ _, None; freq_order := map_to_list |}.

Lemma Analyze_block_is_typosquat_witness :
  let d := SetTyposquatBlock true (NewDetectorWithBrands (U := ascii_unicode) ["PayPal.com"%string]) in
  Analyze (U := ascii_unicode) (TE := ex_threat_env) d "www.paypa1.com"
  = checkTyposquat (U := ascii_unicode) (TE := ex_threat_env) d "www.paypa1.com" ∧
  r_DetectionMethod (checkTyposquat (U := ascii_unicode) (TE := ex_threat_env) d "www.paypa1.com")
  = "typosquat"%string.
Proof.
  intros d. split; [|vm_compute; reflexivity].
  apply (proj1 (proj2 (Analyze_block_is_typosquat (U := ascii_unicode) (TE := ex_threat_env) d
    "www.paypa1.com"))); [vm_compute; lia|vm_compute; reflexivity].
Defined.

(** The skeleton of the queried label is compared with the brand's plain label, so
    a brand with a digit is reported as a typosquat of itself under another
    suffix. *)
Example digit_brand_other_suffix :
  r_DetectionMethod (Analyze (U := ascii_unicode) (TE := ex_threat_env)
    (NewDetectorWithBrands (U := ascii_unicode) ["1password.com"%string]) "1password.net")
  = "typosquat"%string.
Proof. vm_compute. reflexivity. Qed.

(** The test for the exact brand is made for each brand in turn and only passes over that
    one: a protected domain is reported, and in block mode blocked, as a lookalike of
    another protected domain within the distance. *)
Example brand_flagged_for_another :
  let d := SetTyposquatBlock true (NewDetectorWithBrands (U := ascii_unicode) ["ebay.com"; "etsy.com"]%string) in
  let r := Analyze (U := ascii_unicode) (TE := ex_threat_env) d "www.ebay.com" in
  r_DetectionMethod r = "typosquat"%string ∧ r_Block r = true ∧
  r_Reason r = "lookalike of protected brand etsy.com (edit distance 2 from brand label)"%string.
Proof. vm_compute. done. Qed.

Example distance_transposition : damerauLevenshtein "paypal" "papyal" = 1.
Proof. vm_compute. reflexivity. Qed.
