(* ===== verification/Blocklist.v ===== *)
(** * Blocklists: feed parsers, the aggregation engine and the repository

    [internal/blocklist] (parser/, engine.go, aggregate.go, health.go,
    bundle/seed.go) and [internal/storage/repositories/blocklist.go]. The HTTP
    fetcher and the SQL database are interfaces: [Fetcher] gives the outcome of one
    [Fetch], [BlocklistDb] the statements the repository issues, with the effect SQL
    documents for them as laws. *)
From S2P Require Import Prelude GoStrings GoText.

(** ** parser/ *)

Definition hostsMaxToken : Z := 64 * 1024.
Definition domainsMaxToken : Z := 1024 * 1024.

Section Blocklist.
Context `{U : GoUnicode}.

(** [strings.IndexAny(line, " \t")] and the cut before it. *)
Fixpoint first_field (s : string) : string :=
  match s with
  | EmptyString => EmptyString
  | String c s' => if (ord c =? 32) || (ord c =? 9) then EmptyString else String c (first_field s')
  end.

(** One line of [HostsParser.Parse]; [None] is [continue]. *)
Definition hosts_line (text : string) : option string :=
  let line := TrimSpace text in
  if bool_decide (line = ""%string) || HasPrefix line "#" then None else
  match Fields line with
  | ip :: name :: _ =>
      if bool_decide (ip ∈ ["0.0.0.0"; "127.0.0.1"; "::1"]%string)
      then Some (ToLower (TrimSuffix name ".")) else None
  | _ => None
  end.

Definition not_domain_chars : string := "/\ ".

(** One line of [DomainsParser.Parse]. *)
Definition domains_line (text : string) : option string :=
  let line := TrimSpace text in
  if bool_decide (line = ""%string) || HasPrefix line "#" || HasPrefix line ";" || HasPrefix line "!"
  then None else
  let domain := ToLower (TrimSuffix (TrimPrefix (first_field line) "*.") ".") in
  if bool_decide (domain = ""%string) || ContainsAny domain not_domain_chars then None
  else Some domain.

(** The domains of the parsed entries, with the scanner's error. *)
Definition HostsParser_Parse (data : string) : result string (list string) :=
  let '(ls, err) := scan_lines hostsMaxToken data in
  if err then Err "token too long"%string else Ok (omap hosts_line ls).
Definition DomainsParser_Parse (data : string) : result string (list string) :=
  let '(ls, err) := scan_lines domainsMaxToken data in
  if err then Err "token too long"%string else Ok (omap domains_line ls).

(** registry.go, with the two parsers the package registers. *)
Definition parser_Get (format : string) : option (string → result string (list string)) :=
  if bool_decide (format = "hosts"%string) then Some HostsParser_Parse
  else if bool_decide (format = "domains"%string) then Some DomainsParser_Parse
  else None.

(** ** Models and the database *)

(** The columns the modelled code reads or writes, the times of the source rows
    apart. *)
Record BlocklistSource := {
  bs_ID : string; bs_Name : string; bs_URL : string; bs_Format : string; bs_Category : string;
  bs_Enabled : bool; bs_Priority : Z; bs_ETag : string;
}.
Record BlocklistSnapshot := { sn_ID : Z; sn_SourceID : string; sn_CreatedAt : Z; sn_Size : Z; sn_Checksum : string }.
Record BlocklistEntry := { en_SnapshotID : Z; en_Domain : string; en_SourceID : string; en_Category : string }.

Definition with_snapshot (id : Z) (e : BlocklistEntry) : BlocklistEntry := {|
  en_SnapshotID := id; en_Domain := en_Domain e; en_SourceID := en_SourceID e; en_Category := en_Category e |}.

End Blocklist.

(** The statements the repository issues, on a database state (or a transaction's
    view of it). *)
Class BlocklistDb := {
  db : Type;
  db_entries : db → list BlocklistEntry;
  db_snapshots : db → list BlocklistSnapshot;
  db_sources : db → list BlocklistSource;
  sql_count_entries_in : list string → db → result string Z;
  sql_count_snapshots : db → result string Z;
  sql_create_snapshot : BlocklistSnapshot → db → result string (Z * db);
  sql_create_entry : BlocklistEntry → db → result string db;
  sql_save_source : BlocklistSource → db → result string db;
  sql_delete_entries : string → db → result string db;
  sql_delete_snapshots : string → db → result string db;
  sql_delete_source : string → db → result string (Z * db);
  sql_commit : db → result string db;
  sql_list_sources : db → result string (list BlocklistSource);
  sql_get_source : string → db → result string BlocklistSource;
  sql_create_source : BlocklistSource → db → result string db;
  sql_upsert_source : BlocklistSource → (BlocklistSource → BlocklistSource) → db → result string db;
  sql_count_source_entries : string → db → result string Z;
  sql_group_counts : db → result string (gmap string Z);
  sql_categorised_entries : list string → db → result string (list BlocklistEntry);
}.

Definition entries_of (id : string) (l : list BlocklistEntry) : list BlocklistEntry :=
  filter (λ e, en_SourceID e = id) l.

Definition same_tables `{BlocklistDb} (d d' : db) : Prop :=
  db_entries d' = db_entries d ∧ db_snapshots d' = db_snapshots d ∧ db_sources d' = db_sources d.

(** What a statement that succeeds does to the tables. *)
Class BlocklistDbLaws `(BlocklistDb) : Prop := {
  count_entries_law : ∀ l d n, sql_count_entries_in l d = Ok n →
    n = Z.of_nat (length (filter (λ e, en_Domain e ∈ l) (db_entries d)));
  count_snapshots_law : ∀ d n, sql_count_snapshots d = Ok n → n = Z.of_nat (length (db_snapshots d));
  create_snapshot_law : ∀ s d id d', sql_create_snapshot s d = Ok (id, d') →
    db_entries d' = db_entries d ∧ db_sources d' = db_sources d ∧
    db_snapshots d' = db_snapshots d ++ [{| sn_ID := id; sn_SourceID := sn_SourceID s;
      sn_CreatedAt := sn_CreatedAt s; sn_Size := sn_Size s; sn_Checksum := sn_Checksum s |}];
  create_entry_law : ∀ e d d', sql_create_entry e d = Ok d' →
    db_entries d' = db_entries d ++ [e] ∧ db_snapshots d' = db_snapshots d ∧ db_sources d' = db_sources d;
  save_source_law : ∀ s d d', sql_save_source s d = Ok d' →
    db_entries d' = db_entries d ∧ db_snapshots d' = db_snapshots d ∧
    db_sources d' ≡ₚ s :: filter (λ s', bs_ID s' ≠ bs_ID s) (db_sources d);
  delete_entries_law : ∀ id d d', sql_delete_entries id d = Ok d' →
    db_entries d' = filter (λ e, en_SourceID e ≠ id) (db_entries d) ∧
    db_snapshots d' = db_snapshots d ∧ db_sources d' = db_sources d;
  delete_snapshots_law : ∀ id d d', sql_delete_snapshots id d = Ok d' →
    db_entries d' = db_entries d ∧ db_sources d' = db_sources d ∧
    db_snapshots d' = filter (λ s, sn_SourceID s ≠ id) (db_snapshots d);
  delete_source_law : ∀ id d n d', sql_delete_source id d = Ok (n, d') →
    db_entries d' = db_entries d ∧ db_snapshots d' = db_snapshots d ∧
    db_sources d' = filter (λ s, bs_ID s ≠ id) (db_sources d);
  commit_law : ∀ d d', sql_commit d = Ok d' → same_tables d d';
  list_sources_law : ∀ d l, sql_list_sources d = Ok l → l ≡ₚ db_sources d;
  get_source_law : ∀ id d s, sql_get_source id d = Ok s → s ∈ db_sources d ∧ bs_ID s = id;
  create_source_law : ∀ s d d', sql_create_source s d = Ok d' →
    db_entries d' = db_entries d ∧ db_snapshots d' = db_snapshots d ∧ db_sources d' ≡ₚ s :: db_sources d;
  upsert_source_law : ∀ s f d d', sql_upsert_source s f d = Ok d' → (∀ x, bs_ID (f x) = bs_ID x) →
    db_entries d' = db_entries d ∧ db_snapshots d' = db_snapshots d ∧
    db_sources d' ≡ₚ if bool_decide (bs_ID s ∈ bs_ID <$> db_sources d)
                     then (λ x, if bool_decide (bs_ID x = bs_ID s) then f x else x) <$> db_sources d
                     else s :: db_sources d;
  count_source_entries_law : ∀ id d n, sql_count_source_entries id d = Ok n →
    n = Z.of_nat (length (entries_of id (db_entries d)));
  group_counts_law : ∀ d m id, sql_group_counts d = Ok m →
    default 0 (m !! id) = Z.of_nat (length (entries_of id (db_entries d)));
  categorised_entries_law : ∀ l d es, sql_categorised_entries l d = Ok es →
    es ≡ₚ filter (λ e, en_Domain e ∈ l ∧ en_Category e ≠ ""%string) (db_entries d);
}.

(** ** The fetcher *)

(** The outcome of one [Fetch]: [None] is a 304 reply (a nil body). *)
Inductive fetched := NotModified (etag : string) | Body (body etag : string).
Class Fetcher := { Fetch : string → string → result string fetched (* URL, known ETag *) }.

Section Repo.
Context `{U : GoUnicode} `{D : BlocklistDb}.

(** ** repositories/blocklist.go *)

Definition repo_normalize (domain : string) : string := TrimSuffix (ToLower domain) ".".

Definition IsBlocked (domain : string) (d : db) : result string bool :=
  let? count := sql_count_entries_in (parent_candidates (repo_normalize domain)) d in
  Ok (0 <? count).

Fixpoint create_entries (id : Z) (entries : list BlocklistEntry) (tx : db) : result string db :=
  match entries with
  | [] => Ok tx
  | e :: es => let? tx := sql_create_entry (with_snapshot id e) tx in create_entries id es tx
  end.

(** The result and the database after the call: an error before the commit rolls
    the transaction back. *)
Definition SaveSnapshotWithEntries (now : Z) (src : BlocklistSource) (checksum : string)
  (entries : list BlocklistEntry) (d : db) : result string Z * db :=
  let snapshot := {| sn_ID := 0; sn_SourceID := bs_ID src; sn_CreatedAt := now;
                     sn_Size := Z.of_nat (length entries); sn_Checksum := checksum |} in
  match sql_create_snapshot snapshot d with
  | Err e => (Err e, d)
  | Ok (id, tx) =>
      match create_entries id entries tx with
      | Err e => (Err e, d)
      | Ok tx =>
          match sql_save_source src tx with
          | Err e => (Err e, d)
          | Ok tx => match sql_commit tx with Err e => (Err e, d) | Ok d' => (Ok id, d') end
          end
      end
  end.

(** The statements of that transaction succeed, whatever they are given. *)
Definition saves_succeed : Prop := ∀ now src checksum entries d, is_ok (SaveSnapshotWithEntries now src checksum entries d).1 = true.

Definition CountSnapshots (d : db) : result string Z := sql_count_snapshots d.

Definition DeleteEntriesBySource (sourceID : string) (d : db) : result string unit * db :=
  match sql_delete_entries sourceID d with
  | Err e => (Err e, d)
  | Ok tx =>
      match sql_delete_snapshots sourceID tx with
      | Err e => (Err e, d)
      | Ok tx => match sql_commit tx with Err e => (Err e, d) | Ok d' => (Ok tt, d') end
      end
  end.

Definition DeleteSource (id : string) (d : db) : result string unit * db :=
  match sql_delete_entries id d with
  | Err e => (Err e, d)
  | Ok tx =>
      match sql_delete_snapshots id tx with
      | Err e => (Err e, d)
      | Ok tx =>
          match sql_delete_source id tx with
          | Err e => (Err e, d)
          | Ok (n, tx) =>
              if n =? 0 then (Err "record not found"%string, d)
              else match sql_commit tx with Err e => (Err e, d) | Ok d' => (Ok tt, d') end
          end
      end
  end.

(** ** engine.go *)

Context `{F : Fetcher}.
(** [hash]: hex SHA-256 of the body. *)
Context (hash : string → string).

Definition with_etag (s : BlocklistSource) (etag : string) : BlocklistSource := {|
  bs_ID := bs_ID s; bs_Name := bs_Name s; bs_URL := bs_URL s; bs_Format := bs_Format s;
  bs_Category := bs_Category s; bs_Enabled := bs_Enabled s; bs_Priority := bs_Priority s;
  bs_ETag := etag |}.

Definition entry_of (sourceID category domain : string) : BlocklistEntry := {|
  en_SnapshotID := 0; en_Domain := domain; en_SourceID := sourceID; en_Category := category |}.

Definition UpdateSource (now : Z) (src : BlocklistSource) (knownETag : string) (d : db)
  : result string unit * db :=
  if negb (bs_Enabled src) then (Ok tt, d) else
  match Fetch (bs_URL src) knownETag with
  | Err e => (Err e, d)
  | Ok (NotModified _) => (Ok tt, d)
  | Ok (Body body etag) =>
      match parser_Get (bs_Format src) with
      | None => (Err "no parser available"%string, d)
      | Some parse =>
          match parse body with
          | Err e => (Err e, d)
          | Ok domains =>
              match SaveSnapshotWithEntries now (with_etag src etag) (hash body)
                      (entry_of (bs_ID src) (bs_Category src) <$> domains) d with
              | (Err e, d) => (Err e, d)
              | (Ok _, d) => (Ok tt, d)
              end
          end
      end
  end.

(** ** aggregate.go *)

Definition agg_normalizeDomain (raw : string) : string :=
  let d := TrimSuffix (ToLower (TrimSpace raw)) "." in
  if bool_decide (d = ""%string) || ContainsAny d not_domain_chars then "" else d.

(** The deduplication loop: [seen] and the domains appended so far. *)
Definition dedup_step (acc : gset string * list string) (raw : string) : gset string * list string :=
  let '(seen, out) := acc in
  let d := agg_normalizeDomain raw in
  if bool_decide (d = ""%string) then acc
  else if bool_decide (d ∈ seen) then acc
  else ({[d]} ∪ seen, out ++ [d]).

Record Feed := { fd_Name : string; fd_URL : string; fd_Format : string }.

Record agg_state := {
  ag_seen : gset string; ag_out : list string; ag_lastErr : option string; ag_fetched : nat;
}.

Definition feed_step (st : agg_state) (f : Feed) : agg_state :=
  let failed e := {| ag_seen := ag_seen st; ag_out := ag_out st; ag_lastErr := Some e;
                     ag_fetched := ag_fetched st |} in
  match Fetch (fd_URL f) "" with
  | Err e => failed e
  | Ok (NotModified _) => {| ag_seen := ag_seen st; ag_out := ag_out st; ag_lastErr := ag_lastErr st;
                             ag_fetched := S (ag_fetched st) |}
  | Ok (Body body _) =>
      match parser_Get (fd_Format f) with
      | None => failed "no parser for format"%string
      | Some parse =>
          match parse body with
          | Err e => failed e
          | Ok parsed =>
              let '(seen, out) := foldl dedup_step (ag_seen st, ag_out st) parsed in
              {| ag_seen := seen; ag_out := out; ag_lastErr := ag_lastErr st;
                 ag_fetched := S (ag_fetched st) |}
          end
      end
  end.

Definition agg_source (sourceID sourceName category : string) : BlocklistSource := {|
  bs_ID := sourceID; bs_Name := sourceName; bs_URL := ""; bs_Format := "aggregate";
  bs_Category := category; bs_Enabled := true; bs_Priority := 0; bs_ETag := "" |}.

Definition storeAggregate (now : Z) (sourceID sourceName category : string)
  (entries : list BlocklistEntry) (d : db) : result string unit * db :=
  match SaveSnapshotWithEntries now (agg_source sourceID sourceName category)
          (hash (sourceID +:+ category)) entries d with
  | (Err e, d) => (Err e, d)
  | (Ok _, d) => (Ok tt, d)
  end.

Definition AggregateFeeds (now : Z) (sourceID sourceName category : string) (feeds : list Feed) (d : db)
  : result string Z * db :=
  let st := foldl feed_step {| ag_seen := ∅; ag_out := []; ag_lastErr := None; ag_fetched := 0 |} feeds in
  match (ag_fetched st =? 0)%nat, ag_lastErr st with
  | true, Some e => (Err e, d)
  | _, _ =>
      match storeAggregate now sourceID sourceName category
              (entry_of sourceID category <$> ag_out st) d with
      | (Err e, d) => (Err e, d)
      | (Ok _, d) => (Ok (Z.of_nat (length (ag_out st))), d)
      end
  end.

Definition StoreDomains (now : Z) (sourceID sourceName category : string) (domains : list string) (d : db)
  : result string Z * db :=
  let '(_, out) := foldl dedup_step (∅, []) domains in
  match storeAggregate now sourceID sourceName category (entry_of sourceID category <$> out) d with
  | (Err e, d) => (Err e, d)
  | (Ok _, d) => (Ok (Z.of_nat (length out)), d)
  end.

(** ** bundle/ *)

Definition bundle_SourceID : string := "bundled-default".

(** [raw] is the embedded file. *)
Definition SeedIfEmpty (now : Z) (raw : string) (d : db) : result string bool * db :=
  match CountSnapshots d with
  | Err e => (Err e, d)
  | Ok n =>
      if 0 <? n then (Ok false, d) else
      match parser_Get "hosts" with
      | None => (Err "bundle: hosts parser not registered"%string, d)
      | Some parse =>
          match parse raw with
          | Err e => (Err e, d)
          | Ok domains =>
              let src := {| bs_ID := bundle_SourceID; bs_Name := "Bundled Offline Default"; bs_URL := "";
                            bs_Format := "hosts"; bs_Category := "default"; bs_Enabled := false;
                            bs_Priority := 0; bs_ETag := "" |} in
              match SaveSnapshotWithEntries now src (hash raw)
                      (entry_of bundle_SourceID "default" <$> domains) d with
              | (Err e, d) => (Err e, d)
              | (Ok _, d) => (Ok true, d)
              end
          end
      end
  end.

End Repo.


(** ** health.go *)

Inductive HealthReason := ReasonOK | ReasonNoData | ReasonCollapsed | ReasonStale.
(** The status without its printed detail. *)
Record HealthStatus := { hs_SourceID : string; hs_SourceName : string; hs_OK : bool; hs_Reason : HealthReason; hs_CheckedAt : Z }.
Record HealthThresholds := { th_StaleAfter : Z; th_CollapseRatio : float64 }.
Definition DefaultHealthThresholds : HealthThresholds :=
  {| th_StaleAfter := 7 * 24 * hour; th_CollapseRatio := f64_lit 5 1 |}.

Definition evaluate (src : BlocklistSource) (latest prev : option BlocklistSnapshot) (now : Z)
  (t : HealthThresholds) : HealthStatus :=
  let st ok reason := {| hs_SourceID := bs_ID src; hs_SourceName := bs_Name src; hs_OK := ok;
                         hs_Reason := reason; hs_CheckedAt := now |} in
  match latest with
  | None => st false ReasonNoData
  | Some l =>
      if sn_Size l <=? 0 then st false ReasonNoData
      else if match prev with
              | Some p => f64_ltb f64_zero (th_CollapseRatio t) && (0 <? sn_Size p) &&
                          f64_ltb (f64_of_Z (sn_Size l)) (f64_mul (f64_of_Z (sn_Size p)) (th_CollapseRatio t))
              | None => false
              end then st false ReasonCollapsed
      else if (0 <? th_StaleAfter t) && (th_StaleAfter t <? time_sub now (sn_CreatedAt l))
      then st false ReasonStale
      else st true ReasonOK
  end.

(** [CheckOnce] over the results of [ListSources] and [GetRecentSnapshots]: the
    results and the retained map, or [None] when the sources cannot be listed (the
    map is kept). *)
Definition check_source (snaps : string → result string (list BlocklistSnapshot)) (now : Z)
  (t : HealthThresholds) (src : BlocklistSource) : option HealthStatus :=
  if negb (bs_Enabled src) then None else
  let '(latest, prev) :=
    match snaps (bs_ID src) with
    | Err _ => (None, None)
    | Ok l => (l !! 0%nat, l !! 1%nat)
    end in
  Some (evaluate src latest prev now t).

Definition CheckOnce (sources : result string (list BlocklistSource))
  (snaps : string → result string (list BlocklistSnapshot)) (now : Z) (t : HealthThresholds)
  (statuses : gmap string HealthStatus) : option (list HealthStatus) * gmap string HealthStatus :=
  match sources with
  | Err _ => (None, statuses)
  | Ok srcs =>
      let results := omap (check_source snaps now t) srcs in
      (Some results, foldl (λ m st, <[hs_SourceID st := st]> m) ∅ results)
  end.

Definition Unhealthy (statuses : gmap string HealthStatus) : list HealthStatus :=
  List.filter (λ st, negb (hs_OK st)) (map_to_list statuses).*2.
Definition Healthy (statuses : gmap string HealthStatus) : bool :=
  forallb (λ kv, hs_OK kv.2) (map_to_list statuses).

Example scan_ex : scan_lines 6 (utf8 [97; 13; 10; 10; 98; 99]) = (["a"; ""; "bc"]%string, false)
  ∧ (scan_lines 2 (utf8 [97; 10; 98; 99])).2 = true.
Proof. vm_compute. done. Qed.
Example hosts_ex : let _ := ascii_unicode in
  HostsParser_Parse (utf8 [35; 10] +:+ "0.0.0.0 Ads.Example.com. x" +:+ utf8 [10] +:+ "10.0.0.1 a.b")
  = Ok ["ads.example.com"]%string.
Proof. vm_compute. reflexivity. Qed.
Example domains_ex : let _ := ascii_unicode in
  DomainsParser_Parse ("! c" +:+ utf8 [10] +:+ "*.Evil.com x" +:+ utf8 [13; 10] +:+ "a/b")
  = Ok ["evil.com"]%string.
Proof. vm_compute. reflexivity. Qed.

(** ** The repository *)

Section RepoLemmas.
Context `{U : GoUnicode} `{D : BlocklistDb} `{L : !BlocklistDbLaws D}.

(** Some row lists the name or one of its parents, stopping before the TLD. *)
Definition listed (d : db) (name : string) : Prop :=
  ∃ e, e ∈ db_entries d ∧ en_Domain e ∈ parent_candidates (repo_normalize name).

Lemma IsBlocked_listed name d b : IsBlocked name d = Ok b → b = true ↔ listed d name.
Proof.
  unfold IsBlocked. destruct (sql_count_entries_in _ d) as [n|] eqn:E; [|done]. intros [= <-].
  apply count_entries_law in E as ->. rewrite Z.ltb_lt.
  set (l := filter _ _). assert (0 < Z.of_nat (length l) ↔ l ≠ []) as ->.
  { destruct l; simpl; split; intros; (done || lia). }
  unfold listed. split.
  - intros H. destruct l as [|e l'] eqn:El; [done|]. exists e.
    assert (e ∈ l) as He by (rewrite El; set_solver). subst l.
    apply list_elem_of_filter in He as [H1 H2]. done.
  - intros (e & H1 & H2) Hl. assert (e ∈ l) as He by (subst l; by apply list_elem_of_filter).
    rewrite Hl in He. by apply not_elem_of_nil in He.
Qed.

Lemma create_entries_ok id es tx tx' :
  create_entries id es tx = Ok tx' → db_entries tx' = db_entries tx ++ (with_snapshot id <$> es).
Proof.
  revert tx. induction es as [|e es IH]; intros tx; csimpl.
  - intros [= ->]. by rewrite app_nil_r.
  - destruct (sql_create_entry _ tx) as [tx1|] eqn:E; [|done]. intros H%IH.
    apply create_entry_law in E as (E & _). rewrite H, E. by rewrite <- app_assoc.
Qed.

Lemma SaveSnapshot_cases now src ck es d r d' :
  SaveSnapshotWithEntries now src ck es d = (r, d') →
  match r with
  | Err _ => d' = d
  | Ok id => db_entries d' = db_entries d ++ (with_snapshot id <$> es)
  end.
Proof.
  unfold SaveSnapshotWithEntries. destruct (sql_create_snapshot _ d) as [[id tx]|] eqn:E1; [|by intros [= <- <-]].
  destruct (create_entries id es tx) as [tx1|] eqn:E2; [|by intros [= <- <-]].
  destruct (sql_save_source src tx1) as [tx2|] eqn:E3; [|by intros [= <- <-]].
  destruct (sql_commit tx2) as [tx3|] eqn:E4; [|by intros [= <- <-]]. intros [= <- <-].
  apply create_snapshot_law in E1 as (E1 & _). apply create_entries_ok in E2.
  apply save_source_law in E3 as (E3 & _). apply commit_law in E4 as (E4 & _). congruence.
Qed.

Lemma listed_app d d' id sid cat (ds : list string) name :
  db_entries d' = db_entries d ++ (with_snapshot id <$> (entry_of sid cat <$> ds)) →
  listed d' name ↔ listed d name ∨ ∃ x, x ∈ ds ∧ x ∈ parent_candidates (repo_normalize name).
Proof.
  intros E. unfold listed. rewrite E. rewrite <- list_fmap_compose. split.
  - intros (e & [He|He]%elem_of_app & Hc); [left; eauto|].
    apply list_elem_of_fmap in He as (x & -> & Hx). right. by exists x.
  - intros [(e & He & Hc)|(x & Hx & Hc)].
    + exists e. split; [by apply elem_of_app; left|done].
    + exists ((with_snapshot id ∘ entry_of sid cat) x). split; [|done].
      apply elem_of_app. right. by apply list_elem_of_fmap_2.
Qed.

(** [IsBlocked] answers yes exactly when some stored entry is the name itself,
    or what remains of the name when leading labels are cut down to two. *)
Theorem IsBlocked_iff name d b :
  IsBlocked name d = Ok b →
  b = true ↔ ∃ e, e ∈ db_entries d ∧ enclosing (repo_normalize name) (en_Domain e).
Proof.
  intros H. rewrite (IsBlocked_listed _ _ _ H). unfold listed.
  by setoid_rewrite parent_candidates_enclosing.
Qed.

(** ** The deduplication loop *)

(** The names a list of raw entries contributes. *)
Definition names_of (raws : list string) : gset string :=
  list_to_set (agg_normalizeDomain <$> raws) ∖ {[""%string]}.

Definition dedup_ok (acc : gset string * list string) : Prop :=
  NoDup acc.2 ∧ list_to_set acc.2 = acc.1.

Lemma names_of_cons raw raws :
  names_of (raw :: raws) = ({[agg_normalizeDomain raw]} ∖ {[""%string]}) ∪ names_of raws.
Proof. unfold names_of. csimpl. set_solver. Qed.

Lemma dedup_step_spec acc raw :
  dedup_ok acc → dedup_ok (dedup_step acc raw) ∧
  (dedup_step acc raw).1 = acc.1 ∪ ({[agg_normalizeDomain raw]} ∖ {[""%string]}).
Proof.
  destruct acc as [seen out]. unfold dedup_ok, dedup_step; simpl. intros [Hnd Hs].
  case_bool_decide as E1; [rewrite E1; split; [done|set_solver]|].
  case_bool_decide as E2; [split; [done|set_solver]|]. simpl. split; [split|set_solver].
  - apply NoDup_app. split; [done|]. split; [|apply NoDup_singleton].
    intros x Hx ->%list_elem_of_singleton. apply E2. rewrite <- Hs. by apply elem_of_list_to_set.
  - rewrite list_to_set_app_L, Hs. simpl. set_solver.
Qed.

Lemma dedup_fold_spec raws acc :
  dedup_ok acc → dedup_ok (foldl dedup_step acc raws) ∧
  (foldl dedup_step acc raws).1 = acc.1 ∪ names_of raws.
Proof.
  revert acc. induction raws as [|raw raws IH]; intros acc H; simpl.
  - split; [done|]. unfold names_of. set_solver.
  - destruct (dedup_step_spec acc raw H) as [H1 H2]. destruct (IH _ H1) as [H3 H4].
    split; [done|]. rewrite H4, H2, names_of_cons. set_solver.
Qed.

Lemma dedup_ok_size acc : dedup_ok acc → Z.of_nat (length acc.2) = Z.of_nat (size acc.1).
Proof. intros [H1 H2]. rewrite <- H2, size_list_to_set; done. Qed.
End RepoLemmas.

(** ** Feeds *)

Section FeedLemmas.
Context `{U : GoUnicode} `{D : BlocklistDb} `{L : !BlocklistDbLaws D} `{F : Fetcher}.
Context (hash : string → string).

(** The raw entries a feed contributes, or why it fails. *)
Definition feed_result (f : Feed) : result string (list string) :=
  match Fetch (fd_URL f) "" with
  | Err e => Err e
  | Ok (NotModified _) => Ok []
  | Ok (Body body _) =>
      match parser_Get (fd_Format f) with
      | None => Err "no parser for format"%string
      | Some parse => parse body
      end
  end.
Definition feed_entries (f : Feed) : list string :=
  match feed_result f with Ok l => l | Err _ => [] end.

Lemma feed_step_spec st f :
  dedup_ok (ag_seen st, ag_out st) →
  let st' := feed_step st f in
  dedup_ok (ag_seen st', ag_out st') ∧ ag_seen st' = ag_seen st ∪ names_of (feed_entries f) ∧
  match feed_result f with
  | Ok _ => ag_fetched st' = S (ag_fetched st) ∧ ag_lastErr st' = ag_lastErr st
  | Err e => ag_fetched st' = ag_fetched st ∧ ag_lastErr st' = Some e
  end.
Proof.
  intros H. unfold feed_step, feed_entries, feed_result.
  assert (ag_seen st = ag_seen st ∪ names_of []) as Hn by (unfold names_of; set_solver).
  destruct (Fetch _ _) as [[etag|body etag]|e]; [done| |done].
  destruct (parser_Get _) as [parse|]; [|done]. destruct (parse body) as [parsed|e]; [|done].
  destruct (dedup_fold_spec parsed _ H) as [H1 H2].
  destruct (foldl dedup_step _ parsed) as [seen out]. simpl in *. auto.
Qed.

Lemma feeds_fold_spec feeds st :
  dedup_ok (ag_seen st, ag_out st) →
  let st' := foldl feed_step st feeds in
  dedup_ok (ag_seen st', ag_out st') ∧
  ag_seen st' = ag_seen st ∪ names_of (feeds ≫= feed_entries) ∧
  ag_fetched st' = (ag_fetched st + length (filter (λ f, is_ok (feed_result f) = true) feeds))%nat ∧
  (ag_lastErr st' = None ↔ ag_lastErr st = None ∧ Forall (λ f, is_ok (feed_result f) = true) feeds).
Proof.
  revert st. induction feeds as [|f fs IH]; intros st H; csimpl.
  - split; [done|]. split; [unfold names_of; set_solver|]. split; [lia|]. split; [auto|by intros []].
  - destruct (feed_step_spec st f H) as (H1 & H2 & H3). destruct (IH _ H1) as (I1 & I2 & I3 & I4).
    split; [done|]. split.
    { rewrite I2, H2. unfold names_of. rewrite fmap_app, list_to_set_app_L. set_solver. }
    rewrite I3, I4, Forall_cons, filter_cons.
    destruct (feed_result f) as [l|e]; destruct H3 as [-> ->]; case_decide; simpl in *; try done.
    + split; [lia|]. intuition.
    + split; [lia|]. intuition done.
Qed.

Lemma storeAggregate_entries now sid sname cat out d r d' :
  storeAggregate hash now sid sname cat (entry_of sid cat <$> out) d = (r, d') →
  match r with
  | Ok _ => ∃ id, db_entries d' = db_entries d ++ (with_snapshot id <$> (entry_of sid cat <$> out))
  | Err _ => d' = d
  end.
Proof.
  unfold storeAggregate. destruct (SaveSnapshotWithEntries _ _ _ _ _) as [[id|e] d1] eqn:Es;
    apply SaveSnapshot_cases in Es; intros [= <- <-]; eauto.
Qed.

(** The entries an aggregation adds. *)
Definition stored_names (sid cat : string) (names : gset string) (d d' : db) (n : Z) : Prop :=
  ∃ id out, NoDup out ∧ list_to_set out = names ∧ n = Z.of_nat (length out) ∧
    db_entries d' = db_entries d ++ (with_snapshot id <$> (entry_of sid cat <$> out)).

Lemma AggregateFeeds_entries now sid sname cat feeds d r d' :
  AggregateFeeds hash now sid sname cat feeds d = (r, d') →
  match r with
  | Ok n => (feeds = [] ∨ ∃ f, f ∈ feeds ∧ is_ok (feed_result f) = true) ∧
            stored_names sid cat (names_of (feeds ≫= feed_entries)) d d' n
  | Err _ => d' = d
  end.
Proof.
  unfold AggregateFeeds. set (st0 := {| ag_seen := _ |}).
  destruct (feeds_fold_spec feeds st0) as (H1 & H2 & H3 & H4); [split; [constructor|done]|].
  set (st := foldl feed_step st0 feeds) in *.
  assert (names_of (feeds ≫= feed_entries) = ag_seen st) as Hn by (rewrite H2; set_solver).
  rewrite Hn. intros E.
  assert ((feeds = [] ∨ ∃ f, f ∈ feeds ∧ is_ok (feed_result f) = true)
          ∨ (ag_fetched st =? 0)%nat = true ∧ ∃ e, ag_lastErr st = Some e) as [Hf|[Hf [e He]]].
  { destruct feeds as [|f fs]; [by left; left|].
    destruct (filter (λ f, is_ok (feed_result f) = true) (f :: fs)) as [|g gs] eqn:Ef.
    - right. split; [apply Nat.eqb_eq; by rewrite H3|].
      destruct (ag_lastErr st) as [e|]; [by exists e|]. exfalso.
      destruct H4 as [H4 _]. destruct (H4 eq_refl) as [_ Hall].
      assert (f ∈ filter (λ f, is_ok (feed_result f) = true) (f :: fs)) as Hin.
      { apply list_elem_of_filter. split; [by inversion Hall|set_solver]. }
      rewrite Ef in Hin. by apply not_elem_of_nil in Hin.
    - left. right. assert (g ∈ filter (λ f, is_ok (feed_result f) = true) (f :: fs)) as Hg
        by (rewrite Ef; set_solver). apply list_elem_of_filter in Hg as [??]. eauto. }
  2: { rewrite Hf, He in E. by simplify_eq. }
  destruct (storeAggregate _ _ _ _ _ _ _) as [[u|e] d1] eqn:Es; apply storeAggregate_entries in Es;
    repeat case_match; simplify_eq; try done;
    (split; [done|]); destruct Es as [id Es], H1 as [Hnd Hs]; by exists id, (ag_out st).
Qed.

Lemma StoreDomains_entries now sid sname cat domains d r d' :
  StoreDomains hash now sid sname cat domains d = (r, d') →
  match r with
  | Ok n => stored_names sid cat (names_of domains) d d' n
  | Err _ => d' = d
  end.
Proof.
  unfold StoreDomains. destruct (dedup_fold_spec domains (∅, [])) as [[Hnd H1] H2]; [split; [constructor|done]|].
  destruct (foldl dedup_step _ domains) as [seen out]. simpl in *.
  destruct (storeAggregate _ _ _ _ _ _ _) as [[u|e] d1] eqn:Es; apply storeAggregate_entries in Es; intros [= <- <-]; [|done].
  destruct Es as [id Es]. exists id, out. split; [done|]. split; [set_solver|done].
Qed.

(** [AggregateFeeds] stores, on success, exactly the distinct normalised names
    of the feeds that could be fetched and parsed, on top of what was stored before,
    and returns their number; it fails when no feed could be read (or the store
    fails), and then the stored lists are those before the call. *)
Theorem AggregateFeeds_spec now sid sname cat feeds d r d' :
  AggregateFeeds hash now sid sname cat feeds d = (r, d') →
  match r with
  | Ok n => n = Z.of_nat (size (names_of (feeds ≫= feed_entries))) ∧
      (feeds = [] ∨ ∃ f, f ∈ feeds ∧ is_ok (feed_result f) = true) ∧
      ∀ name, listed d' name ↔ listed d name ∨
        ∃ x, x ∈ names_of (feeds ≫= feed_entries) ∧ x ∈ parent_candidates (repo_normalize name)
  | Err _ => d' = d
  end.
Proof.
  intros E%AggregateFeeds_entries. destruct r as [n|]; [|done].
  destruct E as [Hf (id & out & Hnd & Hs & -> & E)]. rewrite <- Hs, size_list_to_set by done.
  split; [done|]. split; [done|]. intros name. rewrite (listed_app _ _ _ _ _ _ name E).
  by setoid_rewrite elem_of_list_to_set.
Qed.

(** The entries a refresh adds. *)
Lemma UpdateSource_entries now src etag d r d' :
  UpdateSource hash now src etag d = (r, d') →
  match r, Fetch (bs_URL src) etag with
  | Ok _, Ok (Body body _) =>
      if bs_Enabled src then
        ∃ parse ds id, parser_Get (bs_Format src) = Some parse ∧ parse body = Ok ds ∧
          db_entries d' = db_entries d ++ (with_snapshot id <$> (entry_of (bs_ID src) (bs_Category src) <$> ds))
      else d' = d
  | _, _ => d' = d
  end.
Proof.
  unfold UpdateSource. destruct (bs_Enabled src) eqn:En; simpl.
  2: { intros [= <- <-]. by destruct (Fetch _ _) as [[]|]. }
  destruct (Fetch _ _) as [[e1|body e1]|e1]; [by intros [= <- <-]| |by intros [= <- <-]].
  destruct (parser_Get _) as [parse|] eqn:Ep; [|by intros [= <- <-]].
  destruct (parse body) as [ds|] eqn:Ed; [|by intros [= <- <-]].
  destruct (SaveSnapshotWithEntries _ _ _ _ _) as [[id|e] d1] eqn:Es;
    apply SaveSnapshot_cases in Es; intros [= <- <-]; [|done]. by exists parse, ds, id.
Qed.

(** A refresh never takes a name off the blocklist: after a successful
    [UpdateSource] a name is blocked exactly when it was blocked before or the
    fetched body lists it or a parent of it; when the call fails, or the feed is
    unchanged or the source disabled, the stored lists are as before. *)
Theorem UpdateSource_accumulates now src etag d r d' :
  UpdateSource hash now src etag d = (r, d') →
  match r, Fetch (bs_URL src) etag with
  | Ok _, Ok (Body body _) =>
      if bs_Enabled src then
        ∃ parse ds, parser_Get (bs_Format src) = Some parse ∧ parse body = Ok ds ∧
          ∀ name, listed d' name ↔ listed d name ∨
            ∃ x, x ∈ ds ∧ x ∈ parent_candidates (repo_normalize name)
      else d' = d
  | _, _ => d' = d
  end.
Proof.
  intros E%UpdateSource_entries. destruct r as [u|e]; [|exact E].
  destruct (Fetch _ _) as [[]|]; [done| |done]. destruct (bs_Enabled src); [|done].
  destruct E as (parse & ds & id & Hp & Hd & E). exists parse, ds. split; [done|]. split; [done|].
  intros name. by eapply listed_app.
Qed.

(** What a fetch of a source without a known ETag yields: the names of the body, unless it
    fails or cannot be parsed. *)
Definition fetched_names (src : BlocklistSource) : option (list string) :=
  match Fetch (bs_URL src) "" with
  | Ok (Body body _) =>
      match parser_Get (bs_Format src) with
      | Some parse => match parse body with Ok ds => Some ds | Err _ => None end
      | None => None
      end
  | _ => None
  end.

(** A refresh of an enabled source adds exactly those names. *)
Lemma UpdateSource_adds now src d : saves_succeed → bs_Enabled src = true →
  let d' := (UpdateSource hash now src "" d).2 in
  match fetched_names src with
  | Some ds => ∃ id, db_entries d' = db_entries d ++ (with_snapshot id <$> (entry_of (bs_ID src) (bs_Category src) <$> ds))
  | None => d' = d
  end.
Proof.
  intros Hs En d'. subst d'. unfold UpdateSource, fetched_names. rewrite En. simpl.
  destruct (Fetch _ _) as [[e1|body e1]|e1]; [done| |done].
  destruct (parser_Get _) as [parse|]; [|done]. destruct (parse body) as [ds|]; [|done].
  pose proof (Hs now (with_etag src e1) (hash body) (entry_of (bs_ID src) (bs_Category src) <$> ds) d) as Hok.
  destruct (SaveSnapshotWithEntries _ _ _ _ _) as [[id|e] d1] eqn:Es; [|done].
  apply SaveSnapshot_cases in Es. by exists id.
Qed.

(** An empty store is seeded. *)
Lemma SeedIfEmpty_first now raw d ds : saves_succeed → db_snapshots d = [] → is_ok (CountSnapshots d) = true →
  HostsParser_Parse raw = Ok ds →
  ∃ d' id, SeedIfEmpty hash now raw d = (Ok true, d') ∧
    db_entries d' = db_entries d ++ (with_snapshot id <$> (entry_of bundle_SourceID "default" <$> ds)).
Proof.
  intros Hs He Hc Hp. unfold SeedIfEmpty. destruct (CountSnapshots d) as [n|] eqn:En; [|done].
  unfold CountSnapshots in En. apply count_snapshots_law in En. rewrite He in En. subst n. simpl. rewrite Hp.
  match goal with |- context [SaveSnapshotWithEntries ?a ?b ?c ?e ?f] => pose proof (Hs a b c e f) as Hok end.
  destruct (SaveSnapshotWithEntries _ _ _ _ _) as [[id|e] d1] eqn:Es; [|done].
  apply SaveSnapshot_cases in Es. by exists d1, id.
Qed.

Lemma SeedIfEmpty_keeps now raw d r d' :
  SeedIfEmpty hash now raw d = (r, d') → db_snapshots d ≠ [] → d' = d.
Proof.
  unfold SeedIfEmpty, CountSnapshots. destruct (sql_count_snapshots d) as [n|] eqn:E; [|congruence].
  apply count_snapshots_law in E as ->. intros H Hne.
  destruct (db_snapshots d); [done|]. simpl in H. congruence.
Qed.
End FeedLemmas.

(** ** Reading back a list of names *)

(** The bytes of a plain name: no white space, no comment or wildcard mark, no path
    separator, no upper-case letter. *)
Definition name_byte (c : ascii) : bool :=
  is_lower_byte c || is_digit_byte c || (ord c =? 45) || (ord c =? 46) || (ord c =? 95).
Definition plain_name (s : string) : bool :=
  string_forallb name_byte s && negb (bool_decide (s = ""%string)) && negb (HasSuffix s ".")
  && (len s <? domainsMaxToken).
Lemma name_byte_cases c : name_byte c = true →
  (97 ≤ ord c ≤ 122 ∨ 48 ≤ ord c ≤ 57 ∨ ord c = 45 ∨ ord c = 46 ∨ ord c = 95).
Proof.
  unfold name_byte, is_lower_byte, is_digit_byte. intros H.
  repeat apply orb_true_iff in H as [H|H]; boolp; lia.
Qed.

Lemma name_byte_graph c : name_byte c = true → graph_byte c = true.
Proof. intros H%name_byte_cases. unfold graph_byte. apply andb_true_iff; rewrite !Z.leb_le; lia. Qed.
Lemma name_byte_no_newline c : name_byte c = true → no_newline c = true.
Proof.
  intros H%name_byte_cases. unfold no_newline. destruct (Ascii.eqb_spec c newline) as [->|_]; [|done].
  exfalso. clear - H. revert H. vm_compute. intuition congruence.
Qed.

Lemma TrimSpace_name s : string_forallb name_byte s = true → TrimSpace s = s.
Proof.
  intros H. apply TrimSpace_trimmed. destruct (decide (s = ""%string)) as [->|Hs]; [done|].
  apply word_trimmed. unfold word. rewrite bool_decide_eq_false_2 by done.
  by rewrite (forallb_impl _ _ _ name_byte_graph H).
Qed.

Lemma first_field_name s : string_forallb name_byte s = true → first_field s = s.
Proof.
  induction s as [|c s IH]; simpl; [done|]. intros [Hc%name_byte_cases Hs]%andb_true_iff.
  rewrite IH by done. rewrite (proj2 (Z.eqb_neq _ 32)), (proj2 (Z.eqb_neq _ 9)) by lia. done.
Qed.

Lemma HasPrefix_name s c p :
  string_forallb name_byte s = true → name_byte c = false → HasPrefix s (String c p) = false.
Proof.
  unfold HasPrefix. destruct s as [|d s]; simpl; [done|]. intros [Hd _]%andb_true_iff Hc.
  destruct (ascii_dec c d) as [->|]; [congruence|done].
Qed.

Section ParseNames.
Context `{U : GoUnicode}.

Lemma ToLower_name s : string_forallb name_byte s = true → ToLower s = s.
Proof.
  intros H. unfold ToLower. assert (is_ascii s = true ∧ string_map lower_byte s = s) as [-> ->]; [|done].
  unfold is_ascii. induction s as [|c s IH]; simpl in *; [done|].
  apply andb_true_iff in H as [Hc%name_byte_cases Hs]. destruct (IH Hs) as [-> ->].
  unfold is_ascii_byte, lower_byte, is_upper_byte. rewrite (proj2 (Z.ltb_lt _ _)) by lia.
  destruct (Z.leb_spec 65 (ord c)), (Z.leb_spec (ord c) 90); simpl; split; done || lia.
Qed.

Lemma name_byte_separator c : name_byte c = true → IndexByte not_domain_chars c = None.
Proof.
  intros Hc%name_byte_cases. unfold not_domain_chars. cbn [IndexByte].
  repeat (match goal with |- context [Ascii.eqb ?a c] =>
    destruct (Ascii.eqb_spec a c) as [<-|_];
    [exfalso; clear - Hc; revert Hc; vm_compute; intuition congruence|] end).
  done.
Qed.

Lemma name_no_separator s : string_forallb name_byte s = true → ContainsAny s not_domain_chars = false.
Proof.
  intros H. unfold ContainsAny, string_existsb. apply negb_false_iff.
  induction s as [|c s IH]; [done|]. cbn [string_forallb] in *. apply andb_true_iff in H as [Hc Hs].
  apply andb_true_iff. split; [|auto]. apply negb_true_iff, bool_decide_eq_false.
  rewrite name_byte_separator by done. by intros [? ?].
Qed.

Lemma domains_line_name s : plain_name s = true → domains_line s = Some s.
Proof.
  unfold plain_name. intros H. boolp. unfold domains_line. rewrite TrimSpace_name by done.
  rewrite bool_decide_eq_false_2 by done.
  rewrite !HasPrefix_name by (done || reflexivity). simpl.
  rewrite first_field_name by done. unfold TrimPrefix. rewrite HasPrefix_name by (done || reflexivity).
  unfold TrimSuffix. rewrite H1. rewrite ToLower_name by done.
  rewrite bool_decide_eq_false_2 by done. by rewrite name_no_separator.
Qed.

(** A list of plain lower-case names written one per line is read back as it is
    by the "domains" parser. *)
Theorem DomainsParser_roundtrip names :
  Forall (λ s, plain_name s = true) names → DomainsParser_Parse (unlines names) = Ok names.
Proof.
  intros H. unfold DomainsParser_Parse. rewrite scan_unlines.
  2: { eapply Forall_impl; [exact H|]. intros s Hs. unfold plain_name in Hs. boolp.
       split; [by eapply forallb_impl; [apply name_byte_no_newline|]|]. split; [|done].
       intros E. eapply last_byte_forallb in E; [|done]. by vm_compute in E. }
  f_equal. induction H as [|s names Hs _ IH]; [done|]. csimpl.
  rewrite (domains_line_name s Hs). by rewrite IH.
Qed.
End ParseNames.

(** ** A database of lists, for concrete runs *)

Record tables := { t_entries : list BlocklistEntry; t_snapshots : list BlocklistSnapshot; t_sources : list BlocklistSource }.
Definition list_db : BlocklistDb := {|
  db := tables; db_entries := t_entries; db_snapshots := t_snapshots; db_sources := t_sources;
  sql_count_entries_in := λ l d, Ok (Z.of_nat (length (filter (λ e, en_Domain e ∈ l) (t_entries d))));
  sql_count_snapshots := λ d, Ok (Z.of_nat (length (t_snapshots d)));
  sql_create_snapshot := λ s d,
    let id := Z.of_nat (length (t_snapshots d)) + 1 in
    Ok (id, {| t_entries := t_entries d; t_sources := t_sources d;
               t_snapshots := t_snapshots d ++ [{| sn_ID := id; sn_SourceID := sn_SourceID s;
                 sn_CreatedAt := sn_CreatedAt s; sn_Size := sn_Size s; sn_Checksum := sn_Checksum s |}] |});
  sql_create_entry := λ e d, Ok {| t_entries := t_entries d ++ [e]; t_snapshots := t_snapshots d; t_sources := t_sources d |};
  sql_save_source := λ s d, Ok {| t_entries := t_entries d; t_snapshots := t_snapshots d;
    t_sources := s :: filter (λ s', bs_ID s' ≠ bs_ID s) (t_sources d) |};
  sql_delete_entries := λ id d, Ok {| t_entries := filter (λ e, en_SourceID e ≠ id) (t_entries d);
    t_snapshots := t_snapshots d; t_sources := t_sources d |};
  sql_delete_snapshots := λ id d, Ok {| t_entries := t_entries d;
    t_snapshots := filter (λ s, sn_SourceID s ≠ id) (t_snapshots d); t_sources := t_sources d |};
  sql_delete_source := λ id d, Ok (Z.of_nat (length (filter (λ s, bs_ID s = id) (t_sources d))),
    {| t_entries := t_entries d; t_snapshots := t_snapshots d;
       t_sources := filter (λ s, bs_ID s ≠ id) (t_sources d) |});
  sql_commit := λ d, Ok d;
  sql_list_sources := λ d, Ok (t_sources d);
  sql_get_source := λ id d, match filter (λ s, bs_ID s = id) (t_sources d) with s :: _ => Ok s | [] => Err "record not found"%string end;
  sql_create_source := λ s d,
    if bool_decide (bs_ID s ∈ bs_ID <$> t_sources d) then Err "UNIQUE constraint failed"%string
    else Ok {| t_entries := t_entries d; t_snapshots := t_snapshots d; t_sources := s :: t_sources d |};
  sql_upsert_source := λ s f d, Ok {| t_entries := t_entries d; t_snapshots := t_snapshots d;
    t_sources := if bool_decide (bs_ID s ∈ bs_ID <$> t_sources d)
                 then (λ x, if bool_decide (bs_ID x = bs_ID s) then f x else x) <$> t_sources d
                 else s :: t_sources d |};
  sql_count_source_entries := λ id d, Ok (Z.of_nat (length (entries_of id (t_entries d))));
  sql_group_counts := λ d, Ok (list_to_map ((λ id, (id, Z.of_nat (length (entries_of id (t_entries d))))) <$>
                                            (en_SourceID <$> t_entries d)));
  sql_categorised_entries := λ l d, Ok (filter (λ e, en_Domain e ∈ l ∧ en_Category e ≠ ""%string) (t_entries d));
|}.

Lemma list_db_group_counts d id :
  default 0 ((list_to_map ((λ id, (id, Z.of_nat (length (entries_of id (t_entries d))))) <$>
    (en_SourceID <$> t_entries d)) : gmap string Z) !! id) = Z.of_nat (length (entries_of id (t_entries d))).
Proof.
  set (count := λ id, Z.of_nat (length (entries_of id (t_entries d)))).
  destruct (_ !! id) as [n|] eqn:E.
  - apply elem_of_list_to_map_2, list_elem_of_fmap in E as (id' & E & _). by injection E as -> ->.
  - apply not_elem_of_list_to_map_2 in E. simpl. unfold entries_of.
    destruct (filter _ _) as [|e l] eqn:Ef; [done|]. exfalso. apply E.
    assert (e ∈ filter (λ e, en_SourceID e = id) (t_entries d)) as [<- He]%list_elem_of_filter by (rewrite Ef; set_solver).
    rewrite <- list_fmap_compose. apply list_elem_of_fmap. exists (en_SourceID e). split; [done|].
    by apply list_elem_of_fmap_2.
Qed.

Lemma list_db_laws : BlocklistDbLaws list_db.
Proof.
  split; simpl; intros; simplify_eq/=; try done.
  - destruct (filter _ _) as [|s' l] eqn:Ef; simplify_eq.
    assert (s ∈ filter (λ s, bs_ID s = id) (t_sources d)) as Hs by (rewrite Ef; set_solver).
    by apply list_elem_of_filter in Hs as [? ?].
  - case_bool_decide; by simplify_eq/=.
  - apply list_db_group_counts.
Qed.

Lemma list_db_saves : saves_succeed (D := list_db).
Proof.
  assert (∀ id es (d : tables), ∃ d', create_entries (D := list_db) id es d = Ok d') as He.
  { intros id es. induction es as [|e es IH]; intros d; [by eexists|]. apply IH. }
  intros now src ck es d. unfold SaveSnapshotWithEntries. cbn [sql_create_snapshot list_db].
  match goal with |- context [create_entries ?i ?l ?t] => destruct (He i l t) as [d' E] end. by rewrite E.
Qed.

Definition ex_feed_body : string := "evil.com" +:+ utf8 [10] +:+ "bad.net" +:+ utf8 [10] +:+ "EVIL.com.".
Definition ex_fetcher : Fetcher := {| Fetch := λ url _,
  if bool_decide (url = "u"%string) then Ok (Body ex_feed_body "v2") else Err "unreachable"%string |}.
Definition ex_row (dom : string) : BlocklistEntry :=
  {| en_SnapshotID := 0; en_Domain := dom; en_SourceID := "s"; en_Category := "" |}.
Definition ex_db : tables := {| t_entries := [ex_row "old.org"]; t_snapshots := []; t_sources := [] |}.
Definition ex_source : BlocklistSource := {|
  bs_ID := "s"; bs_Name := "S"; bs_URL := "u"; bs_Format := "domains"; bs_Category := ""; bs_Enabled := true;
  bs_Priority := 0; bs_ETag := "v1" |}.

Lemma IsBlocked_iff_witness :
  true = true ↔ ∃ e, e ∈ t_entries ex_db ∧
    enclosing (@repo_normalize ascii_unicode "WWW.old.org.") (en_Domain e).
Proof. exact (@IsBlocked_iff ascii_unicode list_db list_db_laws "WWW.old.org." ex_db true ltac:(vm_compute; reflexivity)). Defined.

Definition ex_updated : tables :=
  (@UpdateSource ascii_unicode list_db ex_fetcher id 7 ex_source "v1" ex_db).2.

Lemma UpdateSource_accumulates_witness :
  ∃ parse ds, @parser_Get ascii_unicode "domains" = Some parse ∧ parse ex_feed_body = Ok ds ∧
    ∀ name, @listed ascii_unicode list_db ex_updated name ↔ @listed ascii_unicode list_db ex_db name ∨
      ∃ x, x ∈ ds ∧ x ∈ parent_candidates (@repo_normalize ascii_unicode name).
Proof.
  exact (@UpdateSource_accumulates ascii_unicode list_db list_db_laws ex_fetcher id 7 ex_source "v1"
    ex_db (Ok tt) ex_updated ltac:(vm_compute; reflexivity)).
Defined.

Definition ex_feeds : list Feed :=
  [{| fd_Name := "a"; fd_URL := "u"; fd_Format := "domains" |};
   {| fd_Name := "b"; fd_URL := "dead"; fd_Format := "hosts" |}].
Definition ex_aggregated : tables :=
  (@AggregateFeeds ascii_unicode list_db ex_fetcher id 7 "cat" "Cat" "ads" ex_feeds ex_db).2.

Lemma AggregateFeeds_spec_witness :
  2 = Z.of_nat (size (@names_of ascii_unicode (ex_feeds ≫= @feed_entries ascii_unicode ex_fetcher))).
Proof.
  exact (proj1 (@AggregateFeeds_spec ascii_unicode list_db list_db_laws ex_fetcher id 7 "cat" "Cat" "ads"
    ex_feeds ex_db (Ok 2) ex_aggregated ltac:(vm_compute; reflexivity))).
Defined.

Lemma DomainsParser_roundtrip_witness :
  @DomainsParser_Parse ascii_unicode (unlines ["evil.com"; "a-b.example"]%string)
  = Ok ["evil.com"; "a-b.example"]%string.
Proof.
  apply (@DomainsParser_roundtrip ascii_unicode). apply (bool_decide_unpack _). vm_compute. exact I.
Defined.
