(* ===== verification/BlocklistHealth.v ===== *)
(** * The health of the stored lists

    The queries of [internal/storage/repositories/blocklist.go] that nothing else uses,
    the checker of [internal/blocklist/health.go] over them, and what a refresh means for
    the health of a source. *)
From S2P Require Import Prelude GoStrings GoText Blocklist.

(** ORDER BY created_at desc, id desc. *)
Definition newer (a b : BlocklistSnapshot) : Prop :=
  sn_CreatedAt b < sn_CreatedAt a ∨ sn_CreatedAt a = sn_CreatedAt b ∧ sn_ID b ≤ sn_ID a.

(** The statements, with the limit of a query that has one. *)
Class SnapshotDb (D : BlocklistDb) := {
  sql_source_snapshots : string → option nat → db → result string (list BlocklistSnapshot);
  sql_pluck_domains : db → result string (list string);
}.
Class SnapshotDbLaws {D : BlocklistDb} (S : SnapshotDb D) : Prop := {
  source_snapshots_law : ∀ id limit d l, sql_source_snapshots id limit d = Ok l →
    ∃ all, all ≡ₚ filter (λ s, sn_SourceID s = id) (db_snapshots d) ∧ StronglySorted newer all ∧
      l = match limit with Some n => take n all | None => all end;
  pluck_domains_law : ∀ d l, sql_pluck_domains d = Ok l → l ≡ₚ en_Domain <$> db_entries d;
}.

Section Health.
Context `{U : GoUnicode} `{F : Fetcher} `{D : BlocklistDb} {S : SnapshotDb D} (hash : string → string).

(** ** repositories/blocklist.go, and [List] of engine.go *)

Definition GetAll (d : db) : result string (list string) := sql_pluck_domains d.
Definition engine_List (d : db) : result string (list string) := let? hosts := GetAll d in Ok hosts.
Definition GetRecentSnapshots (sourceID : string) (limit : Z) (d : db) : result string (list BlocklistSnapshot) :=
  sql_source_snapshots sourceID (if 0 <? limit then Some (Z.to_nat limit) else None) d.

(** ** health.go *)

Record HealthChecker := { hk_thresholds : HealthThresholds; hk_statuses : gmap string HealthStatus }.
Definition NewHealthChecker (t : HealthThresholds) : HealthChecker := {| hk_thresholds := t; hk_statuses := ∅ |}.
(** [CheckOnce] of a checker whose data source is the repository. *)
Definition checker_CheckOnce (now : Z) (d : db) (h : HealthChecker) : option (list HealthStatus) * HealthChecker :=
  let '(res, m) := CheckOnce (sql_list_sources d) (λ id, GetRecentSnapshots id 2 d) now (hk_thresholds h) (hk_statuses h) in
  (res, {| hk_thresholds := hk_thresholds h; hk_statuses := m |}).
(** [Run]: one check, and one more at every tick that comes before the context ends. *)
Definition checker_Run (interval : Z) (start : Z * db) (ticks : list (Z * db)) (h : HealthChecker) : HealthChecker :=
  let check h p := (checker_CheckOnce p.1 p.2 h).2 in
  let h := check h start in
  if interval <=? 0 then h else foldl check h ticks.
Definition Statuses (h : HealthChecker) : list HealthStatus := (map_to_list (hk_statuses h)).*2.

Context `{L : !BlocklistDbLaws D} `{LS : !SnapshotDbLaws S}.

(** ** What a refresh stores *)

Lemma create_entries_snapshots id es tx tx' : create_entries id es tx = Ok tx' → db_snapshots tx' = db_snapshots tx.
Proof.
  revert tx. induction es as [|e es IH]; intros tx; csimpl; [by intros [= ->]|].
  destruct (sql_create_entry _ tx) as [tx1|] eqn:E; [|done]. intros H%IH. apply create_entry_law in E as (_ & E & _). congruence.
Qed.
Lemma SaveSnapshot_snapshot now src ck es d id d' : SaveSnapshotWithEntries now src ck es d = (Ok id, d') →
  ∃ s, db_snapshots d' = db_snapshots d ++ [s] ∧ sn_SourceID s = bs_ID src ∧ sn_CreatedAt s = now ∧ sn_Size s = Z.of_nat (length es).
Proof.
  unfold SaveSnapshotWithEntries. destruct (sql_create_snapshot _ d) as [[id' tx]|] eqn:E1; [|done].
  destruct (create_entries id' es tx) as [tx1|] eqn:E2; [|done].
  destruct (sql_save_source src tx1) as [tx2|] eqn:E3; [|done].
  destruct (sql_commit tx2) as [tx3|] eqn:E4; [|done]. intros [= <- <-].
  apply create_snapshot_law in E1 as (_ & _ & E1). apply create_entries_snapshots in E2.
  apply save_source_law in E3 as (_ & E3 & _). apply commit_law in E4 as (_ & E4 & _).
  eexists. split; [by rewrite E4, E3, E2, E1|done].
Qed.

(** What a refresh that fetched a body stores: a snapshot of as many names as it parsed. *)
Lemma UpdateSource_snapshot now src etag body e d d' :
  bs_Enabled src = true → Fetch (bs_URL src) etag = Ok (Body body e) → UpdateSource hash now src etag d = (Ok tt, d') →
  ∃ parse ds s, parser_Get (bs_Format src) = Some parse ∧ parse body = Ok ds ∧ db_snapshots d' = db_snapshots d ++ [s] ∧
    sn_SourceID s = bs_ID src ∧ sn_CreatedAt s = now ∧ sn_Size s = Z.of_nat (length ds).
Proof.
  intros He Hf. unfold UpdateSource. rewrite He, Hf. cbn [negb]. destruct (parser_Get _) as [parse|]; [|done].
  destruct (parse body) as [ds|] eqn:Ed; [|done]. destruct (SaveSnapshotWithEntries _ _ _ _ _) as [[id|] d1] eqn:Es; [|done].
  intros [= <-]. apply SaveSnapshot_snapshot in Es as (s & H1 & H2 & H3 & H4). exists parse, ds, s. rewrite length_fmap in H4. done.
Qed.

(** The newest of a source's snapshots comes first. *)
Lemma newest_first id limit d l s older : GetRecentSnapshots id limit d = Ok l → 0 < limit →
  filter (λ s, sn_SourceID s = id) (db_snapshots d) = older ++ [s] → Forall (λ o, sn_CreatedAt o < sn_CreatedAt s) older →
  ∃ rest, l = s :: rest.
Proof.
  unfold GetRecentSnapshots. intros Hl Hlim Hs Ho. rewrite (proj2 (Z.ltb_lt 0 limit)) in Hl by done.
  apply source_snapshots_law in Hl as (all & Hp & Hsort & ->). rewrite Hs in Hp.
  destruct all as [|a all]; [apply Permutation_nil in Hp; by destruct older|].
  destruct (Z.to_nat limit) as [|n] eqn:En; [lia|]. cbn [take]. assert (a = s) as ->; [|by eexists].
  assert (a ∈ older ++ [s]) as Ha by (rewrite <- Hp; by left).
  apply elem_of_app in Ha as [Ha|Ha%list_elem_of_singleton]; [|done]. exfalso.
  rewrite Forall_forall in Ho. pose proof (Ho a Ha) as Hlt.
  assert (s ∈ a :: all) as [->|Hin]%elem_of_cons by (rewrite Hp; set_solver); [lia|].
  inversion Hsort as [|x y _ Hall]; subst. rewrite Forall_forall in Hall. destruct (Hall s Hin) as [H|[H _]]; lia.
Qed.

(** ** The health of a source after a refresh *)

(** Right after a refresh that fetched a body, and until the staleness threshold has
    passed since, the checker never calls the source stale, and calls it dead exactly if
    the body held no name. *)
Theorem refreshed_source_status now src etag body e d d' t th st :
  bs_Enabled src = true → Fetch (bs_URL src) etag = Ok (Body body e) → UpdateSource hash now src etag d = (Ok tt, d') →
  Forall (λ s, sn_CreatedAt s < now) (filter (λ s, sn_SourceID s = bs_ID src) (db_snapshots d)) →
  is_ok (GetRecentSnapshots (bs_ID src) 2 d') = true → time_sub t now ≤ th_StaleAfter th →
  check_source (λ id, GetRecentSnapshots id 2 d') t th src = Some st →
  hs_SourceID st = bs_ID src ∧ hs_Reason st ≠ ReasonStale ∧ (hs_OK st = true ↔ hs_Reason st = ReasonOK) ∧
  ∃ parse ds, parser_Get (bs_Format src) = Some parse ∧ parse body = Ok ds ∧ (hs_Reason st = ReasonNoData ↔ ds = []).
Proof.
  intros He Hf Hu Hold Hok Ht. destruct (UpdateSource_snapshot _ _ _ _ _ _ _ He Hf Hu) as (parse & ds & s & Hp & Hds & Hs & Hid & Hc & Hsz).
  unfold check_source. rewrite He. cbn [negb]. destruct (GetRecentSnapshots _ _ _) as [l|] eqn:El; [|done].
  destruct (newest_first (bs_ID src) 2 d' l s (filter (λ s, sn_SourceID s = bs_ID src) (db_snapshots d)) El) as [rest ->];
    [done|by rewrite Hs, filter_app, filter_cons_True|by rewrite Hc|]. cbn [lookup list_lookup]. intros [= <-].
  unfold evaluate. rewrite Hsz, Hc, (proj2 (Z.ltb_ge _ _) Ht), andb_false_r.
  destruct (Z.leb_spec (Z.of_nat (length ds)) 0) as [Hz|Hz]; cbn [hs_SourceID hs_Reason hs_OK].
  - split; [done|]. split; [done|]. split; [done|]. exists parse, ds. split; [done|]. split; [done|].
    split; [|done]. intros _. by apply length_zero_iff_nil; lia.
  - assert (ds ≠ []) as Hne by (intros ->; simpl in Hz; lia).
    destruct (rest !! 0%nat) as [p|]; [destruct (_ && _)|]; cbn [hs_SourceID hs_Reason hs_OK];
      (split; [done|]; split; [done|]; split; [done|]; exists parse, ds; split; [done|]; split; [done|]; done).
Qed.

(** A source whose server keeps answering that nothing has changed is refreshed with success
    and stores nothing: once its last snapshot is old enough it is called stale. *)
Lemma unchanged_goes_stale now src etag e d snap th :
  bs_Enabled src = true → Fetch (bs_URL src) etag = Ok (NotModified e) →
  GetRecentSnapshots (bs_ID src) 2 d = Ok [snap] → 0 < sn_Size snap →
  0 < th_StaleAfter th < time_sub now (sn_CreatedAt snap) →
  UpdateSource hash now src etag d = (Ok tt, d) ∧
  hs_Reason <$> check_source (λ id, GetRecentSnapshots id 2 d) now th src = Some ReasonStale.
Proof.
  intros He Hf Hl Hs Ht. split; [unfold UpdateSource; by rewrite He, Hf|].
  unfold check_source. rewrite He, Hl. cbn. unfold evaluate. rewrite (proj2 (Z.leb_gt _ _) Hs).
  rewrite !(proj2 (Z.ltb_lt _ _)) by lia. done.
Qed.
End Health.

(** ** Concrete runs *)

#[export] Instance newer_dec : RelDecision newer.
Proof. intros a b. unfold newer. apply _. Defined.
#[export] Instance newer_trans : Transitive newer.
Proof. intros a b c. unfold newer. lia. Qed.
#[export] Instance newer_total : Total newer.
Proof. intros a b. unfold newer. lia. Qed.

Definition list_snapshots : SnapshotDb list_db := {|
  sql_source_snapshots := λ id limit (d : @db list_db),
    let l := merge_sort newer (filter (λ s, sn_SourceID s = id) (t_snapshots d)) in
    Ok (match limit with Some n => take n l | None => l end);
  sql_pluck_domains := λ d : @db list_db, Ok (en_Domain <$> t_entries d) |}.
Lemma list_snapshots_laws : SnapshotDbLaws list_snapshots.
Proof.
  split; simpl.
  - intros id limit d l [= <-]. eexists. split; [apply (merge_sort_Permutation newer)|]. split; [apply (StronglySorted_merge_sort newer)|done].
  - intros d l [= <-]. done.
Qed.

Module HealthRuns.
#[local] Instance health_unicode : GoUnicode := ascii_unicode.
#[local] Instance health_db : BlocklistDb := list_db.
#[local] Instance health_snapshots : SnapshotDb list_db := list_snapshots.
(** A server that has one list and then says that it has not changed. *)
#[local] Instance health_fetcher : Fetcher := {| Fetch := λ _ etag,
  if bool_decide (etag = "v1"%string) then Ok (NotModified "v1") else Ok (Body (unlines ["evil.com"; "bad.net"]%string) "v1") |}.

Definition source (etag : string) : BlocklistSource := with_etag ex_source etag.
Definition empty_db : tables := {| t_entries := []; t_snapshots := []; t_sources := [source ""] |}.
Definition fetched_db : tables := (UpdateSource id 1 (source "") "" empty_db).2.

Lemma refreshed_source_status_witness :
  ∃ st, check_source (λ id, GetRecentSnapshots id 2 fetched_db) (144 * hour) DefaultHealthThresholds (source "") = Some st ∧
    hs_Reason st ≠ ReasonStale.
Proof.
  eexists. split; [reflexivity|].
  refine (proj1 (proj2 (@refreshed_source_status ascii_unicode health_fetcher list_db list_snapshots id list_db_laws list_snapshots_laws
    1 (source "") "" _ "v1" empty_db fetched_db (144 * hour) DefaultHealthThresholds _ _ _ _ _ _ _ _))).
  all: try (vm_compute; reflexivity).
  - constructor.
  - vm_compute. discriminate.
Defined.

(** A week after the only snapshot, every refresh in between having succeeded, the checker
    calls the source stale. *)
Example stale_ex :
  (UpdateSource id (144 * hour) (source "v1") "v1" fetched_db).1 = Ok tt ∧
  hs_Reason <$> Statuses (checker_Run hour (24 * hour, fetched_db)
    [(192 * hour, (UpdateSource id (144 * hour) (source "v1") "v1" fetched_db).2)] (NewHealthChecker DefaultHealthThresholds)) = [ReasonStale].
Proof. vm_compute. repeat split. Qed.
End HealthRuns.
