(* ===== verification/Nrd.v ===== *)
(** * Newly registered domains

    [internal/nrd]: set.go and checker.go. The feed is fetched through the
    [Fetcher] interface and read by the blocklist parsers; a refresh returns what it asked
    the fetcher for. *)
From S2P Require Import Prelude GoStrings Blocklist.

Section Nrd.
Context `{U : GoUnicode}.

(** ** set.go *)

Definition nrd_normalize (d : string) : string := TrimSuffix (ToLower (TrimSpace d)) ".".

(** A [*Set]; nil is [None]. *)
Abbreviation nrd_set := (gset string).

Definition add_domain (m : nrd_set) (d : string) : nrd_set :=
  let d := nrd_normalize d in if bool_decide (d = ""%string) then m else {[d]} ∪ m.
Definition NewSet (domains : list string) : nrd_set := foldl add_domain ∅ domains.

Definition Set_Len (s : option nrd_set) : Z :=
  match s with None => 0 | Some s => Z.of_nat (size s) end.

Definition Set_Contains (s : option nrd_set) (domain : string) : bool :=
  match s with
  | None => false
  | Some s =>
      if (size s =? 0)%nat then false else
      let d := nrd_normalize domain in
      if bool_decide (d = ""%string) then false
      else existsb (λ c, bool_decide (c ∈ s)) (parent_candidates d)
  end.

(** ** checker.go *)

Record NrdConfig := { nc_FeedURL : string; nc_Block : bool; nc_RefreshInterval : Z; nc_Format : string }.

Record Checker := { ck_cfg : NrdConfig; ck_set : nrd_set; ck_etag : option string }.

Definition defaultRefreshInterval : Z := 6 * hour.

Definition nrd_New (cfg : NrdConfig) : Checker := {|
  ck_cfg := {| nc_FeedURL := nc_FeedURL cfg; nc_Block := nc_Block cfg;
     nc_RefreshInterval := if nc_RefreshInterval cfg <=? 0 then defaultRefreshInterval else nc_RefreshInterval cfg;
     nc_Format := if bool_decide (nc_Format cfg = ""%string) then "domains" else nc_Format cfg |};
  ck_set := NewSet []; ck_etag := None |}.

Definition nrd_Enabled (c : option Checker) : bool :=
  match c with None => false | Some c => negb (bool_decide (nc_FeedURL (ck_cfg c) = ""%string)) end.
Definition nrd_BlockMode (c : option Checker) : bool :=
  match c with None => false | Some c => nc_Block (ck_cfg c) end.
Definition nrd_IsListed (c : option Checker) (domain : string) : bool :=
  match c with None => false | Some c => Set_Contains (Some (ck_set c)) domain end.

Definition nrd_load (data : string) (c : Checker) : result string Checker :=
  match parser_Get (nc_Format (ck_cfg c)) with
  | None => Err "nrd: no parser for format"%string
  | Some parse =>
      let? domains := parse data in
      Ok {| ck_cfg := ck_cfg c; ck_set := NewSet domains; ck_etag := ck_etag c |}
  end.

Context `{F : Fetcher}.

(** What the fetcher was asked for, the error, and the checker after the call. *)
Definition nrd_Refresh (c : Checker) : list (string * string) * option string * Checker :=
  if negb (nrd_Enabled (Some c)) then ([], None, c) else
  let knownETag := default ""%string (ck_etag c) in
  let url := nc_FeedURL (ck_cfg c) in
  let asked := [(url, knownETag)] in
  match Fetch url knownETag with
  | Err e => (asked, Some e, c)
  | Ok (NotModified _) => (asked, None, c)
  | Ok (Body body etag) =>
      match nrd_load body c with
      | Err e => (asked, Some e, c)
      | Ok c' => (asked, None, {| ck_cfg := ck_cfg c'; ck_set := ck_set c'; ck_etag := Some etag |})
      end
  end.

(** ** What the set holds *)

Lemma NewSet_acc ds m0 x :
  x ∈ foldl add_domain m0 ds ↔ x ∈ m0 ∨ x ≠ ""%string ∧ x ∈ nrd_normalize <$> ds.
Proof.
  revert m0. induction ds as [|d ds IH]; intros m0; csimpl.
  - rewrite elem_of_nil. tauto.
  - rewrite IH, elem_of_cons. unfold add_domain. case_bool_decide as E; [|rewrite elem_of_union, elem_of_singleton; naive_solver].
    rewrite E. naive_solver.
Qed.

Lemma elem_of_NewSet ds x : x ∈ NewSet ds ↔ x ≠ ""%string ∧ x ∈ nrd_normalize <$> ds.
Proof. unfold NewSet. rewrite NewSet_acc. set_solver. Qed.

Lemma enclosing_empty c : ¬ enclosing "" c.
Proof.
  intros (pre & suf & E & Hl & _). apply (f_equal length) in E. rewrite length_app in E. simpl in E. lia.
Qed.

Lemma Set_Contains_iff s domain :
  Set_Contains (Some s) domain = true ↔ ∃ c, c ∈ s ∧ enclosing (nrd_normalize domain) c.
Proof.
  unfold Set_Contains. destruct (Nat.eqb_spec (size s) 0) as [E|_].
  { apply size_empty_inv in E. split; [done|]. intros (c & Hc & _). set_solver. }
  case_bool_decide as E.
  { split; [done|]. intros (c & _ & Hc). rewrite E in Hc. by apply enclosing_empty in Hc. }
  rewrite existsb_elem. setoid_rewrite bool_decide_eq_true. setoid_rewrite parent_candidates_enclosing.
  naive_solver.
Qed.

Lemma IsListed_iff c domain :
  nrd_IsListed (Some c) domain = true ↔ ∃ x, x ∈ ck_set c ∧ enclosing (nrd_normalize domain) x.
Proof. apply Set_Contains_iff. Qed.

(** After a refresh a domain is listed exactly when the parsed feed holds it or
    a name enclosing it (both normalised); a refresh that fails, finds the feed
    unchanged or has no feed configured leaves the listing and the remembered ETag as
    they were. *)
Theorem Refresh_listing c asked err c' :
  nrd_Refresh c = (asked, err, c') →
  match err, Fetch (nc_FeedURL (ck_cfg c)) (default ""%string (ck_etag c)) with
  | None, Ok (Body body etag) =>
      if nrd_Enabled (Some c) then
        ck_etag c' = Some etag ∧
        ∃ parse ds, parser_Get (nc_Format (ck_cfg c)) = Some parse ∧ parse body = Ok ds ∧
          ∀ domain, nrd_IsListed (Some c') domain = true ↔
            ∃ x, x ∈ ds ∧ nrd_normalize x ≠ ""%string ∧
                 enclosing (nrd_normalize domain) (nrd_normalize x)
      else c' = c
  | _, _ => c' = c
  end.
Proof.
  unfold nrd_Refresh. destruct (nrd_Enabled (Some c)) eqn:En; simpl.
  2: { intros [= _ <- <-]. by destruct (Fetch _ _) as [[]|]. }
  destruct (Fetch _ _) as [[e|body e]|e]; [by intros [= _ <- <-]| |by intros [= _ <- <-]].
  unfold nrd_load. destruct (parser_Get _) as [parse|] eqn:Ep; [|by intros [= _ <- <-]].
  destruct (parse body) as [ds|] eqn:Ed; [|by intros [= _ <- <-]]. intros [= _ <- <-].
  split; [done|]. exists parse, ds. split; [done|]. split; [done|]. intros domain.
  etrans; [apply IsListed_iff|]. cbn [ck_set]. setoid_rewrite elem_of_NewSet.
  setoid_rewrite list_elem_of_fmap. naive_solver.
Qed.
End Nrd.

(** ** The loop *)

Section Run.
Context `{U : GoUnicode}.

(** [Run], until its context ends: a refresh at once and one per tick, each with what the
    network answers then. A failure is only logged. With it what was fetched, in order. *)
Definition nrd_loop (s : list (string * string) * Checker) (f : Fetcher) : list (string * string) * Checker :=
  let '(asked, _, c) := nrd_Refresh (F := f) s.2 in (s.1 ++ asked, c).
Definition nrd_Run (first : Fetcher) (ticks : list Fetcher) (c : Checker) : list (string * string) * Checker :=
  if negb (nrd_Enabled (Some c)) then ([], c)
  else foldl nrd_loop ([], c) (first :: ticks).

(** What a refresh stored: the names of a body that was fetched and parsed, or nothing. *)
Definition stored_by (f : Fetcher) (c : Checker) : option (list string) :=
  match Fetch (Fetcher := f) (nc_FeedURL (ck_cfg c)) (default ""%string (ck_etag c)), parser_Get (nc_Format (ck_cfg c)) with
  | Ok (Body body _), Some parse => match parse body with Ok ds => Some ds | Err _ => None end
  | _, _ => None
  end.

Lemma refresh_stores f c : nrd_Enabled (Some c) = true →
  let c' := (nrd_Refresh (F := f) c).2 in
  ck_cfg c' = ck_cfg c ∧ ck_set c' = match stored_by f c with Some ds => NewSet ds | None => ck_set c end.
Proof.
  intros He. unfold nrd_Refresh, stored_by. rewrite He. cbn [negb]. destruct (Fetch _ _) as [[e|body e]|e]; [done| |done].
  unfold nrd_load. destruct (parser_Get _) as [parse|]; [|done]. by destruct (parse body).
Qed.

Lemma nrd_loop_eq s f :
  nrd_Enabled (Some s.2) = true →
  nrd_loop s f = (s.1 ++ [(nc_FeedURL (ck_cfg s.2), default ""%string (ck_etag s.2))], (nrd_Refresh (F := f) s.2).2).
Proof.
  intros He. unfold nrd_loop, nrd_Refresh. rewrite He. cbn [negb]. destruct (Fetch _ _) as [[|]|]; [done| |done].
  by destruct (nrd_load _ _).
Qed.

Lemma run_stores fs : ∀ asked c, nrd_Enabled (Some c) = true →
  let c' := (foldl nrd_loop (asked, c) fs).2 in
  nrd_Enabled (Some c') = true ∧
  (ck_set c' = ck_set c ∨ ∃ f c1 ds, f ∈ fs ∧ ck_cfg c1 = ck_cfg c ∧ stored_by f c1 = Some ds ∧ ck_set c' = NewSet ds).
Proof.
  induction fs as [|f fs IH]; intros asked c He; [by split; [|left]|]. cbn [foldl]. rewrite nrd_loop_eq by done. cbn [fst snd].
  destruct (refresh_stores f c He) as [Hc Hs]. set (c1 := (nrd_Refresh c).2) in *.
  assert (nrd_Enabled (Some c1) = true) as He1 by (unfold nrd_Enabled in *; by rewrite Hc).
  destruct (IH (asked ++ [(nc_FeedURL (ck_cfg c), default ""%string (ck_etag c))]) c1 He1) as [IH1 IH2]. split; [exact IH1|]. destruct IH2 as [E|(g & c2 & ds & Hg & Hc2 & Hd & E)].
  - rewrite E, Hs. destruct (stored_by f c) as [ds|] eqn:Ed; [|by left]. right. exists f, c, ds. set_solver.
  - right. exists g, c2, ds. rewrite Hc2, Hc. set_solver.
Qed.

(** Whatever the network does, the set in force is always a whole feed: the names of some
    body that was fetched and parsed, or none. *)
Theorem Run_serves_a_feed first ticks cfg :
  let c := (nrd_Run first ticks (nrd_New cfg)).2 in
  (∀ domain, nrd_IsListed (Some c) domain = false) ∨
  ∃ f c1 ds, f ∈ first :: ticks ∧ nc_FeedURL (ck_cfg c1) = nc_FeedURL cfg ∧ nc_FeedURL cfg ≠ ""%string ∧
    stored_by f c1 = Some ds ∧
    ∀ domain, nrd_IsListed (Some c) domain = true ↔
      ∃ x, x ∈ ds ∧ nrd_normalize x ≠ ""%string ∧ enclosing (nrd_normalize domain) (nrd_normalize x).
Proof.
  assert (∀ domain c, ck_set c = NewSet [] → nrd_IsListed (Some c) domain = false) as Hempty.
  { intros domain c Hc. apply not_true_is_false. rewrite IsListed_iff, Hc. intros (x & Hx & _).
    apply elem_of_NewSet in Hx as [_ Hx]. by apply not_elem_of_nil in Hx. }
  unfold nrd_Run. destruct (nrd_Enabled _) eqn:He; cbn [negb]; [|left; by intros; apply Hempty].
  destruct (run_stores (first :: ticks) [] _ He) as [_ [E|(f & c1 & ds & Hf & Hc & Hd & E)]]; [left; intros; by apply Hempty|].
  right. exists f, c1, ds. rewrite Hc. unfold nrd_Enabled in He. apply negb_true_iff, bool_decide_eq_false in He.
  do 4 (split; [done|]). intros domain. rewrite IsListed_iff, E. setoid_rewrite elem_of_NewSet.
  setoid_rewrite list_elem_of_fmap. naive_solver.
Qed.

(** Whatever comes back, every fetch is of the configured feed, and there is none
    without one. *)
Lemma Run_asks first ticks cfg :
  Forall (λ q, q.1 = nc_FeedURL cfg ∧ q.1 ≠ ""%string) (nrd_Run first ticks (nrd_New cfg)).1.
Proof.
  unfold nrd_Run. destruct (nrd_Enabled _) eqn:He; cbn [negb]; [|constructor].
  enough (∀ fs s, nrd_Enabled (Some s.2) = true → nc_FeedURL (ck_cfg s.2) = nc_FeedURL cfg →
            Forall (λ q, q.1 = nc_FeedURL cfg ∧ q.1 ≠ ""%string) s.1 →
            Forall (λ q, q.1 = nc_FeedURL cfg ∧ q.1 ≠ ""%string) (foldl nrd_loop s fs).1) as H by (by apply H).
  clear He. induction fs as [|f fs IH]; intros s He Hu Hs; [done|]. cbn [foldl]. rewrite nrd_loop_eq by done.
  destruct (refresh_stores f _ He) as [Hc _]. apply IH; cbn [fst snd]; unfold nrd_Enabled in *; rewrite ?Hc; [done|done|].
  apply Forall_app. split; [done|]. constructor; [|done]. cbn. split; [done|].
  by apply negb_true_iff, bool_decide_eq_false in He.
Qed.
End Run.

Definition ex_nrd : Checker :=
  @nrd_New ascii_unicode {| nc_FeedURL := "u"; nc_Block := true; nc_RefreshInterval := 0; nc_Format := "" |}.

Definition ex_nrd_etag : Checker := {|
  ck_cfg := ck_cfg ex_nrd; ck_set := @NewSet ascii_unicode ["evil.com"; "bad.net"; "evil.com"]%string;
  ck_etag := Some "v2"%string |}.

Lemma Refresh_listing_witness :
  ck_etag ex_nrd_etag = Some "v2"%string ∧
  ∃ parse ds, @parser_Get ascii_unicode "domains" = Some parse ∧ parse ex_feed_body = Ok ds ∧
    ∀ domain, @nrd_IsListed ascii_unicode (Some ex_nrd_etag) domain = true ↔
      ∃ x, x ∈ ds ∧ @nrd_normalize ascii_unicode x ≠ ""%string ∧
           enclosing (@nrd_normalize ascii_unicode domain) (@nrd_normalize ascii_unicode x).
Proof.
  exact (@Refresh_listing ascii_unicode ex_fetcher ex_nrd [("u", "")%string] None ex_nrd_etag ltac:(vm_compute; reflexivity)).
Defined.
