(* ===== verification/GeoIp.v ===== *)
(** * ASN and country filtering of answers

    [internal/geoip]: geoip.go, where the database is the lookup function of the filter
    and an error of the lookup is [None], and maxmind.go, where the reader of the
    maxminddb library is what opening a path gives: a record for each address, or none. *)
From S2P Require Import Prelude GoStrings GoNet.

(** [uint] keys and values are 64-bit. *)
Record GeoDecision := {
  gd_Matched : bool; gd_Block : bool; gd_IP : string; gd_ASN : Z; gd_Country : string; gd_Reason : string;
}.
Definition no_geo : GeoDecision := {|
  gd_Matched := false; gd_Block := false; gd_IP := ""; gd_ASN := 0; gd_Country := ""; gd_Reason := "" |}.

Record GeoFilter := {
  gf_Lookup : IP → option (Z * string);
  gf_blockedASNs : gset Z;
  gf_blockedCountries : gset string;
  gf_block : bool;
}.

Section Geo.
Context `{U : GoUnicode}.

Definition add_country (m : gset string) (c : string) : gset string :=
  let c := ToUpper (TrimSpace c) in if bool_decide (c = ""%string) then m else {[c]} ∪ m.

Definition NewFilter (resolver : option (IP → option (Z * string))) (blockedASNs : list Z)
  (blockedCountries : list string) (block : bool) : option GeoFilter :=
  match resolver with
  | None => None
  | Some lookup =>
      let asns := list_to_set blockedASNs in
      let countries := foldl add_country ∅ blockedCountries in
      if (size asns =? 0)%nat && (size countries =? 0)%nat then None
      else Some {| gf_Lookup := lookup; gf_blockedASNs := asns; gf_blockedCountries := countries;
                   gf_block := block |}
  end.

Definition geo_BlockMode (f : option GeoFilter) : bool :=
  match f with None => false | Some f => gf_block f end.

(** One turn of the loop of [Evaluate]: the decision it returns, or [None] to go on. *)
Definition geo_check (f : GeoFilter) (ip : IP) : option GeoDecision :=
  match ip with
  | [] => None
  | _ =>
      match gf_Lookup f ip with
      | None => None
      | Some (asn, country) =>
          if negb (asn =? 0) && bool_decide (asn ∈ gf_blockedASNs f) then
            Some {| gd_Matched := true; gd_Block := gf_block f; gd_IP := IP_String ip; gd_ASN := asn;
                    gd_Country := "";
                    gd_Reason := ("answer IP " +:+ IP_String ip +:+ " in blocked ASN " +:+ Itoa asn)%string |}
          else
            let country := ToUpper country in
            if negb (bool_decide (country = ""%string)) && bool_decide (country ∈ gf_blockedCountries f) then
              Some {| gd_Matched := true; gd_Block := gf_block f; gd_IP := IP_String ip; gd_ASN := 0;
                      gd_Country := country;
                      gd_Reason := ("answer IP " +:+ IP_String ip +:+ " in blocked country " +:+ country)%string |}
            else None
      end
  end.

Definition geo_Evaluate (f : option GeoFilter) (ips : list IP) : GeoDecision :=
  match f with
  | None => no_geo
  | Some f => default no_geo (first_match (geo_check f) ips)
  end.

(** An address the configured lists cover: the database knows it, and its non-zero
    ASN or its country is listed. *)
Definition geo_covered (asns : list Z) (countries : list string) (lookup : IP → option (Z * string))
  (ip : IP) : Prop :=
  ip ≠ [] ∧ ∃ asn country, lookup ip = Some (asn, country) ∧
    ((asn ≠ 0 ∧ asn ∈ asns) ∨
     (ToUpper country ≠ ""%string ∧ ∃ c, c ∈ countries ∧ ToUpper (TrimSpace c) = ToUpper country)).

Lemma add_countries_elem cs m x :
  x ∈ foldl add_country m cs ↔ x ∈ m ∨ x ≠ ""%string ∧ ∃ c, c ∈ cs ∧ ToUpper (TrimSpace c) = x.
Proof.
  revert m. induction cs as [|c cs IH]; intros m; simpl; [set_solver|].
  rewrite IH. unfold add_country. setoid_rewrite elem_of_cons.
  case_bool_decide as E; [|rewrite elem_of_union, elem_of_singleton]; naive_solver.
Qed.

Lemma geo_check_covered lookup asns countries block f ip :
  NewFilter (Some lookup) asns countries block = Some f →
  is_Some (geo_check f ip) ↔ geo_covered asns countries lookup ip.
Proof.
  unfold NewFilter. case_match; [done|]. intros [= <-]. unfold geo_check, geo_covered.
  destruct ip as [|b ip]; [split; [by intros []|by intros [? _]]|].
  cbn [gf_Lookup gf_blockedASNs gf_blockedCountries].
  destruct (lookup (b :: ip)) as [[asn country]|]; [|split; [by intros []|by intros (_ & ? & ? & ? & _)]].
  set (P := negb (asn =? 0) && _). set (Q := negb (bool_decide (ToUpper country = ""%string)) && _).
  assert (P = true ↔ asn ≠ 0 ∧ asn ∈ asns) as HP.
  { subst P. rewrite andb_true_iff, negb_true_iff, Z.eqb_neq, bool_decide_eq_true. by rewrite elem_of_list_to_set. }
  assert (Q = true ↔ ToUpper country ≠ ""%string ∧ ∃ c, c ∈ countries ∧ ToUpper (TrimSpace c) = ToUpper country) as HQ.
  { subst Q. rewrite andb_true_iff, negb_true_iff, bool_decide_eq_false, bool_decide_eq_true, add_countries_elem.
    set_solver. }
  split.
  - intros [d Hd]. split; [done|]. exists asn, country. split; [done|].
    destruct P; [left; by apply HP|]. destruct Q; [right; by apply HQ|done].
  - intros (_ & ? & ? & [= <- <-] & [H1|H1]).
    + apply HP in H1 as ->. by eexists.
    + destruct P; [by eexists|]. apply HQ in H1 as ->. by eexists.
Qed.

Lemma geo_check_None lookup asns countries block f ip :
  NewFilter (Some lookup) asns countries block = Some f →
  geo_check f ip = None ↔ ¬ geo_covered asns countries lookup ip.
Proof. intros E. rewrite <- (geo_check_covered _ _ _ _ _ _ E). by rewrite eq_None_not_Some. Qed.

Lemma geo_check_fields f ip d :
  geo_check f ip = Some d → gd_Matched d = true ∧ gd_Block d = gf_block f ∧ gd_IP d = IP_String ip.
Proof. unfold geo_check. repeat case_match; intros; simplify_eq/=; done. Qed.

(** A filter matches an answer exactly when one of its addresses is covered by
    the configured lists (ASN 0 and addresses the database does not know never are);
    the decision then names the first such address and asks for a block exactly in
    block mode. With nothing configured there is no filter, and it matches nothing. *)
Theorem geo_Evaluate_iff lookup asns countries block ips :
  let f := NewFilter lookup asns countries block in
  let d := geo_Evaluate f ips in
  (gd_Matched d = true ↔ ∃ l ip, lookup = Some l ∧ ip ∈ ips ∧ geo_covered asns countries l ip) ∧
  (gd_Matched d = true → gd_Block d = block ∧
     ∃ l ip pre post, lookup = Some l ∧ ips = pre ++ ip :: post ∧ gd_IP d = IP_String ip ∧
       geo_covered asns countries l ip ∧ Forall (λ x, ¬ geo_covered asns countries l x) pre).
Proof.
  intros f d. subst f d. destruct lookup as [l|]; [|split; [split; [done|naive_solver]|done]].
  destruct (NewFilter (Some l) asns countries block) as [f|] eqn:E.
  - assert (gf_block f = block) as Hb.
    { unfold NewFilter in E. case_match; simplify_eq; done. }
    unfold geo_Evaluate. destruct (first_match (geo_check f) ips) as [d|] eqn:Ef; simpl.
    + apply first_match_Some in Ef as (pre & ip & post & -> & Hip & Hpre).
      pose proof (geo_check_fields _ _ _ Hip) as (-> & -> & ->).
      assert (geo_covered asns countries l ip) as Hc.
      { apply (geo_check_covered _ _ _ _ _ _ E). by eexists. }
      split; [split; [|done]|].
      * intros _. exists l, ip. set_solver.
      * intros _. split; [done|]. exists l, ip, pre, post. do 4 (split; [done|]).
        eapply Forall_impl; [exact Hpre|]. intros x Hx. by apply (geo_check_None _ _ _ _ _ _ E).
    + apply first_match_None in Ef. split; [split; [done|]|done].
      intros (l' & ip & [= <-] & Hip & Hc). rewrite Forall_forall in Ef. specialize (Ef _ Hip).
      by apply (geo_check_None _ _ _ _ _ _ E) in Ef.
  - simpl. split; [split; [done|]|done]. intros (l' & ip & [= <-] & _ & Hc).
    unfold NewFilter in E. destruct (_ && _) eqn:Es; [|done].
    apply andb_true_iff in Es as [E1%Nat.eqb_eq%size_empty_inv E2%Nat.eqb_eq%size_empty_inv].
    destruct Hc as (_ & asn & country & _ & [[_ Ha]|[Hu (c & Hcc & Heq)]]).
    + apply (elem_of_list_to_set (C := gset Z)) in Ha. set_solver.
    + assert (ToUpper country ∈ foldl add_country ∅ countries) as Hin
        by (apply add_countries_elem; right; eauto). set_solver.
Qed.

(** ** maxmind.go *)

(** The fields read of a record; an absent one is empty or 0. *)
Record mmRecord := { mm_Country : string; mm_RegisteredCountry : string; mm_ASN : Z }.
Definition mm_country (r : mmRecord) : string :=
  if bool_decide (mm_Country r = ""%string) then mm_RegisteredCountry r else mm_Country r.
Definition maxmind_Lookup (db : IP → option mmRecord) (ip : IP) : option (Z * string) :=
  r ← db ip; Some (mm_ASN r, mm_country r).
Definition FromConfig (open : string → option (IP → option mmRecord)) (path : string) (blockedASNs : list Z)
  (blockedCountries : list string) (block : bool) : result string (option GeoFilter) :=
  if bool_decide (path = ""%string) then Ok None
  else match open path with
       | None => Err ("geoip: open " +:+ path)%string
       | Some db => Ok (NewFilter (Some (maxmind_Lookup db)) blockedASNs blockedCountries block)
       end.

(** The filter of a configuration matches exactly the answers with an address whose record
    has a listed ASN or a listed country, the registered one where the main one is
    absent; without a path there is none, and a database that does not open is the only
    error. *)
Theorem FromConfig_filters open path asns countries block :
  match FromConfig open path asns countries block with
  | Err _ => path ≠ ""%string ∧ open path = None
  | Ok f => ∀ ips, gd_Matched (geo_Evaluate f ips) = true ↔
      path ≠ ""%string ∧ ∃ db ip r, open path = Some db ∧ ip ∈ ips ∧ ip ≠ [] ∧ db ip = Some r ∧
        (mm_ASN r ≠ 0 ∧ mm_ASN r ∈ asns ∨
         ToUpper (mm_country r) ≠ ""%string ∧ ∃ c, c ∈ countries ∧ ToUpper (TrimSpace c) = ToUpper (mm_country r))
  end.
Proof.
  unfold FromConfig. case_bool_decide as Hp; [intros ips; split; [done|naive_solver]|].
  destruct (open path) as [db|]; [|done]. intros ips. destruct (geo_Evaluate_iff (Some (maxmind_Lookup db)) asns countries block ips) as [-> _].
  unfold geo_covered, maxmind_Lookup. split.
  - intros (l & ip & [= <-] & Hip & Hne & asn & country & Hl & Hc). destruct (db ip) as [r|] eqn:Er; [|done]. injection Hl as <- <-.
    split; [done|]. by exists db, ip, r.
  - intros (_ & db' & ip & r & [= <-] & Hip & Hne & Hr & Hc). eexists _, ip. do 3 (split; [done|]).
    exists (mm_ASN r), (mm_country r). by rewrite Hr.
Qed.
End Geo.
