(* ===== verification/Config.v ===== *)
(** * Configuration

    [internal/config]: config.go and local_only.go. The environment is a function from
    names to values (unset is empty; [LookupEnv] is an option), the configuration file
    a reader, and its YAML decoding a parameter. Log lines are left out. *)
From S2P Require Import Prelude GoStrings GoStrconv.

(** ** The configuration record *)

Record GRPCServerConfig := { gs_ListenAddr : string; gs_Port : Z }.
Record GeoIPConfig := {
  gi_DBPath : string; gi_BlockedASNs : list Z; gi_BlockedCountries : list string; gi_Block : bool;
}.

Record DataPlaneConfig := {
  cf_ListenAddr : string;
  cf_UpstreamResolvers : list string;
  cf_GRPCServer : GRPCServerConfig;
  cf_BlocklistUpdateInterval : string;
  cf_MetricsAddr : string;
  cf_BlocklistHealthInterval : string;
  cf_ThreatBlockThreshold : float64;
  cf_ThreatBlockDryRun : bool;
  cf_AbusedTLDs : list string;
  cf_RebindProtection : bool;
  cf_ClientRateLimitPerSec : Z;
  cf_SafeSearch : bool;
  cf_DNS0x20 : bool;
  cf_WatchdogInterval : string;
  cf_WatchdogFailureThreshold : Z;
  cf_ServeStale : bool;
  cf_NODWindowHours : Z;
  cf_NODBlock : bool;
  cf_FastFluxDetection : bool;
  cf_FastFluxIPThreshold : Z;
  cf_FastFluxTTLMaxSec : Z;
  cf_SyslogAddr : string;
  cf_EventWebhookURL : string;
  cf_TyposquatBrands : list string;
  cf_TyposquatBlock : bool;
  cf_HeartbeatURL : string;
  cf_HeartbeatInterval : string;
  cf_GeoIP : GeoIPConfig;
  cf_NRDFeedURL : string;
  cf_NRDBlock : bool;
  cf_NRDRefreshInterval : string;
  cf_QueryLogBufferSize : Z;
  cf_QueryLogWorkers : Z;
}.

Record TLSConfig := {
  tls_CertFile : string; tls_KeyFile : string; tls_AutoSelfSigned : bool; tls_SelfSignedDir : string;
}.
Record ControlPlaneConfig := { cp_ListenAddr : string; cp_DataPlaneGRPCAddr : string; cp_TLS : TLSConfig }.
Record Config := {
  c_DataPlane : DataPlaneConfig; c_ControlPlane : ControlPlaneConfig; c_LocalOnly : bool;
}.

Definition DefaultDataPlaneGRPCAddr : string := "localhost:50051".
Definition DefaultSelfSignedDir : string := "/app/data/tls".

(** ** TLS serving mode *)

Inductive TLSMode := TLSModeDisabled | TLSModeProvided | TLSModeSelfSigned.
#[export] Instance TLSMode_eq_dec : EqDecision TLSMode.
Proof. solve_decision. Defined.

Definition TLSMode_String (m : TLSMode) : string :=
  match m with TLSModeProvided => "provided" | TLSModeSelfSigned => "self-signed" | TLSModeDisabled => "disabled" end.

Definition TLS_Mode (t : TLSConfig) : TLSMode :=
  if negb (bool_decide (tls_CertFile t = ""%string)) && negb (bool_decide (tls_KeyFile t = ""%string))
  then TLSModeProvided
  else if tls_AutoSelfSigned t then TLSModeSelfSigned else TLSModeDisabled.
Definition TLS_Enabled (t : TLSConfig) : bool := negb (bool_decide (TLS_Mode t = TLSModeDisabled)).

(** ** Defaults *)

Definition defaultConfig : Config := {|
  c_DataPlane := {|
    cf_ListenAddr := "0.0.0.0:1053";
    cf_UpstreamResolvers := ["8.8.8.8:53"; "1.1.1.1:53"]%string;
    cf_GRPCServer := {| gs_ListenAddr := "localhost:50051"; gs_Port := 50051 |};
    cf_BlocklistUpdateInterval := "6h";
    cf_MetricsAddr := "127.0.0.1:9153";
    cf_BlocklistHealthInterval := "1h";
    cf_ThreatBlockThreshold := f64_zero; cf_ThreatBlockDryRun := false;
    cf_AbusedTLDs := []; cf_RebindProtection := false; cf_ClientRateLimitPerSec := 0;
    cf_SafeSearch := false; cf_DNS0x20 := false;
    cf_WatchdogInterval := "30s"; cf_WatchdogFailureThreshold := 3;
    cf_ServeStale := false; cf_NODWindowHours := 0; cf_NODBlock := false;
    cf_FastFluxDetection := false; cf_FastFluxIPThreshold := 8; cf_FastFluxTTLMaxSec := 300;
    cf_SyslogAddr := ""; cf_EventWebhookURL := ""; cf_TyposquatBrands := []; cf_TyposquatBlock := false;
    cf_HeartbeatURL := ""; cf_HeartbeatInterval := "";
    cf_GeoIP := {| gi_DBPath := ""; gi_BlockedASNs := []; gi_BlockedCountries := []; gi_Block := false |};
    cf_NRDFeedURL := ""; cf_NRDBlock := false; cf_NRDRefreshInterval := "6h";
    cf_QueryLogBufferSize := 0; cf_QueryLogWorkers := 0 |};
  c_ControlPlane := {|
    cp_ListenAddr := "0.0.0.0:8080"; cp_DataPlaneGRPCAddr := DefaultDataPlaneGRPCAddr;
    cp_TLS := {| tls_CertFile := ""; tls_KeyFile := ""; tls_AutoSelfSigned := false;
                 tls_SelfSignedDir := DefaultSelfSignedDir |} |};
  c_LocalOnly := false |}.

(** ** Lists in environment variables *)

Definition comma : ascii := ","%char.
Definition nonempty (s : string) : bool := negb (bool_decide (s = ""%string)).

Definition splitAndTrim (s : string) : list string := List.filter nonempty (TrimSpace <$> Split s comma).
Definition parseStringList (s : string) : list string := List.filter nonempty (TrimSpace <$> Split s comma).
Definition parseUintList (s : string) : list Z :=
  omap (ParseUint 10 64) (List.filter nonempty (TrimSpace <$> Split s comma)).

Section Loading.
Context `{U : GoUnicode} (getenv : string → string).

Definition parseAbusedTLDs (v : string) : list string :=
  List.filter nonempty ((λ p, ToLower (TrimSpace p)) <$> Split v comma).

(** A variable that overrides a value: when it is set, and when it is set and can be
    parsed. *)
Definition env_string (key old : string) : string :=
  let v := getenv key in if bool_decide (v = ""%string) then old else v.
Definition env_parse {A} (parse : string → option A) (key : string) (old : A) : A :=
  let v := getenv key in if bool_decide (v = ""%string) then old else default old (parse v).

Definition applyTLSEnv (t : TLSConfig) : TLSConfig := {|
  tls_CertFile := env_string "TLS_CERT_FILE" (tls_CertFile t);
  tls_KeyFile := env_string "TLS_KEY_FILE" (tls_KeyFile t);
  tls_AutoSelfSigned := env_parse ParseBool "TLS_AUTO_SELF_SIGNED" (tls_AutoSelfSigned t);
  tls_SelfSignedDir :=
    let dir := env_string "TLS_SELF_SIGNED_DIR" (tls_SelfSignedDir t) in
    if bool_decide (dir = ""%string) then DefaultSelfSignedDir else dir |}.

Definition applyDataPlaneGRPCAddrEnv (addr : string) : string :=
  let addr := env_string "DATAPLANE_GRPC_ADDR" addr in
  if bool_decide (addr = ""%string) then DefaultDataPlaneGRPCAddr else addr.

Definition applyGeoIPEnv (g : GeoIPConfig) : GeoIPConfig := {|
  gi_DBPath := env_string "GEOIP_DB_PATH" (gi_DBPath g);
  gi_BlockedASNs := env_parse (λ v, Some (parseUintList v)) "BLOCKED_ASNS" (gi_BlockedASNs g);
  gi_BlockedCountries := env_parse (λ v, Some (parseStringList v)) "BLOCKED_COUNTRIES" (gi_BlockedCountries g);
  gi_Block := env_parse (λ v, ParseBool (TrimSpace v)) "GEOIP_BLOCK" (gi_Block g) |}.

(** The overrides of the data plane's fields; each variable has its own field. *)
Definition applyDataPlaneEnv (d : DataPlaneConfig) : DataPlaneConfig := {|
  cf_ListenAddr := env_string "DNS_LISTEN_ADDR" (cf_ListenAddr d);
  cf_UpstreamResolvers := cf_UpstreamResolvers d;
  cf_GRPCServer := cf_GRPCServer d;
  cf_BlocklistUpdateInterval := env_string "BLOCKLIST_UPDATE_INTERVAL" (cf_BlocklistUpdateInterval d);
  cf_MetricsAddr :=
    let addr := env_string "METRICS_LISTEN_ADDR" (cf_MetricsAddr d) in
    if bool_decide (addr = ""%string) then "127.0.0.1:9153"%string else addr;
  cf_BlocklistHealthInterval := env_string "BLOCKLIST_HEALTH_INTERVAL" (cf_BlocklistHealthInterval d);
  cf_ThreatBlockThreshold := env_parse ParseFloat "THREAT_BLOCK_THRESHOLD" (cf_ThreatBlockThreshold d);
  cf_ThreatBlockDryRun := env_parse ParseBool "THREAT_BLOCK_DRYRUN" (cf_ThreatBlockDryRun d);
  cf_AbusedTLDs := env_parse (λ v, Some (parseAbusedTLDs v)) "ABUSED_TLDS" (cf_AbusedTLDs d);
  cf_RebindProtection := env_parse ParseBool "REBIND_PROTECTION" (cf_RebindProtection d);
  cf_ClientRateLimitPerSec := env_parse Atoi "CLIENT_RATE_LIMIT_PER_SEC" (cf_ClientRateLimitPerSec d);
  cf_SafeSearch := env_parse ParseBool "SAFE_SEARCH" (cf_SafeSearch d);
  cf_DNS0x20 := env_parse ParseBool "DNS_0X20" (cf_DNS0x20 d);
  cf_WatchdogInterval := env_string "WATCHDOG_INTERVAL" (cf_WatchdogInterval d);
  cf_WatchdogFailureThreshold := env_parse Atoi "WATCHDOG_FAILURE_THRESHOLD" (cf_WatchdogFailureThreshold d);
  cf_ServeStale :=
    if bool_decide (getenv "SERVE_STALE" ∈ ["true"; "1"]%string) then true else cf_ServeStale d;
  cf_NODWindowHours := env_parse Atoi "NOD_WINDOW_HOURS" (cf_NODWindowHours d);
  cf_NODBlock := env_parse ParseBool "NOD_BLOCK" (cf_NODBlock d);
  cf_FastFluxDetection := env_parse ParseBool "FAST_FLUX_DETECTION" (cf_FastFluxDetection d);
  cf_FastFluxIPThreshold := cf_FastFluxIPThreshold d;
  cf_FastFluxTTLMaxSec := cf_FastFluxTTLMaxSec d;
  cf_SyslogAddr := env_string "SYSLOG_ADDR" (cf_SyslogAddr d);
  cf_EventWebhookURL := env_string "EVENT_WEBHOOK_URL" (cf_EventWebhookURL d);
  cf_TyposquatBrands := env_parse (λ v, Some (splitAndTrim v)) "TYPOSQUAT_BRANDS" (cf_TyposquatBrands d);
  cf_TyposquatBlock :=
    if bool_decide (ToLower (TrimSpace (getenv "TYPOSQUAT_BLOCK")) ∈ ["1"; "true"; "yes"; "on"]%string)
    then true else cf_TyposquatBlock d;
  cf_HeartbeatURL := env_string "HEARTBEAT_URL" (cf_HeartbeatURL d);
  cf_HeartbeatInterval := env_string "HEARTBEAT_INTERVAL" (cf_HeartbeatInterval d);
  cf_GeoIP := applyGeoIPEnv (cf_GeoIP d);
  cf_NRDFeedURL := env_string "NRD_FEED_URL" (cf_NRDFeedURL d);
  cf_NRDBlock := env_parse ParseBool "NRD_BLOCK" (cf_NRDBlock d);
  cf_NRDRefreshInterval := env_string "NRD_REFRESH_INTERVAL" (cf_NRDRefreshInterval d);
  cf_QueryLogBufferSize := env_parse Atoi "QUERY_LOG_BUFFER_SIZE" (cf_QueryLogBufferSize d);
  cf_QueryLogWorkers := env_parse Atoi "QUERY_LOG_WORKERS" (cf_QueryLogWorkers d) |}.

(** ** Loading *)

Definition configPath : string := env_string "PHANTOM_CONFIG" "/app/configs/config.yaml".

(** [readFile] includes [filepath.Clean]; [yaml] decodes into a zero [Config]. *)
Definition loadConfig (readFile : string → option string) (yaml : string → option Config) (path : string) : Config :=
  match readFile path with
  | None => defaultConfig
  | Some data => match yaml data with None => defaultConfig | Some cfg => cfg end
  end.

Definition DefaultConfig (readFile : string → option string) (yaml : string → option Config) : Config :=
  let cfg := loadConfig readFile yaml configPath in {|
    c_DataPlane := applyDataPlaneEnv (c_DataPlane cfg);
    c_ControlPlane := {|
      cp_ListenAddr := cp_ListenAddr (c_ControlPlane cfg);
      cp_DataPlaneGRPCAddr := applyDataPlaneGRPCAddrEnv (cp_DataPlaneGRPCAddr (c_ControlPlane cfg));
      cp_TLS := applyTLSEnv (cp_TLS (c_ControlPlane cfg)) |};
    c_LocalOnly := c_LocalOnly cfg |}.

Definition BundledBlocklistEnabled : bool := env_parse ParseBool "BUNDLED_BLOCKLIST" true.

(** [WatchdogIntervalDuration]: 0 is disabled. *)
Definition WatchdogIntervalDuration (c : DataPlaneConfig) : Z :=
  let s := TrimSpace (cf_WatchdogInterval c) in
  if bool_decide (s = ""%string) || bool_decide (s = "0"%string) || EqualFold s "off" then 0
  else match ParseDuration s with
       | Some d => if d <=? 0 then 0 else d
       | None => 0
       end.

(** ** local_only.go *)

Definition envBool (lookupEnv : string → option string) (key : string) : option bool :=
  raw ← lookupEnv key;
  let v := ToLower (TrimSpace raw) in
  if bool_decide (v ∈ ["1"; "true"; "yes"; "on"]%string) then Some true
  else if bool_decide (v ∈ ["0"; "false"; "no"; "off"]%string) then Some false
  else None.

Definition LocalOnly (lookupEnv : string → option string) (cfg : Config) : bool :=
  match envBool lookupEnv "LOCAL_ONLY" with Some v => v | None => c_LocalOnly cfg end.

(** Whether an outbound feature may proceed. *)
Definition AssertLocalOnlyRespected (lookupEnv : string → option string) (cfg : Config) (feature : string) : bool :=
  negb (LocalOnly lookupEnv cfg).
End Loading.
