(* ===== verification/DnsEngine.v ===== *)
(** * The DNS engine: one query from the wire to the answer

    [internal/dnsengine/engine.go] and status.go. The engine's state is one record,
    with the components of the other files as its fields; a handler is a function in
    a small monad over that state, the transports' state and the trace of what can be
    seen from outside: responses written, exchanges started, rows logged, alerts
    fired. A run can end in a panic ([None]): a nil policy engine, or a send on a
    queue that was closed.

    The clock is read once per call site; [QueryEnv] names the readings. Errors of
    [WriteMsg] are only logged, so a write is its message. *)
From S2P Require Import Prelude GoStrings GoNet Policy PolicyEngine DnsMsg AnswerCache RateLimiter.
From S2P Require Import Trackers Case0x20 Upstream QueryLog Alert Metrics Threat GeoIp Config.

(** ** Types *)

(** export.go: [Event] *)
Record Event := {
  ev_Timestamp : Z; ev_Domain : string; ev_ClientIP : string; ev_Action : string;
  ev_IsSuspicious : bool; ev_ThreatScore : float64; ev_DetectionMethod : string; ev_ThreatReason : string;
}.

(** The interface the engine asks about newly registered domains. *)
Record NRDChecker := { nrdc_IsListed : string → bool; nrdc_BlockMode : bool }.

Inductive threatAction := threatNone | threatBlock | threatDryRun.

Record forwardOutcome := { fo_fastFlux : bool; fo_geoMatched : bool; fo_geoBlocked : bool; fo_geoReason : string }.
Definition no_outcome : forwardOutcome :=
  {| fo_fastFlux := false; fo_geoMatched := false; fo_geoBlocked := false; fo_geoReason := "" |}.

Section Engine.
Context `{U : GoUnicode} `{TZ : TzDatabase} `{BL : BloomLib} `{RX : RegexpLib} `{DL : DnsLib}
        `{TE : ThreatEnv} `{TR : TransportEnv}.

Record Engine := {
  e_upstreamManager : option UpstreamManager;
  e_policyEngine : option PEngine;
  e_blocklist : option (string → result string bool);
  e_nrd : option NRDChecker;
  e_acceptQueries : bool;
  e_lastError : option string;
  e_metrics : QueryMetrics;
  e_queryLog : bool;
  e_qlWriter : option queryLogWriter;
  e_threatDetector : option Detector;
  e_exporter : option (Exporter Event);
  e_geo : option GeoFilter;
  e_fastFlux : option fastFluxTracker;
  e_serveStale : bool;
  e_cache : option answerCache;
  e_nodLedger : option nodLedger;
  e_nodBlock : bool;
  e_threatBlockThreshold : float64;
  e_threatBlockDryRun : bool;
  e_abusedTLDs : gset string;
  e_rebindProtection : bool;
  e_rateLimiter : option rateLimiter;
  e_safeSearch : bool;
  e_alerter : option Alerter;
}.

Definition set_upstream (v : option UpstreamManager) (e : Engine) : Engine := {|
  e_upstreamManager := v; e_policyEngine := e_policyEngine e; e_blocklist := e_blocklist e; e_nrd :=
  e_nrd e; e_acceptQueries := e_acceptQueries e; e_lastError := e_lastError e; e_metrics :=
  e_metrics e; e_queryLog := e_queryLog e; e_qlWriter := e_qlWriter e; e_threatDetector :=
  e_threatDetector e; e_exporter := e_exporter e; e_geo := e_geo e; e_fastFlux := e_fastFlux e;
  e_serveStale := e_serveStale e; e_cache := e_cache e; e_nodLedger := e_nodLedger e; e_nodBlock :=
  e_nodBlock e; e_threatBlockThreshold := e_threatBlockThreshold e; e_threatBlockDryRun :=
  e_threatBlockDryRun e; e_abusedTLDs := e_abusedTLDs e; e_rebindProtection := e_rebindProtection e;
  e_rateLimiter := e_rateLimiter e; e_safeSearch := e_safeSearch e; e_alerter := e_alerter e |}.
Definition set_accept (v : bool) (e : Engine) : Engine := {|
  e_upstreamManager := e_upstreamManager e; e_policyEngine := e_policyEngine e; e_blocklist :=
  e_blocklist e; e_nrd := e_nrd e; e_acceptQueries := v; e_lastError := e_lastError e; e_metrics :=
  e_metrics e; e_queryLog := e_queryLog e; e_qlWriter := e_qlWriter e; e_threatDetector :=
  e_threatDetector e; e_exporter := e_exporter e; e_geo := e_geo e; e_fastFlux := e_fastFlux e;
  e_serveStale := e_serveStale e; e_cache := e_cache e; e_nodLedger := e_nodLedger e; e_nodBlock :=
  e_nodBlock e; e_threatBlockThreshold := e_threatBlockThreshold e; e_threatBlockDryRun :=
  e_threatBlockDryRun e; e_abusedTLDs := e_abusedTLDs e; e_rebindProtection := e_rebindProtection e;
  e_rateLimiter := e_rateLimiter e; e_safeSearch := e_safeSearch e; e_alerter := e_alerter e |}.
Definition set_blocklist (v : option (string → result string bool)) (e : Engine) : Engine := {|
  e_upstreamManager := e_upstreamManager e; e_policyEngine := e_policyEngine e; e_blocklist := v;
  e_nrd := e_nrd e; e_acceptQueries := e_acceptQueries e; e_lastError := e_lastError e; e_metrics :=
  e_metrics e; e_queryLog := e_queryLog e; e_qlWriter := e_qlWriter e; e_threatDetector :=
  e_threatDetector e; e_exporter := e_exporter e; e_geo := e_geo e; e_fastFlux := e_fastFlux e;
  e_serveStale := e_serveStale e; e_cache := e_cache e; e_nodLedger := e_nodLedger e; e_nodBlock :=
  e_nodBlock e; e_threatBlockThreshold := e_threatBlockThreshold e; e_threatBlockDryRun :=
  e_threatBlockDryRun e; e_abusedTLDs := e_abusedTLDs e; e_rebindProtection := e_rebindProtection e;
  e_rateLimiter := e_rateLimiter e; e_safeSearch := e_safeSearch e; e_alerter := e_alerter e |}.
Definition set_geo (v : option GeoFilter) (e : Engine) : Engine := {|
  e_upstreamManager := e_upstreamManager e; e_policyEngine := e_policyEngine e; e_blocklist :=
  e_blocklist e; e_nrd := e_nrd e; e_acceptQueries := e_acceptQueries e; e_lastError := e_lastError
  e; e_metrics := e_metrics e; e_queryLog := e_queryLog e; e_qlWriter := e_qlWriter e;
  e_threatDetector := e_threatDetector e; e_exporter := e_exporter e; e_geo := v; e_fastFlux :=
  e_fastFlux e; e_serveStale := e_serveStale e; e_cache := e_cache e; e_nodLedger := e_nodLedger e;
  e_nodBlock := e_nodBlock e; e_threatBlockThreshold := e_threatBlockThreshold e;
  e_threatBlockDryRun := e_threatBlockDryRun e; e_abusedTLDs := e_abusedTLDs e; e_rebindProtection
  := e_rebindProtection e; e_rateLimiter := e_rateLimiter e; e_safeSearch := e_safeSearch e;
  e_alerter := e_alerter e |}.
Definition set_nrd (v : option NRDChecker) (e : Engine) : Engine := {|
  e_upstreamManager := e_upstreamManager e; e_policyEngine := e_policyEngine e; e_blocklist :=
  e_blocklist e; e_nrd := v; e_acceptQueries := e_acceptQueries e; e_lastError := e_lastError e;
  e_metrics := e_metrics e; e_queryLog := e_queryLog e; e_qlWriter := e_qlWriter e; e_threatDetector
  := e_threatDetector e; e_exporter := e_exporter e; e_geo := e_geo e; e_fastFlux := e_fastFlux e;
  e_serveStale := e_serveStale e; e_cache := e_cache e; e_nodLedger := e_nodLedger e; e_nodBlock :=
  e_nodBlock e; e_threatBlockThreshold := e_threatBlockThreshold e; e_threatBlockDryRun :=
  e_threatBlockDryRun e; e_abusedTLDs := e_abusedTLDs e; e_rebindProtection := e_rebindProtection e;
  e_rateLimiter := e_rateLimiter e; e_safeSearch := e_safeSearch e; e_alerter := e_alerter e |}.
Definition set_metrics (v : QueryMetrics) (e : Engine) : Engine := {|
  e_upstreamManager := e_upstreamManager e; e_policyEngine := e_policyEngine e; e_blocklist :=
  e_blocklist e; e_nrd := e_nrd e; e_acceptQueries := e_acceptQueries e; e_lastError := e_lastError
  e; e_metrics := v; e_queryLog := e_queryLog e; e_qlWriter := e_qlWriter e; e_threatDetector :=
  e_threatDetector e; e_exporter := e_exporter e; e_geo := e_geo e; e_fastFlux := e_fastFlux e;
  e_serveStale := e_serveStale e; e_cache := e_cache e; e_nodLedger := e_nodLedger e; e_nodBlock :=
  e_nodBlock e; e_threatBlockThreshold := e_threatBlockThreshold e; e_threatBlockDryRun :=
  e_threatBlockDryRun e; e_abusedTLDs := e_abusedTLDs e; e_rebindProtection := e_rebindProtection e;
  e_rateLimiter := e_rateLimiter e; e_safeSearch := e_safeSearch e; e_alerter := e_alerter e |}.
Definition set_writer (w : option queryLogWriter) (qm : QueryMetrics) (e : Engine) : Engine := {|
  e_upstreamManager := e_upstreamManager e; e_policyEngine := e_policyEngine e; e_blocklist :=
  e_blocklist e; e_nrd := e_nrd e; e_acceptQueries := e_acceptQueries e; e_lastError := e_lastError
  e; e_metrics := qm; e_queryLog := e_queryLog e; e_qlWriter := w; e_threatDetector :=
  e_threatDetector e; e_exporter := e_exporter e; e_geo := e_geo e; e_fastFlux := e_fastFlux e;
  e_serveStale := e_serveStale e; e_cache := e_cache e; e_nodLedger := e_nodLedger e; e_nodBlock :=
  e_nodBlock e; e_threatBlockThreshold := e_threatBlockThreshold e; e_threatBlockDryRun :=
  e_threatBlockDryRun e; e_abusedTLDs := e_abusedTLDs e; e_rebindProtection := e_rebindProtection e;
  e_rateLimiter := e_rateLimiter e; e_safeSearch := e_safeSearch e; e_alerter := e_alerter e |}.
Definition set_exporter (v : option (Exporter Event)) (e : Engine) : Engine := {|
  e_upstreamManager := e_upstreamManager e; e_policyEngine := e_policyEngine e; e_blocklist :=
  e_blocklist e; e_nrd := e_nrd e; e_acceptQueries := e_acceptQueries e; e_lastError := e_lastError
  e; e_metrics := e_metrics e; e_queryLog := e_queryLog e; e_qlWriter := e_qlWriter e;
  e_threatDetector := e_threatDetector e; e_exporter := v; e_geo := e_geo e; e_fastFlux :=
  e_fastFlux e; e_serveStale := e_serveStale e; e_cache := e_cache e; e_nodLedger := e_nodLedger e;
  e_nodBlock := e_nodBlock e; e_threatBlockThreshold := e_threatBlockThreshold e;
  e_threatBlockDryRun := e_threatBlockDryRun e; e_abusedTLDs := e_abusedTLDs e; e_rebindProtection
  := e_rebindProtection e; e_rateLimiter := e_rateLimiter e; e_safeSearch := e_safeSearch e;
  e_alerter := e_alerter e |}.
Definition set_fastFlux (v : option fastFluxTracker) (e : Engine) : Engine := {|
  e_upstreamManager := e_upstreamManager e; e_policyEngine := e_policyEngine e; e_blocklist :=
  e_blocklist e; e_nrd := e_nrd e; e_acceptQueries := e_acceptQueries e; e_lastError := e_lastError
  e; e_metrics := e_metrics e; e_queryLog := e_queryLog e; e_qlWriter := e_qlWriter e;
  e_threatDetector := e_threatDetector e; e_exporter := e_exporter e; e_geo := e_geo e; e_fastFlux
  := v; e_serveStale := e_serveStale e; e_cache := e_cache e; e_nodLedger := e_nodLedger e;
  e_nodBlock := e_nodBlock e; e_threatBlockThreshold := e_threatBlockThreshold e;
  e_threatBlockDryRun := e_threatBlockDryRun e; e_abusedTLDs := e_abusedTLDs e; e_rebindProtection
  := e_rebindProtection e; e_rateLimiter := e_rateLimiter e; e_safeSearch := e_safeSearch e;
  e_alerter := e_alerter e |}.
Definition set_cache (v : option answerCache) (e : Engine) : Engine := {|
  e_upstreamManager := e_upstreamManager e; e_policyEngine := e_policyEngine e; e_blocklist :=
  e_blocklist e; e_nrd := e_nrd e; e_acceptQueries := e_acceptQueries e; e_lastError := e_lastError
  e; e_metrics := e_metrics e; e_queryLog := e_queryLog e; e_qlWriter := e_qlWriter e;
  e_threatDetector := e_threatDetector e; e_exporter := e_exporter e; e_geo := e_geo e; e_fastFlux
  := e_fastFlux e; e_serveStale := e_serveStale e; e_cache := v; e_nodLedger := e_nodLedger e;
  e_nodBlock := e_nodBlock e; e_threatBlockThreshold := e_threatBlockThreshold e;
  e_threatBlockDryRun := e_threatBlockDryRun e; e_abusedTLDs := e_abusedTLDs e; e_rebindProtection
  := e_rebindProtection e; e_rateLimiter := e_rateLimiter e; e_safeSearch := e_safeSearch e;
  e_alerter := e_alerter e |}.
Definition set_nod (v : option nodLedger) (e : Engine) : Engine := {|
  e_upstreamManager := e_upstreamManager e; e_policyEngine := e_policyEngine e; e_blocklist :=
  e_blocklist e; e_nrd := e_nrd e; e_acceptQueries := e_acceptQueries e; e_lastError := e_lastError
  e; e_metrics := e_metrics e; e_queryLog := e_queryLog e; e_qlWriter := e_qlWriter e;
  e_threatDetector := e_threatDetector e; e_exporter := e_exporter e; e_geo := e_geo e; e_fastFlux
  := e_fastFlux e; e_serveStale := e_serveStale e; e_cache := e_cache e; e_nodLedger := v;
  e_nodBlock := e_nodBlock e; e_threatBlockThreshold := e_threatBlockThreshold e;
  e_threatBlockDryRun := e_threatBlockDryRun e; e_abusedTLDs := e_abusedTLDs e; e_rebindProtection
  := e_rebindProtection e; e_rateLimiter := e_rateLimiter e; e_safeSearch := e_safeSearch e;
  e_alerter := e_alerter e |}.
Definition set_rateLimiter (v : option rateLimiter) (e : Engine) : Engine := {|
  e_upstreamManager := e_upstreamManager e; e_policyEngine := e_policyEngine e; e_blocklist :=
  e_blocklist e; e_nrd := e_nrd e; e_acceptQueries := e_acceptQueries e; e_lastError := e_lastError
  e; e_metrics := e_metrics e; e_queryLog := e_queryLog e; e_qlWriter := e_qlWriter e;
  e_threatDetector := e_threatDetector e; e_exporter := e_exporter e; e_geo := e_geo e; e_fastFlux
  := e_fastFlux e; e_serveStale := e_serveStale e; e_cache := e_cache e; e_nodLedger := e_nodLedger
  e; e_nodBlock := e_nodBlock e; e_threatBlockThreshold := e_threatBlockThreshold e;
  e_threatBlockDryRun := e_threatBlockDryRun e; e_abusedTLDs := e_abusedTLDs e; e_rebindProtection
  := e_rebindProtection e; e_rateLimiter := v; e_safeSearch := e_safeSearch e; e_alerter :=
  e_alerter e |}.
Definition set_alerter (v : option Alerter) (e : Engine) : Engine := {|
  e_upstreamManager := e_upstreamManager e; e_policyEngine := e_policyEngine e; e_blocklist :=
  e_blocklist e; e_nrd := e_nrd e; e_acceptQueries := e_acceptQueries e; e_lastError := e_lastError
  e; e_metrics := e_metrics e; e_queryLog := e_queryLog e; e_qlWriter := e_qlWriter e;
  e_threatDetector := e_threatDetector e; e_exporter := e_exporter e; e_geo := e_geo e; e_fastFlux
  := e_fastFlux e; e_serveStale := e_serveStale e; e_cache := e_cache e; e_nodLedger := e_nodLedger
  e; e_nodBlock := e_nodBlock e; e_threatBlockThreshold := e_threatBlockThreshold e;
  e_threatBlockDryRun := e_threatBlockDryRun e; e_abusedTLDs := e_abusedTLDs e; e_rebindProtection
  := e_rebindProtection e; e_rateLimiter := e_rateLimiter e; e_safeSearch := e_safeSearch e;
  e_alerter := v |}.

(** ** Pure helpers *)

Definition safeSearchTargets : list (string * string) := [
  ("google.com", "forcesafesearch.google.com"); ("www.google.com", "forcesafesearch.google.com");
  ("bing.com", "strict.bing.com"); ("www.bing.com", "strict.bing.com");
  ("duckduckgo.com", "safe.duckduckgo.com");
  ("youtube.com", "restrictmoderate.youtube.com"); ("www.youtube.com", "restrictmoderate.youtube.com");
  ("m.youtube.com", "restrictmoderate.youtube.com");
  ("youtubei.googleapis.com", "restrictmoderate.youtube.com");
  ("youtube.googleapis.com", "restrictmoderate.youtube.com")]%string.
Definition safeSearchTarget (d : string) : option string :=
  (list_to_map safeSearchTargets : gmap string string) !! d.

Definition engine_normalizeDomain (d : string) : string := TrimSuffix (ToLower d) ".".

Definition clientIPFromAddr (addr : string) : string :=
  match SplitHostPort addr with Some (host, _) => host | None => addr end.

Definition clientIPOnly (addr : string) : string :=
  if bool_decide (addr = ""%string) then ""
  else match SplitHostPort addr with Some (host, _) => host | None => addr end.

Definition localSuffixes : gset string := list_to_set [
  "lan"; "local"; "home"; "internal"; "localdomain"; "domain.name"; "hgu_lan"; "fritz.box";
  "mynetwork"; "belkin"; "router"; "gateway"; "dlink"]%string.

Definition stripSearchDomain (domain : string) : string :=
  let parts := Split domain dot in
  let n := length parts in
  if (n <? 3)%nat then domain else
  let lastOne := nth (n - 1) parts ""%string in
  let lastTwo := Join (drop (n - 2) parts) "." in
  if bool_decide (lastTwo ∈ localSuffixes) then Join (take (n - 2) parts) "."
  else if bool_decide (lastOne ∈ localSuffixes) then Join (take (n - 1) parts) "."
  else domain.

Definition isAbusedTLD (e : Engine) (domain : string) : bool :=
  if (size (e_abusedTLDs e) =? 0)%nat then false else
  let tld := match LastIndexByte domain dot with
             | Some i => drop_bytes (S i) domain
             | None => domain
             end in
  bool_decide (ToLower tld ∈ e_abusedTLDs e).

Definition shouldEnforceThreat (tr : Result) (threshold : float64) : bool :=
  f64_ltb f64_zero threshold && r_IsSuspicious tr && f64_leb threshold (r_ThreatScore tr).

Definition threatDecision (e : Engine) (tr : Result) : threatAction :=
  if negb (shouldEnforceThreat tr (e_threatBlockThreshold e)) then threatNone
  else if e_threatBlockDryRun e then threatDryRun else threatBlock.

(** The address classes of the rebinding filter. *)
Definition internal_ip (ip : IP) : bool :=
  IsPrivate ip || IsLoopback ip || IsLinkLocalUnicast ip || IsLinkLocalMulticast ip || IsUnspecified ip.

Definition rebind_step (acc : list RR * Z) (rr : RR) : list RR * Z :=
  let '(kept, dropped) := acc in
  match rr with
  | RR_A _ ip | RR_AAAA _ ip =>
      if internal_ip ip then (kept, dropped + 1) else (kept ++ [rr], dropped)
  | _ => (kept ++ [rr], dropped)
  end.
Definition filterRebind (answers : list RR) : list RR * Z := foldl rebind_step ([], 0) answers.

Definition answerIPs (resp : Msg) : list IP :=
  omap (λ rr, match rr with RR_A _ ip | RR_AAAA _ ip => Some ip | _ => None end) (m_Answer resp).

Definition enrichThreat (tr : Result) (reason : string) : Result := {|
  r_IsSuspicious := true;
  r_ThreatScore := if f64_eqb (r_ThreatScore tr) f64_zero then f64_lit 6 1 else r_ThreatScore tr;
  r_DetectionMethod := if bool_decide (r_DetectionMethod tr = ""%string) then "geoip" else r_DetectionMethod tr;
  r_Reason := if bool_decide (r_Reason tr = ""%string) then reason else r_Reason tr;
  r_Block := r_Block tr |}.

(** The annotations of the allow path. *)
Definition annotate_nod (tr : Result) : Result := {|
  r_IsSuspicious := true; r_ThreatScore := r_ThreatScore tr;
  r_DetectionMethod := if bool_decide (r_DetectionMethod tr = ""%string) then "nod" else r_DetectionMethod tr;
  r_Reason := if bool_decide (r_Reason tr = ""%string)
              then "newly observed domain (first seen within NOD window)" else r_Reason tr;
  r_Block := r_Block tr |}.
Definition annotate (method reason : string) (tr : Result) : Result := {|
  r_IsSuspicious := true; r_ThreatScore := r_ThreatScore tr; r_DetectionMethod := method;
  r_Reason := reason; r_Block := r_Block tr |}.

(** ** Replies *)

Definition blocked_reply (r : Msg) (q : Question) : Msg :=
  let m := SetReply r in
  let rr := if q_Qtype q =? TypeAAAA then NewRR (q_Name q +:+ " 60 IN AAAA ::")
            else NewRR (q_Name q +:+ " 60 IN A 0.0.0.0") in
  match rr with Some rr => set_answer m (m_Answer m ++ [rr]) | None => m end.

Definition redirect_reply (r : Msg) (domain ip : string) : Msg :=
  match NewRR (domain +:+ " 60 IN A " +:+ ip) with
  | Some rr => set_answer (SetReply r) (m_Answer (SetReply r) ++ [rr])
  | None => SetRcode r RcodeServerFailure
  end.

Definition safesearch_reply (r : Msg) (q : Question) (target : string) : Msg :=
  match NewRR (q_Name q +:+ " 60 IN CNAME " +:+ Fqdn target) with
  | Some rr => set_answer (SetReply r) (m_Answer (SetReply r) ++ [rr])
  | None => SetRcode r RcodeServerFailure
  end.

(** ** Construction and control *)

Definition add_tld (m : gset string) (t : string) : gset string :=
  let t := ToLower (TrimSpace t) in if bool_decide (t = ""%string) then m else {[t]} ∪ m.

(** [NewExporter]; [syslog_ok] says whether the syslog target parses and can be
    dialled. *)
Definition NewExporter (syslog_ok : bool) (syslogAddr webhookURL : string) : option (Exporter Event) :=
  let syslog := negb (bool_decide (TrimSpace syslogAddr = ""%string)) && syslog_ok in
  let webhook := negb (bool_decide (TrimSpace webhookURL = ""%string)) in
  if syslog || webhook then Some {| ex_queue := []; ex_closed := false; ex_dropped := 0 |} else None.

(** [NewDNSEngine] at [now] (Unix seconds), with the two repositories attached or
    not and the alerting configuration of the environment. *)
Definition NewDNSEngine (now : Z) (queryLogs statistics syslog_ok : bool) (alertCfg : AlertConfig)
  (cfg : DataPlaneConfig) (pE : option PEngine) : result upstream_error Engine :=
  let? mgr := NewUpstreamManager (cf_UpstreamResolvers cfg) 4 (cf_DNS0x20 cfg) in
  Ok {|
    e_upstreamManager := Some mgr; e_policyEngine := pE; e_blocklist := None; e_nrd := None;
    e_acceptQueries := false; e_lastError := None; e_metrics := NewQueryMetrics now;
    e_queryLog := queryLogs;
    e_qlWriter := Some (newQueryLogWriter statistics (Some 0) (cf_QueryLogBufferSize cfg) (cf_QueryLogWorkers cfg));
    e_threatDetector := Some (SetTyposquatBlock (cf_TyposquatBlock cfg) (NewDetectorWithBrands (cf_TyposquatBrands cfg)));
    e_exporter := NewExporter syslog_ok (cf_SyslogAddr cfg) (cf_EventWebhookURL cfg);
    e_geo := None;
    e_fastFlux := if cf_FastFluxDetection cfg
                  then Some (newFastFluxTracker (cf_FastFluxIPThreshold cfg) (cf_FastFluxTTLMaxSec cfg)
                               defaultFastFluxWindow defaultFastFluxMaxDomains)
                  else None;
    e_serveStale := cf_ServeStale cfg;
    e_cache := if cf_ServeStale cfg then Some (newAnswerCache defaultCacheSize defaultStaleFor) else None;
    e_nodLedger := if 0 <? cf_NODWindowHours cfg
                   then Some (newNODLedger (wrap_int64 (cf_NODWindowHours cfg * hour)) nodDefaultMaxEntries) else None;
    e_nodBlock := cf_NODBlock cfg;
    e_threatBlockThreshold := cf_ThreatBlockThreshold cfg;
    e_threatBlockDryRun := cf_ThreatBlockDryRun cfg;
    e_abusedTLDs := foldl add_tld ∅ (cf_AbusedTLDs cfg);
    e_rebindProtection := cf_RebindProtection cfg;
    e_rateLimiter := Some (newRateLimiter (cf_ClientRateLimitPerSec cfg));
    e_safeSearch := cf_SafeSearch cfg;
    e_alerter := Some (NewAlerter alertCfg None) |}.

Definition AttachBlocklistChecker := set_blocklist.
Definition AttachGeoFilter := set_geo.
Definition AttachNRDChecker := set_nrd.
Definition AttachDeviceResolver (r : option (string → option DeviceInfo)) (e : Engine) : Engine :=
  match e_alerter e with
  | None => e
  | Some a => set_alerter (Some (SetResolver r a)) e
  end.
Definition SetAcceptQueries := set_accept.

Record Status := { st_Running : bool; st_AcceptingQueries : bool; st_PolicyEnabled : bool; st_LastError : string }.
Definition engine_Status (e : Engine) : Status := {|
  st_Running := true; st_AcceptingQueries := e_acceptQueries e; st_PolicyEnabled := false;
  st_LastError := default ""%string (e_lastError e) |}.

(** ** The handler monad *)

(** [Logged] is a call of [logQuery]; the row may still be dropped by a full queue. *)
Inductive effect :=
| Wrote (m : Msg)
| Exchanged (q : Msg)
| Logged (ev : Event) (reason : string)
| Fired (a : Alert).

(** What one query finds outside the engine. *)
Record QueryEnv := {
  q_remote : option string;             (* w.RemoteAddr().String() *)
  q_coins : coins;                      (* the 0x20 draws *)
  t_rate : Z; t_start : Z; t_policy : Z; t_nod : Z; t_cache : Z; t_flux : Z; t_log : Z;
  t_blocked : Z; t_alert : Z; t_end : Z;
  ord_nod : list (string * Z);          (* iteration orders of the two ledgers *)
  ord_ff : list (string * ffDomainEntry);
}.

Context {W : Type}.
(** One [Exchange] of the i-th upstream of a manager. *)
Context (xchg : UpstreamManager → nat → Msg → W → result upstream_error (option Msg) * W).

Record hstate := { h_engine : Engine; h_world : W; h_trace : list effect }.
Definition handler (A : Type) : Type := hstate → option (A * hstate).

#[global] Instance handler_ret : MRet handler := λ A a s, Some (a, s).
#[global] Instance handler_bind : MBind handler := λ A B k m s,
  match m s with Some (a, s') => k a s' | None => None end.

Definition panic {A} : handler A := λ _, None.
Definition get_engine : handler Engine := λ s, Some (h_engine s, s).
Definition modify (f : Engine → Engine) : handler unit := λ s,
  Some (tt, {| h_engine := f (h_engine s); h_world := h_world s; h_trace := h_trace s |}).
Definition emit (x : effect) : handler unit := λ s,
  Some (tt, {| h_engine := h_engine s; h_world := h_world s; h_trace := h_trace s ++ [x] |}).
Definition write_msg (m : Msg) : handler unit := emit (Wrote m).

(** ** logQuery and recordBlocked *)

(** [Submit] of the writer, whose metrics pointer is the engine's own
    [QueryMetrics]: the drop counter is shared. *)
Definition submit_shared (q : DNSQuery) (sa : string) (ow : option queryLogWriter) (qm : QueryMetrics)
  : option (option queryLogWriter * QueryMetrics) :=
  let ow := (λ w, {| w_queue := w_queue w; w_cap := w_cap w; w_stats := w_stats w; w_closed := w_closed w;
                     w_dropped := w_dropped w;
                     w_metricsDropped := (λ _, qm_queryLogDropped qm) <$> w_metricsDropped w;
                     w_idle := w_idle w; w_busy := w_busy w; w_saved := w_saved w;
                     w_counted := w_counted w |}) <$> ow in
  match Submit q sa ow with
  | None => None
  | Some ow' =>
      Some (ow', {| qm_windowSec := qm_windowSec qm; qm_sliceSec := qm_sliceSec qm;
                    qm_slices := qm_slices qm; qm_current := qm_current qm;
                    qm_queryLogDropped := default (qm_queryLogDropped qm) (ow' ≫= w_metricsDropped) |})
  end.

Definition event_of (env : QueryEnv) (domain clientIP action : string) (tr : Result) : Event := {|
  ev_Timestamp := t_log env; ev_Domain := domain; ev_ClientIP := clientIP; ev_Action := action;
  ev_IsSuspicious := r_IsSuspicious tr; ev_ThreatScore := r_ThreatScore tr;
  ev_DetectionMethod := r_DetectionMethod tr; ev_ThreatReason := r_Reason tr |}.

Definition row_of (domain clientIP action reason : string) (tr : Result) : DNSQuery := {|
  dq_Domain := domain; dq_ClientIP := clientIP; dq_Action := action; dq_BlockReason := reason;
  dq_IsSuspicious := r_IsSuspicious tr; dq_ThreatScore := r_ThreatScore tr;
  dq_DetectionMethod := r_DetectionMethod tr; dq_ThreatReason := r_Reason tr |}.

Definition logQuery (env : QueryEnv) (domain clientIP action reason : string) (tr : Result) : handler unit :=
  emit (Logged (event_of env domain clientIP action tr) reason);;
  e ← get_engine;
  match Export (event_of env domain clientIP action tr) (e_exporter e) with
  | None => panic
  | Some ex =>
      modify (set_exporter ex);;
      if negb (e_queryLog e) then mret tt else
      let statsAction := if bool_decide (action = "flagged"%string) then "allow"%string else action in
      match submit_shared (row_of domain clientIP action reason tr) statsAction (e_qlWriter e) (e_metrics e) with
      | None => panic
      | Some (w, qm) => modify (set_writer w qm)
      end
  end.

Definition recordBlocked (env : QueryEnv) (clientAddr domain : string) : handler unit :=
  e ← get_engine;
  match e_alerter e with
  | None => mret tt
  | Some _ =>
      let '(fired, a) := RecordBlocked (t_alert env) (clientIPOnly clientAddr) domain (e_alerter e) in
      modify (set_alerter a);;
      match fired with Some al => emit (Fired al) | None => mret tt end
  end.

(** [e.metrics.RecordBlocked()] *)
Definition count_blocked (env : QueryEnv) : handler unit :=
  modify (λ e, set_metrics (RecordBlockedMetric (t_blocked env / second) (e_metrics e)) e).

(** ** forwardUpstream *)

Definition upstream_exchange (env : QueryEnv) (r : Msg) : handler (option Msg) :=
  λ s, match e_upstreamManager (h_engine s) with
       | None => Some (None, s)
       | Some m =>
           let '((resp, err), w') := mgr_Exchange (xchg m) m (q_coins env) r 2 (h_world s) in
           Some (match err with Some _ => None | None => resp end,
                 {| h_engine := h_engine s; h_world := w'; h_trace := h_trace s ++ [Exchanged r] |})
       end.

(** The failure path: a stale answer when one is held, else SERVFAIL. *)
Definition respond_failure (env : QueryEnv) (r : Msg) (q : Question) : handler forwardOutcome :=
  e ← get_engine;
  match (if e_serveStale e then e_cache e else None) with
  | Some c =>
      let '(ent, c') := GetStale (t_cache env) (cacheKey q) c in
      modify (set_cache (Some c'));;
      match ent with
      | Some ent => write_msg (cache_reply ent r staleTTL);; mret no_outcome
      | None => write_msg (SetRcode r RcodeServerFailure);; mret no_outcome
      end
  | None => write_msg (SetRcode r RcodeServerFailure);; mret no_outcome
  end.

Definition cache_answer (env : QueryEnv) (q : Question) (resp : Msg) : handler unit :=
  modify (λ e, match (if e_serveStale e then e_cache e else None) with
               | Some c => if m_Rcode resp =? RcodeSuccess
                           then set_cache (Some (Put (t_cache env) (cacheKey q) resp c)) e else e
               | None => e
               end).

Definition observe_flux (env : QueryEnv) (domain : string) (resp : Msg) : handler bool :=
  e ← get_engine;
  match e_fastFlux e, extractAnswerIPs resp with
  | Some _, Some (ips, ttl) =>
      let '(hit, t) := ff_observe (ord_ff env) (t_flux env) domain ips ttl (e_fastFlux e) in
      modify (set_fastFlux t);; mret hit
  | _, _ => mret false
  end.

(** The answer after the rebinding filter: [None] when the reply is blocked. *)
Definition rebind_filter (e : Engine) (q : Question) (resp : Msg) : option Msg :=
  if e_rebindProtection e then
    let '(kept, dropped) := filterRebind (m_Answer resp) in
    if 0 <? dropped then
      if bool_decide (kept = []) && ((q_Qtype q =? TypeA) || (q_Qtype q =? TypeAAAA)) then None
      else Some (set_answer resp kept)
    else Some resp
  else Some resp.

Definition forwardUpstream (env : QueryEnv) (r : Msg) (q : Question) (domain : string)
  : handler forwardOutcome :=
  oresp ← upstream_exchange env r;
  match oresp with
  | None => respond_failure env r q
  | Some resp =>
      cache_answer env q resp;;
      flux ← observe_flux env domain resp;
      e ← get_engine;
      match rebind_filter e q resp with
      | None => write_msg (blocked_reply r q);;
                mret {| fo_fastFlux := flux; fo_geoMatched := false; fo_geoBlocked := false; fo_geoReason := "" |}
      | Some resp =>
          let d := geo_Evaluate (e_geo e) (answerIPs resp) in
          if gd_Matched d then
            if gd_Block d then
              write_msg (blocked_reply r q);;
              mret {| fo_fastFlux := flux; fo_geoMatched := true; fo_geoBlocked := true; fo_geoReason := gd_Reason d |}
            else
              write_msg resp;;
              mret {| fo_fastFlux := flux; fo_geoMatched := true; fo_geoBlocked := false; fo_geoReason := gd_Reason d |}
          else
            write_msg resp;;
            mret {| fo_fastFlux := flux; fo_geoMatched := false; fo_geoBlocked := false; fo_geoReason := "" |}
      end
  end.

(** ** ProcessDNSQuery *)

(** The end of the allow path: forward, then log what the detectors saw. *)
Definition forward_and_log (env : QueryEnv) (r : Msg) (q : Question) (domain clientIP action reason : string)
  (tr : Result) : handler bool :=
  o ← forwardUpstream env r q domain;
  let '(action, tr, reason) :=
    if fo_fastFlux o then
      let tr := if r_IsSuspicious tr then tr
                else annotate "fast-flux" "fast-flux: distinct-IP churn with low TTL" tr in
      ("flagged"%string, tr, r_DetectionMethod tr)
    else (action, tr, reason) in
  let '(action, tr, reason) :=
    if fo_geoMatched o then
      let tr := enrichThreat tr (fo_geoReason o) in
      (if fo_geoBlocked o then "block" else "flagged", tr, r_DetectionMethod tr)%string
    else (action, tr, reason) in
  logQuery env domain clientIP action reason tr;;
  mret true.

(** A block without the alerter and the blocked counter. *)
Definition block_quietly (env : QueryEnv) (r : Msg) (q : Question) (domain clientIP reason : string)
  (tr : Result) : handler bool :=
  logQuery env domain clientIP "block" reason tr;; write_msg (blocked_reply r q);; mret true.

(** A block that counts: blocklist hits and policy denials. *)
Definition block_counted (env : QueryEnv) (r : Msg) (q : Question) (domain clientIP reason : string)
  (tr : Result) : handler bool :=
  logQuery env domain clientIP "block" reason tr;;
  count_blocked env;;
  recordBlocked env clientIP domain;;
  write_msg (blocked_reply r q);;
  mret true.

(** The [default] case of the switch on the policy decision. *)
Definition allow_path (env : QueryEnv) (r : Msg) (q : Question) (domain clientIP : string)
  (tr : Result) (nrdListed : bool) (decision : Decision) : handler bool :=
  e ← get_engine;
  if (match threatDecision e tr with threatBlock => true | _ => false end) then
    block_quietly env r q domain clientIP ("threat:" +:+ r_DetectionMethod tr) tr
  else if bool_decide (d_PolicyID decision = ""%string) && isAbusedTLD e domain then
    block_quietly env r q domain clientIP "abused-tld" tr
  else
  match (if e_safeSearch e then safeSearchTarget domain else None) with
  | Some target =>
      logQuery env domain clientIP "allow" "" tr;; write_msg (safesearch_reply r q target);; mret true
  | None =>
      nodNew ← (match e_nodLedger e with
                | None => mret false
                | Some l => let '(isNew, l') := nod_observe (ord_nod env) (t_nod env) domain l in
                            modify (set_nod (Some l'));; mret isNew
                end);
      if nodNew && e_nodBlock e then block_quietly env r q domain clientIP "nod" tr
      else
      let tr := if nodNew then annotate_nod tr else tr in
      if r_IsSuspicious tr then
        if r_Block tr then block_quietly env r q domain clientIP (r_DetectionMethod tr) tr
        else forward_and_log env r q domain clientIP "flagged" (r_DetectionMethod tr) tr
      else if nrdListed then
        forward_and_log env r q domain clientIP "flagged" "nrd"
          (annotate "nrd" "newly-registered domain (on NRD feed)" tr)
      else forward_and_log env r q domain clientIP "allow" "" tr
  end.

Definition policy_path (env : QueryEnv) (r : Msg) (q : Question) (domain clientIP : string)
  (tr : Result) (nrdListed : bool) : handler bool :=
  e ← get_engine;
  match e_policyEngine e with
  | None => panic
  | Some pe =>
      match Evaluate pe (t_policy env) domain clientIP with
      | Err _ =>
          logQuery env domain clientIP "error" "" tr;;
          write_msg (SetRcode r RcodeServerFailure);; mret false
      | Ok decision =>
          match d_Action decision with
          | ActionDeny => block_counted env r q domain clientIP (d_PolicyID decision) tr
          | ActionRedirect =>
              logQuery env domain clientIP "redirect" ("redirect:" +:+ d_PolicyID decision) tr;;
              write_msg (redirect_reply r domain (d_RedirectIP decision));; mret true
          | ActionAllow => allow_path env r q domain clientIP tr nrdListed decision
          end
      end
  end.

(** Everything between the guards and the deferred metrics record: [success]. *)
Definition process_body (env : QueryEnv) (r : Msg) (q : Question) : handler bool :=
  e ← get_engine;
  let domain := stripSearchDomain (engine_normalizeDomain (q_Name q)) in
  let clientIP := default ""%string (q_remote env) in
  let tr := match e_threatDetector e with Some d => Analyze d domain | None => no_result end in
  if (match e_blocklist e with
      | Some check => match check domain with Ok b => b | Err _ => false end
      | None => false
      end) then
    if (match e_policyEngine e with
        | Some pe => IsExplicitlyAllowed pe (t_policy env) domain clientIP
        | None => false
        end) then
      logQuery env domain clientIP "allow" "allow-override" tr;;
      _ ← forwardUpstream env r q domain;
      mret true
    else block_counted env r q domain clientIP "blocklist" tr
  else
  let nrdListed := match e_nrd e with Some n => nrdc_IsListed n domain | None => false end in
  if nrdListed && (match e_nrd e with Some n => nrdc_BlockMode n | None => false end)
  then block_quietly env r q domain clientIP "nrd" tr
  else policy_path env r q domain clientIP tr nrdListed.

Definition refuse (r : Msg) : handler unit := write_msg (SetRcode r RcodeRefused).

Definition ProcessDNSQuery (env : QueryEnv) (or : option Msg) : handler unit :=
  match or with
  | None => mret tt
  | Some r =>
      match m_Question r with
      | [] => mret tt
      | q :: _ =>
          e ← get_engine;
          if negb (e_acceptQueries e) then refuse r else
          let rlClientIP := match q_remote env with Some a => clientIPFromAddr a | None => ""%string end in
          let '(ok, rl) := allow (e_rateLimiter e) (t_rate env) rlClientIP in
          modify (set_rateLimiter rl);;
          if negb ok then refuse r else
          success ← process_body env r q;
          modify (λ e, set_metrics (Record_ (t_end env / second) (time_sub (t_end env) (t_start env)) success
                                      (e_metrics e)) e)
      end
  end.

(** [Close] of the writer returns when the workers have persisted what was taken
    and what was queued; they may do so in another order than this. *)
Definition close_writer (w : queryLogWriter) : queryLogWriter :=
  foldl (λ w ent, persist ent w)
    (w_with_queue (close_queue w) [] (w_idle w + length (w_busy w)) []) (w_busy w ++ w_queue w).

(** [SetUpstreamResolvers] and [Shutdown]; [close_mgr] is [Close] of a manager's
    transports. *)
Context (close_mgr : UpstreamManager → W → W).

Definition SetUpstreamResolvers (resolvers : list string) (e : Engine) (w : W)
  : option upstream_error * (Engine * W) :=
  match NewUpstreamManager resolvers 4 false with
  | Err err => (Some err, (e, w))
  | Ok mgr =>
      (None, (set_upstream (Some mgr) e,
              match e_upstreamManager e with Some old => close_mgr old w | None => w end))
  end.

Definition Shutdown (e : Engine) (w : W) : Engine * W :=
  let w := match e_upstreamManager e with Some m => close_mgr m w | None => w end in
  let e := set_exporter ((λ x, {| ex_queue := []; ex_closed := true; ex_dropped := ex_dropped x |}) <$> e_exporter e) e in
  let e := set_writer (close_writer <$> e_qlWriter e) (e_metrics e) e in
  (e, w).
End Engine.
