(* ===== verification/EngineSpec.v ===== *)
(** * What a query does: the decision table and the engine's guarantees

    The handler of DnsEngine.v against a flat specification: an ordered list of
    rules, the first of which that applies decides the query. Below it, the
    guarantees that hold on every path: one response per query, no answer with an
    internal address when rebinding protection is on, nothing but a refusal for a
    query that is not accepted. *)
From S2P Require Import Prelude GoStrings GoNet Policy PolicyEngine DnsMsg AnswerCache RateLimiter.
From S2P Require Import Trackers Case0x20 Upstream QueryLog Alert Metrics Threat GeoIp Blocklist DnsEngine Config.

(** ** Running a handler step by step *)

Section Steps.
Context `{BL : BloomLib} `{RX : RegexpLib} {W : Type} {A B : Type}.
Implicit Types (s : hstate (W := W)).

Lemma bind_run (m : handler A) (k : A → handler B) s a s' :
  m s = Some (a, s') → (m ≫= k) s = k a s'.
Proof. intros H. unfold mbind, handler_bind. by rewrite H. Qed.
Lemma bind_get (k : Engine → handler B) s : (get_engine ≫= k) s = k (h_engine s) s.
Proof. done. Qed.
Lemma bind_modify f (k : unit → handler B) s :
  (modify f ≫= k) s = k tt {| h_engine := f (h_engine s); h_world := h_world s; h_trace := h_trace s |}.
Proof. done. Qed.
Lemma bind_emit x (k : unit → handler B) s :
  (emit x ≫= k) s = k tt {| h_engine := h_engine s; h_world := h_world s; h_trace := h_trace s ++ [x] |}.
Proof. done. Qed.
Lemma bind_ret a (k : A → handler B) s : (mret a ≫= k) s = k a s.
Proof. done. Qed.
Lemma bind_assoc {C} (m : handler A) (k : A → handler B) (l : B → handler C) s :
  ((m ≫= k) ≫= l) s = (m ≫= λ a, k a ≫= l) s.
Proof. unfold mbind, handler_bind. by destruct (m s) as [[? ?]|]. Qed.
End Steps.

(** Reads, updates, effects and returns at the head of a run. *)
Ltac hstep :=
  unfold write_msg;
  repeat first [rewrite bind_get | rewrite bind_modify | rewrite bind_emit | rewrite bind_ret | rewrite bind_assoc];
  cbn [h_engine h_world h_trace].

Section Spec.
Context `{U : GoUnicode} `{TZ : TzDatabase} `{BL : BloomLib} `{RX : RegexpLib} `{DL : DnsLib}
        `{TE : ThreatEnv} `{TR : TransportEnv}.
Context {W : Type}.
Context (xchg : UpstreamManager → nat → Msg → W → result upstream_error (option Msg) * W).

(** ** Answers *)

Definition internal_rr (rr : RR) : bool :=
  match rr with RR_A _ ip | RR_AAAA _ ip => internal_ip ip | _ => false end.

Lemma filterRebind_spec answers :
  filterRebind answers = (List.filter (λ rr, negb (internal_rr rr)) answers,
                          Z.of_nat (length (List.filter internal_rr answers))).
Proof.
  unfold filterRebind.
  assert (∀ l k n, foldl rebind_step (k, n) l =
    (k ++ List.filter (λ rr, negb (internal_rr rr)) l, n + Z.of_nat (length (List.filter internal_rr l)))) as H.
  { induction l as [|rr l IH]; intros k n; simpl; [rewrite app_nil_r; f_equal; lia|].
    destruct rr; simpl; try destruct (internal_ip ip); simpl; rewrite IH; simpl;
      rewrite <- ?app_assoc; simpl; f_equal; lia. }
  rewrite H. simpl. f_equal; lia.
Qed.

Lemma set_answer_same m : set_answer m (m_Answer m) = m.
Proof. by destruct m. Qed.

Lemma filter_none {A} (f : A → bool) l :
  length (List.filter f l) = 0%nat → List.filter (λ x, negb (f x)) l = l.
Proof. induction l as [|a l IH]; simpl; [done|]. destruct (f a); simpl; intros; [done|]. f_equal. auto. Qed.

Definition keep_public (l : list RR) : list RR := List.filter (λ rr, negb (internal_rr rr)) l.
Definition wants_address (q : Question) : bool := (q_Qtype q =? TypeA) || (q_Qtype q =? TypeAAAA).

Lemma filter_dropped (l : list RR) : keep_public l = [] → l ≠ [] → 0 < Z.of_nat (length (List.filter internal_rr l)).
Proof.
  unfold keep_public. destruct l as [|rr l]; [done|]. simpl. destruct (internal_rr rr); simpl; [lia|done].
Qed.

Lemma rebind_filter_eq e q resp :
  let kept := if e_rebindProtection e then keep_public (m_Answer resp) else m_Answer resp in
  rebind_filter e q resp =
    if e_rebindProtection e && bool_decide (kept = []) && bool_decide (m_Answer resp ≠ []) && wants_address q
    then None else Some (set_answer resp kept).
Proof.
  intros kept. unfold rebind_filter, kept. destruct (e_rebindProtection e); simpl; [|by rewrite set_answer_same].
  rewrite filterRebind_spec. fold (keep_public (m_Answer resp)) (wants_address q).
  destruct (Z.ltb_spec 0 (Z.of_nat (length (List.filter internal_rr (m_Answer resp))))) as [Hd|Hd].
  - assert (m_Answer resp ≠ []) as Hne by (intros E; rewrite E in Hd; simpl in Hd; lia).
    rewrite (bool_decide_eq_true_2 (m_Answer resp ≠ [])) by done. by rewrite andb_true_r.
  - assert (bool_decide (keep_public (m_Answer resp) = []) && bool_decide (m_Answer resp ≠ []) = false) as ->.
    { apply andb_false_iff. destruct (decide (m_Answer resp = [])) as [E|E].
      - right. by apply bool_decide_eq_false_2; intros H.
      - left. apply bool_decide_eq_false_2. intros H. pose proof (filter_dropped _ H E). lia. }
    simpl. unfold keep_public. rewrite filter_none by lia. by rewrite set_answer_same.
Qed.

(** ** The decision table *)

Inductive verdict :=
| VBlock (counted : bool) (reason : string) (tr : Result)
| VRedirect (id ip : string)
| VSafeSearch (target : string)
| VOverride
| VForward (action reason : string) (tr : Result).

Section Table.
Context (e : Engine) (env : QueryEnv) (pe : PEngine) (d client : string).

Definition score : Result :=
  match e_threatDetector e with Some det => Analyze det d | None => no_result end.
Definition blocklisted : bool :=
  match e_blocklist e with
  | Some check => match check d with Ok b => b | Err _ => false end
  | None => false
  end.
Definition nrd_listed : bool := match e_nrd e with Some n => nrdc_IsListed n d | None => false end.
Definition nrd_blocks : bool := match e_nrd e with Some n => nrdc_BlockMode n | None => false end.
Definition nod_new : bool :=
  match e_nodLedger e with Some l => (nod_observe (ord_nod env) (t_nod env) d l).1 | None => false end.
Definition nod_score : Result := if nod_new then annotate_nod score else score.
Definition policy_says : Decision :=
  match Evaluate pe (t_policy env) d client with Ok dec => dec | Err _ => default_decision end.
Definition safesearch : option string := if e_safeSearch e then safeSearchTarget d else None.

(** The rules, in the order of precedence. *)
Definition rules : list (bool * verdict) := [
  (blocklisted && IsExplicitlyAllowed pe (t_policy env) d client, VOverride);
  (blocklisted, VBlock true "blocklist" score);
  (nrd_listed && nrd_blocks, VBlock false "nrd" score);
  (match d_Action policy_says with ActionDeny => true | _ => false end,
     VBlock true (d_PolicyID policy_says) score);
  (match d_Action policy_says with ActionRedirect => true | _ => false end,
     VRedirect (d_PolicyID policy_says) (d_RedirectIP policy_says));
  (match threatDecision e score with threatBlock => true | _ => false end,
     VBlock false ("threat:" +:+ r_DetectionMethod score) score);
  (bool_decide (d_PolicyID policy_says = ""%string) && isAbusedTLD e d, VBlock false "abused-tld" score);
  (bool_decide (is_Some safesearch), VSafeSearch (default ""%string safesearch));
  (nod_new && e_nodBlock e, VBlock false "nod" score);
  (r_IsSuspicious nod_score && r_Block nod_score, VBlock false (r_DetectionMethod nod_score) nod_score);
  (r_IsSuspicious nod_score, VForward "flagged" (r_DetectionMethod nod_score) nod_score);
  (nrd_listed, VForward "flagged" "nrd" (annotate "nrd" "newly-registered domain (on NRD feed)" nod_score))
].
Definition spec_verdict : verdict :=
  default (VForward "allow" "" nod_score)
    (first_match (λ '(applies, v), if (applies : bool) then Some v else None) rules).

(** The answer of the upstreams to [r] from the transports' state [w]: none when there
    is no manager, every attempt failed or the response is nil. *)
Definition upstream_answer (w : W) (r : Msg) : option Msg :=
  match e_upstreamManager e with
  | None => None
  | Some m => match (mgr_Exchange (xchg m) m (q_coins env) r 2 w).1 with
              | (resp, None) => resp
              | (_, Some _) => None
              end
  end.
Definition stale_entry (q : Question) : option cacheEntry :=
  match (if e_serveStale e then e_cache e else None) with
  | Some cache => (GetStale (t_cache env) (cacheKey q) cache).1
  | None => None
  end.

(** The reply to a forwarded query: the upstream's answer without internal addresses,
    the sinkhole when the filters leave nothing to send, and without an answer a stale
    one or SERVFAIL. *)
Definition forward_reply (w : W) (r : Msg) (q : Question) : Msg :=
  match upstream_answer w r with
  | None => match stale_entry q with
            | Some ent => cache_reply ent r staleTTL
            | None => SetRcode r RcodeServerFailure
            end
  | Some resp =>
      let kept := if e_rebindProtection e then keep_public (m_Answer resp) else m_Answer resp in
      if e_rebindProtection e && bool_decide (kept = []) && bool_decide (m_Answer resp ≠ []) && wants_address q
      then blocked_reply r q
      else let g := geo_Evaluate (e_geo e) (answerIPs (set_answer resp kept)) in
           if gd_Matched g && gd_Block g then blocked_reply r q else set_answer resp kept
  end.

(** What the detectors of the answer see: whether its addresses make the name one of fast
    flux, and the GeoIP filter's match on the records that are left for the client. *)
Definition flux_seen (resp : Msg) : bool :=
  match e_fastFlux e, extractAnswerIPs resp with
  | Some _, Some (ips, ttl) => (ff_observe (ord_ff env) (t_flux env) d ips ttl (e_fastFlux e)).1
  | _, _ => false
  end.
Definition geo_seen (q : Question) (resp : Msg) : option GeoDecision :=
  let kept := if e_rebindProtection e then keep_public (m_Answer resp) else m_Answer resp in
  if e_rebindProtection e && bool_decide (kept = []) && bool_decide (m_Answer resp ≠ []) && wants_address q then None
  else let g := geo_Evaluate (e_geo e) (answerIPs (set_answer resp kept)) in if gd_Matched g then Some g else None.
Definition answer_seen (w : W) (r : Msg) (q : Question) : bool * option GeoDecision :=
  match upstream_answer w r with
  | None => (false, None)
  | Some resp => (flux_seen resp, geo_seen q resp)
  end.

(** The row of a forwarded query: a GeoIP match decides its action, fast flux alone flags
    it, each fills in what the threat score leaves open, and without either it is the
    rule's own. *)
Definition forwarded_row (w : W) (r : Msg) (q : Question) (action reason : string) (tr : Result) : string * string * Result :=
  let '(flux, geo) := answer_seen w r q in
  let fluxed := if flux && negb (r_IsSuspicious tr)
                then annotate "fast-flux" "fast-flux: distinct-IP churn with low TTL" tr else tr in
  match geo with
  | Some g => let located := enrichThreat fluxed (gd_Reason g) in
              (if gd_Block g then "block" else "flagged", r_DetectionMethod located, located)%string
  | None => if flux then ("flagged"%string, r_DetectionMethod fluxed, fluxed) else (action, reason, tr)
  end.

(** The visible effects of a verdict on the query [r] with question [q], in order. *)
Definition exchanged (r : Msg) : list effect :=
  match e_upstreamManager e with Some _ => [Exchanged r] | None => [] end.

Definition effects_of (w : W) (r : Msg) (q : Question) (v : verdict) (effs : list effect) : Prop :=
  match v with
  | VBlock counted reason tr =>
      effs = Logged (event_of env d client "block" tr) reason ::
        (if counted then Fired <$> option_list (RecordBlocked (t_alert env) (clientIPOnly client) d (e_alerter e)).1
         else []) ++ [Wrote (blocked_reply r q)]
  | VRedirect id ip =>
      effs = [Logged (event_of env d client "redirect" score) ("redirect:" +:+ id); Wrote (redirect_reply r d ip)]
  | VSafeSearch target =>
      effs = [Logged (event_of env d client "allow" score) ""; Wrote (safesearch_reply r q target)]
  | VOverride =>
      effs = Logged (event_of env d client "allow" score) "allow-override" ::
        exchanged r ++ [Wrote (forward_reply w r q)]
  | VForward action reason tr =>
      let '(action', reason', tr') := forwarded_row w r q action reason tr in
      effs = exchanged r ++ [Wrote (forward_reply w r q); Logged (event_of env d client action' tr') reason']
  end.
End Table.

(** ** Running the handlers *)

Definition queues_open (e : Engine) : Prop :=
  (∀ x, e_exporter e = Some x → ex_closed x = false) ∧
  (∀ w, e_qlWriter e = Some w → w_closed w = false).

Lemma try_send_open {A} cap (q : list A) a : ∃ r, try_send cap false q a = Some r.
Proof. unfold try_send. case_match; eauto. Qed.

Lemma Export_open (ev : Event) ox :
  (∀ x, ox = Some x → ex_closed x = false) →
  ∃ ox', Export ev ox = Some ox' ∧ ∀ x, ox' = Some x → ex_closed x = false.
Proof.
  intros H. destruct ox as [x|]; simpl; [|eauto]. pose proof (H x eq_refl) as Hc. rewrite Hc.
  destruct (try_send_open exportQueueSize (ex_queue x) ev) as [[q|] ->]; eexists; split; try done;
    by intros x' [= <-].
Qed.

Lemma submit_open q sa ow qm :
  (∀ w, ow = Some w → w_closed w = false) →
  ∃ ow' qm', submit_shared q sa ow qm = Some (ow', qm') ∧ (∀ w, ow' = Some w → w_closed w = false) ∧
    qm_slices qm' = qm_slices qm.
Proof.
  intros H. unfold submit_shared. destruct ow as [w|]; simpl; [|by eexists _, _].
  pose proof (H w eq_refl) as Hc. rewrite Hc.
  destruct (try_send_open (w_cap w) (w_queue w) {| qe_query := q; qe_statsAction := sa |}) as [[q'|] ->];
    eexists _, _; (split; [reflexivity|]); (split; [by intros w' [= <-]|done]).
Qed.

(** Engines that give a forwarded query the same reply. *)
Record same_answers (e e' : Engine) : Prop := {
  sa_upstream : e_upstreamManager e' = e_upstreamManager e;
  sa_serveStale : e_serveStale e' = e_serveStale e;
  sa_cache : e_cache e' = e_cache e;
  sa_rebind : e_rebindProtection e' = e_rebindProtection e;
  sa_geo : e_geo e' = e_geo e;
  sa_fastFlux : e_fastFlux e' = e_fastFlux e;
}.

Lemma forward_reply_same e e' env w r q : same_answers e e' → forward_reply e' env w r q = forward_reply e env w r q.
Proof.
  intros [H1 H2 H3 H4 H5 _]. unfold forward_reply, upstream_answer, stale_entry. by rewrite H1, H2, H3, H4, H5.
Qed.
Lemma forwarded_row_same e e' env d w r q action reason tr :
  same_answers e e' → forwarded_row e' env d w r q action reason tr = forwarded_row e env d w r q action reason tr.
Proof.
  intros [H1 _ _ H4 H5 H6]. unfold forwarded_row, answer_seen, flux_seen, geo_seen, upstream_answer. by rewrite H1, H4, H5, H6.
Qed.

(** A forwarded query that is logged as blocked was answered from the sinkhole. *)
Lemma geo_seen_blocked e env w r q resp g : upstream_answer e env w r = Some resp → geo_seen e q resp = Some g → gd_Block g = true →
  forward_reply e env w r q = blocked_reply r q.
Proof.
  intros Hr. unfold geo_seen, forward_reply. rewrite Hr. destruct (_ && _ && _ && _); [done|].
  destruct (gd_Matched _); [|done]. by intros [= <-] ->.
Qed.
Lemma forwarded_row_action e env d w r q action reason tr :
  let a := (forwarded_row e env d w r q action reason tr).1.1 in
  (a = action ∨ a = "flagged" ∨ (a = "block" ∧ forward_reply e env w r q = blocked_reply r q))%string.
Proof.
  unfold forwarded_row, answer_seen. destruct (upstream_answer _ _ _ _) as [resp|] eqn:Hr; [|by left].
  destruct (geo_seen e q resp) as [g|] eqn:Hg; simpl.
  - destruct (gd_Block g) eqn:Hb; [|by auto]. right; right. split; [done|]. by eapply geo_seen_blocked.
  - destruct (flux_seen _ _ _ _); simpl; auto.
Qed.
Lemma exchanged_same e e' r : same_answers e e' → exchanged e' r = exchanged e r.
Proof. intros [H1 _ _ _ _ _]. unfold exchanged. by rewrite H1. Qed.

(** What the two logging fields and the metrics do not touch. *)
Record same_rules (e e' : Engine) : Prop := {
  sr_answers : same_answers e e';
  sr_policy : e_policyEngine e' = e_policyEngine e;
  sr_alerter : e_alerter e' = e_alerter e;
  sr_slices : qm_slices (e_metrics e') = qm_slices (e_metrics e);
  sr_open : queues_open e';
}.

Lemma logQuery_run env d c action reason tr (s : hstate (W := W)) :
  queues_open (h_engine s) →
  ∃ e', logQuery env d c action reason tr s =
    Some (tt, {| h_engine := e'; h_world := h_world s;
                 h_trace := h_trace s ++ [Logged (event_of env d c action tr) reason] |}) ∧
    same_rules (h_engine s) e'.
Proof.
  intros [Hx Hw]. set (e := h_engine s) in *.
  destruct (Export_open (event_of env d c action tr) (e_exporter e) Hx) as (ox & Ex & Hox).
  unfold logQuery. hstep. fold e. rewrite Ex. hstep.
  destruct (e_queryLog e); cbn [negb]; hstep.
  - edestruct (submit_open (row_of d c action reason tr)) as (ow & qm & Es & How & Hsl); [exact Hw|].
    rewrite Es. hstep. eexists. split; [reflexivity|]. by split; [split|..].
  - eexists. split; [reflexivity|]. by split; [split|..].
Qed.

Lemma observe_flux_run env d resp (s : hstate (W := W)) :
  ∃ e', observe_flux env d resp s =
    Some (flux_seen (h_engine s) env d resp, {| h_engine := e'; h_world := h_world s; h_trace := h_trace s |}) ∧
    e_exporter e' = e_exporter (h_engine s) ∧ e_qlWriter e' = e_qlWriter (h_engine s) ∧
    e_policyEngine e' = e_policyEngine (h_engine s) ∧ e_metrics e' = e_metrics (h_engine s) ∧
    e_rebindProtection e' = e_rebindProtection (h_engine s) ∧ e_geo e' = e_geo (h_engine s).
Proof.
  unfold observe_flux, flux_seen. hstep. destruct s as [e w t]; cbn [h_engine h_world h_trace].
  destruct (e_fastFlux e), (extractAnswerIPs resp) as [[ips ttl]|]; try by eexists.
  destruct (ff_observe _ _ _ _ _ _) as [hit t']. hstep. by eexists.
Qed.

(** Forwarding writes exactly one message, the reply of the specification. *)
Lemma exchange_run env r (s : hstate (W := W)) :
  ∃ w', upstream_exchange xchg env r s =
    Some (upstream_answer (h_engine s) env (h_world s) r,
          {| h_engine := h_engine s; h_world := w'; h_trace := h_trace s ++ exchanged (h_engine s) r |}).
Proof.
  unfold upstream_exchange, upstream_answer, exchanged. destruct (e_upstreamManager (h_engine s)) as [m|].
  - destruct (mgr_Exchange _ _ _ _ _ _) as [[resp err] w']. exists w'. by destruct err.
  - exists (h_world s). rewrite app_nil_r. by destruct s.
Qed.

(** What it reports is what the detectors saw. *)
Definition outcome_is (o : forwardOutcome) (seen : bool * option GeoDecision) : Prop :=
  fo_fastFlux o = seen.1 ∧
  match seen.2 with
  | Some g => fo_geoMatched o = true ∧ fo_geoBlocked o = gd_Block g ∧ fo_geoReason o = gd_Reason g
  | None => fo_geoMatched o = false
  end.

Lemma forward_run env r q d (s : hstate (W := W)) :
  ∃ o e' w', forwardUpstream xchg env r q d s =
    Some (o, {| h_engine := e'; h_world := w';
                h_trace := (h_trace s ++ exchanged (h_engine s) r) ++
                           [Wrote (forward_reply (h_engine s) env (h_world s) r q)] |}) ∧
    e_exporter e' = e_exporter (h_engine s) ∧ e_qlWriter e' = e_qlWriter (h_engine s) ∧
    e_policyEngine e' = e_policyEngine (h_engine s) ∧
    qm_slices (e_metrics e') = qm_slices (e_metrics (h_engine s)) ∧
    outcome_is o (answer_seen (h_engine s) env d (h_world s) r q).
Proof.
  unfold forwardUpstream, forward_reply, answer_seen. destruct (exchange_run env r s) as (w' & E).
  rewrite (bind_run _ _ _ _ _ E). set (e := h_engine s) in *. set (t := h_trace s ++ exchanged e r).
  destruct (upstream_answer e env (h_world s) r) as [resp|].
  - unfold cache_answer. hstep.
    set (e1 := match (if e_serveStale _ then _ else _) with Some _ => _ | None => _ end).
    assert (e_exporter e1 = e_exporter e ∧ e_qlWriter e1 = e_qlWriter e ∧ e_policyEngine e1 = e_policyEngine e ∧
            e_metrics e1 = e_metrics e ∧ e_rebindProtection e1 = e_rebindProtection e ∧ e_geo e1 = e_geo e ∧
            e_fastFlux e1 = e_fastFlux e)
      as (X1 & X2 & X3 & X4 & X5 & X6 & X7) by (subst e1; by repeat case_match).
    clearbody e1. assert (flux_seen e env d resp = flux_seen e1 env d resp) as -> by (unfold flux_seen; by rewrite X7).
    unfold geo_seen. rewrite <- X1, <- X2, <- X3, <- X4, <- X5, <- X6. clear X1 X2 X3 X4 X5 X6 X7.
    edestruct (λ s, observe_flux_run env d resp s) as (e2 & Ef & X). erewrite bind_run by exact Ef. hstep.
    cbn [h_engine h_world h_trace] in *. destruct X as (<- & <- & <- & <- & <- & <-).
    rewrite rebind_filter_eq. destruct (_ && _ && _ && _); hstep; [by eexists _, _, _|].
    destruct (gd_Matched _) eqn:Hm; [destruct (gd_Block _) eqn:Hb|]; hstep; by eexists _, _, _.
  - unfold respond_failure, stale_entry. hstep. destruct (if e_serveStale _ then _ else _) as [c|].
    + destruct (GetStale _ _ _) as [[ent|] c']; hstep; by eexists _, _, _.
    + hstep. by eexists _, _, _.
Qed.

Lemma recordBlocked_run env c d (s : hstate (W := W)) :
  ∃ e', recordBlocked env c d s =
    Some (tt, {| h_engine := e'; h_world := h_world s;
                 h_trace := h_trace s ++
                   (Fired <$> option_list (RecordBlocked (t_alert env) (clientIPOnly c) d (e_alerter (h_engine s))).1) |}) ∧
    e_exporter e' = e_exporter (h_engine s) ∧ e_qlWriter e' = e_qlWriter (h_engine s) ∧
    e_policyEngine e' = e_policyEngine (h_engine s) ∧ e_metrics e' = e_metrics (h_engine s).
Proof.
  unfold recordBlocked. hstep. destruct (e_alerter (h_engine s)) as [al|] eqn:Ea.
  - destruct (RecordBlocked _ _ _ (Some al)) as [[fired|] a]; hstep.
    + eexists. split; [reflexivity|done].
    + eexists. split; [unfold mret, handler_ret; by rewrite app_nil_r|done].
  - exists (h_engine s). split; [|done]. destruct s; unfold mret, handler_ret; simpl. by rewrite app_nil_r.
Qed.

(** No slice of the metrics has counted an error. *)
Definition no_errors (qm : QueryMetrics) : Prop := Forall (λ sl, s_errors sl = 0) (qm_slices qm).

Lemma currentSlice_no_errors now m : no_errors m → no_errors (currentSlice now m).2.
Proof.
  unfold no_errors, currentSlice. intros H. repeat case_match; simpl; try done. by apply Forall_insert.
Qed.

Lemma update_no_errors i f m :
  (∀ sl, s_errors sl = 0 → s_errors (f sl) = 0) → no_errors m → no_errors (update_slice i f m).
Proof. intros Hf H. by apply Forall_alter; [done|intros; apply Hf]. Qed.

Lemma RecordBlocked_no_errors now m : no_errors m → no_errors (RecordBlockedMetric now m).
Proof.
  intros H. unfold RecordBlockedMetric. pose proof (currentSlice_no_errors now m H) as Hc.
  destruct (currentSlice now m) as [i m']. by apply update_no_errors.
Qed.

Lemma Record_no_errors now el m : no_errors m → no_errors (Record_ now el true m).
Proof.
  intros H. unfold Record_. pose proof (currentSlice_no_errors now m H) as Hc.
  destruct (currentSlice now m) as [i m']. by apply update_no_errors.
Qed.

(** What every handler keeps. *)
Record carries (e e' : Engine) : Prop := {
  ca_open : queues_open e → queues_open e';
  ca_policy : e_policyEngine e' = e_policyEngine e;
  ca_errors : no_errors (e_metrics e) → no_errors (e_metrics e');
}.

Lemma carries_trans e1 e2 e3 : carries e1 e2 → carries e2 e3 → carries e1 e3.
Proof. intros [A1 B1 C1] [A2 B2 C2]. split; [auto|congruence|auto]. Qed.

Lemma same_rules_carries e e' : same_rules e e' → carries e e'.
Proof. intros [H1 H2 H3 H4 H5]. split; [done|done|]. unfold no_errors. by rewrite H4. Qed.

Lemma carries_fields e e' :
  e_exporter e' = e_exporter e → e_qlWriter e' = e_qlWriter e → e_policyEngine e' = e_policyEngine e →
  qm_slices (e_metrics e') = qm_slices (e_metrics e) → carries e e'.
Proof.
  intros Hx Hw Hp Hs. split; [|done|by unfold no_errors; rewrite Hs].
  unfold queues_open. by rewrite Hx, Hw.
Qed.

(** [runs m s a effs]: from [s] the handler returns [a] with the effects [effs], and
    keeps the engine usable. *)
Definition runs {A} (m : handler A) (s : hstate (W := W)) (a : A) (effs : list effect) : Prop :=
  ∃ s', m s = Some (a, s') ∧ carries (h_engine s) (h_engine s') ∧ h_trace s' = h_trace s ++ effs.

Section Terminals.
Context (env : QueryEnv) (r : Msg) (q : Question) (d c : string) (s : hstate (W := W)).
Context (Hopen : queues_open (h_engine s)).

Lemma log_and_write_run action reason tr m :
  runs (logQuery env d c action reason tr;; write_msg m;; mret true) s true
       [Logged (event_of env d c action tr) reason; Wrote m].
Proof.
  destruct (logQuery_run env d c action reason tr s Hopen) as (e' & E & Hs).
  eexists. split; [rewrite (bind_run _ _ _ _ _ E); hstep; reflexivity|]. cbn [h_engine h_trace].
  split; [by apply same_rules_carries|by rewrite <- app_assoc].
Qed.

Lemma block_counted_run reason tr :
  runs (block_counted env r q d c reason tr) s true
    (Logged (event_of env d c "block" tr) reason ::
      (Fired <$> option_list (RecordBlocked (t_alert env) (clientIPOnly c) d (e_alerter (h_engine s))).1)
      ++ [Wrote (blocked_reply r q)]).
Proof.
  destruct (logQuery_run env d c "block" reason tr s Hopen) as (e' & E & Hs).
  unfold runs, block_counted, count_blocked. rewrite (bind_run _ _ _ _ _ E). hstep.
  edestruct (λ s, recordBlocked_run env c d s) as (e2 & E2 & X1 & X2 & X3 & X4).
  erewrite bind_run by exact E2. hstep. eexists. split; [reflexivity|]. cbn [h_engine h_trace] in *.
  split; [|cbn [e_alerter set_metrics]; by rewrite (sr_alerter _ _ Hs), <- !app_assoc].
  destruct (same_rules_carries _ _ Hs) as [H1 H2 H3]. split.
  - intros _. unfold queues_open. rewrite X1, X2. by apply H1.
  - rewrite X3. done.
  - intros H. rewrite X4. by apply RecordBlocked_no_errors, H3.
Qed.

Lemma override_run tr :
  runs (logQuery env d c "allow" "allow-override" tr;; _ ← forwardUpstream xchg env r q d; mret true) s true
    (Logged (event_of env d c "allow" tr) "allow-override" ::
       exchanged (h_engine s) r ++ [Wrote (forward_reply (h_engine s) env (h_world s) r q)]).
Proof.
  destruct (logQuery_run env d c "allow" "allow-override" tr s Hopen) as (e' & E & Hs).
  edestruct (λ s, forward_run env r q d s) as (o & e2 & w2 & E2 & X1 & X2 & X3 & X4 & _).
  eexists. split; [rewrite (bind_run _ _ _ _ _ E); erewrite bind_run by exact E2; reflexivity|].
  cbn [h_engine h_trace] in *. split.
  - eapply carries_trans; [by apply same_rules_carries|]. by apply carries_fields.
  - by rewrite (exchanged_same _ _ r (sr_answers _ _ Hs)), (forward_reply_same _ _ _ _ _ _ (sr_answers _ _ Hs)),
      <- !app_assoc.
Qed.

Lemma forward_and_log_run action reason tr :
  ∃ effs, runs (forward_and_log xchg env r q d c action reason tr) s true effs ∧
    effects_of (h_engine s) env d c (h_world s) r q (VForward action reason tr) effs.
Proof.
  destruct (forward_run env r q d s) as (o & e2 & w2 & E2 & X1 & X2 & X3 & X4 & Hf & Hg).
  assert (∀ a2 r2 t2, ∃ effs, (∃ s', (logQuery env d c a2 r2 t2;; mret true)
      {| h_engine := e2; h_world := w2; h_trace := (h_trace s ++ exchanged (h_engine s) r) ++
                         [Wrote (forward_reply (h_engine s) env (h_world s) r q)] |} = Some (true, s') ∧
      carries (h_engine s) (h_engine s') ∧ h_trace s' = h_trace s ++ effs) ∧
    effs = exchanged (h_engine s) r ++ [Wrote (forward_reply (h_engine s) env (h_world s) r q); Logged (event_of env d c a2 t2) r2]) as Hlog.
  { intros a2 r2 t2. eexists. split; [|reflexivity].
    edestruct (λ s Ho, logQuery_run env d c a2 r2 t2 s Ho) as (e' & E & Hs);
      [|eexists; split; [erewrite bind_run by exact E; reflexivity|cbn [h_engine h_trace] in *]].
    - cbn [h_engine]. unfold queues_open. rewrite X1, X2. done.
    - split; [|by rewrite <- !app_assoc].
      eapply carries_trans; [by apply carries_fields|by apply same_rules_carries]. }
  unfold forward_and_log, runs, effects_of, forwarded_row. setoid_rewrite (bind_run _ _ _ _ _ E2).
  rewrite Hf. destruct (answer_seen _ _ _ _ _ _) as [flux [g|]]; cbn [fst snd] in *.
  - destruct Hg as (-> & -> & ->). destruct flux, (r_IsSuspicious tr); apply Hlog.
  - rewrite Hg. destruct flux, (r_IsSuspicious tr); apply Hlog.
Qed.
End Terminals.

(** A read or an update at the head of a run does not show in its effects. *)
Lemma runs_modify {B} f (k : unit → handler B) s b effs :
  carries (h_engine s) (f (h_engine s)) →
  runs (k tt) {| h_engine := f (h_engine s); h_world := h_world s; h_trace := h_trace s |} b effs →
  runs (modify f ≫= k) s b effs.
Proof.
  intros Hc (s' & E & H & Ht). exists s'. split; [done|]. split; [|done]. by eapply carries_trans.
Qed.

Definition query_name (q : Question) : string := stripSearchDomain (engine_normalizeDomain (q_Name q)).
Definition query_client (env : QueryEnv) : string := default ""%string (q_remote env).

Lemma Evaluate_Ok pe now d c : Evaluate pe now d c = Ok (policy_says {| q_remote := None; q_coins := λ _, false;
  t_rate := 0; t_start := 0; t_policy := now; t_nod := 0; t_cache := 0; t_flux := 0; t_log := 0; t_blocked := 0;
  t_alert := 0; t_end := 0; ord_nod := []; ord_ff := [] |} pe d c).
Proof. unfold policy_says; simpl. unfold Evaluate. by repeat case_match. Qed.

Lemma Evaluate_policy_says env pe d c : Evaluate pe (t_policy env) d c = Ok (policy_says env pe d c).
Proof. rewrite Evaluate_Ok. done. Qed.

Section Body.
Context (env : QueryEnv) (pe : PEngine) (r : Msg) (q : Question) (d c : string).

Lemma nod_run (s : hstate (W := W)) :
  let e := h_engine s in
  ∃ e', (match e_nodLedger e with
         | None => mret false
         | Some l => let '(isNew, l') := nod_observe (ord_nod env) (t_nod env) d l in
                     modify (set_nod (Some l'));; mret isNew
         end) s = Some (nod_new e env d, {| h_engine := e'; h_world := h_world s; h_trace := h_trace s |}) ∧
    carries e e' ∧ same_answers e e'.
Proof.
  intros e. unfold nod_new. fold e. destruct (e_nodLedger e) as [l|].
  - destruct (nod_observe _ _ _ l) as [isNew l']. eexists. split; [reflexivity|].
    split; [by apply carries_fields|by split].
  - exists e. split; [by destruct s|]. split; [by apply carries_fields|by split].
Qed.

Lemma runs_from {A} (m : handler A) e' (s : hstate (W := W)) a effs :
  carries (h_engine s) e' →
  runs m {| h_engine := e'; h_world := h_world s; h_trace := h_trace s |} a effs → runs m
    {| h_engine := e'; h_world := h_world s; h_trace := h_trace s |} a effs ∧
  ∃ s', m {| h_engine := e'; h_world := h_world s; h_trace := h_trace s |} = Some (a, s') ∧
    carries (h_engine s) (h_engine s') ∧ h_trace s' = h_trace s ++ effs.
Proof.
  intros Hc H. split; [done|]. destruct H as (s' & E & H & Ht). exists s'. split; [done|].
  split; [by eapply carries_trans|done].
Qed.

(** The rules from the threat score on. *)
Definition allow_rules (e : Engine) : list (bool * verdict) := drop 5 (rules e env pe d c).
Definition first_rule (dflt : verdict) (l : list (bool * verdict)) : verdict :=
  default dflt (first_match (λ '(applies, v), if (applies : bool) then Some v else None) l).

Lemma first_rule_cons dflt b v l : first_rule dflt ((b, v) :: l) = if b then v else first_rule dflt l.
Proof. by destruct b. Qed.

Lemma allow_path_run s :
  queues_open (h_engine s) →
  let e := h_engine s in
  ∃ effs, runs (allow_path xchg env r q d c (score e d) (nrd_listed e d) (policy_says env pe d c)) s true effs ∧
    effects_of e env d c (h_world s) r q (first_rule (VForward "allow" "" (nod_score e env d)) (allow_rules e)) effs.
Proof.
  intros Ho e. unfold allow_path, allow_rules, rules, runs. rewrite bind_get. fold e.
  cbn [drop]. rewrite !first_rule_cons.
  destruct (match threatDecision e (score e d) with threatBlock => true | _ => false end).
  { eexists. split; [by apply log_and_write_run|done]. }
  destruct (bool_decide (d_PolicyID _ = _) && isAbusedTLD e d).
  { eexists. split; [by apply log_and_write_run|done]. }
  fold (safesearch e d). destruct (safesearch e d) as [target|]; cbn [default].
  { rewrite bool_decide_eq_true_2 by by eexists. eexists. split; [by apply log_and_write_run|done]. }
  rewrite bool_decide_eq_false_2 by by intros [? ?].
  destruct (nod_run s) as (e' & E & Hc & Hu). fold e in E, Hc, Hu.
  setoid_rewrite (bind_run _ _ _ _ _ E). fold (nod_score e env d).
  set (s1 := {| h_engine := e' |}). assert (queues_open (h_engine s1)) as Ho1 by by apply Hc.
  assert (∀ A (m : handler A) a effs, runs m s1 a effs →
    ∃ s', m s1 = Some (a, s') ∧ carries e (h_engine s') ∧ h_trace s' = h_trace s ++ effs) as Hlift.
  { intros A m a effs H. by apply runs_from. }
  assert (∀ action reason tr, ∃ effs, (∃ s', forward_and_log xchg env r q d c action reason tr s1 = Some (true, s') ∧
      carries e (h_engine s') ∧ h_trace s' = h_trace s ++ effs) ∧ effects_of e env d c (h_world s) r q (VForward action reason tr) effs) as Hfwd.
  { intros action reason tr. destruct (forward_and_log_run env r q d c s1 Ho1 action reason tr) as (effs & Hr & He).
    exists effs. split; [by apply Hlift|]. unfold effects_of in *. cbn [s1 h_engine h_world] in He.
    by rewrite (forwarded_row_same _ _ _ _ _ _ _ _ _ _ Hu), (exchanged_same _ _ r Hu), (forward_reply_same _ _ env (h_world s) r q Hu) in He. }
  destruct (nod_new e env d && e_nodBlock e).
  { eexists. split; [by apply Hlift, log_and_write_run|done]. }
  destruct (r_IsSuspicious (nod_score e env d)); cbn [andb].
  - destruct (r_Block (nod_score e env d)).
    { eexists. split; [by apply Hlift, log_and_write_run|done]. }
    apply Hfwd.
  - destruct (nrd_listed e d); apply Hfwd.
Qed.

End Body.

Lemma process_body_run env pe r q (s : hstate (W := W)) :
  queues_open (h_engine s) → e_policyEngine (h_engine s) = Some pe →
  let e := h_engine s in let d := query_name q in let c := query_client env in
  ∃ effs, runs (process_body xchg env r q) s true effs ∧
    effects_of e env d c (h_world s) r q (spec_verdict e env pe d c) effs.
Proof.
  intros Ho Hp e d0 c0. unfold process_body, runs. rewrite bind_get. fold e.
  fold (query_name q) (query_client env) (score e (query_name q)) (blocklisted e (query_name q))
    (nrd_listed e (query_name q)) (nrd_blocks e). fold e in Ho, Hp. rewrite Hp.
  fold d0 c0. change (spec_verdict e env pe d0 c0) with
    (first_rule (VForward "allow" "" (nod_score e env d0)) (take 5 (rules e env pe d0 c0) ++ drop 5 (rules e env pe d0 c0))).
  cbn [take rules app]. rewrite !first_rule_cons. destruct (blocklisted e d0); cbn [andb].
  { destruct (IsExplicitlyAllowed _ _ _ _).
    - eexists. split; [by apply override_run|done].
    - eexists. split; [by apply block_counted_run|done]. }
  destruct (nrd_listed e d0 && nrd_blocks e).
  { eexists. split; [by apply log_and_write_run|done]. }
  unfold policy_path. rewrite bind_get. fold e. rewrite Hp, Evaluate_policy_says.
  destruct (d_Action (policy_says env pe d0 c0)).
  - apply allow_path_run. done.
  - eexists. split; [by apply block_counted_run|done].
  - eexists. split; [by apply log_and_write_run|done].
Qed.

(** An accepted query runs the table. *)
Lemma accepted_run env pe r q qs (s : hstate (W := W)) :
  m_Question r = q :: qs →
  e_acceptQueries (h_engine s) = true →
  (allow (e_rateLimiter (h_engine s)) (t_rate env)
     match q_remote env with Some a => clientIPFromAddr a | None => ""%string end).1 = true →
  e_policyEngine (h_engine s) = Some pe →
  queues_open (h_engine s) →
  let e := h_engine s in let d := query_name q in let c := query_client env in
  ∃ s' effs, ProcessDNSQuery xchg env (Some r) s = Some (tt, s') ∧ h_trace s' = h_trace s ++ effs ∧
    effects_of e env d c (h_world s) r q (spec_verdict e env pe d c) effs.
Proof.
  intros Hq Ha Hl Hp Ho e d c. unfold ProcessDNSQuery. rewrite Hq. hstep. rewrite Ha. cbn [negb].
  destruct (allow _ _ _) as [ok rl]. simpl in Hl. subst ok. hstep. cbn [negb].
  set (s1 := {| h_engine := set_rateLimiter rl (h_engine s) |}).
  destruct (process_body_run env pe r q s1 Ho Hp) as (effs & (s' & E & _ & Ht) & He).
  rewrite (bind_run _ _ _ _ _ E). eexists _, effs. split; [reflexivity|]. split; [exact Ht|exact He].
Qed.

(** ** Theorems *)

(** C1. The engine implements its decision table: for an accepted query, the run ends
    without a panic and its visible effects, in order, are those of the first rule that
    applies: a blocklist hit (unless an ALLOW policy overrides it), a listed NRD in
    block mode, a policy denial or redirect, threat enforcement, an abused TLD, SafeSearch,
    a new domain in block mode, a typosquat in block mode; only when none applies is the
    query sent upstream. The row of a forwarded query is the rule's, unless the answer's
    addresses make it one of fast flux or match the GeoIP filter, which then decide its
    action, reason and score. *)
Theorem ProcessDNSQuery_verdict env pe r q qs s :
  m_Question r = q :: qs →
  e_acceptQueries (h_engine s) = true →
  (allow (e_rateLimiter (h_engine s)) (t_rate env)
     match q_remote env with Some a => clientIPFromAddr a | None => ""%string end).1 = true →
  e_policyEngine (h_engine s) = Some pe →
  queues_open (h_engine s) →
  let e := h_engine s in let d := query_name q in let c := query_client env in
  ∃ s' effs, ProcessDNSQuery xchg env (Some r) s = Some (tt, s') ∧ h_trace s' = h_trace s ++ effs ∧
    effects_of e env d c (h_world s) r q (spec_verdict e env pe d c) effs.
Proof. apply accepted_run. Qed.

(** C10. A query that is not accepted, or that is over its client's rate, is answered
    REFUSED and nothing else happens: it is not logged, not forwarded, and of the
    engine's state only the limiter's window moves. A message without a question is
    dropped without a trace. *)
Theorem ProcessDNSQuery_refuses env r (s : hstate (W := W)) :
  let e := h_engine s in
  let ip := match q_remote env with Some a => clientIPFromAddr a | None => ""%string end in
  (m_Question r = [] → ProcessDNSQuery xchg env (Some r) s = Some (tt, s)) ∧
  (m_Question r ≠ [] → e_acceptQueries e = false →
     ProcessDNSQuery xchg env (Some r) s =
       Some (tt, {| h_engine := e; h_world := h_world s; h_trace := h_trace s ++ [Wrote (SetRcode r RcodeRefused)] |})) ∧
  (m_Question r ≠ [] → e_acceptQueries e = true → (allow (e_rateLimiter e) (t_rate env) ip).1 = false →
     ProcessDNSQuery xchg env (Some r) s =
       Some (tt, {| h_engine := set_rateLimiter (allow (e_rateLimiter e) (t_rate env) ip).2 e;
                    h_world := h_world s; h_trace := h_trace s ++ [Wrote (SetRcode r RcodeRefused)] |})).
Proof.
  intros e ip. unfold ProcessDNSQuery. destruct (m_Question r) as [|q qs]; [done|].
  split; [done|]. split; intros _ Ha.
  - hstep. fold e. by rewrite Ha.
  - intros Hl. hstep. fold e ip. rewrite Ha. cbn [negb]. destruct (allow _ _ ip) as [ok rl].
    simpl in Hl. subst ok. done.
Qed.

(** ** Every query gets one response *)

Definition is_write (x : effect) : bool := match x with Wrote _ => true | _ => false end.
Definition writes (effs : list effect) : nat := length (List.filter is_write effs).

Lemma writes_app a b : writes (a ++ b) = (writes a + writes b)%nat.
Proof. unfold writes. by rewrite List.filter_app, length_app. Qed.

Lemma effects_one_write e env d c w r q v effs : effects_of e env d c w r q v effs → writes effs = 1%nat.
Proof.
  assert (writes (exchanged e r) = 0%nat) as Hx by (unfold exchanged; by case_match).
  destruct v; simpl.
  - intros ->. change (Logged ?ev ?rs :: ?l) with ([Logged ev rs] ++ l). rewrite !writes_app.
    destruct counted; [|done]. by destruct (RecordBlocked _ _ _ _).1.
  - by intros ->.
  - by intros ->.
  - intros ->. change (Logged ?ev ?rs :: ?l) with ([Logged ev rs] ++ l). rewrite !writes_app, Hx. done.
  - destruct (forwarded_row _ _ _ _ _ _ _ _ _) as [[a' r'] t']. intros ->. rewrite writes_app, Hx. done.
Qed.

Definition has_question (or : option Msg) : bool :=
  match or with Some r => negb (bool_decide (m_Question r = [])) | None => false end.

Lemma ProcessDNSQuery_step env or (s : hstate (W := W)) pe :
  queues_open (h_engine s) → e_policyEngine (h_engine s) = Some pe →
  ∃ s' effs, ProcessDNSQuery xchg env or s = Some (tt, s') ∧ carries (h_engine s) (h_engine s') ∧
    h_trace s' = h_trace s ++ effs ∧ writes effs = if has_question or then 1%nat else 0%nat.
Proof.
  intros Ho Hp. assert (carries (h_engine s) (h_engine s)) as Hrefl by by apply carries_fields.
  destruct or as [r|]; [|exists s, []; by rewrite app_nil_r].
  unfold ProcessDNSQuery, has_question. destruct (m_Question r) as [|q qs] eqn:Hq.
  { exists s, []. by rewrite app_nil_r. }
  rewrite bool_decide_eq_false_2 by done. cbn [negb]. hstep.
  destruct (e_acceptQueries (h_engine s)); cbn [negb]; [|by eexists _, [_]].
  destruct (allow _ _ _) as [[] rl]; hstep; cbn [negb]; [|eexists _, [_]; split; [reflexivity|]; split; [by apply carries_fields|done]].
  set (s1 := {| h_engine := set_rateLimiter rl (h_engine s) |}).
  destruct (process_body_run env pe r q s1 Ho Hp) as (effs & (s' & E & Hc & Ht) & He).
  rewrite (bind_run _ _ _ _ _ E). eexists _, effs. split; [reflexivity|]. split.
  - destruct Hc as [H1 H2 H3]. split; [exact H1|exact H2|]. intros H. by apply Record_no_errors, H3.
  - split; [exact Ht|by eapply effects_one_write].
Qed.

(** A sequence of queries served by one engine. *)
Fixpoint serve (qs : list (QueryEnv * option Msg)) : handler unit :=
  match qs with
  | [] => mret tt
  | (env, or) :: qs' => ProcessDNSQuery xchg env or;; serve qs'
  end.

Lemma serve_run qs (s : hstate (W := W)) pe :
  queues_open (h_engine s) → e_policyEngine (h_engine s) = Some pe →
  ∃ s' effs, serve qs s = Some (tt, s') ∧ carries (h_engine s) (h_engine s') ∧
    h_trace s' = h_trace s ++ effs ∧ writes effs = length (List.filter (λ x, has_question x.2) qs).
Proof.
  revert s. induction qs as [|[env or] qs IH]; intros s Ho Hp.
  - exists s, []. rewrite app_nil_r. split; [done|]. split; [by apply carries_fields|done].
  - destruct (ProcessDNSQuery_step env or s pe Ho Hp) as (s1 & e1 & E1 & C1 & T1 & W1).
    destruct (IH s1) as (s2 & e2 & E2 & C2 & T2 & W2); [by apply C1|by rewrite (ca_policy _ _ C1)|].
    exists s2, (e1 ++ e2). simpl. rewrite (bind_run _ _ _ _ _ E1). split; [done|].
    split; [by eapply carries_trans|]. rewrite T2, T1, app_assoc. split; [done|].
    rewrite writes_app, W1, W2. by destruct (has_question or).
Qed.

(** C3. Whatever the upstreams, the feeds, the clients and the configuration do, an
    engine with a policy engine and open queues serves any sequence of queries without
    a panic and writes exactly one response to each query that has a question. *)
Theorem one_response_each qs s pe :
  e_policyEngine (h_engine s) = Some pe → queues_open (h_engine s) →
  ∃ s' effs, serve qs s = Some (tt, s') ∧ h_trace s' = h_trace s ++ effs ∧
    writes effs = length (List.filter (λ x, has_question x.2) qs).
Proof. intros Hp Ho. destruct (serve_run qs s pe Ho Hp) as (s' & effs & ? & _ & ? & ?). eauto. Qed.

Lemma Aggregate_no_errors now m : no_errors m → ag_Errors (Aggregate now m) = 0.
Proof.
  intros H. unfold Aggregate, no_errors in *. cbn [ag_Errors].
  assert (∀ l acc, Forall (λ sl, s_errors sl = 0) l → ag_Errors acc = 0 →
    ag_Errors (foldl (agg_step (now - qm_windowSec m)) acc l) = 0) as Hf; [|by apply Hf].
  induction l as [|sl l IH]; intros acc Hl Ha; [done|]. simpl. apply IH; [by inversion Hl|].
  inversion Hl as [|?? Hz]. unfold agg_step. case_match; [done|]. simpl. by rewrite Ha, Hz.
Qed.

(** The error count of the query metrics is zero after any sequence of queries,
    also when every upstream exchange failed and the clients got SERVFAIL: no path of
    the handler records a failure. *)
Theorem error_count_stays_zero qs s pe t0 now :
  e_policyEngine (h_engine s) = Some pe → queues_open (h_engine s) →
  e_metrics (h_engine s) = NewQueryMetrics t0 →
  ∃ s', serve qs s = Some (tt, s') ∧ ag_Errors (Aggregate now (e_metrics (h_engine s'))) = 0.
Proof.
  intros Hp Ho Hm. destruct (serve_run qs s pe Ho Hp) as (s' & effs & E & C & _). exists s'. split; [done|].
  apply Aggregate_no_errors, C. rewrite Hm. unfold no_errors, NewQueryMetrics. simpl. repeat constructor.
Qed.

(** ** Rebinding protection *)

(** C5. With rebinding protection on, the reply to an answered query carries exactly the
    upstream's records without the A and AAAA records of internal addresses, in order;
    the only other reply is the sinkhole answer, given when every record was dropped or
    the GeoIP filter blocks. *)
Theorem rebind_protected env r q d (s s1 : hstate (W := W)) resp :
  e_rebindProtection (h_engine s) = true →
  upstream_exchange xchg env r s = Some (Some resp, s1) →
  let kept := List.filter (λ rr, negb (internal_rr rr)) (m_Answer resp) in
  ∃ o m s', forwardUpstream xchg env r q d s = Some (o, s') ∧ h_trace s' = h_trace s1 ++ [Wrote m] ∧
    (m = set_answer resp kept ∨
     m = blocked_reply r q ∧
       (kept = [] ∧ m_Answer resp ≠ [] ∨
        gd_Block (geo_Evaluate (e_geo (h_engine s)) (answerIPs (set_answer resp kept))) = true)).
Proof.
  intros Hr E kept. destruct (exchange_run env r s) as (w' & E'). rewrite E' in E.
  injection E as Ha <-. destruct (forward_run env r q d s) as (o & e' & w2 & Ef & _).
  eexists o, _, _. split; [exact Ef|]. split; [reflexivity|]. unfold forward_reply. rewrite Ha, Hr.
  fold (keep_public (m_Answer resp)) in kept. fold kept.
  destruct (true && _ && _ && _) eqn:Hc; [right; boolp; auto|].
  destruct (gd_Matched _ && _) eqn:Hg; [right; boolp; auto|by left].
Qed.

(** ** Blocklisted names, end to end *)

Section Blocked.
Context `{D : BlocklistDb} `{L : !BlocklistDbLaws D}.

(** A name some stored row lists, and that no ALLOW policy exempts, is answered from the
    sinkhole. *)
Lemma listed_run env pe r q qs (s : hstate (W := W)) (tables : db) b :
  m_Question r = q :: qs → e_acceptQueries (h_engine s) = true →
  (allow (e_rateLimiter (h_engine s)) (t_rate env)
     match q_remote env with Some a => clientIPFromAddr a | None => ""%string end).1 = true →
  e_policyEngine (h_engine s) = Some pe → queues_open (h_engine s) →
  e_blocklist (h_engine s) = Some (λ name, IsBlocked name tables) →
  IsBlocked (query_name q) tables = Ok b → listed tables (query_name q) →
  IsExplicitlyAllowed pe (t_policy env) (query_name q) (query_client env) = false →
  ∃ s' effs, ProcessDNSQuery xchg env (Some r) s = Some (tt, s') ∧ h_trace s' = h_trace s ++ effs ∧
    List.filter is_write effs = [Wrote (blocked_reply r q)] ∧ ∀ x, Exchanged x ∉ effs.
Proof.
  intros Hq Ha Hl Hp Ho Hb Hok Hlist Hna.
  destruct (accepted_run env pe r q qs s Hq Ha Hl Hp Ho) as (s' & effs & E & Ht & He).
  exists s', effs. split; [done|]. split; [done|].
  assert (blocklisted (h_engine s) (query_name q) = true) as Hbl.
  { unfold blocklisted. rewrite Hb, Hok. by apply (IsBlocked_listed _ _ _ Hok). }
  unfold spec_verdict, rules in He. cbn [first_match] in He. rewrite Hbl, Hna in He. cbn in He.
  rewrite He. set (fired := option_list _).
  assert (List.filter is_write (Fired <$> fired) = [] ∧ ∀ x, Exchanged x ∉ Fired <$> fired) as [Hf Hx].
  { split; [by induction fired|]. intros x (? & ? & _)%list_elem_of_fmap. done. }
  split; [simpl; by rewrite List.filter_app, Hf|]. intros x. rewrite elem_of_cons, elem_of_app, list_elem_of_singleton.
  intros [?|[?|?]]; [done| |done]. by apply (Hx x).
Qed.

(** C2. A name on a stored blocklist, itself or under a listed name, that no ALLOW policy
    exempts is answered from the sinkhole, and the query never leaves the engine. *)
Theorem blocklisted_sinkholed env pe r q qs (s : hstate (W := W)) (tables : db) b en :
  m_Question r = q :: qs →
  e_acceptQueries (h_engine s) = true →
  (allow (e_rateLimiter (h_engine s)) (t_rate env)
     match q_remote env with Some a => clientIPFromAddr a | None => ""%string end).1 = true →
  e_policyEngine (h_engine s) = Some pe →
  queues_open (h_engine s) →
  e_blocklist (h_engine s) = Some (λ name, IsBlocked name tables) →
  IsBlocked (query_name q) tables = Ok b →
  en ∈ db_entries tables → enclosing (repo_normalize (query_name q)) (en_Domain en) →
  IsExplicitlyAllowed pe (t_policy env) (query_name q) (query_client env) = false →
  ∃ s' effs, ProcessDNSQuery xchg env (Some r) s = Some (tt, s') ∧ h_trace s' = h_trace s ++ effs ∧
    List.filter is_write effs = [Wrote (blocked_reply r q)] ∧ ∀ x, Exchanged x ∉ effs.
Proof.
  intros Hq Ha Hl Hp Ho Hb Hok Hin Henc Hna. apply (listed_run env pe r q qs s tables b Hq Ha Hl Hp Ho Hb Hok); [|done].
  exists en. split; [done|]. by apply parent_candidates_enclosing.
Qed.
End Blocked.

(** ** Search domains *)

Lemma local_suffix_labels s : s ∈ localSuffixes → (length (Split s dot) ≤ 2)%nat.
Proof.
  unfold localSuffixes. rewrite elem_of_list_to_set. intros H.
  assert (Forall (λ s, (length (Split s dot) ≤ 2)%nat)
    ["lan"; "local"; "home"; "internal"; "localdomain"; "domain.name"; "hgu_lan"; "fritz.box";
     "mynetwork"; "belkin"; "router"; "gateway"; "dlink"]%string) as Hall
    by (apply (bool_decide_unpack _); vm_compute; exact I).
  rewrite Forall_forall in Hall. auto.
Qed.

(** A search domain the router appended is removed before any rule is consulted: the
    query for a name of at least two labels with a known local suffix is judged as the
    query for the name (unless the name's last label and the suffix are together a known
    suffix, which is then the one removed). *)
Theorem search_domain_stripped q name suffix :
  engine_normalizeDomain (q_Name q) = (name +:+ String dot suffix)%string →
  suffix ∈ localSuffixes → (2 ≤ length (Split name dot))%nat →
  (∀ l, last (Split name dot) = Some l → (l +:+ String dot suffix)%string ∉ localSuffixes) →
  query_name q = name.
Proof.
  intros Hn Hs Hl Hlast. unfold query_name, stripSearchDomain. rewrite Hn, Split_app.
  pose proof (local_suffix_labels suffix Hs) as Hs2. pose proof (length_Split_pos suffix dot) as Hs1.
  set (ns := Split name dot) in *. rewrite length_app.
  rewrite (proj2 (Nat.ltb_ge _ _)) by lia.
  destruct (Split suffix dot) as [|x [|y [|z ss]]] eqn:Es; simpl in Hs1, Hs2; try lia.
  - assert (suffix = x) as -> by (by rewrite <- (Join_Split suffix dot), Es).
    destruct ns as [|n0 ns' _] eqn:En using rev_ind; [simpl in Hl; lia|].
    rewrite length_app, <- app_assoc. cbn [length app].
    replace (length ns' + 1 + 1 - 2)%nat with (length ns') by lia. rewrite drop_app_length.
    rewrite bool_decide_eq_false_2 by (apply Hlast; by rewrite last_snoc).
    replace (length ns' + 1 + 1 - 1)%nat with (length (ns' ++ [n0])) by (rewrite length_app; simpl; lia).
    change (n0 :: [x]) with ([n0] ++ [x]). rewrite app_assoc, nth_middle.
    rewrite bool_decide_eq_true_2 by done. rewrite take_app_length, <- En. apply Join_Split.
  - assert (suffix = Join [x; y] ".") as Hj by (by rewrite <- (Join_Split suffix dot), Es).
    cbn [length]. replace (length ns + 2 - 2)%nat with (length ns) by lia. rewrite drop_app_length, <- Hj.
    rewrite bool_decide_eq_true_2 by done. rewrite take_app_length. apply Join_Split.
Qed.

(** A live change of the resolvers builds a manager without 0x20, whatever the engine
    was configured with: outbound names are the clients' own. *)
Lemma SetUpstreamResolvers_no_0x20 close_mgr resolvers e (w : W) e' w' qm coin :
  SetUpstreamResolvers close_mgr resolvers e w = (None, (e', w')) →
  ∃ m, e_upstreamManager e' = Some m ∧ um_dns0x20 m = false ∧ prepareOutbound m qm coin = (qm, None).
Proof.
  unfold SetUpstreamResolvers, NewUpstreamManager. destruct (new_upstreams _ _) as [us|]; [|done].
  intros [= <- <-]. by eexists.
Qed.

End Spec.

(** ** Concrete runs *)

#[local] Instance run_unicode : GoUnicode := ascii_unicode.
#[local] Instance run_tz : TzDatabase := {| LoadLocation := λ _, None |}.
#[local] Instance run_bloom : BloomLib := set_bloom.
#[local] Instance run_regexp : RegexpLib := literal_regexp.
#[local] Instance run_dns : DnsLib := simple_dns.
#[local] Instance run_threat : ThreatEnv := ex_threat_env.
#[local] Instance run_transport : TransportEnv := {| udp_dials := λ _, true |}.

(** Upstreams that answer from a script, then fail. *)
Definition scripted (_ : UpstreamManager) (_ : nat) (_ : Msg) (w : list Msg)
  : result upstream_error (option Msg) * list Msg :=
  match w with [] => (Err (ErrIO "timeout"), []) | m :: w' => (Ok (Some m), w') end.

Definition run_config (rebind stale : bool) : DataPlaneConfig := {|
  cf_ListenAddr := ""; cf_UpstreamResolvers := ["8.8.8.8:53"]%string;
  cf_GRPCServer := {| gs_ListenAddr := ""; gs_Port := 0 |}; cf_BlocklistUpdateInterval := "";
  cf_MetricsAddr := ""; cf_BlocklistHealthInterval := ""; cf_ThreatBlockThreshold := f64_zero;
  cf_ThreatBlockDryRun := false; cf_AbusedTLDs := ["zip"]%string; cf_RebindProtection := rebind;
  cf_ClientRateLimitPerSec := 5; cf_SafeSearch := true; cf_DNS0x20 := true; cf_WatchdogInterval := "";
  cf_WatchdogFailureThreshold := 0; cf_ServeStale := stale; cf_NODWindowHours := 0; cf_NODBlock := false;
  cf_FastFluxDetection := false; cf_FastFluxIPThreshold := 0; cf_FastFluxTTLMaxSec := 0; cf_SyslogAddr := "";
  cf_EventWebhookURL := "https://x"; cf_TyposquatBrands := []; cf_TyposquatBlock := false;
  cf_HeartbeatURL := ""; cf_HeartbeatInterval := "";
  cf_GeoIP := {| gi_DBPath := ""; gi_BlockedASNs := []; gi_BlockedCountries := []; gi_Block := false |};
  cf_NRDFeedURL := ""; cf_NRDBlock := false; cf_NRDRefreshInterval := ""; cf_QueryLogBufferSize := 0;
  cf_QueryLogWorkers := 0 |}.

Definition run_tables : tables := {| t_entries := [ex_row "ads.com"]; t_snapshots := []; t_sources := [] |}.

Definition run_checker (listed : bool) : option (string → result string bool) :=
  if listed then Some (λ name, @IsBlocked _ list_db name run_tables) else None.
Definition run_engine (listed rebind stale : bool) : option Engine :=
  match NewDNSEngine 0 true true false {| ac_Threshold := 0; ac_Window := 0 |} (run_config rebind stale)
          (Some NewPolicyEngine) with
  | Ok e => Some (SetAcceptQueries true
                    (AttachBlocklistChecker (run_checker listed) e))
  | Err _ => None
  end.

Definition run_env (t : Z) : QueryEnv := {|
  q_remote := Some "192.168.1.10:5353"%string; q_coins := λ _, false;
  t_rate := t; t_start := t; t_policy := t; t_nod := t; t_cache := t; t_flux := t; t_log := t;
  t_blocked := t; t_alert := t; t_end := t; ord_nod := []; ord_ff := [] |}.

Definition run_query (name : string) : Msg := {|
  m_Id := 7; m_Response := false; m_Rcode := 0; m_Truncated := false; m_flags := 0;
  m_Question := [{| q_Name := name; q_Qtype := TypeA; q_Qclass := 1 |}]; m_Answer := []; m_Ns := []; m_Extra := [] |}.
Definition run_question (name : string) : Question := {| q_Name := name; q_Qtype := TypeA; q_Qclass := 1 |}.

Definition run_answer (name ip : string) : Msg :=
  set_answer (simple_reply (run_query name)) [RR_A {| h_Name := name; h_Ttl := 60 |} (ParseIP ip)].

Definition run_state (rebind stale : bool) (script : list Msg) : option (hstate (W := list Msg)) :=
  (λ e, {| h_engine := e; h_world := script; h_trace := [] |}) <$> run_engine true rebind stale.

Definition run_responses (rebind stale : bool) (script : list Msg) (qs : list (Z * string))
  : option (list (Z * list RR)) :=
  s ← run_state rebind stale script;
  r ← serve scripted ((λ '(t, n), (run_env t, Some (run_query n))) <$> qs) s;
  Some (omap (λ x, match x with Wrote m => Some (m_Rcode m, m_Answer m) | _ => None end) (h_trace r.2)).

Definition a_rr (name ip : string) (ttl : Z) : RR := RR_A {| h_Name := name; h_Ttl := ttl |} (ParseIP ip).

Example run_paths :
  run_responses true false [run_answer "a.org." "1.2.3.4"]
    [(0, "www.ads.com."); (0, "x.zip."); (0, "a.org."); (0, "www.google.com.")]%string
  = Some [(0, [a_rr "www.ads.com." "0.0.0.0" 60]); (0, [a_rr "x.zip." "0.0.0.0" 60]);
          (0, [a_rr "a.org." "1.2.3.4" 60]);
          (0, [RR_CNAME {| h_Name := "www.google.com."; h_Ttl := 60 |} "forcesafesearch.google.com."])].
Proof. vm_compute. reflexivity. Qed.

(** The answer is cached before the rebinding filter sees it, and a stale reply is
    not filtered: the address withheld from the first client is served to the second
    while the upstream is down. *)
Example stale_reply_unfiltered :
  run_responses true true [run_answer "rebind.org." "192.168.1.1"]
    [(0, "rebind.org."); (61 * second, "rebind.org.")]%string
  = Some [(0, [a_rr "rebind.org." "0.0.0.0" 60]); (0, [a_rr "rebind.org." "192.168.1.1" 30])].
Proof. vm_compute. reflexivity. Qed.

Lemma run_engine_ok listed rebind stale : is_Some (run_engine listed rebind stale).
Proof. destruct listed, rebind, stale; by eexists. Qed.
Definition run_s (listed : bool) (script : list Msg) : hstate (W := list Msg) :=
  {| h_engine := is_Some_proj (run_engine_ok listed true false); h_world := script; h_trace := [] |}.

Lemma run_s_blocklist listed script : e_blocklist (h_engine (run_s listed script)) = run_checker listed.
Proof.
  cbn [run_s h_engine]. generalize (run_engine_ok listed true false). unfold run_engine.
  destruct (NewDNSEngine _ _ _ _ _ _ _) as [e|]; [done|]. by intros [? ?].
Qed.

Lemma run_s_open listed script : queues_open (h_engine (run_s listed script)).
Proof. destruct listed; split; intros x; vm_compute; intros [= <-]; reflexivity. Qed.
Lemma run_s_policy listed script : e_policyEngine (h_engine (run_s listed script)) = Some NewPolicyEngine.
Proof. by destruct listed; vm_compute. Qed.

Lemma ProcessDNSQuery_verdict_witness :
  let e := h_engine (run_s true []) in
  let d := query_name (run_question "www.ads.com.") in let c := query_client (run_env 0) in
  ∃ s' effs, ProcessDNSQuery scripted (run_env 0) (Some (run_query "www.ads.com.")) (run_s true []) = Some (tt, s') ∧
    h_trace s' = h_trace (run_s true []) ++ effs ∧
    effects_of scripted e (run_env 0) d c (h_world (run_s true [])) (run_query "www.ads.com.") (run_question "www.ads.com.")
      (spec_verdict e (run_env 0) NewPolicyEngine d c) effs.
Proof.
  exact (ProcessDNSQuery_verdict scripted (run_env 0) NewPolicyEngine (run_query "www.ads.com.")
    (run_question "www.ads.com.") [] (run_s true []) ltac:(reflexivity) ltac:(vm_compute; reflexivity)
    ltac:(vm_compute; reflexivity) (run_s_policy true []) (run_s_open true [])).
Defined.

Example run_verdict :
  spec_verdict (h_engine (run_s true [])) (run_env 0) NewPolicyEngine "www.ads.com" "192.168.1.10:5353"
  = VBlock true "blocklist" no_result.
Proof. vm_compute. reflexivity. Qed.

Lemma run_enclosing :
  enclosing (repo_normalize (query_name (run_question "www.ads.com."))) (en_Domain (ex_row "ads.com")).
Proof.
  exists ["www"%string], ["ads"; "com"]%string. split; [vm_compute; reflexivity|]. split; [simpl; lia|reflexivity].
Qed.
Lemma blocklisted_sinkholed_witness :
  ∃ s' effs, ProcessDNSQuery scripted (run_env 0) (Some (run_query "www.ads.com.")) (run_s true []) = Some (tt, s') ∧
    h_trace s' = h_trace (run_s true []) ++ effs ∧
    List.filter is_write effs = [Wrote (blocked_reply (run_query "www.ads.com.") (run_question "www.ads.com."))] ∧
    ∀ x, Exchanged x ∉ effs.
Proof.
  exact (blocklisted_sinkholed (D := list_db) (L := list_db_laws) scripted (run_env 0) NewPolicyEngine
    (run_query "www.ads.com.") (run_question "www.ads.com.") [] (run_s true []) run_tables true (ex_row "ads.com")
    ltac:(reflexivity) ltac:(vm_compute; reflexivity) ltac:(vm_compute; reflexivity) (run_s_policy true [])
    (run_s_open true []) (run_s_blocklist true []) ltac:(vm_compute; reflexivity) (list_elem_of_here _ _) run_enclosing
    ltac:(vm_compute; reflexivity)).
Defined.

Definition run_batch : list (QueryEnv * option Msg) := [(run_env 0, Some (run_query "a.org.")); (run_env 0, None)].

Lemma one_response_each_witness :
  ∃ s' effs, serve scripted run_batch (run_s true []) = Some (tt, s') ∧ h_trace s' = h_trace (run_s true []) ++ effs ∧
    writes effs = length (List.filter (λ x, has_question x.2) run_batch).
Proof. exact (one_response_each scripted run_batch (run_s true []) NewPolicyEngine (run_s_policy true []) (run_s_open true [])). Defined.

Lemma error_count_stays_zero_witness :
  ∃ s', serve scripted run_batch (run_s true []) = Some (tt, s') ∧
    ag_Errors (Aggregate 1 (e_metrics (h_engine s'))) = 0.
Proof.
  exact (error_count_stays_zero scripted run_batch (run_s true []) NewPolicyEngine 0 1 (run_s_policy true [])
    (run_s_open true []) ltac:(vm_compute; reflexivity)).
Defined.

Definition run_internal : Msg := run_answer "a.org." "10.0.0.1".
Definition run_s1 : hstate (W := list Msg) :=
  {| h_engine := h_engine (run_s false []); h_world := []; h_trace := [Exchanged (run_query "a.org.")] |}.

Lemma rebind_protected_witness :
  let kept := List.filter (λ rr, negb (internal_rr rr)) (m_Answer run_internal) in
  ∃ o m s', forwardUpstream scripted (run_env 0) (run_query "a.org.") (run_question "a.org.") "a.org"
      (run_s false [run_internal]) = Some (o, s') ∧ h_trace s' = h_trace run_s1 ++ [Wrote m] ∧
    (m = set_answer run_internal kept ∨
     m = blocked_reply (run_query "a.org.") (run_question "a.org.") ∧
       (kept = [] ∧ m_Answer run_internal ≠ [] ∨
        gd_Block (geo_Evaluate (e_geo (h_engine (run_s false [run_internal]))) (answerIPs (set_answer run_internal kept))) = true)).
Proof.
  exact (rebind_protected scripted (run_env 0) (run_query "a.org.") (run_question "a.org.") "a.org"
    (run_s false [run_internal]) run_s1 run_internal ltac:(vm_compute; reflexivity) ltac:(vm_compute; reflexivity)).
Defined.

Lemma search_domain_stripped_witness :
  query_name (run_question "GoDaddy.com.hgu_lan.") = "godaddy.com"%string.
Proof.
  apply (search_domain_stripped (run_question "GoDaddy.com.hgu_lan.") "godaddy.com" "hgu_lan").
  - vm_compute. reflexivity.
  - apply (bool_decide_unpack _). vm_compute. exact I.
  - vm_compute. lia.
  - intros l [= <-]. apply (bool_decide_unpack _). vm_compute. exact I.
Defined.
