(* ===== verification/Watchdog.v ===== *)
(** * The self-heal watchdog

    [internal/watchdog/watchdog.go]. A probe and a recovery callback are what they
    return; a panic of either is contained by the code, so a probe is an outcome of
    [probe_result] and a recovery always comes back. *)
From S2P Require Import Prelude.

Definition DefaultInterval : Z := 30 * second.
Definition WatchdogFailureThreshold : Z := 3.

Record WatchdogConfig := { wc_Interval : Z; wc_FailureThreshold : Z }.

Record Watchdog := {
  wd_interval : Z;
  wd_threshold : Z;
  wd_enabled : bool;
  wd_started : bool;
  wd_failures : Z;
  wd_healthy : bool;
}.

Definition wd_New (cfg : WatchdogConfig) : Watchdog := {|
  wd_interval := wc_Interval cfg;
  wd_threshold := if wc_FailureThreshold cfg <? 1 then WatchdogFailureThreshold else wc_FailureThreshold cfg;
  wd_enabled := 0 <? wc_Interval cfg; wd_started := false; wd_failures := 0; wd_healthy := true |}.

(** [Start]: whether the loop is launched, and the watchdog. *)
Definition wd_Start (w : Watchdog) : bool * Watchdog :=
  if negb (wd_enabled w) then (false, w)
  else if wd_started w then (false, w)
  else (true, {| wd_interval := wd_interval w; wd_threshold := wd_threshold w; wd_enabled := wd_enabled w;
                 wd_started := true; wd_failures := wd_failures w; wd_healthy := wd_healthy w |}).

(** A probe: nil, or one that returned or panicked. *)
Inductive probe_result := NilProbe | Probed (healthy : bool) | ProbePanicked.
Definition safeProbe (p : probe_result) : bool :=
  match p with NilProbe => true | Probed b => b | ProbePanicked => false end.

Definition wd_set (w : Watchdog) (failures : Z) (healthy : bool) : Watchdog := {|
  wd_interval := wd_interval w; wd_threshold := wd_threshold w; wd_enabled := wd_enabled w;
  wd_started := wd_started w; wd_failures := failures; wd_healthy := healthy |}.

(** [check]: whether recovery was invoked, and the watchdog after the cycle. *)
Definition wd_check (p : probe_result) (w : Watchdog) : bool * Watchdog :=
  if safeProbe p then (false, wd_set w 0 true)
  else
    let failures := wd_failures w + 1 in
    if wd_threshold w <=? failures then (true, wd_set w 0 false)
    else (false, wd_set w failures false).

(** The loop of [run] over the ticks it receives. *)
Fixpoint wd_run (ps : list probe_result) (w : Watchdog) : list bool * Watchdog :=
  match ps with
  | [] => ([], w)
  | p :: ps' => let '(b, w) := wd_check p w in
                let '(bs, w) := wd_run ps' w in (b :: bs, w)
  end.

(** ** Histories *)

(** The number of unhealthy probes at the end of a history. *)
Definition bad_streak (ps : list probe_result) : Z :=
  foldl (λ n p, if safeProbe p then 0 else n + 1) 0 ps.

Lemma wd_run_snoc ps p w :
  wd_run (ps ++ [p]) w =
    ((wd_run ps w).1 ++ [(wd_check p (wd_run ps w).2).1], (wd_check p (wd_run ps w).2).2).
Proof.
  revert w. induction ps as [|p' ps IH]; intros w; simpl; [by destruct (wd_check p w)|].
  destruct (wd_check p' w) as [b w']. rewrite IH. by destruct (wd_run ps w').
Qed.

Lemma bad_streak_snoc ps p : bad_streak (ps ++ [p]) = if safeProbe p then 0 else bad_streak ps + 1.
Proof. unfold bad_streak. by rewrite foldl_snoc. Qed.

Lemma wd_New_threshold cfg : 1 ≤ wd_threshold (wd_New cfg).
Proof. simpl. unfold WatchdogFailureThreshold. destruct (Z.ltb_spec (wc_FailureThreshold cfg) 1); lia. Qed.

Lemma mod_succ n th :
  1 ≤ th → (n + 1) mod th = if th <=? n mod th + 1 then 0 else n mod th + 1.
Proof.
  intros Hth. pose proof (Z.mod_pos_bound n th ltac:(lia)) as Hb.
  rewrite <- Z.add_mod_idemp_l by lia. destruct (Z.leb_spec th (n mod th + 1)).
  - replace (n mod th + 1) with th by lia. apply Z_mod_same_full.
  - apply Z.mod_small. lia.
Qed.

(** The failure counter is the streak modulo the threshold, and the health flag is
    the last probe's. *)
Lemma wd_run_state cfg ps :
  let w := (wd_run ps (wd_New cfg)).2 in
  let th := wd_threshold (wd_New cfg) in
  wd_threshold w = th ∧ wd_failures w = bad_streak ps mod th.
Proof.
  cbv zeta. pose proof (wd_New_threshold cfg) as Hth. set (th := wd_threshold (wd_New cfg)) in *.
  induction ps as [|p ps (H1 & H2)] using rev_ind; [done|].
  rewrite wd_run_snoc, bad_streak_snoc. cbn [snd]. unfold wd_check. rewrite H1, H2.
  destruct (safeProbe p); [done|]. rewrite mod_succ by done. by destruct (th <=? _).
Qed.

(** Recovery is invoked on a tick exactly when its probe is unhealthy (or panics)
    and the unhealthy streak it ends has a length that is a multiple of the threshold:
    after each full threshold of consecutive failures and never sooner. The health flag
    is that of the last probe. *)
Theorem watchdog_recovers_iff cfg ps p :
  let w := (wd_run ps (wd_New cfg)).2 in
  let th := wd_threshold (wd_New cfg) in
  ((wd_check p w).1 = true ↔ safeProbe p = false ∧ bad_streak (ps ++ [p]) mod th = 0) ∧
  wd_healthy (wd_check p w).2 = safeProbe p.
Proof.
  cbv zeta. destruct (wd_run_state cfg ps) as (H1 & H2). pose proof (wd_New_threshold cfg) as Hth.
  set (th := wd_threshold (wd_New cfg)) in *. unfold wd_check. rewrite H1, H2, bad_streak_snoc.
  destruct (safeProbe p); [by split; [split; [done|by intros [? _]]|]|]. rewrite mod_succ by done.
  pose proof (Z.mod_pos_bound (bad_streak ps) th ltac:(lia)).
  destruct (th <=? _); simpl; (split; [|done]); split; [done|done|done|]. intros [_ ?]. lia.
Qed.

(** Six failed probes in a row invoke recovery twice, in one unhealthy episode. *)
Example recovers_twice :
  (wd_run (replicate 6 (Probed false)) (wd_New {| wc_Interval := DefaultInterval; wc_FailureThreshold := 0 |})).1
  = [false; false; true; false; false; true].
Proof. vm_compute. reflexivity. Qed.
