(* ===== verification/DnsServer.v ===== *)
(** * The DNS server

    [Server.Run] of internal/dnsengine/server.go: the two listeners, the main goroutine
    that waits for them, the signal and the shutdown, interleaved in any way with the
    calls that reach the engine meanwhile; and the probe the data plane's watchdog looks
    at. A socket either binds or does not, and serving ends in an error at any time. *)
From S2P Require Import Prelude GoStrings PolicyEngine Upstream DnsMsg DnsEngine EngineSpec Watchdog.

Inductive proto := TCP | UDP.
#[export] Instance proto_eq_dec : EqDecision proto.
Proof. solve_decision. Defined.

(** A listener's goroutine: before [net.Listen], bound, in [ActivateAndServe], ended
    without a socket, ended after it had one. *)
Inductive listener := LNew | LBound | LServing | LFailed | LEnded.
#[export] Instance listener_eq_dec : EqDecision listener.
Proof. solve_decision. Defined.

(** [Run]: the start-up loop with the number of "started" received, waiting for the signal,
    before each of the two [Shutdown] calls, and after the deferred one. *)
Inductive run_phase := Starting (n : nat) | Running | Draining (next : proto) | Returned (started : bool).
#[export] Instance run_phase_eq_dec : EqDecision run_phase.
Proof. solve_decision. Defined.

Definition set_at {A} (p : proto) (a : A) (f : proto → A) : proto → A := λ q, if decide (q = p) then a else f q.

Section Server.
Context `{BL : BloomLib} `{RX : RegexpLib} {W : Type} (close_mgr : UpstreamManager → W → W).

(** The goroutines, their channels and the engine; [sv_rpc] is what a caller other than
    [Run] last stored into the accept flag since [Run] did, [sv_shutdowns] counts. *)
Record server := {
  sv_listener : proto → listener; sv_err : proto → bool; sv_started : nat; sv_main : run_phase;
  sv_engine : Engine; sv_world : W; sv_rpc : option bool; sv_shutdowns : nat;
}.

(** A goroutine moves on, with what it sends: a value on "started" or an error. *)
Definition listener_at (p : proto) (l : listener) (sends : option bool) (s : server) : server := {|
  sv_listener := set_at p l (sv_listener s);
  sv_err := match sends with Some false => set_at p true (sv_err s) | _ => sv_err s end;
  sv_started := match sends with Some true => S (sv_started s) | _ => sv_started s end;
  sv_main := sv_main s; sv_engine := sv_engine s; sv_world := sv_world s; sv_rpc := sv_rpc s; sv_shutdowns := sv_shutdowns s |}.
(** [Run] moves on and stores into the accept flag. *)
Definition main_at (m : run_phase) (accept : option bool) (s : server) : server := {|
  sv_listener := sv_listener s; sv_err := sv_err s; sv_started := sv_started s; sv_main := m;
  sv_engine := match accept with Some b => SetAcceptQueries b (sv_engine s) | None => sv_engine s end;
  sv_world := sv_world s; sv_rpc := match accept with Some _ => None | None => sv_rpc s end; sv_shutdowns := sv_shutdowns s |}.
(** A value received from "started", or from a listener's error channel. *)
Definition take_started (s : server) : server := {|
  sv_listener := sv_listener s; sv_err := sv_err s; sv_started := pred (sv_started s); sv_main := sv_main s;
  sv_engine := sv_engine s; sv_world := sv_world s; sv_rpc := sv_rpc s; sv_shutdowns := sv_shutdowns s |}.
Definition take_err (p : proto) (s : server) : server := {|
  sv_listener := sv_listener s; sv_err := set_at p false (sv_err s); sv_started := sv_started s; sv_main := sv_main s;
  sv_engine := sv_engine s; sv_world := sv_world s; sv_rpc := sv_rpc s; sv_shutdowns := sv_shutdowns s |}.
(** The deferred [engine.Shutdown]. *)
Definition returns (ok : bool) (s : server) : server :=
  let '(e, w) := Shutdown close_mgr (sv_engine s) (sv_world s) in {|
  sv_listener := sv_listener s; sv_err := sv_err s; sv_started := sv_started s; sv_main := Returned ok;
  sv_engine := e; sv_world := w; sv_rpc := sv_rpc s; sv_shutdowns := S (sv_shutdowns s) |}.
Definition with_engine (e : Engine) (w : W) (rpc : option bool) (s : server) : server := {|
  sv_listener := sv_listener s; sv_err := sv_err s; sv_started := sv_started s; sv_main := sv_main s;
  sv_engine := e; sv_world := w; sv_rpc := rpc; sv_shutdowns := sv_shutdowns s |}.

(** [Shutdown] of a miekg server: it ends one that serves, and is an error on one that
    does not, which is only logged. *)
Definition stop_listener (p : proto) (s : server) : server :=
  if decide (sv_listener s p = LServing) then listener_at p LEnded None s else s.

Inductive server_step : server → server → Prop :=
| listen_ok p s : sv_listener s p = LNew → server_step s (listener_at p LBound (Some true) s)
| listen_fails p s : sv_listener s p = LNew → server_step s (listener_at p LFailed (Some false) s)
| activates p s : sv_listener s p = LBound → server_step s (listener_at p LServing None s)
| serve_fails p s : sv_listener s p = LServing → server_step s (listener_at p LEnded (Some false) s)
| start_failed p n s : sv_main s = Starting n → sv_err s p = true → server_step s (returns false (take_err p s))
| one_started n k s : sv_main s = Starting n → sv_started s = S k →
    server_step s (if decide (n = 0%nat) then main_at (Starting 1) None (take_started s) else main_at Running (Some true) (take_started s))
| signal s : sv_main s = Running → server_step s (main_at (Draining UDP) (Some false) s)
| drains_udp s : sv_main s = Draining UDP → server_step s (main_at (Draining TCP) None (stop_listener UDP s))
| drains_tcp s : sv_main s = Draining TCP → server_step s (returns true (stop_listener TCP s))
| accept_rpc b s : server_step s (with_engine (SetAcceptQueries b (sv_engine s)) (sv_world s) (Some b) s)
| other_call e w s : e_acceptQueries e = e_acceptQueries (sv_engine s) → server_step s (with_engine e w (sv_rpc s) s).

Definition server_start (e : Engine) (w : W) : server := {|
  sv_listener := λ _, LNew; sv_err := λ _, false; sv_started := 0; sv_main := Starting 0;
  sv_engine := e; sv_world := w; sv_rpc := None; sv_shutdowns := 0 |}.
Inductive server_reachable (e : Engine) (w : W) : server → Prop :=
| server_init : server_reachable e w (server_start e w)
| server_next s s' : server_reachable e w s → server_step s s' → server_reachable e w s'.

(** ** The lifecycle *)

(** The socket is, or was, there. *)
Definition had_socket (l : listener) : nat := match l with LBound | LServing | LEnded => 1 | LNew | LFailed => 0 end.
Definition sockets (s : server) : nat := had_socket (sv_listener s TCP) + had_socket (sv_listener s UDP).

Record server_inv (s : server) : Prop := {
  si_phase : match sv_main s with
             | Starting n => (n ≤ 1 ∧ sockets s = sv_started s + n)%nat
             | Running | Draining _ | Returned true => sockets s = 2%nat
             | Returned false => True
             end;
  si_flag : e_acceptQueries (sv_engine s) = default (bool_decide (sv_main s = Running)) (sv_rpc s);
  si_down : sv_shutdowns s = (match sv_main s with Returned _ => 1 | _ => 0 end)%nat;
  si_failed : ∀ n p, sv_main s = Starting n → sv_listener s p = LFailed → sv_err s p = true;
}.

Lemma set_at_eq {A} p (a : A) f : set_at p a f p = a.
Proof. unfold set_at. by rewrite decide_True. Qed.
Lemma sockets_at p l sends s :
  (sockets (listener_at p l sends s) + had_socket (sv_listener s p) = sockets s + had_socket l)%nat.
Proof. unfold sockets. destruct p; simpl; unfold set_at; simpl; lia. Qed.
Lemma sockets_le s : (sockets s ≤ 2)%nat.
Proof. unfold sockets. destruct (sv_listener s TCP), (sv_listener s UDP); simpl; lia. Qed.

(** A goroutine that has its socket keeps it, whatever it sends. *)
Lemma same_sockets p l sends s : had_socket (sv_listener s p) = had_socket l → sockets (listener_at p l sends s) = sockets s.
Proof. intros E. pose proof (sockets_at p l sends s). lia. Qed.
Lemma stop_sockets p s : sockets (stop_listener p s) = sockets s.
Proof. unfold stop_listener. case_decide as E; [apply same_sockets; by rewrite E|done]. Qed.
Lemma stop_fields p s : sv_main (stop_listener p s) = sv_main s ∧ sv_engine (stop_listener p s) = sv_engine s ∧
  sv_rpc (stop_listener p s) = sv_rpc s ∧ sv_shutdowns (stop_listener p s) = sv_shutdowns s.
Proof. unfold stop_listener. by case_decide. Qed.
Lemma returns_flag ok s : e_acceptQueries (sv_engine (returns ok s)) = e_acceptQueries (sv_engine s).
Proof. unfold returns, Shutdown. reflexivity. Qed.

Lemma listener_at_inv p l sends s : server_inv s →
  (match sv_main s with Starting n => (sockets (listener_at p l sends s) = sv_started (listener_at p l sends s) + n)%nat
   | Returned false => True
   | _ => sockets (listener_at p l sends s) = sockets s end) →
  (l = LFailed → sends = Some false) → server_inv (listener_at p l sends s).
Proof.
  intros [Hp Hf Hd He] Hs Hl. split; cbn [listener_at sv_main sv_engine sv_rpc sv_shutdowns]; [|done..|].
  - destruct (sv_main s) as [n| | |[]]; try done; [by destruct Hp|congruence..].
  - intros n q Hm Hq. cbn [listener_at sv_listener sv_err] in *. destruct (decide (q = p)) as [->|Hne].
    + rewrite set_at_eq in Hq. rewrite Hl by done. by rewrite set_at_eq.
    + unfold set_at in *. rewrite decide_False in Hq by done. specialize (He n q Hm Hq).
      destruct sends as [[]|]; [done|by rewrite decide_False|done].
Qed.

Lemma server_step_inv s s' : server_inv s → server_step s s' → server_inv s'.
Proof.
  intros Hi Hs. pose proof Hi as [Hp Hf Hd He].
  destruct Hs as [p s Hl|p s Hl|p s Hl|p s Hl|p n s Hm Herr|n k s Hm Hst|s Hm|s Hm|s Hm|b s|e w s Hw].
  - pose proof (sockets_at p LBound (Some true) s) as E. rewrite Hl in E. cbn in E. pose proof (sockets_le (listener_at p LBound (Some true) s)).
    apply listener_at_inv; [done| |done]. destruct (sv_main s) as [n| | |[]]; cbn [listener_at sv_started]; lia.
  - apply listener_at_inv; [done| |done]. rewrite same_sockets by (by rewrite Hl). destruct (sv_main s) as [n| | |[]]; [by destruct Hp|done..].
  - apply listener_at_inv; [done| |done]. rewrite same_sockets by (by rewrite Hl). destruct (sv_main s) as [n| | |[]]; [by destruct Hp|done..].
  - apply listener_at_inv; [done| |done]. rewrite same_sockets by (by rewrite Hl). destruct (sv_main s) as [n| | |[]]; [by destruct Hp|done..].
  - rewrite Hm in *. split; [done| |by cbn; rewrite Hd|done]. rewrite returns_flag. cbn. by rewrite Hf.
  - rewrite Hm in *. destruct Hp as [Hn Hk]. destruct (decide (n = 0%nat)) as [->|En].
    + split; [|done..|].
      * cbn. unfold sockets in *. cbn. lia.
      * intros n' q [= <-]. exact (He 0%nat q eq_refl).
    + split; [|done..]. cbn. pose proof (sockets_le s). unfold sockets in *. cbn. lia.
  - rewrite Hm in *. by split.
  - rewrite Hm in *. destruct (stop_fields UDP s) as (H1 & H2 & H3 & H4). split; cbn.
    + by rewrite <- (stop_sockets UDP) in Hp.
    + by rewrite H2, H3.
    + by rewrite H4.
    + done.
  - rewrite Hm in *. destruct (stop_fields TCP s) as (H1 & H2 & H3 & H4). split.
    + change (sockets (stop_listener TCP s) = 2%nat). by rewrite stop_sockets.
    + rewrite returns_flag. cbn. by rewrite H2, H3.
    + cbn. by rewrite H4, Hd.
    + done.
  - by split.
  - split; try done. cbn. by rewrite Hw.
Qed.

Lemma server_reachable_inv e w s : e_acceptQueries e = false → server_reachable e w s → server_inv s.
Proof.
  intros He. induction 1 as [|s s' _ IH Hs]; [|by eapply server_step_inv].
  split; cbn; try done. unfold sockets. cbn. lia.
Qed.

(** C27. The life of the server, over every interleaving of its goroutines, the callers and
    the signal: the accept flag is what a caller last stored since [Run] last did, and
    otherwise on exactly while [Run] waits for the signal, which it does only after both
    sockets were bound; the engine is shut down once, when [Run] returns; and [Run] is
    never stuck in the start-up loop once both listeners have tried to bind, but goes on
    with the next one or returns. *)
Theorem server_lifecycle e w s : e_acceptQueries e = false → server_reachable e w s →
  e_acceptQueries (sv_engine s) = default (bool_decide (sv_main s = Running)) (sv_rpc s) ∧
  (sv_main s = Running → ∀ p, sv_listener s p ∈ [LBound; LServing; LEnded]) ∧
  sv_shutdowns s = (match sv_main s with Returned _ => 1 | _ => 0 end)%nat ∧
  (∀ n, sv_main s = Starting n → (∀ p, sv_listener s p ≠ LNew) →
     ∃ s', server_step s s' ∧ sv_main s' ∈ [Starting (S n); Running; Returned false] ∧
       (sv_main s' = Returned false ↔ ∃ p, sv_err s p = true ∧ s' = returns false (take_err p s))).
Proof.
  intros He Hr. destruct (server_reachable_inv _ _ _ He Hr) as [Hp Hf Hd Hfail]. split; [done|].
  split; [|split; [done|]].
  - intros Hm p. rewrite Hm in Hp. unfold sockets in Hp.
    destruct p; [destruct (sv_listener s TCP)|destruct (sv_listener s UDP)]; try set_solver; cbn in Hp.
    all: destruct (sv_listener s UDP), (sv_listener s TCP); cbn in Hp; lia.
  - intros n Hm Hnew. rewrite Hm in Hp. destruct Hp as [Hn Hs].
    destruct (sv_err s TCP) eqn:Et.
    { eexists. split; [by apply (start_failed TCP n)|]. split; [set_solver|]. split; [|done]. intros _. by exists TCP. }
    destruct (sv_err s UDP) eqn:Eu.
    { eexists. split; [by apply (start_failed UDP n)|]. split; [set_solver|]. split; [|done]. intros _. by exists UDP. }
    assert (∀ p, had_socket (sv_listener s p) = 1%nat) as Hb.
    { intros p. specialize (Hnew p). specialize (Hfail n p Hm). destruct (sv_listener s p); try done.
      destruct p; rewrite Hfail in * by done; done. }
    unfold sockets in Hs. rewrite !Hb in Hs. destruct (sv_started s) as [|k] eqn:Ek; [lia|].
    eexists. split; [by apply (one_started n k)|]. destruct (decide (n = 0%nat)) as [->|E0].
    + split; [cbn; set_solver|]. split; [done|]. intros (p & Hp & _). destruct p; congruence.
    + split; [cbn; set_solver|]. split; [done|]. intros (p & Hp & _). destruct p; congruence.
Qed.
(** ** A run that comes up, and one whose listeners die *)

(** Both listeners bind and serve, and [Run] sees it. *)
Definition upped (e : Engine) (w : W) : server :=
  let s := listener_at UDP LServing None (listener_at TCP LServing None
             (listener_at UDP LBound (Some true) (listener_at TCP LBound (Some true) (server_start e w)))) in
  main_at Running (Some true) (take_started (main_at (Starting 1) None (take_started s))).
Lemma upped_reachable e w : server_reachable e w (upped e w).
Proof.
  unfold upped. set (s1 := listener_at TCP LBound (Some true) (server_start e w)).
  set (s2 := listener_at UDP LBound (Some true) s1). set (s3 := listener_at TCP LServing None s2).
  set (s4 := listener_at UDP LServing None s3). set (s5 := main_at (Starting 1) None (take_started s4)).
  assert (server_reachable e w s4) as H4.
  { repeat (eapply server_next; [|by constructor]). apply server_init. }
  assert (server_reachable e w s5) as H5 by (eapply server_next; [exact H4|exact (one_started 0 1 s4 eq_refl eq_refl)]).
  eapply server_next; [exact H5|exact (one_started 1 0 s5 eq_refl eq_refl)].
Qed.

(** Both listeners end with an error that nobody reads: the engine goes on claiming to
    accept queries, the watchdog, which looks at nothing else, never recovers anything,
    and [Run] goes on waiting for the signal. *)
Lemma dead_listeners_unnoticed e w cfg n : e_acceptQueries e = false →
  ∃ s, server_reachable e w s ∧ (∀ p, sv_listener s p = LEnded) ∧
    st_AcceptingQueries (engine_Status (sv_engine s)) = true ∧
    (wd_run (replicate n (Probed (st_AcceptingQueries (engine_Status (sv_engine s))))) (wd_New cfg)).1 = replicate n false ∧
    (∀ s', server_step s s' → sv_main s' = Running ∨ s' = main_at (Draining UDP) (Some false) s).
Proof.
  intros He. set (s := listener_at UDP LEnded (Some false) (listener_at TCP LEnded (Some false) (upped e w))).
  assert (st_AcceptingQueries (engine_Status (sv_engine s)) = true) as Ha by done.
  exists s. split; [|split; [by intros []|split; [done|split]]].
  - eapply server_next; [eapply server_next; [apply upped_reachable|]|]; by apply serve_fails.
  - rewrite Ha. clear. generalize (wd_New cfg). induction n as [|n IH]; intros w0; [done|]. cbn [replicate wd_run].
    unfold wd_check. cbn [safeProbe]. specialize (IH (wd_set w0 0 true)). destruct (wd_run _ _). cbn in *. by rewrite IH.
  - intros s' Hs. assert (sv_main s = Running) as Hm by done. destruct Hs; try congruence; auto.
Qed.
End Server.

Module ServerLife.
#[local] Instance life_unicode : GoUnicode := ascii_unicode.
#[local] Instance life_bloom : BloomLib := set_bloom.
#[local] Instance life_regexp : RegexpLib := literal_regexp.
#[local] Instance life_threat : Threat.ThreatEnv := Threat.ex_threat_env.
#[local] Instance life_transport : TransportEnv := {| udp_dials := λ _, true |}.

Lemma boots : is_Some (run_engine false false false).
Proof. vm_compute. by eexists. Qed.
Definition boot : Engine := SetAcceptQueries false (is_Some_proj boots).

Lemma server_lifecycle_witness :
  e_acceptQueries (sv_engine (upped boot tt)) = true ∧ sv_shutdowns (upped boot tt) = 0%nat.
Proof.
  destruct (server_lifecycle (λ _ w, w) boot tt (upped boot tt) eq_refl (upped_reachable (λ _ w, w) boot tt)) as (H1 & _ & H3 & _).
  split; [exact H1|exact H3].
Defined.
End ServerLife.
