(* ===== verification/Ha.v ===== *)
(** * Active-passive high availability

    [internal/ha]: config.go, manager.go and the parameters of keepalived.go. Whether
    a probe's connection comes up is an argument of each tick; the keepalived template is
    in Keepalived.v, the values it is given are [keepalived_resolve]. *)
From S2P Require Import Prelude GoStrings.

(** ** config.go *)

(** [Role] is a string; the two roles by name. *)
Definition RolePrimary : string := "primary".
Definition RoleBackup : string := "backup".

Definition DefaultCheckInterval : Z := 2 * second.
Definition HaFailureThreshold : Z := 3.
Definition HaRecoveryThreshold : Z := 3.
Definition DefaultDialTimeout : Z := 1 * second.

Record HaConfig := {
  hc_Enabled : bool; hc_Role : string; hc_PeerAddr : string; hc_VIP : string;
  hc_CheckInterval : Z; hc_FailureThreshold : Z; hc_RecoveryThreshold : Z; hc_DialTimeout : Z;
}.

Definition or_default (v d : Z) : Z := if v <=? 0 then d else v.
Definition withDefaults (c : HaConfig) : HaConfig := {|
  hc_Enabled := hc_Enabled c; hc_Role := hc_Role c; hc_PeerAddr := hc_PeerAddr c; hc_VIP := hc_VIP c;
  hc_CheckInterval := or_default (hc_CheckInterval c) DefaultCheckInterval;
  hc_FailureThreshold := or_default (hc_FailureThreshold c) HaFailureThreshold;
  hc_RecoveryThreshold := or_default (hc_RecoveryThreshold c) HaRecoveryThreshold;
  hc_DialTimeout := or_default (hc_DialTimeout c) DefaultDialTimeout |}.

Inductive ha_error :=
| HaInvalidRole (role : string) | HaPeerRequired
| HaInterfaceRequired | HaVIPRequired | HaRouterID (id : Z).

Definition ha_Validate (c : HaConfig) : result ha_error unit :=
  if negb (hc_Enabled c) then Ok tt
  else if negb (bool_decide (hc_Role c = RolePrimary) || bool_decide (hc_Role c = RoleBackup))
  then Err (HaInvalidRole (hc_Role c))
  else if bool_decide (TrimSpace (hc_PeerAddr c) = ""%string) then Err HaPeerRequired
  else Ok tt.

(** [strconv.ParseBool], an error being false as in [parseBool]. *)
Definition parseBool (s : string) : bool :=
  bool_decide (TrimSpace s ∈ ["1"; "t"; "T"; "TRUE"; "true"; "True"]%string).

Definition ha_ConfigFromEnv `{U : GoUnicode} (getenv : string → string) : HaConfig :=
  withDefaults {|
    hc_Enabled := parseBool (getenv "HA_ENABLED");
    hc_Role := ToLower (TrimSpace (getenv "HA_ROLE"));
    hc_PeerAddr := TrimSpace (getenv "HA_PEER_ADDR"); hc_VIP := TrimSpace (getenv "HA_VIP");
    hc_CheckInterval := 0; hc_FailureThreshold := 0; hc_RecoveryThreshold := 0; hc_DialTimeout := 0 |}.

(** ** manager.go *)

Inductive HaState := StateActive | StateStandby.
#[export] Instance HaState_eq_dec : EqDecision HaState.
Proof. solve_decision. Defined.

Record HaManager := {
  ha_cfg : HaConfig;
  ha_state : HaState;
  ha_peerUp : bool;
  ha_consecFailures : Z;
  ha_consecSuccesses : Z;
  ha_lastTransition : Z;
}.

Definition desiredState (cfg : HaConfig) (peerUp : bool) : HaState :=
  if negb (hc_Enabled cfg) then StateActive
  else if bool_decide (hc_Role cfg = RolePrimary) then StateActive
  else if peerUp then StateStandby else StateActive.

Definition ha_New (now : Z) (cfg : HaConfig) : result ha_error HaManager :=
  let cfg := withDefaults cfg in
  let? _ := ha_Validate cfg in
  Ok {| ha_cfg := cfg; ha_state := desiredState cfg true; ha_peerUp := true;
        ha_consecFailures := 0; ha_consecSuccesses := 0; ha_lastTransition := now |}.

Definition Tick (now : Z) (peerHealthy : bool) (m : HaManager) : HaState * HaManager :=
  let cfg := ha_cfg m in
  if negb (hc_Enabled cfg) then (StateActive, m) else
  let '(fails, succs, up) :=
    if peerHealthy then
      let succs := ha_consecSuccesses m + 1 in
      (0, succs, if negb (ha_peerUp m) && (hc_RecoveryThreshold cfg <=? succs) then true else ha_peerUp m)
    else
      let fails := ha_consecFailures m + 1 in
      (fails, 0, if ha_peerUp m && (hc_FailureThreshold cfg <=? fails) then false else ha_peerUp m) in
  let next := desiredState cfg up in
  let changed := negb (bool_decide (next = ha_state m)) in
  (next, {| ha_cfg := cfg; ha_state := next; ha_peerUp := up; ha_consecFailures := fails;
            ha_consecSuccesses := succs;
            ha_lastTransition := if changed then now else ha_lastTransition m |}).

Definition ha_IsActive (m : HaManager) : bool := bool_decide (ha_state m = StateActive).
Definition ShouldTakeOver (m : HaManager) : bool :=
  hc_Enabled (ha_cfg m) && bool_decide (hc_Role (ha_cfg m) = RoleBackup) && ha_IsActive m.

Definition ha_State (m : HaManager) : HaState := ha_state m.
Definition ha_PeerUp (m : HaManager) : bool := ha_peerUp m.
Definition ha_Role (m : HaManager) : string := hc_Role (ha_cfg m).
Record HaStatus := {
  hs_Enabled : bool; hs_Role : string; hs_State : HaState; hs_PeerAddr : string; hs_PeerUp : bool; hs_VIP : string;
  hs_LastTransition : Z;
}.
Definition ha_Status (m : HaManager) : HaStatus := {|
  hs_Enabled := hc_Enabled (ha_cfg m); hs_Role := hc_Role (ha_cfg m); hs_State := ha_state m;
  hs_PeerAddr := hc_PeerAddr (ha_cfg m); hs_PeerUp := ha_peerUp m; hs_VIP := hc_VIP (ha_cfg m);
  hs_LastTransition := ha_lastTransition m |}.
(** [tcpHealthCheck]: what is dialled over TCP, and the verdict; [dial] says whether the
    connection comes up in time. *)
Definition tcpHealthCheck (dial : string → bool) (addr : string) : list string * bool :=
  if bool_decide (addr = ""%string) then ([], false) else ([addr], dial addr).
Definition probeOnce (now : Z) (dial : string → bool) (m : HaManager) : list string * (HaState * HaManager) :=
  let '(dialled, healthy) := tcpHealthCheck dial (hc_PeerAddr (ha_cfg m)) in (dialled, Tick now healthy m).

(** [Run] until its context ends: one probe per tick, each at its instant and with its
    fate; with it what was dialled, in order. *)
Definition ha_loop (s : list string * HaManager) (tick : Z * (string → bool)) : list string * HaManager :=
  let '(dialled, (_, m)) := probeOnce tick.1 tick.2 s.2 in (s.1 ++ dialled, m).
Definition ha_Run (ticks : list (Z * (string → bool))) (m : HaManager) : list string * HaManager :=
  if negb (hc_Enabled (ha_cfg m)) then ([], m) else foldl ha_loop ([], m) ticks.

(** What a run of probes makes of the manager, each at its instant and with its outcome. *)
Definition ha_run (m : HaManager) (obs : list (Z * bool)) : HaManager :=
  foldl (λ m o, (Tick o.1 o.2 m).2) m obs.

(** ** keepalived.go *)

Record KeepalivedParams := {
  kp_Role : string; kp_Interface : string; kp_VIP : string; kp_InstanceName : string;
  kp_RouterID : Z; kp_AdvertInt : Z; kp_AuthPass : string; kp_Priority : Z;
}.
Record keepalivedView := {
  kv_InstanceName : string; kv_VRRPState : string; kv_Interface : string; kv_RouterID : Z;
  kv_Priority : Z; kv_AdvertInt : Z; kv_AuthPass : string; kv_VIP : string;
}.

Definition str_default (s d : string) : string := if bool_decide (s = ""%string) then d else s.
Definition zero_default (v d : Z) : Z := if v =? 0 then d else v.

Definition keepalived_resolve (p : KeepalivedParams) : result ha_error keepalivedView :=
  let? sp := (if bool_decide (kp_Role p = RolePrimary) then Ok ("MASTER"%string, 200)
              else if bool_decide (kp_Role p = RoleBackup) then Ok ("BACKUP"%string, 100)
              else Err (HaInvalidRole (kp_Role p))) in
  if bool_decide (TrimSpace (kp_Interface p) = ""%string) then Err HaInterfaceRequired
  else if bool_decide (TrimSpace (kp_VIP p) = ""%string) then Err HaVIPRequired
  else
    let router := zero_default (kp_RouterID p) 51 in
    if (router <? 0) || (255 <? router) then Err (HaRouterID router)
    else Ok {|
      kv_InstanceName := str_default (kp_InstanceName p) "VI_HYDRA"; kv_VRRPState := sp.1;
      kv_Interface := TrimSpace (kp_Interface p); kv_RouterID := router;
      kv_Priority := zero_default (kp_Priority p) sp.2; kv_AdvertInt := zero_default (kp_AdvertInt p) 1;
      kv_AuthPass := str_default (kp_AuthPass p) "hydradns"; kv_VIP := TrimSpace (kp_VIP p) |}.

(** ** The loop *)

Lemma Tick_cfg now o m : ha_cfg (Tick now o m).2 = ha_cfg m.
Proof. unfold Tick. destruct (negb _); [done|]. by destruct o. Qed.

(** [Run] dials nothing but the peer, and its probes are those of [ha_run]. *)
Lemma ha_Run_probes ticks m :
  hc_Enabled (ha_cfg m) = true →
  (ha_Run ticks m).2 = ha_run m ((λ t, (t.1, (tcpHealthCheck t.2 (hc_PeerAddr (ha_cfg m))).2)) <$> ticks) ∧
  Forall (λ a, a = hc_PeerAddr (ha_cfg m) ∧ a ≠ ""%string) (ha_Run ticks m).1.
Proof.
  intros He. unfold ha_Run. rewrite He. cbn [negb].
  enough (∀ dialled m', ha_cfg m' = ha_cfg m → Forall (λ a, a = hc_PeerAddr (ha_cfg m) ∧ a ≠ ""%string) dialled →
    let s := foldl ha_loop (dialled, m') ticks in
    s.2 = ha_run m' ((λ t, (t.1, (tcpHealthCheck t.2 (hc_PeerAddr (ha_cfg m))).2)) <$> ticks) ∧
    Forall (λ a, a = hc_PeerAddr (ha_cfg m) ∧ a ≠ ""%string) s.1) as H by (by apply H).
  clear He. induction ticks as [|[t dial] ticks IH]; intros dialled m' Hm Hd; [done|]. cbn [foldl].
  assert (ha_loop (dialled, m') (t, dial) =
    (dialled ++ (tcpHealthCheck dial (hc_PeerAddr (ha_cfg m))).1, (Tick t (tcpHealthCheck dial (hc_PeerAddr (ha_cfg m))).2 m').2)) as ->.
  { unfold ha_loop, probeOnce. cbn [fst snd]. rewrite Hm. destruct (tcpHealthCheck _ _) as [d h]. cbn. by destruct (Tick _ _ _). }
  apply IH; [by rewrite Tick_cfg|]. apply Forall_app. split; [done|]. unfold tcpHealthCheck. case_bool_decide; by repeat constructor.
Qed.

(** ** Hysteresis over histories *)

(** The number of observations equal to [b] at the end of a history. *)
Definition streak (b : bool) (h : list bool) : nat :=
  foldl (λ n o, if Bool.eqb o b then S n else O) O h.

(** The peer counts as down: at some point [f] probes failed in a row, and since then
    there were never [r] successes in a row. *)
Definition down (f r : nat) (h : list bool) : Prop :=
  ∃ pre post, h = pre ++ replicate f false ++ post ∧
    ∀ p1 p2, post ≠ p1 ++ replicate r true ++ p2.

Lemma streak_snoc b h o : streak b (h ++ [o]) = if Bool.eqb o b then S (streak b h) else O.
Proof. unfold streak. by rewrite foldl_snoc. Qed.

(** A streak is a block at the end of the history, and every block there is one. *)
Lemma streak_block b h n : (n ≤ streak b h)%nat ↔ ∃ pre, h = pre ++ replicate n b.
Proof.
  revert n. induction h as [|o h IH] using rev_ind; intros n.
  - split; [intros Hn; assert (n = 0%nat) as -> by (unfold streak in Hn; simpl in Hn; lia); by exists []|].
    intros [pre E]. symmetry in E. apply app_eq_nil in E as [_ E]. destruct n; [simpl; lia|done].
  - rewrite streak_snoc. destruct n as [|n].
    { split; [intros _; exists (h ++ [o]); by rewrite app_nil_r|lia]. }
    rewrite replicate_S_end. destruct (Bool.eqb_spec o b) as [->|Hne].
    + rewrite <- Nat.succ_le_mono, IH. split; intros [pre E]; exists pre.
      * by rewrite E, app_assoc.
      * rewrite app_assoc in E. by apply app_inj_tail in E as [? _].
    + split; [lia|]. intros [pre E]. rewrite app_assoc in E. by apply app_inj_tail in E as [_ ?].
Qed.

Lemma snoc_block (h pre post l : list bool) o :
  h ++ [o] = pre ++ l ++ post → post = [] ∨ ∃ post', post = post' ++ [o] ∧ h = pre ++ l ++ post'.
Proof.
  intros E. destruct post as [|x post _] using rev_ind; [by left|right].
  rewrite !app_assoc in E. apply app_inj_tail in E as [E <-]. exists post. by rewrite E, app_assoc.
Qed.

Section Hysteresis.
Context (f r : nat) (Hf : (0 < f)%nat) (Hr : (0 < r)%nat).

(** A block of successes at the end lies after the last failure. *)
Lemma block_in_post pre post q :
  (pre ++ replicate f false) ++ post = q ++ replicate r true → ∃ p1, post = p1 ++ replicate r true.
Proof.
  intros [(k & E1 & E2)|(k & _ & ->)]%app_eq_inv; [|by exists k].
  destruct k as [|x k _] using rev_ind; [by exists []|]. exfalso.
  destruct f as [|f']; [lia|]. rewrite replicate_S_end, !app_assoc in E1. apply app_inj_tail in E1 as [_ <-].
  assert (false ∈ replicate r true) as Hin by (rewrite E2; set_solver).
  by apply elem_of_replicate in Hin as [? _].
Qed.

Lemma down_fail h : down f r (h ++ [false]) ↔ down f r h ∨ (f ≤ streak false (h ++ [false]))%nat.
Proof.
  rewrite streak_block. split.
  - intros (pre & post & E & Hno). destruct (snoc_block _ _ _ _ _ E) as [->|(post' & -> & ->)].
    + right. exists pre. by rewrite E, app_nil_r.
    + left. exists pre, post'. split; [done|]. intros p1 p2 ->.
      apply (Hno p1 (p2 ++ [false])). by rewrite <- !app_assoc.
  - intros [(pre & post & -> & Hno)|[pre E]].
    + exists pre, (post ++ [false]). split; [by rewrite <- !app_assoc|]. intros p1 p2 E.
      destruct (snoc_block _ _ _ _ _ E) as [->|(p2' & -> & ->)]; [|by apply (Hno p1 p2')].
      rewrite app_nil_r in E. destruct r as [|r']; [lia|]. rewrite replicate_S_end, app_assoc in E.
      by apply app_inj_tail in E as [_ ?].
    + exists pre, []. split; [by rewrite E, app_nil_r|]. intros p1 p2 E2.
      symmetry in E2. apply app_eq_nil in E2 as [_ [E2 _]%app_eq_nil]. by destruct r; [lia|].
Qed.

Lemma down_succeed h : down f r (h ++ [true]) ↔ down f r h ∧ (streak true (h ++ [true]) < r)%nat.
Proof.
  split.
  - intros (pre & post & E & Hno). destruct (snoc_block _ _ _ _ _ E) as [->|(post' & -> & ->)].
    { exfalso. rewrite app_nil_r in E. destruct f as [|f']; [lia|]. rewrite replicate_S_end, app_assoc in E.
      by apply app_inj_tail in E as [_ ?]. }
    split.
    + exists pre, post'. split; [done|]. intros p1 p2 ->. apply (Hno p1 (p2 ++ [true])). by rewrite <- !app_assoc.
    + apply Nat.lt_nge. intros [q E2]%streak_block.
      rewrite E, app_assoc in E2. destruct (block_in_post pre _ q E2) as [p1 Hp].
      apply (Hno p1 []). by rewrite Hp, app_nil_r.
  - intros ((pre & post & -> & Hno) & Hs). exists pre, (post ++ [true]). split; [by rewrite <- !app_assoc|].
    intros p1 p2 E. destruct (snoc_block _ _ _ _ _ E) as [->|(p2' & -> & ->)]; [|by apply (Hno p1 p2')].
    apply Nat.lt_nge in Hs. apply Hs, streak_block. exists (pre ++ replicate f false ++ p1).
    rewrite <- !app_assoc. do 2 f_equal. by rewrite E, app_nil_r.
Qed.
End Hysteresis.

(** The manager's counters are the streaks, and its view of the peer is [down]. *)
Definition ha_tracks (cfg : HaConfig) (m : HaManager) (h : list bool) : Prop :=
  ha_cfg m = cfg ∧ ha_consecFailures m = Z.of_nat (streak false h) ∧
  ha_consecSuccesses m = Z.of_nat (streak true h) ∧
  (ha_peerUp m = false ↔ down (Z.to_nat (hc_FailureThreshold cfg)) (Z.to_nat (hc_RecoveryThreshold cfg)) h) ∧
  ha_state m = desiredState cfg (ha_peerUp m).

Lemma Tick_tracks cfg now o m h :
  hc_Enabled cfg = true → 0 < hc_FailureThreshold cfg → 0 < hc_RecoveryThreshold cfg →
  ha_tracks cfg m h → ha_tracks cfg (Tick now o m).2 (h ++ [o]).
Proof.
  intros He Hf Hr (H1 & H2 & H3 & H4 & H5). unfold Tick. rewrite H1, He. cbn [negb].
  unfold ha_tracks. rewrite !streak_snoc. destruct o; cbn [Bool.eqb snd ha_cfg ha_consecFailures
    ha_consecSuccesses ha_peerUp ha_state].
  - split; [done|]. split; [done|]. split; [lia|]. split; [|done].
    rewrite down_succeed by lia. rewrite <- H4, streak_snoc. cbn [Bool.eqb].
    destruct (ha_peerUp m); cbn [negb andb]; [naive_solver|].
    destruct (Z.leb_spec (hc_RecoveryThreshold cfg) (ha_consecSuccesses m + 1)).
    + split; [done|]. intros [_ ?]. lia.
    + split; [|done]. intros _. split; [done|lia].
  - split; [done|]. split; [lia|]. split; [done|]. split; [|done].
    rewrite down_fail by lia. rewrite <- H4, streak_snoc. cbn [Bool.eqb].
    destruct (ha_peerUp m); cbn [negb andb]; [|naive_solver].
    destruct (Z.leb_spec (hc_FailureThreshold cfg) (ha_consecFailures m + 1)).
    + split; [|done]. intros _. right. lia.
    + split; [done|]. intros [?|?]; [done|lia].
Qed.

Lemma or_default_pos v d : 0 < d → 0 < or_default v d.
Proof. unfold or_default. destruct (Z.leb_spec v 0); lia. Qed.

Lemma down_nil f r : (0 < f)%nat → ¬ down f r [].
Proof.
  intros Hf (pre & post & E & _). symmetry in E. apply app_eq_nil in E as [_ [E _]%app_eq_nil]. by destruct f; [lia|].
Qed.

Lemma ha_New_tracks now cfg m :
  ha_New now cfg = Ok m → ha_tracks (withDefaults cfg) m [].
Proof.
  unfold ha_New. destruct (ha_Validate _); [|done]. intros [= <-].
  do 3 (split; [done|]). split; [|done]. split; [done|]. intros []%down_nil.
  pose proof (or_default_pos (hc_FailureThreshold cfg) HaFailureThreshold ltac:(done)). cbn. lia.
Qed.

Lemma ha_run_tracks cfg m h obs :
  hc_Enabled cfg = true → 0 < hc_FailureThreshold cfg → 0 < hc_RecoveryThreshold cfg →
  ha_tracks cfg m h → ha_tracks cfg (ha_run m obs) (h ++ obs.*2).
Proof.
  intros He Hf Hr. revert m h. induction obs as [|[t o] obs IH]; intros m h Ht; csimpl; [by rewrite app_nil_r|].
  rewrite cons_middle, app_assoc. apply IH. by apply Tick_tracks.
Qed.

(** C35. A node of an enabled pair is active exactly when it is the primary or its peer is
    down by the thresholds: at some point the failure threshold of probes failed in a
    row, and since then the recovery threshold of successes in a row was never reached.
    It has taken over exactly when it is a backup that is active. *)
Theorem ha_active_iff t0 cfg m obs :
  ha_New t0 cfg = Ok m → hc_Enabled cfg = true →
  let c := withDefaults cfg in let m' := ha_run m obs in
  (ha_IsActive m' = true ↔
     hc_Role cfg = RolePrimary ∨
     down (Z.to_nat (hc_FailureThreshold c)) (Z.to_nat (hc_RecoveryThreshold c)) obs.*2) ∧
  (ShouldTakeOver m' = true ↔ hc_Role cfg = RoleBackup ∧ ha_IsActive m' = true).
Proof.
  intros Hn He c m'. assert (ha_tracks c m' obs.*2) as (H1 & _ & _ & H4 & H5).
  { apply (ha_run_tracks c m []); [done|by apply or_default_pos|by apply or_default_pos|].
    by apply ha_New_tracks with t0. }
  unfold ShouldTakeOver, ha_IsActive. rewrite H1, H5. unfold desiredState.
  change (hc_Enabled c) with (hc_Enabled cfg). change (hc_Role c) with (hc_Role cfg). rewrite He. cbn [negb andb].
  rewrite !andb_true_iff, !bool_decide_eq_true. split; [|tauto]. rewrite <- H4.
  case_bool_decide as Hp; [tauto|]. destruct (ha_peerUp m'); [|tauto]. split; [done|by intros [?|?]].
Qed.

(** The status agrees with itself after any probes: the node is shown active exactly when
    it is shown as the primary or its peer as down. *)
Lemma ha_Status_run t0 cfg m obs :
  ha_New t0 cfg = Ok m → hc_Enabled cfg = true →
  let s := ha_Status (ha_run m obs) in
  hs_Enabled s = true ∧ hs_Role s = hc_Role cfg ∧ hs_PeerAddr s = hc_PeerAddr cfg ∧
  (hs_State s = StateActive ↔ hs_Role s = RolePrimary ∨ hs_PeerUp s = false).
Proof.
  intros Hn He. assert (ha_tracks (withDefaults cfg) (ha_run m obs) obs.*2) as (H1 & _ & _ & _ & H5).
  { apply (ha_run_tracks _ m []); [done|by apply or_default_pos|by apply or_default_pos|]. by apply ha_New_tracks with t0. }
  unfold ha_Status. cbn. rewrite H1, H5. unfold desiredState. cbn. rewrite He. cbn.
  split_and!; [done..|]. case_bool_decide; [tauto|]. destruct (ha_peerUp _); [|tauto]. split; [done|by intros [?|?]].
Qed.

(** No flapping: a single lost probe, or a single answered one, changes nothing. *)
Definition ex_backup : HaConfig := {|
  hc_Enabled := true; hc_Role := "backup"; hc_PeerAddr := "10.0.0.2:8080"; hc_VIP := "";
  hc_CheckInterval := 0; hc_FailureThreshold := 0; hc_RecoveryThreshold := 2; hc_DialTimeout := 0 |}.
Definition ex_manager : HaManager :=
  {| ha_cfg := withDefaults ex_backup; ha_state := StateStandby; ha_peerUp := true;
     ha_consecFailures := 0; ha_consecSuccesses := 0; ha_lastTransition := 0 |}.
Definition ex_observations : list (Z * bool) :=
  [(1, false); (2, true); (3, false); (4, false); (5, false); (6, true); (7, false)].

Example ex_states :
  (λ n, ha_IsActive (ha_run ex_manager (take n ex_observations))) <$> [1; 4; 5; 6; 7]%nat
  = [false; false; true; true; true].
Proof. vm_compute. reflexivity. Qed.

Lemma ha_active_iff_witness :
  (ha_IsActive (ha_run ex_manager ex_observations) = true ↔
     "backup"%string = RolePrimary ∨ down 3 2 ex_observations.*2) ∧
  (ShouldTakeOver (ha_run ex_manager ex_observations) = true ↔
     "backup"%string = RoleBackup ∧ ha_IsActive (ha_run ex_manager ex_observations) = true).
Proof. exact (ha_active_iff 0 ex_backup ex_manager ex_observations ltac:(vm_compute; reflexivity) eq_refl). Defined.

(** The keepalived parameters that are accepted give a router ID in a byte and both
    nodes of a pair, with the same omitted fields, the same instance, router ID and
    password, the primary with the higher default priority. *)
Theorem keepalived_pair p b vp vb :
  keepalived_resolve p = Ok vp → keepalived_resolve b = Ok vb →
  kp_Role p = RolePrimary → kp_Role b = RoleBackup →
  kp_InstanceName p = kp_InstanceName b → kp_RouterID p = kp_RouterID b → kp_AuthPass p = kp_AuthPass b →
  0 ≤ kv_RouterID vp ≤ 255 ∧ kv_RouterID vp = kv_RouterID vb ∧
  kv_InstanceName vp = kv_InstanceName vb ∧ kv_AuthPass vp = kv_AuthPass vb ∧
  (kp_Priority p = 0 → kp_Priority b = 0 → kv_Priority vb < kv_Priority vp).
Proof.
  unfold keepalived_resolve. intros Hp Hb Hrp Hrb Hi Hr Ha. rewrite Hrp in Hp. rewrite Hrb in Hb. simpl in Hp, Hb.
  destruct (bool_decide (TrimSpace (kp_Interface p) = _)), (bool_decide (TrimSpace (kp_Interface b) = _)); try done.
  destruct (bool_decide (TrimSpace (kp_VIP p) = _)), (bool_decide (TrimSpace (kp_VIP b) = _)); try done.
  rewrite <- Hr in Hb. destruct (_ || _) eqn:Er; [done|]. simplify_eq; simpl. boolp. rewrite Hi, Ha.
  split; [lia|]. do 3 (split; [done|]). intros -> ->. done.
Qed.
