(* ===== verification/License.v ===== *)
(** * License tokens

    [internal/license/license.go], with the [base64] encodings of Go's standard
    library that it calls. Ed25519 and the JSON form of [Claims] are the class
    [LicenseLib]; the license file is a reader argument; log lines are left out. *)
From S2P Require Import Prelude GoStrings.

(** ** base64.RawURLEncoding *)

Definition std_alphabet : string := "ABCDEFGHIJKLMNOPQRSTUVWXYZabcdefghijklmnopqrstuvwxyz0123456789+/".
Definition url_alphabet : string := "ABCDEFGHIJKLMNOPQRSTUVWXYZabcdefghijklmnopqrstuvwxyz0123456789-_".

Section Base64.
Context (alphabet : string).

Definition enc6 (v : Z) : ascii := default "A"%char (String.get (Z.to_nat v) alphabet).
Definition dec6 (c : ascii) : option Z := Z.of_nat <$> IndexByte alphabet c.

(** The value of three bytes, and the [i]-th sextet of a value. *)
Definition pack3 (a b c : Z) : Z := Z.lor (Z.shiftl a 16) (Z.lor (Z.shiftl b 8) c).
Definition sextet (v k : Z) : ascii := enc6 (Z.land (Z.shiftr v k) 63).

(** [EncodeToString] without padding. *)
Fixpoint EncodeToString (s : string) : string :=
  match s with
  | String a (String b (String c s')) =>
      let v := pack3 (ord a) (ord b) (ord c) in
      String (sextet v 18) (String (sextet v 12) (String (sextet v 6) (String (sextet v 0) (EncodeToString s'))))
  | String a (String b EmptyString) =>
      let v := pack3 (ord a) (ord b) 0 in
      String (sextet v 18) (String (sextet v 12) (String (sextet v 6) EmptyString))
  | String a EmptyString =>
      let v := pack3 (ord a) 0 0 in String (sextet v 18) (String (sextet v 12) EmptyString)
  | EmptyString => EmptyString
  end.

Definition pack4 (a b c d : Z) : Z :=
  Z.lor (Z.shiftl a 18) (Z.lor (Z.shiftl b 12) (Z.lor (Z.shiftl c 6) d)).
Definition octet (v k : Z) : ascii := chr (Z.land (Z.shiftr v k) 255).

(** Line breaks are skipped wherever they stand. *)
Fixpoint skip_newlines (s : string) : string :=
  match s with
  | EmptyString => EmptyString
  | String c s' => if (ord c =? 10) || (ord c =? 13) then skip_newlines s' else String c (skip_newlines s')
  end.

(** Quanta of four characters; the last may have two or three, whose unused low bits
    are ignored. *)
Fixpoint decode_quanta (s : string) : option string :=
  match s with
  | String a (String b (String c (String d s'))) =>
      x ← dec6 a; y ← dec6 b; z ← dec6 c; w ← dec6 d; r ← decode_quanta s';
      let v := pack4 x y z w in
      Some (String (octet v 16) (String (octet v 8) (String (octet v 0) r)))
  | String a (String b (String c EmptyString)) =>
      x ← dec6 a; y ← dec6 b; z ← dec6 c;
      let v := pack4 x y z 0 in Some (String (octet v 16) (String (octet v 8) EmptyString))
  | String a (String b EmptyString) =>
      x ← dec6 a; y ← dec6 b; Some (String (octet (pack4 x y 0 0) 16) EmptyString)
  | String _ EmptyString => None
  | EmptyString => Some EmptyString
  end.

Definition DecodeString (s : string) : option string := decode_quanta (skip_newlines s).

(** *** The encoding is undone by decoding *)

Definition char_ok (c : ascii) : bool := negb (ord c =? 10) && negb (ord c =? 13) && negb (ord c =? 46).

(** What the proofs need of an alphabet: it lists 64 different characters, none of
    them a line break or a dot. *)
Definition alphabet_ok : bool :=
  forallb (λ i, let v := Z.of_nat i in bool_decide (dec6 (enc6 v) = Some v) && char_ok (enc6 v)) (seq 0 64).

Context (Hal : alphabet_ok = true).

Lemma enc6_ok v : 0 ≤ v < 64 → dec6 (enc6 v) = Some v ∧ char_ok (enc6 v) = true.
Proof.
  intros Hv. pose proof Hal as H. unfold alphabet_ok in H. rewrite forallb_forall in H.
  specialize (H (Z.to_nat v) ltac:(apply in_seq; lia)). cbv zeta in H. rewrite Z2Nat.id in H by lia.
  apply andb_true_iff in H as [H1 H2]. by apply bool_decide_eq_true in H1.
Qed.

Lemma lor_shift a b n : 0 ≤ n → 0 ≤ b < 2 ^ n → Z.lor (Z.shiftl a n) b = a * 2 ^ n + b.
Proof.
  intros Hn Hb. rewrite <- (Z.shiftl_mul_pow2 a n Hn).
  assert (Z.land (Z.shiftl a n) b = 0) as Hl.
  { apply Z.bits_inj'. intros i Hi. rewrite Z.land_spec, Z.bits_0. destruct (Z.lt_ge_cases i n).
    - by rewrite Z.shiftl_spec_low.
    - rewrite (Z.testbit_eqb b) by done. rewrite Z.div_small; [by rewrite andb_false_r|].
      split; [lia|]. eapply Z.lt_le_trans; [apply Hb|]. by apply Z.pow_le_mono_r. }
  pose proof (Z.add_lor_land (Z.shiftl a n) b). lia.
Qed.

Lemma pack3_eq a b c : 0 ≤ b < 256 → 0 ≤ c < 256 → pack3 a b c = a * 65536 + b * 256 + c.
Proof. intros. unfold pack3. rewrite (lor_shift b c 8), lor_shift by lia. lia. Qed.

Lemma pack4_eq a b c d :
  0 ≤ b < 64 → 0 ≤ c < 64 → 0 ≤ d < 64 → pack4 a b c d = a * 262144 + b * 4096 + c * 64 + d.
Proof. intros. unfold pack4. rewrite (lor_shift c d 6), (lor_shift b _ 12), lor_shift by lia. lia. Qed.

Lemma land_shift v k n : 0 ≤ k → 0 ≤ n → Z.land (Z.shiftr v k) (Z.ones n) = (v / 2 ^ k) mod 2 ^ n.
Proof. intros. by rewrite Z.land_ones, Z.shiftr_div_pow2. Qed.

Lemma sextet_eq v k : 0 ≤ k → dec6 (sextet v k) = Some ((v / 2 ^ k) mod 64) ∧ char_ok (sextet v k) = true.
Proof.
  intros Hk. unfold sextet. change 63 with (Z.ones 6). rewrite land_shift by lia. apply enc6_ok.
  apply Z.mod_pos_bound. lia.
Qed.

Lemma octet_eq v k x : 0 ≤ k → (v / 2 ^ k) mod 256 = ord x → octet v k = x.
Proof.
  intros Hk E. unfold octet. change 255 with (Z.ones 8). rewrite land_shift by lia.
  change (2 ^ 8) with 256. rewrite E. apply chr_ord.
Qed.

Lemma char_ok_cons c s : char_ok c = true → skip_newlines (String c s) = String c (skip_newlines s).
Proof. unfold char_ok. simpl. intros H. by destruct (ord c =? 10), (ord c =? 13). Qed.

(** Three bytes at a time. *)
Lemma string_ind3 (P : string → Prop) :
  P EmptyString → (∀ a, P (String a EmptyString)) → (∀ a b, P (String a (String b EmptyString))) →
  (∀ a b c s, P s → P (String a (String b (String c s)))) → ∀ s, P s.
Proof.
  intros H0 H1 H2 H3. fix IH 1. intros [|a [|b [|c s]]]; [done|apply H1|apply H2|apply H3, IH].
Qed.

Ltac b64_bytes :=
  repeat match goal with c : ascii |- _ =>
    lazymatch goal with _ : 0 ≤ ord c < 256 |- _ => fail | _ => pose proof (ord_range c) end end.

Ltac b64_arith := Z.to_euclidean_division_equations; lia.

Lemma decode_encode s : DecodeString (EncodeToString s) = Some s.
Proof.
  unfold DecodeString. induction s as [|a|a b|a b c s IH] using string_ind3; [done|..];
    cbn [EncodeToString]; cbv zeta; rewrite !char_ok_cons by (apply sextet_eq; lia); b64_bytes.
  all: cbn [skip_newlines decode_quanta];
    repeat match goal with |- context [dec6 (sextet ?v ?k)] =>
      rewrite (proj1 (sextet_eq v k ltac:(lia))) end; cbn [mbind option_bind].
  all: rewrite ?pack3_eq by lia.
  3: rewrite IH; cbn [mbind option_bind].
  all: repeat f_equal.
  all: apply octet_eq; [lia|].
  all: change (2 ^ 18) with 262144; change (2 ^ 12) with 4096; change (2 ^ 6) with 64; change (2 ^ 0) with 1;
    change (2 ^ 16) with 65536; change (2 ^ 8) with 256.
  all: rewrite pack4_eq by b64_arith; b64_arith.
Qed.
End Base64.


Lemma url_alphabet_ok : alphabet_ok url_alphabet = true.
Proof. vm_compute. reflexivity. Qed.

(** ** Claims and status *)

Record Claims := { cl_Customer : string; cl_Tier : string; cl_Issued : Z; cl_Expiry : Z }.

Inductive Mode := ModeCommunity | ModeLicensed | ModeGrace.
#[export] Instance Mode_eq_dec : EqDecision Mode.
Proof. solve_decision. Defined.

Definition CommunityTier : string := "community".
Definition DefaultGracePeriod : Z := 14 * 24 * hour.

(** [st_Expiry] is [None] for the zero time of the community status. *)
Record LicenseStatus := {
  st_Valid : bool; st_Tier : string; st_Customer : string; st_Expiry : option Z; st_Mode : Mode;
}.
Definition communityStatus : LicenseStatus := {|
  st_Valid := false; st_Tier := CommunityTier; st_Customer := ""; st_Expiry := None; st_Mode := ModeCommunity |}.

Inductive license_error :=
| ErrMalformedToken | ErrBadSignature | ErrInvalidPublicKey | ErrIncompleteClaims
| ErrPrivateKeySize (n : Z) | ErrMarshal.

(** [crypto/ed25519] and [encoding/json] as this package calls them; keys, messages
    and signatures are byte strings. *)
Class LicenseLib := {
  ed_Sign : string → string → string;
  ed_Verify : string → string → string → bool;
  json_Marshal : Claims → option string;
  json_Unmarshal : string → option Claims;
}.

Definition PublicKeySize : Z := 32.
Definition PrivateKeySize : Z := 64.

(** The embedded key is the padded standard encoding of 32 bytes: its raw encoding
    and one padding character. *)
Definition embeddedPublicKeyB64 : string := "BwTPBVExuwQ9o/HrHbhg+ee/ldvORAf5hb6nctCR8F8=".
Definition embeddedPublicKey : string :=
  match DecodeString std_alphabet (TrimSuffix embeddedPublicKeyB64 "=") with
  | Some b => if len b =? PublicKeySize then b else EmptyString
  | None => EmptyString
  end.

Record LicenseOptions := {
  lo_Token : string; lo_File : string; lo_PublicKey : option string; lo_Grace : Z;
}.
Record License := { li_status : LicenseStatus; li_claims : option Claims }.

Section Licensing.
Context `{L : LicenseLib}.

Definition license_Sign (c : Claims) (priv : string) : result license_error string :=
  if negb (len priv =? PrivateKeySize) then Err (ErrPrivateKeySize (len priv))
  else match json_Marshal c with
       | None => Err ErrMarshal
       | Some payload =>
           Ok (EncodeToString url_alphabet payload +:+ "." +:+
               EncodeToString url_alphabet (ed_Sign priv payload))%string
       end.

Definition license_Verify (token pub : string) : result license_error Claims :=
  if negb (len pub =? PublicKeySize) then Err ErrInvalidPublicKey
  else match Split token dot with
       | [p; s] =>
           if bool_decide (p = ""%string) || bool_decide (s = ""%string) then Err ErrMalformedToken
           else match DecodeString url_alphabet p with
                | None => Err ErrMalformedToken
                | Some payload =>
                    match DecodeString url_alphabet s with
                    | None => Err ErrMalformedToken
                    | Some sig =>
                        if negb (ed_Verify pub payload sig) then Err ErrBadSignature
                        else match json_Unmarshal payload with
                             | None => Err ErrMalformedToken
                             | Some c =>
                                 if bool_decide (cl_Customer c = ""%string) || bool_decide (cl_Tier c = ""%string)
                                 then Err ErrIncompleteClaims else Ok c
                             end
                    end
                end
       | _ => Err ErrMalformedToken
       end.

Definition license_Evaluate (c : Claims) (now grace : Z) : LicenseStatus :=
  let grace := if grace <=? 0 then DefaultGracePeriod else grace in
  let st m := {| st_Valid := true; st_Tier := cl_Tier c; st_Customer := cl_Customer c;
                 st_Expiry := Some (cl_Expiry c); st_Mode := m |} in
  if now <=? cl_Expiry c then st ModeLicensed
  else if now <? cl_Expiry c + grace then st ModeGrace
  else communityStatus.

(** The token [license_Load] looks at; [None] when the file cannot be read. *)
Definition load_token (readFile : string → option string) (opts : LicenseOptions) : option string :=
  let token := TrimSpace (lo_Token opts) in
  if bool_decide (token = ""%string) && negb (bool_decide (lo_File opts = ""%string))
  then TrimSpace <$> readFile (lo_File opts) else Some token.

Definition community : License := {| li_status := communityStatus; li_claims := None |}.

Definition license_Load (readFile : string → option string) (now : Z) (opts : LicenseOptions) : License :=
  let pub := default embeddedPublicKey (lo_PublicKey opts) in
  match load_token readFile opts with
  | None => community
  | Some token =>
      if bool_decide (token = ""%string) then community
      else match license_Verify token pub with
           | Err _ => community
           | Ok c => {| li_status := license_Evaluate c now (lo_Grace opts); li_claims := Some c |}
           end
  end.

(** The package default: [Init] replaces it, [Current] reads it. *)
Definition license_Init (readFile : string → option string) (now : Z) (opts : LicenseOptions)
    (std : License) : License * License :=
  let l := license_Load readFile now opts in (l, l).
Definition InitFromEnv (getenv : string → string) (readFile : string → option string) (now : Z)
    (std : License) : License * License :=
  license_Init readFile now {| lo_Token := getenv "LICENSE_KEY"; lo_File := getenv "LICENSE_FILE";
                               lo_PublicKey := None; lo_Grace := 0 |} std.
Definition Current (std : License) : LicenseStatus := li_status std.

(** ** What a token must be *)

(** The token is a payload and its signature in base64url, separated by a dot, and the
    payload is the JSON form of the claims. *)
Definition genuine (pub token : string) (c : Claims) : Prop :=
  ∃ p s payload sig,
    token = (p +:+ "." +:+ s)%string ∧ p ≠ ""%string ∧ s ≠ ""%string ∧
    DecodeString url_alphabet p = Some payload ∧ DecodeString url_alphabet s = Some sig ∧
    ed_Verify pub payload sig = true ∧ json_Unmarshal payload = Some c.
End Licensing.

Definition no_dot (s : string) : bool := string_forallb (λ c, negb (Ascii.eqb c dot)) s.

Lemma Split_no_dot s : no_dot s = true → Split s dot = [s].
Proof.
  induction s as [|c s IH]; [done|]. unfold no_dot. simpl. intros [H1 H2]%andb_true_iff.
  apply negb_true_iff in H1. rewrite H1, IH by done. done.
Qed.

Lemma Split_two token p s : Split token dot = [p; s] → token = (p +:+ "." +:+ s)%string.
Proof. intros E. rewrite <- (Join_Split token dot), E. done. Qed.

Lemma encode_no_dot s : no_dot (EncodeToString url_alphabet s) = true.
Proof.
  assert (∀ v k, 0 ≤ k → negb (Ascii.eqb (sextet url_alphabet v k) dot) = true) as Hs.
  { intros v k Hk. destruct (sextet_eq url_alphabet url_alphabet_ok v k Hk) as [_ H].
    destruct (Ascii.eqb_spec (sextet url_alphabet v k) dot) as [E|]; [|done]. by rewrite E in H. }
  unfold no_dot. induction s as [|a|a b|a b c s IH] using string_ind3; [done|..];
    cbn [EncodeToString string_forallb]; cbv zeta; rewrite !Hs by lia; done.
Qed.

Lemma encode_nonempty s : s ≠ ""%string → EncodeToString url_alphabet s ≠ ""%string.
Proof. destruct s as [|a [|b [|c s]]]; done. Qed.

Lemma dec6_no_dot c v : dec6 url_alphabet c = Some v → negb (Ascii.eqb c dot) = true.
Proof.
  intros E. destruct (Ascii.eqb_spec c dot) as [->|]; [|done].
  assert (dec6 url_alphabet dot = None) as H by (vm_compute; reflexivity). congruence.
Qed.

(** A text that decodes has no dot. *)
Lemma quanta_no_dot s r : decode_quanta url_alphabet s = Some r → no_dot s = true.
Proof.
  revert s r. fix IH 1. intros [|a [|b [|c [|d s]]]] r; try done; cbn [decode_quanta]; intros E;
    repeat match type of E with (dec6 _ ?x ≫= _) = _ =>
      let H := fresh in destruct (dec6 url_alphabet x) eqn:H; [|done]; apply dec6_no_dot in H;
      cbn [mbind option_bind] in E end;
    unfold no_dot; cbn [string_forallb]; repeat match goal with H : negb _ = true |- _ => rewrite H; clear H end; [done..|].
  destruct (decode_quanta url_alphabet s) eqn:Hs; [|done]. by apply IH in Hs.
Qed.

Lemma decode_no_dot s r : DecodeString url_alphabet s = Some r → no_dot s = true.
Proof.
  intros E%quanta_no_dot. revert E. unfold no_dot. induction s as [|c s IH]; [done|]. simpl.
  destruct ((ord c =? 10) || (ord c =? 13)) eqn:Hc; simpl.
  - intros E. rewrite IH by done. rewrite andb_true_r. destruct (Ascii.eqb_spec c dot) as [->|]; done.
  - intros [H1 H2]%andb_true_iff. by rewrite H1, IH.
Qed.

Section Properties.
Context `{L : LicenseLib}.

(** [license_Verify] accepts exactly the genuine tokens with a customer and a tier. *)
Lemma Verify_iff token pub c :
  license_Verify token pub = Ok c ↔
    len pub = PublicKeySize ∧ genuine pub token c ∧ cl_Customer c ≠ ""%string ∧ cl_Tier c ≠ ""%string.
Proof.
  unfold license_Verify, genuine. split.
  - destruct (Z.eqb_spec (len pub) PublicKeySize); [|done]. cbn [negb].
    destruct (Split token dot) as [|p [|s [|]]] eqn:Hs; try done.
    destruct (bool_decide (p = _) || _) eqn:Hn; [done|].
    destruct (DecodeString _ p) eqn:Hp; [|done]. destruct (DecodeString _ s) eqn:Hd; [|done].
    destruct (ed_Verify _ _ _) eqn:Hv; [|done]. destruct (json_Unmarshal _) eqn:Hj; [|done]. cbn [negb].
    destruct (bool_decide (cl_Customer _ = _) || _) eqn:Hc; [done|]. intros [= <-]. boolp.
    split; [done|]. split; [|naive_solver]. apply Split_two in Hs. naive_solver.
  - intros (-> & (p & s & payload & sig & -> & Hp & Hs & Hdp & Hds & Hv & Hj) & Hcu & Ht).
    rewrite Z.eqb_refl. cbn [negb]. change (p +:+ "." +:+ s)%string with (p +:+ String dot s)%string.
    rewrite Split_app, !Split_no_dot by eauto using decode_no_dot. cbn [app].
    rewrite !bool_decide_eq_false_2 by done. cbn [orb]. rewrite Hdp, Hds, Hv, Hj. cbn [negb].
    by rewrite !bool_decide_eq_false_2.
Qed.

(** What was signed with a private key is accepted under its public key, with the
    same claims: the two base64 parts decode to what was encoded, for payloads and
    signatures of any bytes. The hypotheses are the signature scheme's correctness for
    this message and that the claims survive JSON. *)
Theorem Sign_Verify c priv pub payload token :
  license_Sign c priv = Ok token → len pub = PublicKeySize → cl_Customer c ≠ ""%string → cl_Tier c ≠ ""%string →
  json_Marshal c = Some payload → payload ≠ ""%string → ed_Sign priv payload ≠ ""%string →
  ed_Verify pub payload (ed_Sign priv payload) = true → json_Unmarshal payload = Some c →
  license_Verify token pub = Ok c.
Proof.
  unfold license_Sign. intros Hs Hpub Hc Ht Hm Hne Hsig Hv Hu. destruct (negb _); [done|]. rewrite Hm in Hs. simplify_eq.
  apply Verify_iff. split; [done|]. split; [|done]. do 4 eexists. split; [done|].
  rewrite !decode_encode by apply url_alphabet_ok. eauto 10 using encode_nonempty.
Qed.

(** The licence is valid exactly when a token is configured (LICENSE_KEY, or else
    the readable LICENSE_FILE) that is genuine under the configured or embedded key,
    names a customer and a tier, and whose expiry plus the grace period is still to come;
    then the status carries its claims, in grace exactly after the expiry. Otherwise the
    status is the community status, whatever went wrong. *)
Theorem license_valid_iff readFile now opts :
  let pub := default embeddedPublicKey (lo_PublicKey opts) in
  let grace := if lo_Grace opts <=? 0 then DefaultGracePeriod else lo_Grace opts in
  let st := Current (license_Init readFile now opts community).2 in
  let holds c := ∃ token, load_token readFile opts = Some token ∧ len pub = PublicKeySize ∧
    genuine pub token c ∧ cl_Customer c ≠ ""%string ∧ cl_Tier c ≠ ""%string ∧ now < cl_Expiry c + grace in
  (st_Valid st = true ↔ ∃ c, holds c) ∧
  (∀ c, holds c → st_Tier st = cl_Tier c ∧ st_Customer st = cl_Customer c ∧ st_Expiry st = Some (cl_Expiry c) ∧
     st_Mode st = if now <=? cl_Expiry c then ModeLicensed else ModeGrace) ∧
  (st_Valid st = false → st = communityStatus).
Proof.
  cbv zeta. unfold Current, license_Init, license_Load. cbn [snd].
  set (pub := default _ _).
  assert (∀ token c, genuine pub token c → token ≠ ""%string) as Hne.
  { intros token c (p & s & ? & ? & -> & Hp & _). by destruct p. }
  destruct (load_token readFile opts) as [token|]; [|by naive_solver].
  case_bool_decide as Ht; [by naive_solver|].
  assert (∀ c, (∃ t, Some token = Some t ∧ len pub = PublicKeySize ∧ genuine pub t c ∧
      cl_Customer c ≠ ""%string ∧ cl_Tier c ≠ ""%string ∧
      now < cl_Expiry c + (if lo_Grace opts <=? 0 then DefaultGracePeriod else lo_Grace opts)) ↔
      license_Verify token pub = Ok c ∧
      now < cl_Expiry c + (if lo_Grace opts <=? 0 then DefaultGracePeriod else lo_Grace opts)) as Hh.
  { intros c. rewrite Verify_iff. naive_solver. }
  setoid_rewrite Hh. destruct (license_Verify token pub) as [c|e]; [|by naive_solver].
  cbn [li_status]. unfold license_Evaluate. set (g := if lo_Grace opts <=? 0 then _ else _).
  assert (0 < g) as Hg by (unfold g, DefaultGracePeriod, hour, minute, second; destruct (Z.leb_spec (lo_Grace opts) 0); lia).
  destruct (Z.leb_spec now (cl_Expiry c)); [|destruct (Z.ltb_spec now (cl_Expiry c + g))]; cbn [st_Valid st_Tier
    st_Customer st_Expiry st_Mode communityStatus].
  - split; [split; [intros _; exists c; split; [done|lia]|done]|]. split; [|done]. intros c' [[= <-] _].
    by rewrite (proj2 (Z.leb_le _ _)).
  - split; [split; [intros _; exists c; split; [done|lia]|done]|]. split; [|done]. intros c' [[= <-] _].
    by rewrite (proj2 (Z.leb_gt _ _)).
  - split; [split; [done|intros (c' & [= <-] & ?); lia]|]. split; [|done]. intros c' [[= <-] ?]. lia.
Qed.
End Properties.

(** ** A concrete instance *)

(** Claims of two fields in a line each and a signature that repeats the message under
    the key's first half. *)
Definition toy_license : LicenseLib := {|
  ed_Sign priv m := (take_bytes 32 priv +:+ m)%string;
  ed_Verify pub m sig := bool_decide (sig = (pub +:+ m)%string);
  json_Marshal c := Some (cl_Customer c +:+ "|" +:+ cl_Tier c)%string;
  json_Unmarshal s :=
    match Split s "|"%char with
    | [cu; ti] => Some {| cl_Customer := cu; cl_Tier := ti; cl_Issued := 0; cl_Expiry := 1000 |}
    | _ => None
    end |}.
Definition ex_claims : Claims := {| cl_Customer := "acme"; cl_Tier := "pro"; cl_Issued := 0; cl_Expiry := 1000 |}.
Definition ex_pub : string := "0123456789abcdef0123456789abcdef".
Definition ex_priv : string := (ex_pub +:+ ex_pub)%string.
Definition ex_token : string := "YWNtZXxwcm8.MDEyMzQ1Njc4OWFiY2RlZjAxMjM0NTY3ODlhYmNkZWZhY21lfHBybw".

Lemma Sign_Verify_witness : license_Verify (L := toy_license) ex_token ex_pub = Ok ex_claims.
Proof.
  apply (Sign_Verify (L := toy_license) ex_claims ex_priv ex_pub "acme|pro" ex_token);
    first [done | vm_compute; reflexivity].
Defined.

Definition ex_options : LicenseOptions := {|
  lo_Token := ex_token; lo_File := ""; lo_PublicKey := Some ex_pub; lo_Grace := 50 |}.

(** Licensed up to the expiry, in grace up to the last instant before its end. *)
Example ex_modes :
  (λ now, st_Mode (li_status (license_Load (L := toy_license) (λ _, None) now ex_options))) <$> [1000; 1001; 1049; 1050]
  = [ModeLicensed; ModeGrace; ModeGrace; ModeCommunity].
Proof. vm_compute. reflexivity. Qed.

(** A token expired beyond its grace leaves its claims behind the community status. *)
Example expired_keeps_claims :
  let l := license_Load (L := toy_license) (λ _, None) 2000 ex_options in
  li_status l = communityStatus ∧ li_claims l = Some ex_claims.
Proof. vm_compute. split; reflexivity. Qed.

Example ex_embedded_key : len embeddedPublicKey = PublicKeySize.
Proof. vm_compute. reflexivity. Qed.
