(* ===== verification/Json.v ===== *)
(** * JSON arrays of strings

    What [encoding/json] does with a [[]string], the form in which lists are stored in
    text columns: [Marshal] with its HTML-safe escapes, and [Unmarshal] of any text: the
    whole syntax is checked first, then the value is stored. A nil slice is [None]. *)
From S2P Require Import Prelude GoStrings GoUtf8 GoStrconv.

Definition dquote : ascii := chr 34.
Definition backslash : ascii := chr 92.
Definition one (c : ascii) : string := String c EmptyString.

(** ** Encoding *)

Definition hex_digit (n : Z) : ascii := if n <? 10 then chr (48 + n) else chr (87 + n).

Definition escape_ascii (c : ascii) : string :=
  let n := ord c in
  if (n =? 34) || (n =? 92) then String backslash (one c)
  else if n =? 8 then String backslash (one "b"%char)
  else if n =? 12 then String backslash (one "f"%char)
  else if n =? 10 then String backslash (one "n"%char)
  else if n =? 13 then String backslash (one "r"%char)
  else if n =? 9 then String backslash (one "t"%char)
  else if (n <? 32) || (n =? 60) || (n =? 62) || (n =? 38)
  then String backslash ("u00" +:+ String (hex_digit (n / 16)) (one (hex_digit (n mod 16))))
  else one c.

Definition escape_chunk (c : Z * string) : string :=
  if bad_chunk c then String backslash "ufffd"
  else if c.1 <? 128 then escape_ascii (chr c.1)
  else if c.1 =? 8232 then String backslash "u2028"
  else if c.1 =? 8233 then String backslash "u2029"
  else c.2.

Definition marshal_string (s : string) : string :=
  String dquote (concat_strings (escape_chunk <$> chunks s) +:+ one dquote).

Definition marshal_strings (v : option (list string)) : string :=
  match v with
  | None => "null"
  | Some l => ("[" +:+ Join (marshal_string <$> l) "," +:+ "]")%string
  end.

(** ** Decoding strings *)

Definition push (x : string) (r : option (string * string)) : option (string * string) :=
  match r with Some (out, rest) => Some ((x +:+ out)%string, rest) | None => None end.

Definition simple_escape (e : ascii) : option ascii :=
  let n := ord e in
  if (n =? 34) || (n =? 92) || (n =? 47) then Some e
  else if n =? 98 then Some (chr 8) else if n =? 102 then Some (chr 12)
  else if n =? 110 then Some (chr 10) else if n =? 114 then Some (chr 13)
  else if n =? 116 then Some (chr 9) else None.

Definition hex4 (a b c d : ascii) : option Z :=
  v ← base_val 16 0 (String a (String b (String c (one d)))); Some v.

Definition is_surrogate (r : Z) : bool := (55296 <=? r) && (r <? 57344).
(** [utf16.DecodeRune] of a pair. *)
Definition utf16_decode (r1 r2 : Z) : option Z :=
  if (55296 <=? r1) && (r1 <? 56320) && (56320 <=? r2) && (r2 <? 57344)
  then Some ((r1 - 55296) * 1024 + (r2 - 56320) + 65536) else None.

(** The string after its opening quote: its value and what follows the closing one. *)
Fixpoint parse_string (s : string) : option (string * string) :=
  match s with
  | EmptyString => None
  | String a s1 =>
      if ord a =? 34 then Some (EmptyString, s1)
      else if ord a =? 92 then
        match s1 with
        | EmptyString => None
        | String e s2 =>
            match simple_escape e with
            | Some c => push (one c) (parse_string s2)
            | None =>
                if negb (ord e =? 117) then None
                else match s2 with
                     | String h1 (String h2 (String h3 (String h4 s6))) =>
                         match hex4 h1 h2 h3 h4 with
                         | None => None
                         | Some r =>
                             if is_surrogate r then
                               match s6 with
                               | String b (String u (String g1 (String g2 (String g3 (String g4 s12))))) =>
                                   match (if (ord b =? 92) && (ord u =? 117)
                                          then r2 ← hex4 g1 g2 g3 g4; utf16_decode r r2 else None) with
                                   | Some dec => push (encode_rune dec) (parse_string s12)
                                   | None => push (encode_rune rune_error) (parse_string s6)
                                   end
                               | _ => push (encode_rune rune_error) (parse_string s6)
                               end
                             else push (encode_rune r) (parse_string s6)
                         end
                     | _ => None
                     end
            end
        end
      else if ord a <? 32 then None
      else
        let '(r, w) := decode_rune (ord a) (peek3 s1) in
        match w, s1 with
        | 2%nat, String b s2 => push (String a (one b)) (parse_string s2)
        | 3%nat, String b (String c s3) => push (String a (String b (one c))) (parse_string s3)
        | 4%nat, String b (String c (String d s4)) =>
            push (String a (String b (String c (one d)))) (parse_string s4)
        | _, _ => push (if r =? rune_error then encode_rune rune_error else one a) (parse_string s1)
        end
  end.

(** ** Decoding values *)

#[warnings="-register-all"]
Inductive json :=
| JNull | JBool (b : bool) | JNumber | JString (s : string) | JArray (l : list json)
| JObject (l : list (string * json)).

Definition is_json_space (c : ascii) : bool :=
  let n := ord c in (n =? 32) || (n =? 9) || (n =? 10) || (n =? 13).

Fixpoint skip_space (s : string) : string :=
  match s with
  | String c s' => if is_json_space c then skip_space s' else s
  | EmptyString => EmptyString
  end.

(** The digits at the front of a text, and what follows them. *)
Fixpoint skip_digits (s : string) : bool * string :=
  match s with
  | String c s' => if is_digit_byte c then (true, (skip_digits s').2) else (false, s)
  | EmptyString => (false, EmptyString)
  end.

(** A number: sign, integer part without leading zeros, fraction, exponent. *)
Definition skip_number (s : string) : option string :=
  let s := match s with String "-" s' => s' | _ => s end%char in
  s ← match s with
      | String "0" s' => Some s'
      | _ => let '(some, s') := skip_digits s in if some then Some s' else None
      end%char;
  s ← match s with
      | String "." s' => let '(some, s'') := skip_digits s' in if some then Some s'' else None
      | _ => Some s
      end%char;
  match s with
  | String c s' =>
      if (ord c =? 101) || (ord c =? 69) then
        let '(some, s'') := skip_digits (split_sign s').2 in if some then Some s'' else None
      else Some s
  | EmptyString => Some s
  end.

Definition maxNestingDepth : Z := 10000.

(** A value at the front of a text. [depth] is the nesting so far; the fuel counts
    calls, of which every byte needs at most two. *)
Fixpoint parse_value (fuel : nat) (depth : Z) (s : string) : option (json * string) :=
  match fuel with
  | O => None
  | S fuel =>
      match skip_space s with
      | EmptyString => None
      | String c s' =>
          if ord c =? 34 then '(x, r) ← parse_string s'; Some (JString x, r)
          else if ord c =? 91 then
            if maxNestingDepth <? depth + 1 then None
            else match skip_space s' with
                 | String "]" r => Some (JArray [], r)
                 | _ => '(l, r) ← parse_elements fuel (depth + 1) s'; Some (JArray l, r)
                 end%char
          else if ord c =? 123 then
            if maxNestingDepth <? depth + 1 then None
            else match skip_space s' with
                 | String "}" r => Some (JObject [], r)
                 | _ => '(l, r) ← parse_members fuel (depth + 1) s'; Some (JObject l, r)
                 end%char
          else if HasPrefix (String c s') "null" then Some (JNull, drop_bytes 4 (String c s'))
          else if HasPrefix (String c s') "true" then Some (JBool true, drop_bytes 4 (String c s'))
          else if HasPrefix (String c s') "false" then Some (JBool false, drop_bytes 5 (String c s'))
          else r ← skip_number (String c s'); Some (JNumber, r)
      end
  end
with parse_elements (fuel : nat) (depth : Z) (s : string) : option (list json * string) :=
  match fuel with
  | O => None
  | S fuel =>
      '(v, s) ← parse_value fuel depth s;
      match skip_space s with
      | String "," s' => '(l, r) ← parse_elements fuel depth s'; Some (v :: l, r)
      | String "]" s' => Some ([v], s')
      | _ => None
      end%char
  end
with parse_members (fuel : nat) (depth : Z) (s : string) : option (list (string * json) * string) :=
  match fuel with
  | O => None
  | S fuel =>
      match skip_space s with
      | String c s' =>
          if negb (ord c =? 34) then None
          else
            '(k, s) ← parse_string s';
            match skip_space s with
            | String ":" s' =>
                '(v, s) ← parse_value fuel depth s';
                match skip_space s with
                | String "," s' => '(l, r) ← parse_members fuel depth s'; Some ((k, v) :: l, r)
                | String "}" s' => Some ([(k, v)], s')
                | _ => None
                end
            | _ => None
            end%char
      | EmptyString => None
      end
  end.

Definition parse_json (s : string) : option json :=
  '(v, r) ← parse_value (2 * String.length s + 2) 0 s;
  if bool_decide (skip_space r = EmptyString) then Some v else None.

(** [json.Unmarshal] into a nil [[]string], its error ignored: an element of another
    type leaves the empty string, another value leaves nil. *)
Definition unmarshal_strings (s : string) : option (list string) :=
  match parse_json s with
  | Some (JArray l) => Some ((λ v, match v with JString x => x | _ => EmptyString end) <$> l)
  | _ => None
  end.

(** The elements of a slice, nil or not. *)
Definition elems (v : option (list string)) : list string := default [] v.

Example unmarshal_ex :
  unmarshal_strings (" [" +:+ one dquote +:+ "a" +:+ String backslash "n" +:+ one dquote +:+ " , null, {" +:+
                     one dquote +:+ "k" +:+ one dquote +:+ ":[-1.5e+3]} ] ") = Some [("a" +:+ one (chr 10))%string; ""%string; ""%string].
Proof. vm_compute. reflexivity. Qed.
Example unmarshal_bad : (unmarshal_strings "[1,]", unmarshal_strings "null", unmarshal_strings "[] x") = (None, None, None).
Proof. vm_compute. reflexivity. Qed.

(** ** The round trip *)

Definition valid_part (c : Z * string) : string := if bad_chunk c then encode_rune rune_error else c.2.

Lemma peek3_app t rest : (String.length t ≤ 3)%nat → ∃ l, peek3 (t +:+ rest) = bytes_of t ++ l.
Proof.
  intros Ht. destruct t as [|a [|b [|c [|d t]]]]; simpl in Ht; try lia; destruct rest as [|x [|y [|z rest]]];
    eexists; simpl; rewrite ?app_nil_r; try reflexivity; done.
Qed.

Lemma parse_raw r a t rest :
  128 ≤ ord a → (1 ≤ String.length t ≤ 3)%nat → decode_rune (ord a) (bytes_of t) = (r, S (String.length t)) →
  parse_string (String a t +:+ rest) = push (String a t) (parse_string rest).
Proof.
  intros Ha Ht E. change (String a t +:+ rest)%string with (String a (t +:+ rest)). cbn [parse_string].
  destruct (Z.eqb_spec (ord a) 34); [lia|]. destruct (Z.eqb_spec (ord a) 92); [lia|].
  destruct (Z.ltb_spec (ord a) 32); [lia|].
  destruct (peek3_app t rest) as [l Hl]; [lia|]. rewrite Hl.
  assert (length (bytes_of t) = String.length t) as Hlen.
  { clear. induction t as [|c t IH]; [done|]. simpl. by rewrite IH. }
  destruct (decode_rune_tail _ _ _ _ l E ltac:(lia)) as [_ E'].
  simpl in E'. rewrite Nat.sub_0_r, firstn_all2 in E' by lia. rewrite E'.
  destruct t as [|b [|c [|d [|]]]]; simpl in Ht; try lia; done.
Qed.

Lemma parse_ascii a rest :
  ord a < 128 → parse_string (escape_ascii a +:+ rest) = push (one a) (parse_string rest).
Proof.
  intros Ha. destruct a as [[] [] [] [] [] [] [] []]; try (by exfalso; vm_compute in Ha); reflexivity.
Qed.

Lemma parse_chunk c rest :
  chunk_shape c → parse_string (escape_chunk c +:+ rest) = push (valid_part c) (parse_string rest).
Proof.
  unfold escape_chunk, valid_part. intros Hs. destruct (bad_chunk c) eqn:Hb; [reflexivity|].
  destruct Hs as [a Ha|a Ha|r a t Ha Ht E]; cbn [fst snd].
  - destruct (Z.ltb_spec (ord a) 128); [|lia]. rewrite chr_ord. by apply parse_ascii.
  - done.
  - assert (128 ≤ r) as Hr.
    { unfold decode_rune in E. pose proof (ord_range a). destruct (Z.ltb_spec (ord a) 128); [lia|].
      destruct t as [|b [|c [|d [|]]]]; simpl in Ht, E; try lia; repeat (case_match; simplify_eq); boolp;
        unfold is_cont in *; boolp; repeat case_match; boolp; simplify_eq; rune_arith. }
    destruct (Z.ltb_spec r 128); [lia|].
    pose proof (encode_decode r a t Ha E ltac:(lia)) as Henc.
    destruct (Z.eqb_spec r 8232) as [->|]; [by rewrite <- Henc|].
    destruct (Z.eqb_spec r 8233) as [->|]; [by rewrite <- Henc|].
    by apply parse_raw with r.
Qed.

Lemma parse_marshalled s rest :
  parse_string (concat_strings (escape_chunk <$> chunks s) +:+ String dquote rest) = Some (to_valid s, rest).
Proof.
  unfold to_valid. induction s as [|c t Hs Hc IH] using chunks_ind; [done|].
  rewrite Hc. csimpl. rewrite <- string_app_assoc, parse_chunk, IH by done. done.
Qed.

Lemma parse_value_string f d s rest :
  parse_value (S f) d (marshal_string s +:+ rest) = Some (JString (to_valid s), rest).
Proof.
  unfold marshal_string.
  change (String dquote (concat_strings (escape_chunk <$> chunks s) +:+ one dquote) +:+ rest)%string
    with (String dquote ((concat_strings (escape_chunk <$> chunks s) +:+ one dquote) +:+ rest))%string.
  rewrite <- string_app_assoc. change (one dquote +:+ rest)%string with (String dquote rest).
  change (('(x, r) ← parse_string (concat_strings (escape_chunk <$> chunks s) +:+ String dquote rest);
           Some (JString x, r)) = Some (JString (to_valid s), rest)).
  by rewrite parse_marshalled.
Qed.

Lemma parse_elements_S fuel depth s :
  parse_elements (S fuel) depth s =
    '(v, s) ← parse_value fuel depth s;
    match skip_space s with
    | String "," s' => '(l, r) ← parse_elements fuel depth s'; Some (v :: l, r)
    | String "]" s' => Some ([v], s')
    | _ => None
    end%char.
Proof. reflexivity. Qed.

(** An array that does not close at once. *)
Lemma parse_value_array fuel depth s :
  depth < maxNestingDepth → (∀ r, skip_space s ≠ String "]" r) →
  parse_value (S fuel) depth (String "[" s) = ('(l, r) ← parse_elements fuel (depth + 1) s; Some (JArray l, r)).
Proof.
  intros Hd Hs. change (parse_value (S fuel) depth (String "[" s)) with
    (if maxNestingDepth <? depth + 1 then None
     else match skip_space s with
          | String "]" r => Some (JArray [], r)
          | _ => '(l, r) ← parse_elements fuel (depth + 1) s; Some (JArray l, r)
          end%char).
  destruct (Z.ltb_spec maxNestingDepth (depth + 1)); [lia|].
  destruct (skip_space s) as [|c r]; [done|]. destruct (Ascii.eqb_spec c "]"%char) as [->|Hc]; [by destruct (Hs r)|].
  by destruct c as [[] [] [] [] [] [] [] []].
Qed.

Lemma parse_elements_strings f d s l rest :
  (length l < f)%nat →
  parse_elements (S f) d (Join (marshal_string <$> s :: l) "," +:+ String "]" rest)
  = Some (JString ∘ to_valid <$> s :: l, rest).
Proof.
  revert f s. induction l as [|s' l IH]; intros f s Hf; (destruct f as [|f]; [simpl in Hf; lia|]);
    rewrite parse_elements_S.
  - change (Join (marshal_string <$> [s]) ",") with (marshal_string s).
    rewrite parse_value_string. done.
  - change (Join (marshal_string <$> s :: s' :: l) ",")
      with (marshal_string s +:+ String "," (Join (marshal_string <$> s' :: l) ","))%string.
    rewrite <- string_app_assoc, parse_value_string.
    transitivity ('(l0, r) ← parse_elements (S f) d (Join (marshal_string <$> s' :: l) "," +:+ String "]" rest);
                  Some (JString (to_valid s) :: l0, r)); [reflexivity|].
    rewrite IH by (simpl in Hf; lia). done.
Qed.

Lemma length_join_marshal l : (length l ≤ S (String.length (Join (marshal_string <$> l) ",")))%nat.
Proof.
  induction l as [|s [|s' l] IH]; [simpl; lia|simpl; lia|].
  change (Join (marshal_string <$> s :: s' :: l) ",")
    with (marshal_string s +:+ String "," (Join (marshal_string <$> s' :: l) ","))%string.
  rewrite length_app_string. simpl in *. lia.
Qed.

(** A slice of strings is read back with every string made valid UTF-8, nil as nil. *)
Lemma unmarshal_marshal v : unmarshal_strings (marshal_strings v) = (λ l : list string, to_valid <$> l) <$> v.
Proof.
  destruct v as [l|]; [|reflexivity]. unfold unmarshal_strings.
  assert (parse_json (marshal_strings (Some l)) = Some (JArray (JString ∘ to_valid <$> l))) as ->.
  { unfold parse_json, marshal_strings. set (text := ("[" +:+ _)%string).
    destruct l as [|s l]; [vm_compute; done|].
    assert (∃ f, (2 * String.length text + 2)%nat = S (S f) ∧ (length l < f)%nat) as (f & -> & Hf).
    { exists (2 * String.length text)%nat. split; [lia|]. unfold text.
      pose proof (length_join_marshal (s :: l)) as Hj. change (length (s :: l)) with (S (length l)) in Hj.
      rewrite !length_app_string. change (String.length "[") with 1%nat. change (String.length "]") with 1%nat. lia. }
    change text with (String "[" (Join (marshal_string <$> s :: l) "," +:+ String "]" "")).
    rewrite parse_value_array; [|done|by destruct l].
    by rewrite parse_elements_strings by done. }
  simpl. f_equal. rewrite <- list_fmap_compose. by apply list_fmap_ext.
Qed.
