(* ===== verification/Storage.v ===== *)
(** * The storage layer

    [internal/storage]: the models and the repositories for policies, resolvers, the
    system state, categories, collections and the administrator. The SQL statements
    gorm issues are the class [SqlTable], one per table, with their effect on the rows
    as laws; a statement that fails leaves the table as it was. Time stamps of rows are
    kept where the code orders by them.

    The blocklist repository is in Blocklist.v. *)
From S2P Require Import Prelude GoStrings Json Policy.

(** ** Tables *)

Inductive db_error := ErrRecordNotFound | DbError (msg : string).
#[export] Instance db_error_eq_dec : EqDecision db_error.
Proof. solve_decision. Defined.

(** The statements on a table of rows [R] with its primary key: SELECT with a condition and an order,
    INSERT, UPDATE and DELETE with a condition and the number of rows affected, gorm's
    Save of a whole row, and INSERT ... ON CONFLICT DO UPDATE. *)
Class Keyed (R : Type) := row_key : R → string.
Class SqlTable (R : Type) `{Keyed R} := {
  table : Type;
  rows : table → list R;
  sql_select : (R → bool) → (R → R → bool) → table → result db_error (list R);
  sql_insert : R → table → result db_error table;
  sql_update : (R → bool) → (R → R) → table → result db_error (Z * table);
  sql_delete : (R → bool) → table → result db_error (Z * table);
  sql_save : R → table → result db_error table;
  sql_upsert : R → (R → R) → table → result db_error table;
}.
Arguments table R {_ _}.

(** The row with a key. *)
Definition row_at `{SqlTable R} (t : table R) (k : string) (r : R) : Prop := r ∈ rows t ∧ row_key r = k.

Class SqlTableLaws `(T : SqlTable R) : Prop := {
  rows_nodup : ∀ t, NoDup (row_key <$> rows t);
  select_law : ∀ w o t l, sql_select w o t = Ok l →
    l ≡ₚ filter w (rows t) ∧ StronglySorted (λ a b, o a b = true) l;
  insert_law : ∀ r t t', sql_insert r t = Ok t' → rows t' ≡ₚ r :: rows t;
  update_law : ∀ w f t n t', sql_update w f t = Ok (n, t') → (∀ r, row_key (f r) = row_key r) →
    rows t' ≡ₚ (λ r, if w r then f r else r) <$> rows t ∧ n = Z.of_nat (length (filter w (rows t)));
  delete_law : ∀ w t n t', sql_delete w t = Ok (n, t') →
    rows t' ≡ₚ filter (λ r, w r = false) (rows t) ∧ n = Z.of_nat (length (filter w (rows t)));
  save_law : ∀ r t t', sql_save r t = Ok t' →
    rows t' ≡ₚ r :: filter (λ x, row_key x ≠ row_key r) (rows t);
  upsert_law : ∀ r f t t', sql_upsert r f t = Ok t' → (∀ x, row_key (f x) = row_key x) →
    rows t' ≡ₚ if bool_decide (row_key r ∈ row_key <$> rows t)
               then (λ x, if bool_decide (row_key x = row_key r) then f x else x) <$> rows t
               else r :: rows t;
}.

Definition everything {R} (_ : R) : bool := true.
Definition any_order {R} (_ _ : R) : bool := true.

Section Tables.
Context `{T : SqlTable R}.

Definition key_is (k : string) (r : R) : bool := bool_decide (row_key r = k).

(** gorm's [First] by primary key. *)
Definition sql_first (k : string) (t : table R) : result db_error R :=
  match sql_select (key_is k) any_order t with
  | Err e => Err e
  | Ok [] => Err ErrRecordNotFound
  | Ok (r :: _) => Ok r
  end.

(** A statement that must touch a row. *)
Definition must_affect (x : result db_error (Z * table R)) : result db_error (table R) :=
  match x with
  | Err e => Err e
  | Ok (n, t) => if n =? 0 then Err ErrRecordNotFound else Ok t
  end.

Context {L : SqlTableLaws T}.

Lemma sql_first_row k t r : sql_first k t = Ok r → row_at t k r.
Proof.
  unfold sql_first. destruct (sql_select _ _ t) as [[|x l]|] eqn:E; try done. intros [= <-].
  apply select_law in E as [E _]. unfold row_at. assert (x ∈ filter (key_is k) (rows t)) as Hx by (rewrite <- E; set_solver).
  apply list_elem_of_filter in Hx as [Hx ?]. unfold key_is in Hx. by apply Is_true_eq_true, bool_decide_eq_true in Hx.
Qed.

Lemma row_at_unique t k r r' : row_at t k r → row_at t k r' → r = r'.
Proof.
  intros [H1 <-] [H2 E]. pose proof (rows_nodup t) as Hn. revert H1 H2 Hn.
  induction (rows t) as [|x l IH]; [set_solver|]. csimpl. rewrite NoDup_cons, !elem_of_cons, list_elem_of_fmap.
  intros [->|H1] [->|H2] [Hx Hn]; [done| | |by apply IH]; exfalso; apply Hx; naive_solver.
Qed.

Lemma sql_first_unique k t r r' : sql_first k t = Ok r → row_at t k r' → r' = r.
Proof. intros E%sql_first_row Hr. by apply (row_at_unique t k). Qed.

Lemma must_affect_ok x t' : must_affect x = Ok t' → ∃ n, x = Ok (n, t') ∧ n ≠ 0.
Proof. destruct x as [[n t]|]; [|done]. simpl. destruct (Z.eqb_spec n 0); [done|]. intros [= <-]. eauto. Qed.
(** Everything, in the order asked for. *)
Lemma everything_perm o t l :
  sql_select everything o t = Ok l → l ≡ₚ rows t ∧ StronglySorted (λ a b, o a b = true) l.
Proof.
  intros [E Ho]%select_law. split; [|done]. rewrite E. clear. induction (rows t) as [|x l IH]; [done|].
  by rewrite filter_cons_True, IH.
Qed.

(** The rows an UPDATE or DELETE by key leaves. *)
Lemma update_key k f t t' :
  must_affect (sql_update (key_is k) f t) = Ok t' → (∀ r, row_key (f r) = row_key r) →
  rows t' ≡ₚ (λ r, if bool_decide (row_key r = k) then f r else r) <$> rows t.
Proof. intros (n & E & _)%must_affect_ok Hf. by apply update_law in E as [E _]. Qed.

Lemma delete_key k t t' :
  must_affect (sql_delete (key_is k) t) = Ok t' →
  (∃ r, row_at t k r) ∧ rows t' ≡ₚ filter (λ r, row_key r ≠ k) (rows t).
Proof.
  intros (n & E & Hn)%must_affect_ok. apply delete_law in E as [E ->]. split.
  - destruct (filter (key_is k) (rows t)) as [|r l] eqn:Ef; [done|]. exists r.
    assert (r ∈ filter (key_is k) (rows t)) as [Hk Hr]%list_elem_of_filter by (rewrite Ef; set_solver).
    split; [done|]. unfold key_is in Hk. by apply Is_true_eq_true, bool_decide_eq_true in Hk.
  - rewrite E. erewrite list_filter_iff; [done|]. intros x. unfold key_is. by rewrite bool_decide_eq_false.
Qed.
End Tables.

(** ** Policies *)

(** models/policy.model.go; the lists are JSON text. *)
Record PolicyRow := {
  mp_ID : string; mp_Name : string; mp_Description : string; mp_Category : string; mp_Action : string;
  mp_RedirectIP : string; mp_Domains : string; mp_Regexes : string; mp_ClientCIDRs : string;
  mp_Priority : Z; mp_Enabled : bool; mp_ScheduleDays : string; mp_ScheduleStart : string;
  mp_ScheduleEnd : string; mp_Timezone : string;
}.
#[export] Instance PolicyRow_key : Keyed PolicyRow := mp_ID.

(** gorm writes a field's declared default in place of its zero value when it creates a
    row: [Enabled] is declared [default:true]. *)
Definition policy_defaults (m : PolicyRow) : PolicyRow := {|
  mp_ID := mp_ID m; mp_Name := mp_Name m; mp_Description := mp_Description m; mp_Category := mp_Category m;
  mp_Action := mp_Action m; mp_RedirectIP := mp_RedirectIP m; mp_Domains := mp_Domains m;
  mp_Regexes := mp_Regexes m; mp_ClientCIDRs := mp_ClientCIDRs m; mp_Priority := mp_Priority m;
  mp_Enabled := true; mp_ScheduleDays := mp_ScheduleDays m; mp_ScheduleStart := mp_ScheduleStart m;
  mp_ScheduleEnd := mp_ScheduleEnd m; mp_Timezone := mp_Timezone m |}.

(** A JSON column as the list it holds; an empty column is nil. *)
Definition column_list (c : string) : option (list string) :=
  if bool_decide (c = ""%string) then None else unmarshal_strings c.

Definition ToEnginePolicy (m : PolicyRow) : Policy := {|
  p_ID := mp_ID m; p_Name := mp_Name m; p_Description := mp_Description m; p_Category := mp_Category m;
  p_Redirect := mp_RedirectIP m; p_Source := ""; p_Enabled := mp_Enabled m; p_Priority := mp_Priority m;
  p_Action := mp_Action m; p_Domains := elems (column_list (mp_Domains m));
  p_Regexes := elems (column_list (mp_Regexes m)); p_ScheduleDays := elems (column_list (mp_ScheduleDays m));
  p_StartTime := mp_ScheduleStart m; p_EndTime := mp_ScheduleEnd m; p_Timezone := mp_Timezone m;
  p_sched := None; p_ClientCIDRs := elems (column_list (mp_ClientCIDRs m)) |}.

(** ORDER BY priority desc, id asc *)
Definition policy_order (a b : PolicyRow) : bool :=
  (mp_Priority b <? mp_Priority a)
  || ((mp_Priority a =? mp_Priority b) && (bool_decide (mp_ID a = mp_ID b) || String.ltb (mp_ID a) (mp_ID b))).

Section PolicyRepo.
Context {T : SqlTable PolicyRow}.
Definition PolicyRepo_List (t : table PolicyRow) : result db_error (list PolicyRow) :=
  sql_select everything policy_order t.
Definition PolicyRepo_GetByID (id : string) (t : table PolicyRow) : result db_error PolicyRow := sql_first id t.
Definition PolicyRepo_Create (m : PolicyRow) (t : table PolicyRow) : result db_error (table PolicyRow) :=
  sql_insert (policy_defaults m) t.
Definition PolicyRepo_Update (m : PolicyRow) (t : table PolicyRow) : result db_error (table PolicyRow) :=
  sql_save m t.
Definition PolicyRepo_Delete (id : string) (t : table PolicyRow) : result db_error (table PolicyRow) :=
  must_affect (sql_delete (key_is id) t).
End PolicyRepo.

(** ** Resolvers *)

Record ResolverRow := {
  rs_ID : string; rs_Name : string; rs_Address : string; rs_Protocol : string; rs_Position : Z; rs_CreatedAt : Z;
}.
#[export] Instance ResolverRow_key : Keyed ResolverRow := rs_ID.

(** ORDER BY position asc, created_at asc *)
Definition resolver_order (a b : ResolverRow) : bool :=
  (rs_Position a <? rs_Position b) || ((rs_Position a =? rs_Position b) && (rs_CreatedAt a <=? rs_CreatedAt b)).

Definition resolver_fields (r old : ResolverRow) : ResolverRow := {|
  rs_ID := rs_ID old; rs_Name := rs_Name r; rs_Address := rs_Address r; rs_Protocol := rs_Protocol r;
  rs_Position := rs_Position r; rs_CreatedAt := rs_CreatedAt old |}.

(** [IsZero] of the creation time is [None]: the repository stamps it. *)
Record NewResolver := {
  nr_ID : string; nr_Name : string; nr_Address : string; nr_Protocol : string; nr_Position : Z;
  nr_CreatedAt : option Z;
}.

Section ResolverRepo.
Context {T : SqlTable ResolverRow}.
Definition ResolverRepo_List (t : table ResolverRow) : result db_error (list ResolverRow) :=
  sql_select everything resolver_order t.
Definition ResolverRepo_Get (id : string) (t : table ResolverRow) : result db_error ResolverRow := sql_first id t.
Definition ResolverRepo_Create (now : Z) (r : NewResolver) (t : table ResolverRow) : result db_error (table ResolverRow) :=
  sql_insert {| rs_ID := nr_ID r; rs_Name := nr_Name r; rs_Address := nr_Address r; rs_Protocol := nr_Protocol r;
                rs_Position := nr_Position r; rs_CreatedAt := default now (nr_CreatedAt r) |} t.
Definition ResolverRepo_Update (r : ResolverRow) (t : table ResolverRow) : result db_error (table ResolverRow) :=
  must_affect (sql_update (key_is (rs_ID r)) (resolver_fields r) t).
Definition ResolverRepo_Delete (id : string) (t : table ResolverRow) : result db_error (table ResolverRow) :=
  must_affect (sql_delete (key_is id) t).
Definition ResolverRepo_Addresses (t : table ResolverRow) : result db_error (list string) :=
  match sql_select everything resolver_order t with Ok l => Ok (rs_Address <$> l) | Err e => Err e end.

(** [SELECT MAX(position)]. *)
Definition max_position (l : list ResolverRow) : option Z :=
  foldr (λ r acc, Some (match acc with Some m => Z.max (rs_Position r) m | None => rs_Position r end)) None l.
(** The successor is a Go int, which wraps round. *)
Definition ResolverRepo_NextPosition (t : table ResolverRow) : result db_error Z :=
  match sql_select everything any_order t with
  | Err e => Err e
  | Ok l => Ok (match max_position l with None => 0 | Some m => wrap_int64 (m + 1) end)
  end.
Definition ResolverRepo_Count (t : table ResolverRow) : result db_error Z :=
  match sql_select everything any_order t with Err e => Err e | Ok l => Ok (Z.of_nat (length l)) end.

(** The inserts are not in a transaction: an error leaves the rows before it. *)
Fixpoint seed_loop (now : Z) (newID : nat → string) (i : nat) (addresses : list string) (t : table ResolverRow)
  : result db_error unit * table ResolverRow :=
  match addresses with
  | [] => (Ok tt, t)
  | addr :: rest =>
      match sql_insert {| rs_ID := newID i; rs_Name := addr; rs_Address := addr; rs_Protocol := "udp";
                          rs_Position := Z.of_nat i; rs_CreatedAt := now |} t with
      | Err e => (Err e, t)
      | Ok t => seed_loop now newID (S i) rest t
      end
  end.
Definition SeedDefaults (now : Z) (newID : nat → string) (addresses : list string) (t : table ResolverRow)
  : result db_error unit * table ResolverRow :=
  match ResolverRepo_Count t with
  | Err e => (Err e, t)
  | Ok n => if 0 <? n then (Ok tt, t) else seed_loop now newID 0 addresses t
  end.
End ResolverRepo.

(** ** The system state: one row *)

Record SystemState := { ss_ID : Z; ss_DNSEnabled : bool; ss_PolicyEnabled : bool }.
#[export] Instance SystemState_key : Keyed SystemState := λ s, pretty (ss_ID s).

Section SystemStateRepo.
Context {T : SqlTable SystemState}.
Definition SystemStateRepo_Get (t : table SystemState) : result db_error SystemState * table SystemState :=
  match sql_first "1" t with
  | Ok s => (Ok s, t)
  | Err ErrRecordNotFound =>
      let state := {| ss_ID := 1; ss_DNSEnabled := true; ss_PolicyEnabled := true |} in
      match sql_insert state t with Ok t' => (Ok state, t') | Err e => (Err e, t) end
  | Err e => (Err e, t)
  end.
(** An UPDATE: no row is created and none affected is no error. *)
Definition SetDNSEnabled (enabled : bool) (t : table SystemState) : result db_error (table SystemState) :=
  match sql_update (key_is "1") (λ s, {| ss_ID := ss_ID s; ss_DNSEnabled := enabled; ss_PolicyEnabled := ss_PolicyEnabled s |}) t with
  | Ok (_, t') => Ok t' | Err e => Err e
  end.
Definition SetPolicyEnabled (enabled : bool) (t : table SystemState) : result db_error (table SystemState) :=
  match sql_update (key_is "1") (λ s, {| ss_ID := ss_ID s; ss_DNSEnabled := ss_DNSEnabled s; ss_PolicyEnabled := enabled |}) t with
  | Ok (_, t') => Ok t' | Err e => Err e
  end.
End SystemStateRepo.

(** ** Categories and collections: named toggles *)

Record CategoryRow := { ct_Name : string; ct_Description : string; ct_Type : string; ct_Enabled : bool }.
#[export] Instance CategoryRow_key : Keyed CategoryRow := ct_Name.
Record CollectionRow := { cl_Name : string; cl_App : string; cl_Description : string; cl_Enabled : bool }.
#[export] Instance CollectionRow_key : Keyed CollectionRow := cl_Name.

Section Toggles.
Context {R : Type} `{T : SqlTable R} (set_enabled : bool → R → R).
(** ORDER BY name asc *)
Definition name_order (a b : R) : bool := bool_decide (row_key a = row_key b) || String.ltb (row_key a) (row_key b).
Definition Toggle_List (t : table R) : result db_error (list R) := sql_select everything name_order t.
Definition Toggle_GetByName (name : string) (t : table R) : result db_error R := sql_first name t.
(** gorm's [FirstOrCreate]: an existing row is loaded, not changed. *)
Definition EnsureExists (r : R) (t : table R) : result db_error (table R) :=
  match sql_first (row_key r) t with
  | Ok _ => Ok t
  | Err ErrRecordNotFound => sql_insert r t
  | Err e => Err e
  end.
Definition SetEnabled (name : string) (enabled : bool) (t : table R) : result db_error (table R) :=
  must_affect (sql_update (key_is name) (set_enabled enabled) t).
End Toggles.

Definition category_enabled (b : bool) (c : CategoryRow) : CategoryRow := {|
  ct_Name := ct_Name c; ct_Description := ct_Description c; ct_Type := ct_Type c; ct_Enabled := b |}.
Definition collection_enabled (b : bool) (c : CollectionRow) : CollectionRow := {|
  cl_Name := cl_Name c; cl_App := cl_App c; cl_Description := cl_Description c; cl_Enabled := b |}.

(** ** The administrator *)

Record AdminCredential := { ad_ID : Z; ad_PasswordHash : string; ad_APIKey : string }.
#[export] Instance AdminCredential_key : Keyed AdminCredential := λ a, pretty (ad_ID a).

Section AuthRepo.
Context {T : SqlTable AdminCredential}.
Definition IsSetup (t : table AdminCredential) : result db_error bool :=
  match sql_select everything any_order t with Ok l => Ok (0 <? Z.of_nat (length l)) | Err e => Err e end.
Definition CreateAdmin (passwordHash apiKey : string) (t : table AdminCredential)
  : result db_error (table AdminCredential) :=
  match IsSetup t with
  | Err e => Err e
  | Ok true => Err (DbError "admin already exists")
  | Ok false => sql_insert {| ad_ID := 1; ad_PasswordHash := passwordHash; ad_APIKey := apiKey |} t
  end.
Definition GetAdmin (t : table AdminCredential) : result db_error AdminCredential := sql_first "1" t.
Definition ValidateAPIKey (key : string) (t : table AdminCredential) : result db_error bool :=
  match sql_select (λ a, bool_decide (ad_APIKey a = key)) any_order t with
  | Ok l => Ok (0 <? Z.of_nat (length l)) | Err e => Err e
  end.
End AuthRepo.

(** ** A table that is a list, for concrete runs *)

Section ListTable.
Context {R : Type} `{K : Keyed R}.

Definition keyed_list : Type := { l : list R | NoDup (row_key <$> l) }.
(** A list with a duplicate key is a constraint error. *)
Definition keyed (l : list R) : result db_error keyed_list :=
  match decide (NoDup (row_key <$> l)) with
  | left Hl => Ok (l ↾ Hl)
  | right _ => Err (DbError "UNIQUE constraint failed")
  end.

Fixpoint insert_ordered (o : R → R → bool) (r : R) (l : list R) : list R :=
  match l with
  | [] => [r]
  | x :: l' => if o r x then r :: l else x :: insert_ordered o r l'
  end.
Fixpoint sortedb (o : R → R → bool) (l : list R) : bool :=
  match l with [] => true | x :: l' => forallb (o x) l' && sortedb o l' end.

Definition counted (n : nat) (x : result db_error keyed_list) : result db_error (Z * keyed_list) :=
  match x with Ok t => Ok (Z.of_nat n, t) | Err e => Err e end.

Definition list_table : SqlTable R := {|
  table := keyed_list; rows := proj1_sig;
  sql_select := λ w o t,
    let l := foldr (insert_ordered o) [] (filter w (`t)) in
    if sortedb o l then Ok l else Err (DbError "no such order");
  sql_insert := λ r t, keyed (`t ++ [r]);
  sql_update := λ w f t, counted (length (filter w (`t))) (keyed ((λ r, if w r then f r else r) <$> `t));
  sql_delete := λ w t, counted (length (filter w (`t))) (keyed (filter (λ r, w r = false) (`t)));
  sql_save := λ r t, keyed (r :: filter (λ x, row_key x ≠ row_key r) (`t));
  sql_upsert := λ r f t,
    keyed (if bool_decide (row_key r ∈ row_key <$> `t)
           then (λ x, if bool_decide (row_key x = row_key r) then f x else x) <$> `t else r :: `t) |}.

Definition list_table_of (l : list R) : option keyed_list :=
  match keyed l with Ok t => Some t | Err _ => None end.

Lemma keyed_ok l t : keyed l = Ok t → `t = l.
Proof. unfold keyed. destruct (decide _); [|done]. by intros [= <-]. Qed.

Lemma insert_ordered_perm o r l : insert_ordered o r l ≡ₚ r :: l.
Proof.
  induction l as [|x l IH]; [done|]. simpl. destruct (o r x); [done|]. rewrite IH. by rewrite Permutation_swap.
Qed.

Lemma insertion_sort_perm o l : foldr (insert_ordered o) [] l ≡ₚ l.
Proof. induction l as [|x l IH]; [done|]. simpl. by rewrite insert_ordered_perm, IH. Qed.

Lemma sortedb_sorted o l : sortedb o l = true → StronglySorted (λ a b, o a b = true) l.
Proof.
  induction l as [|x l IH]; [constructor|]. simpl. intros [H1 H2]%andb_true_iff.
  constructor; [by apply IH|]. rewrite forallb_forall in H1. apply Forall_forall. intros y Hy.
  by apply H1, list_elem_of_In.
Qed.

Lemma list_table_laws : SqlTableLaws list_table.
Proof.
  split; cbn [rows table sql_select sql_insert sql_update sql_delete sql_save sql_upsert list_table].
  - intros [l Hl]. exact Hl.
  - intros w o t l. cbv zeta. destruct (sortedb _ _) eqn:E; [|done]. intros [= <-].
    split; [apply insertion_sort_perm|by apply sortedb_sorted].
  - intros r t t' ->%keyed_ok. by rewrite Permutation_app_comm.
  - intros w f t n t' E _. unfold counted in E. destruct (keyed _) eqn:Ek; [|done].
    apply keyed_ok in Ek. simplify_eq. by rewrite Ek.
  - intros w t n t' E. unfold counted in E. destruct (keyed _) eqn:Ek; [|done]. apply keyed_ok in Ek. simplify_eq. by rewrite Ek.
  - intros r t t' ->%keyed_ok. done.
  - intros r f t t' ->%keyed_ok _. done.
Qed.
End ListTable.

Definition table_of {R} `{Keyed R} (l : list R) (Hl : bool_decide (NoDup (row_key <$> l)) = true)
  : @table R _ list_table := l ↾ proj1 (bool_decide_eq_true _) Hl.
