(* ===== verification/ControlPlane.v ===== *)
(** * The control plane's handlers

    [cmd/controlplane/handlers]: handlers.go, dns.go and policies.go, with the gRPC
    client and service between the planes (internal/grpc). A handler is a function from
    the request, already bound from JSON or refused by the binding, and the handler's
    state to a response and the new state. The state holds the tables, the control
    plane's own policy engine and the data plane's engine at the other end of the
    client; [net] says what becomes of the i-th call. *)
From S2P Require Import Prelude GoStrings GoNet Policy PolicyEngine PolicySpec DnsMsg Upstream Metrics Threat.
From S2P Require Import Blocklist Config DnsEngine Json Storage.

(** ** Responses *)

Definition StatusOK : Z := 200.
Definition StatusCreated : Z := 201.
Definition StatusBadRequest : Z := 400.
Definition StatusNotFound : Z := 404.
Definition StatusInternalServerError : Z := 500.
Definition StatusBadGateway : Z := 502.

Inductive api_error :=
| ApiMsg (msg : string)                  (* a fixed text, or the binding's own *)
| ApiInvalidAddress (addr : string) | ApiEmptyHost (addr : string) | ApiInvalidPort (addr : string)
| ApiInvalidProtocol (p : string)
| ApiPolicyError (e : policy_error).

(** The JSON envelope: data and error; [Data] may be set beside an error. *)
Record response (A : Type) := { r_status : Z; r_data : option A; r_error : option api_error }.
Arguments r_status {A} _.
Arguments r_data {A} _.
Arguments r_error {A} _.

Definition ok_response {A} (status : Z) (a : A) : response A :=
  {| r_status := status; r_data := Some a; r_error := None |}.
Definition err_response {A} (status : Z) (e : api_error) : response A :=
  {| r_status := status; r_data := None; r_error := Some e |}.
Definition partial_response {A} (status : Z) (a : A) (msg : string) : response A :=
  {| r_status := status; r_data := Some a; r_error := Some (ApiMsg msg) |}.

(** ** Calls between the planes *)

(** A call gets through, does not arrive, or arrives and its reply is lost. *)
Inductive rpc_outcome := Delivered | NotReached | ReplyLost.

Section ControlPlane.
Context `{U : GoUnicode} `{TZ : TzDatabase} `{BL : BloomLib} `{RX : RegexpLib} `{TR : TransportEnv}.
Context {TP : SqlTable PolicyRow} {TRs : SqlTable ResolverRow} {TS : SqlTable SystemState}.
Context {W : Type} (close_mgr : UpstreamManager → W → W) (net : nat → rpc_outcome).

(** The data plane process: its engine and the state of its transports. *)
Record DataPlane := { dp_engine : Engine; dp_world : W }.

Record APIHandler := {
  h_Policies : table PolicyRow;
  h_Resolvers : table ResolverRow;
  h_SystemState : table SystemState;
  h_DataPlaneClient : option DataPlane;      (* None is a nil client *)
  h_PolicyEngine : option PEngine;
  h_calls : nat;
}.

Definition with_policies (t : table PolicyRow) (h : APIHandler) : APIHandler := {|
  h_Policies := t; h_Resolvers := h_Resolvers h; h_SystemState := h_SystemState h;
  h_DataPlaneClient := h_DataPlaneClient h; h_PolicyEngine := h_PolicyEngine h; h_calls := h_calls h |}.
Definition with_resolvers (t : table ResolverRow) (h : APIHandler) : APIHandler := {|
  h_Policies := h_Policies h; h_Resolvers := t; h_SystemState := h_SystemState h;
  h_DataPlaneClient := h_DataPlaneClient h; h_PolicyEngine := h_PolicyEngine h; h_calls := h_calls h |}.
Definition with_state (t : table SystemState) (h : APIHandler) : APIHandler := {|
  h_Policies := h_Policies h; h_Resolvers := h_Resolvers h; h_SystemState := t;
  h_DataPlaneClient := h_DataPlaneClient h; h_PolicyEngine := h_PolicyEngine h; h_calls := h_calls h |}.
Definition with_engine (e : option PEngine) (h : APIHandler) : APIHandler := {|
  h_Policies := h_Policies h; h_Resolvers := h_Resolvers h; h_SystemState := h_SystemState h;
  h_DataPlaneClient := h_DataPlaneClient h; h_PolicyEngine := e; h_calls := h_calls h |}.
Definition called (dp : DataPlane) (h : APIHandler) : APIHandler := {|
  h_Policies := h_Policies h; h_Resolvers := h_Resolvers h; h_SystemState := h_SystemState h;
  h_DataPlaneClient := Some dp; h_PolicyEngine := h_PolicyEngine h; h_calls := S (h_calls h) |}.

(** *** internal/grpc/dataplane/status.go: the service *)

Definition svc_SetAcceptQueries (enabled : bool) (dp : DataPlane) : DataPlane :=
  {| dp_engine := SetAcceptQueries enabled (dp_engine dp); dp_world := dp_world dp |}.
(** The reply's [Error], if any. *)
Definition svc_SetUpstreamResolvers (resolvers : list string) (dp : DataPlane) : option upstream_error * DataPlane :=
  let '(err, (e, w)) := SetUpstreamResolvers close_mgr resolvers (dp_engine dp) (dp_world dp) in
  (err, {| dp_engine := e; dp_world := w |}).

(** *** internal/grpc/controlplane/client.go *)

(** [None] is success. A nil client panics in the code; its callers test it, or their
    handlers are only built with one. *)
Definition client_SetAcceptQueries (enabled : bool) (dp : DataPlane) (h : APIHandler) : bool * APIHandler :=
  match net (h_calls h) with
  | Delivered => (true, called (svc_SetAcceptQueries enabled dp) h)
  | NotReached => (false, called dp h)
  | ReplyLost => (false, called (svc_SetAcceptQueries enabled dp) h)
  end.
Definition client_SetUpstreamResolvers (resolvers : list string) (dp : DataPlane) (h : APIHandler) : bool * APIHandler :=
  let '(err, dp') := svc_SetUpstreamResolvers resolvers dp in
  match net (h_calls h) with
  | Delivered => (negb (bool_decide (is_Some err)), called dp' h)
  | NotReached => (false, called dp h)
  | ReplyLost => (false, called dp' h)
  end.
Definition client_GetStatus (dp : DataPlane) (h : APIHandler) : option Status * APIHandler :=
  (match net (h_calls h) with Delivered => Some (engine_Status (dp_engine dp)) | _ => None end, called dp h).

(** *** dns.go: the engine switch *)

Record DnsEngineStatusData := { ds_Enabled : bool; ds_AcceptingQueries : bool; ds_LastError : string }.

Definition GetDnsEngineStatus (dp : DataPlane) (h : APIHandler) : response DnsEngineStatusData * APIHandler :=
  match SystemStateRepo_Get (h_SystemState h) with
  | (Err _, t) => (err_response StatusInternalServerError (ApiMsg "failed to fetch desired DNS engine state"), with_state t h)
  | (Ok state, t) =>
      match client_GetStatus dp (with_state t h) with
      | (None, h) => (err_response StatusBadGateway (ApiMsg "failed to fetch DNS engine runtime status"), h)
      | (Some st, h) =>
          (ok_response StatusOK {| ds_Enabled := ss_DNSEnabled state; ds_AcceptingQueries := st_AcceptingQueries st;
                                   ds_LastError := st_LastError st |}, h)
      end
  end.

Definition ToggleDnsEngine (req : result string bool) (dp : DataPlane) (h : APIHandler) : response bool * APIHandler :=
  match req with
  | Err msg => (err_response StatusBadRequest (ApiMsg msg), h)
  | Ok enabled =>
      match SetDNSEnabled enabled (h_SystemState h) with
      | Err _ => (err_response StatusInternalServerError (ApiMsg "failed to persist DNS engine state"), h)
      | Ok t =>
          match client_SetAcceptQueries enabled dp (with_state t h) with
          | (false, h) => (err_response StatusBadGateway (ApiMsg "failed to apply DNS engine state to dataplane"), h)
          | (true, h) => (ok_response StatusOK enabled, h)
          end
      end
  end.

(** *** dns.go: live metrics *)

Inductive grade := Excellent | Good | Degraded | Unknown | Bad.
Definition gradeDnsPerformance (p95Ms : Z) (errorRate : float64) : grade :=
  if (p95Ms <? 20) && f64_ltb errorRate (f64_lit 1 3) then Excellent
  else if (p95Ms <? 50) && f64_ltb errorRate (f64_lit 1 2) then Good
  else if p95Ms <? 100 then Degraded
  else if 5000 <=? p95Ms then Unknown else Bad.

(** internal/grpc/dataplane/metrics.go *)
Record LiveQueryMetrics := { lm_WindowSizeSeconds : Z; lm_Total : Z; lm_Errors : Z; lm_P50Ms : Z; lm_P95Ms : Z; lm_P99Ms : Z }.
Definition durationMsToUint64 (d : Z) : Z := let ms := Z.quot d millisecond in if ms <? 0 then 0 else ms.
Definition GetLiveQueryMetrics (now : Z) (dp : DataPlane) : LiveQueryMetrics :=
  let agg := Aggregate now (e_metrics (dp_engine dp)) in
  let p q := durationMsToUint64 (EstimatePercentile (ag_Buckets agg) q) in
  {| lm_WindowSizeSeconds := 5 * 60; lm_Total := ag_Total agg; lm_Errors := ag_Errors agg;
     lm_P50Ms := p (f64_lit 50 2); lm_P95Ms := p (f64_lit 95 2); lm_P99Ms := p (f64_lit 99 2) |}.

Record DnsMetricsData := { dm_live : LiveQueryMetrics; dm_errorRate : float64; dm_grade : grade }.
Definition GetDnsMetrics (now : Z) (dp : DataPlane) (h : APIHandler) : response DnsMetricsData * APIHandler :=
  match net (h_calls h) with
  | Delivered =>
      let m := GetLiveQueryMetrics now dp in
      let errorRate := if 0 <? lm_Total m then f64_div (f64_of_Z (lm_Errors m)) (f64_of_Z (lm_Total m)) else f64_zero in
      (ok_response StatusOK {| dm_live := m; dm_errorRate := errorRate;
                               dm_grade := gradeDnsPerformance (lm_P95Ms m) errorRate |}, called dp h)
  | _ => (err_response StatusBadGateway (ApiMsg "failed to fetch live DNS metrics from dataplane"), called dp h)
  end.

(** *** dns.go: resolvers *)

Record Resolver := { rv_ID : string; rv_Name : string; rv_Address : string; rv_Protocol : string; rv_Position : Z }.
Record CreateResolverRequest := { cr_Name : string; cr_Address : string; cr_Protocol : string }.
Record UpdateResolverRequest := {
  ur_Name : option string; ur_Address : option string; ur_Protocol : option string; ur_Position : option Z;
}.

Definition resolverFromModel (m : ResolverRow) : Resolver := {|
  rv_ID := rs_ID m; rv_Name := rs_Name m; rv_Address := rs_Address m; rv_Protocol := rs_Protocol m;
  rv_Position := rs_Position m |}.

Definition validateResolverAddress (addr : string) : result api_error unit :=
  match SplitHostPort addr with
  | None => Err (ApiInvalidAddress addr)
  | Some (host, port) =>
      if bool_decide (host = ""%string) then Err (ApiEmptyHost addr)
      else match Atoi port with
           | Some p => if (p <? 1) || (65535 <? p) then Err (ApiInvalidPort addr) else Ok tt
           | None => Err (ApiInvalidPort addr)
           end
  end.

Definition normalizeProtocol (p : string) : result api_error string :=
  if bool_decide (p = ""%string) then Ok "udp"%string
  else if bool_decide (ToLower p ∈ ["udp"; "tcp"]%string) then Ok (ToLower p)
  else Err (ApiInvalidProtocol p).

(** [applyResolvers]: whether it succeeded. *)
Definition applyResolvers (h : APIHandler) : bool * APIHandler :=
  match h_DataPlaneClient h with
  | None => (true, h)
  | Some dp =>
      match ResolverRepo_Addresses (h_Resolvers h) with
      | Err _ => (false, h)
      | Ok addrs => client_SetUpstreamResolvers addrs dp h
      end
  end.

Definition ListResolvers (h : APIHandler) : response (list Resolver) :=
  match ResolverRepo_List (h_Resolvers h) with
  | Err _ => err_response StatusInternalServerError (ApiMsg "failed to fetch resolvers")
  | Ok l => ok_response StatusOK (resolverFromModel <$> l)
  end.

Definition CreateResolver (now : Z) (uuid : string) (req : result string CreateResolverRequest) (h : APIHandler)
  : response Resolver * APIHandler :=
  match req with
  | Err msg => (err_response StatusBadRequest (ApiMsg msg), h)
  | Ok req =>
      match validateResolverAddress (cr_Address req) with
      | Err e => (err_response StatusBadRequest e, h)
      | Ok _ =>
          match normalizeProtocol (cr_Protocol req) with
          | Err e => (err_response StatusBadRequest e, h)
          | Ok protocol =>
              let name := if bool_decide (cr_Name req = ""%string) then cr_Address req else cr_Name req in
              match ResolverRepo_NextPosition (h_Resolvers h) with
              | Err _ => (err_response StatusInternalServerError (ApiMsg "failed to determine resolver position"), h)
              | Ok position =>
                  let m := {| nr_ID := uuid; nr_Name := name; nr_Address := cr_Address req; nr_Protocol := protocol;
                              nr_Position := position; nr_CreatedAt := None |} in
                  let out := {| rv_ID := uuid; rv_Name := name; rv_Address := cr_Address req;
                                rv_Protocol := protocol; rv_Position := position |} in
                  match ResolverRepo_Create now m (h_Resolvers h) with
                  | Err _ => (err_response StatusInternalServerError (ApiMsg "failed to create resolver"), h)
                  | Ok t =>
                      match applyResolvers (with_resolvers t h) with
                      | (false, h) =>
                          (partial_response StatusBadGateway out "resolver persisted but failed to apply to dataplane", h)
                      | (true, h) => (ok_response StatusCreated out, h)
                      end
                  end
              end
          end
      end
  end.

(** The fields of a request applied to a row, in the order they are checked. *)
Definition resolver_edit (req : UpdateResolverRequest) (r : ResolverRow) : result api_error ResolverRow :=
  let name := default (rs_Name r) (ur_Name req) in
  let? address := (match ur_Address req with
                   | None => Ok (rs_Address r)
                   | Some a => match validateResolverAddress a with Ok _ => Ok a | Err e => Err e end
                   end) in
  let? protocol := (match ur_Protocol req with None => Ok (rs_Protocol r) | Some p => normalizeProtocol p end) in
  Ok {| rs_ID := rs_ID r; rs_Name := name; rs_Address := address; rs_Protocol := protocol;
        rs_Position := default (rs_Position r) (ur_Position req); rs_CreatedAt := rs_CreatedAt r |}.

Definition UpdateResolver (id : string) (req : result string UpdateResolverRequest) (h : APIHandler)
  : response Resolver * APIHandler :=
  match ResolverRepo_Get id (h_Resolvers h) with
  | Err _ => (err_response StatusNotFound (ApiMsg "resolver not found"), h)
  | Ok existing =>
      match req with
      | Err msg => (err_response StatusBadRequest (ApiMsg msg), h)
      | Ok req =>
          match resolver_edit req existing with
          | Err e => (err_response StatusBadRequest e, h)
          | Ok r =>
              match ResolverRepo_Update r (h_Resolvers h) with
              | Err _ => (err_response StatusInternalServerError (ApiMsg "failed to update resolver"), h)
              | Ok t =>
                  match applyResolvers (with_resolvers t h) with
                  | (false, h) =>
                      (partial_response StatusBadGateway (resolverFromModel r)
                         "resolver updated but failed to apply to dataplane", h)
                  | (true, h) => (ok_response StatusOK (resolverFromModel r), h)
                  end
              end
          end
      end
  end.

Definition DeleteResolver (id : string) (h : APIHandler) : response unit * APIHandler :=
  match ResolverRepo_Delete id (h_Resolvers h) with
  | Err _ => (err_response StatusNotFound (ApiMsg "resolver not found"), h)
  | Ok t =>
      match applyResolvers (with_resolvers t h) with
      | (false, h) => (err_response StatusBadGateway (ApiMsg "resolver deleted but failed to apply to dataplane"), h)
      | (true, h) => (ok_response StatusOK tt, h)
      end
  end.

(** *** policies.go *)

(** A policy as the API shows it; slices may be nil. *)
Record ApiPolicy := {
  ap_ID : string; ap_Name : string; ap_Description : string; ap_Category : string; ap_Action : string;
  ap_RedirectIP : string; ap_Domains : option (list string); ap_Regexes : option (list string);
  ap_ClientCIDRs : option (list string); ap_Priority : Z; ap_Enabled : bool;
  ap_ScheduleDays : option (list string); ap_StartTime : string; ap_EndTime : string; ap_Timezone : string;
}.
Record CreatePolicyRequest := {
  pc_ID : string; pc_Name : string; pc_Description : string; pc_Category : string; pc_Action : string;
  pc_RedirectIP : string; pc_Domains : option (list string); pc_Regexes : option (list string);
  pc_ClientCIDRs : option (list string); pc_Priority : Z; pc_ScheduleDays : option (list string);
  pc_StartTime : string; pc_EndTime : string; pc_Timezone : string;
}.
(** A nil pointer leaves the field; a slice it points to may be nil. *)
Record UpdatePolicyRequest := {
  pu_Name : option string; pu_Description : option string; pu_Category : option string; pu_Action : option string;
  pu_RedirectIP : option string; pu_Domains : option (option (list string));
  pu_Regexes : option (option (list string)); pu_ClientCIDRs : option (option (list string));
  pu_Priority : option Z; pu_Enabled : option bool; pu_ScheduleDays : option (option (list string));
  pu_StartTime : option string; pu_EndTime : option string; pu_Timezone : option string;
}.

Definition policyFromModel (m : PolicyRow) : ApiPolicy := {|
  ap_ID := mp_ID m; ap_Name := mp_Name m; ap_Description := mp_Description m; ap_Category := mp_Category m;
  ap_Action := mp_Action m; ap_RedirectIP := mp_RedirectIP m; ap_Domains := column_list (mp_Domains m);
  ap_Regexes := column_list (mp_Regexes m); ap_ClientCIDRs := column_list (mp_ClientCIDRs m);
  ap_Priority := mp_Priority m; ap_Enabled := mp_Enabled m; ap_ScheduleDays := column_list (mp_ScheduleDays m);
  ap_StartTime := mp_ScheduleStart m; ap_EndTime := mp_ScheduleEnd m; ap_Timezone := mp_Timezone m |}.

Definition scheduleDaysJSON (days : option (list string)) : string :=
  if bool_decide (elems days = []) then "" else marshal_strings days.

Definition reloadPolicyEngine (h : APIHandler) : APIHandler :=
  match h_PolicyEngine h with
  | None => h
  | Some e =>
      match PolicyRepo_List (h_Policies h) with
      | Err _ => h
      | Ok stored => with_engine (Some (LoadPolicies e (ToEnginePolicy <$> stored))) h
      end
  end.

Record PolicyListData := { pl_Total : Z; pl_Active : Z; pl_Inactive : Z; pl_List : list ApiPolicy }.
Definition ListPolicies (h : APIHandler) : response PolicyListData :=
  match PolicyRepo_List (h_Policies h) with
  | Err _ => err_response StatusInternalServerError (ApiMsg "failed to fetch policies")
  | Ok stored =>
      let l := policyFromModel <$> stored in
      let active := Z.of_nat (length (filter (λ p, ap_Enabled p = true) l)) in
      ok_response StatusOK {| pl_Total := Z.of_nat (length l); pl_Active := active;
                              pl_Inactive := Z.of_nat (length l) - active; pl_List := l |}
  end.

Definition GetPolicy (id : string) (h : APIHandler) : response ApiPolicy :=
  match PolicyRepo_GetByID id (h_Policies h) with
  | Err _ => err_response StatusNotFound (ApiMsg "policy not found")
  | Ok m => ok_response StatusOK (policyFromModel m)
  end.

(** The row a create request asks for. *)
Definition policy_of_request (req : CreatePolicyRequest) : PolicyRow := {|
  mp_ID := pc_ID req; mp_Name := pc_Name req; mp_Description := pc_Description req; mp_Category := pc_Category req;
  mp_Action := pc_Action req; mp_RedirectIP := pc_RedirectIP req; mp_Domains := marshal_strings (pc_Domains req);
  mp_Regexes := marshal_strings (pc_Regexes req); mp_ClientCIDRs := marshal_strings (pc_ClientCIDRs req);
  mp_Priority := pc_Priority req; mp_Enabled := true; mp_ScheduleDays := scheduleDaysJSON (pc_ScheduleDays req);
  mp_ScheduleStart := pc_StartTime req; mp_ScheduleEnd := pc_EndTime req; mp_Timezone := pc_Timezone req |}.

Definition CreatePolicy (req : result string CreatePolicyRequest) (h : APIHandler) : response ApiPolicy * APIHandler :=
  match req with
  | Err msg => (err_response StatusBadRequest (ApiMsg msg), h)
  | Ok req =>
      let m := policy_of_request req in
      match ValidatePolicy (ToEnginePolicy m) with
      | Err e => (err_response StatusBadRequest (ApiPolicyError e), h)
      | Ok _ =>
          match PolicyRepo_Create m (h_Policies h) with
          | Err _ => (err_response StatusInternalServerError (ApiMsg "failed to create policy"), h)
          | Ok t => (ok_response StatusCreated (policyFromModel m), reloadPolicyEngine (with_policies t h))
          end
      end
  end.

Definition policy_edit (req : UpdatePolicyRequest) (m : PolicyRow) : PolicyRow := {|
  mp_ID := mp_ID m; mp_Name := default (mp_Name m) (pu_Name req);
  mp_Description := default (mp_Description m) (pu_Description req);
  mp_Category := default (mp_Category m) (pu_Category req); mp_Action := default (mp_Action m) (pu_Action req);
  mp_RedirectIP := default (mp_RedirectIP m) (pu_RedirectIP req);
  mp_Domains := match pu_Domains req with Some l => marshal_strings l | None => mp_Domains m end;
  mp_Regexes := match pu_Regexes req with Some l => marshal_strings l | None => mp_Regexes m end;
  mp_ClientCIDRs := match pu_ClientCIDRs req with Some l => marshal_strings l | None => mp_ClientCIDRs m end;
  mp_Priority := default (mp_Priority m) (pu_Priority req); mp_Enabled := default (mp_Enabled m) (pu_Enabled req);
  mp_ScheduleDays := match pu_ScheduleDays req with Some l => scheduleDaysJSON l | None => mp_ScheduleDays m end;
  mp_ScheduleStart := default (mp_ScheduleStart m) (pu_StartTime req);
  mp_ScheduleEnd := default (mp_ScheduleEnd m) (pu_EndTime req);
  mp_Timezone := default (mp_Timezone m) (pu_Timezone req) |}.

Definition UpdatePolicy (id : string) (req : result string UpdatePolicyRequest) (h : APIHandler)
  : response ApiPolicy * APIHandler :=
  match PolicyRepo_GetByID id (h_Policies h) with
  | Err _ => (err_response StatusNotFound (ApiMsg "policy not found"), h)
  | Ok m =>
      match req with
      | Err msg => (err_response StatusBadRequest (ApiMsg msg), h)
      | Ok req =>
          let m := policy_edit req m in
          match ValidatePolicy (ToEnginePolicy m) with
          | Err e => (err_response StatusBadRequest (ApiPolicyError e), h)
          | Ok _ =>
              match PolicyRepo_Update m (h_Policies h) with
              | Err _ => (err_response StatusInternalServerError (ApiMsg "failed to update policy"), h)
              | Ok t => (ok_response StatusOK (policyFromModel m), reloadPolicyEngine (with_policies t h))
              end
          end
      end
  end.

Definition DeletePolicy (id : string) (h : APIHandler) : response unit * APIHandler :=
  match PolicyRepo_Delete id (h_Policies h) with
  | Err ErrRecordNotFound => (err_response StatusNotFound (ApiMsg "policy not found"), h)
  | Err _ => (err_response StatusInternalServerError (ApiMsg "failed to delete policy"), h)
  | Ok t => (ok_response StatusOK tt, reloadPolicyEngine (with_policies t h))
  end.
End ControlPlane.
