(* ===== verification/ControlSpec.v ===== *)
(** * What the control plane's edits achieve

    Resolver edits reach the data plane in the stored order; policies accepted by the
    API are valid, stored as asked and in the engine; the engine switch is stored and
    applied. *)
From S2P Require Import Prelude GoStrings GoNet GoUtf8 Policy PolicyEngine PolicySpec DnsMsg Upstream Threat.
From S2P Require Import Blocklist Config DnsEngine Json Storage ControlPlane.

(** ** The requests as data *)

Inductive resolver_op :=
| RCreate (now : Z) (uuid : string) (req : result string CreateResolverRequest)
| RUpdate (id : string) (req : result string UpdateResolverRequest)
| RDelete (id : string).

Inductive policy_op :=
| PCreate (req : result string CreatePolicyRequest)
| PUpdate (id : string) (req : result string UpdatePolicyRequest)
| PDelete (id : string).

Section Spec.
Context `{U : GoUnicode} `{TZ : TzDatabase} `{BL : BloomLib} `{RX : RegexpLib} `{TR : TransportEnv}.
Context {TP : SqlTable PolicyRow} {TRs : SqlTable ResolverRow} {TS : SqlTable SystemState}.
Context {W : Type} (close_mgr : UpstreamManager → W → W) (net : nat → rpc_outcome).

Abbreviation handler := (APIHandler (W:=W)).

Definition run_resolver (op : resolver_op) (h : handler) : Z * handler :=
  match op with
  | RCreate now uuid req => let '(r, h') := CreateResolver close_mgr net now uuid req h in (r_status r, h')
  | RUpdate id req => let '(r, h') := UpdateResolver close_mgr net id req h in (r_status r, h')
  | RDelete id => let '(r, h') := DeleteResolver close_mgr net id h in (r_status r, h')
  end.

Definition run_policy (op : policy_op) (h : handler) : Z * handler :=
  match op with
  | PCreate req => let '(r, h') := CreatePolicy req h in (r_status r, h')
  | PUpdate id req => let '(r, h') := UpdatePolicy id req h in (r_status r, h')
  | PDelete id => let '(r, h') := DeletePolicy id h in (r_status r, h')
  end.
Definition run_policies (ops : list policy_op) (h : handler) : handler :=
  foldl (λ h op, (run_policy op h).2) h ops.

(** ** What the rows become *)

(** A created resolver comes last, unless a stored position is the largest int: its
    successor wraps round to the smallest. *)
Definition resolver_rows (op : resolver_op) (l l' : list ResolverRow) : Prop :=
  match op with
  | RCreate _ uuid (Ok req) =>
      ∃ r, l' ≡ₚ r :: l ∧ rs_ID r = uuid ∧ rs_Address r = cr_Address req ∧
           rs_Name r = (if bool_decide (cr_Name req = ""%string) then cr_Address req else cr_Name req) ∧
           normalizeProtocol (cr_Protocol req) = Ok (rs_Protocol r) ∧ validateResolverAddress (cr_Address req) = Ok tt ∧
           ((∀ x, x ∈ l → rs_Position x < rs_Position r) ∨
            (rs_Position r = int64_min ∧ ∃ x, x ∈ l ∧ rs_Position x = int64_max))
  | RUpdate id (Ok req) =>
      ∃ r r', r ∈ l ∧ rs_ID r = id ∧ resolver_edit req r = Ok r' ∧
              l' ≡ₚ (λ x, if bool_decide (rs_ID x = id) then r' else x) <$> l
  | RDelete id => (∃ r, r ∈ l ∧ rs_ID r = id) ∧ l' ≡ₚ filter (λ x, rs_ID x ≠ id) l
  | _ => False
  end.

(** Positions are Go ints. *)
Definition int_positions (l : list ResolverRow) : Prop := ∀ x, x ∈ l → int64_min ≤ rs_Position x ≤ int64_max.

(** The data plane asks the stored addresses, in their stored order, and no others. *)
Definition upstreams_stored (h : handler) : Prop :=
  ∃ l mgr dp, l ≡ₚ rows (h_Resolvers h) ∧ StronglySorted (λ a b, resolver_order a b = true) l ∧
    NewUpstreamManager (rs_Address <$> l) 4 false = Ok mgr ∧
    h_DataPlaneClient h = Some dp ∧ e_upstreamManager (dp_engine dp) = Some mgr.

Definition valid_row (m : PolicyRow) : Prop := ValidatePolicy (ToEnginePolicy m) = Ok tt.
Definition valid_store (h : handler) : Prop := ∀ m, m ∈ rows (h_Policies h) → valid_row m.

Definition policy_rows (op : policy_op) (l l' : list PolicyRow) : Prop :=
  match op with
  | PCreate (Ok req) => valid_row (policy_of_request req) ∧ l' ≡ₚ policy_of_request req :: l
  | PUpdate id (Ok req) =>
      ∃ m, m ∈ l ∧ mp_ID m = id ∧ valid_row (policy_edit req m) ∧
           l' ≡ₚ policy_edit req m :: filter (λ x, mp_ID x ≠ id) l
  | PDelete id => (∃ m, m ∈ l ∧ mp_ID m = id) ∧ l' ≡ₚ filter (λ x, mp_ID x ≠ id) l
  | _ => False
  end.

(** The handler's engine holds the stored policies, unless they cannot be listed. *)
Definition engine_reloaded (h h' : handler) : Prop :=
  match PolicyRepo_List (h_Policies h') with
  | Ok l => h_PolicyEngine h' = (λ e, LoadPolicies e (ToEnginePolicy <$> l)) <$> h_PolicyEngine h
  | Err _ => h_PolicyEngine h' = h_PolicyEngine h
  end.

Definition policy_outcome (op : policy_op) (h : handler) (st : Z) (h' : handler) : Prop :=
  (st = 200 ∨ st = 201) ∧ policy_rows op (rows (h_Policies h)) (rows (h_Policies h')) ∧ engine_reloaded h h' ∨
  st ∈ [400; 404; 500] ∧ h' = h.

Context {LR : SqlTableLaws TRs} {LP : SqlTableLaws TP} {LS : SqlTableLaws TS}.

(** ** Resolvers *)

Lemma max_position_bound l x : x ∈ l → ∃ m, max_position l = Some m ∧ rs_Position x ≤ m.
Proof.
  induction l as [|y l IH]; [set_solver|]. rewrite elem_of_cons. simpl.
  intros [->|Hx]; [destruct (max_position l); eexists; (split; [done|lia])|].
  destruct (IH Hx) as (m & -> & ?). eexists. split; [done|]. lia.
Qed.

Lemma max_position_in l m : max_position l = Some m → ∃ x, x ∈ l ∧ rs_Position x = m.
Proof.
  revert m. induction l as [|y l IH]; intros m; [done|]. simpl. intros [= <-].
  destruct (max_position l) as [k|]; [|exists y; split; [by left|done]].
  destruct (Z.max_spec (rs_Position y) k) as [[_ ->]|[_ ->]]; [|exists y; split; [by left|done]].
  destruct (IH k eq_refl) as (x & Hx & Hp). exists x. split; [by right|done].
Qed.

Lemma next_position t p : int_positions (rows t) → ResolverRepo_NextPosition t = Ok p →
  (∀ x, x ∈ rows t → rs_Position x < p) ∨ (p = int64_min ∧ ∃ x, x ∈ rows t ∧ rs_Position x = int64_max).
Proof.
  intros Hint. unfold ResolverRepo_NextPosition. destruct (sql_select _ _ t) as [l|] eqn:E; [|done].
  apply everything_perm in E as [E _]. intros [= <-].
  destruct (max_position l) as [m|] eqn:Em.
  - apply max_position_in in Em as Hm. destruct Hm as (y & Hy & Hyp). rewrite E in Hy. pose proof (Hint y Hy) as Hr.
    destruct (decide (m = int64_max)) as [->|Hne].
    + right. split; [by vm_compute|]. by exists y.
    + left. intros x Hx. rewrite <- E in Hx. destruct (max_position_bound l x Hx) as (k & Hk & ?). simplify_eq.
      unfold wrap_int64. rewrite Z.mod_small; unfold int64_min, int64_max in *; lia.
  - left. intros x Hx. rewrite <- E in Hx. destruct (max_position_bound l x Hx) as (k & Hk & _). congruence.
Qed.

(** [applyResolvers] keeps the store; when it reports success to a handler with a
    client, the data plane has the stored resolvers. *)
Lemma applyResolvers_spec (h : handler) ok h' dp :
  h_DataPlaneClient h = Some dp → applyResolvers close_mgr net h = (ok, h') →
  h_Resolvers h' = h_Resolvers h ∧ (ok = true → upstreams_stored h').
Proof.
  unfold applyResolvers. intros ->. unfold ResolverRepo_Addresses.
  destruct (sql_select _ _ _) as [l|] eqn:E; [|by intros [= <- <-]].
  apply everything_perm in E as [El Eo]. unfold client_SetUpstreamResolvers, svc_SetUpstreamResolvers, SetUpstreamResolvers.
  destruct (NewUpstreamManager _ _ _) as [mgr|] eqn:Em; destruct (net _); intros [= <- <-]; (split; [done|]); try done.
  intros _. eexists l, mgr, _. done.
Qed.

Lemma resolver_edit_id req r r' : resolver_edit req r = Ok r' → rs_ID r' = rs_ID r ∧ rs_CreatedAt r' = rs_CreatedAt r.
Proof.
  unfold resolver_edit. intros H. split_cases; done.
Qed.


(** What an edit may come to: done and in force, stored but perhaps not in force, or
    refused. *)
Definition resolver_outcome (op : resolver_op) (h : handler) (st : Z) (h' : handler) : Prop :=
  (st = 200 ∨ st = 201) ∧ resolver_rows op (rows (h_Resolvers h)) (rows (h_Resolvers h')) ∧ upstreams_stored h' ∨
  st = 502 ∧ resolver_rows op (rows (h_Resolvers h)) (rows (h_Resolvers h')) ∨
  st ∈ [400; 404; 500] ∧ h' = h.

Lemma pushed op h t dp good ok st h' :
  h_DataPlaneClient h = Some dp → good = 200 ∨ good = 201 →
  resolver_rows op (rows (h_Resolvers h)) (rows t) →
  applyResolvers close_mgr net (with_resolvers t h) = (ok, h') → st = (if ok : bool then good else 502) →
  resolver_outcome op h st h'.
Proof.
  intros Hdp Hg Hr Ha ->. apply (applyResolvers_spec _ _ _ dp) in Ha as [Ht Hu]; [|done]. simpl in Ht.
  unfold resolver_outcome. rewrite Ht. destruct ok; auto.
Qed.

Ltac refused := solve [cbn; intros [= <- <-]; right; right; split; [by apply (bool_decide_unpack _)|done]].
Ltac pushes Hdp :=
  destruct (applyResolvers _ _ _) as [[] ?] eqn:Ha; intros [= <- <-];
  (eapply pushed; [exact Hdp| |..|exact Ha|reflexivity]; [by auto|]).

(** C14. A resolver edit that is answered with success has changed the stored rows as
    asked, a created resolver coming last, or first if a stored position is the largest
    int, and has left the data plane asking exactly
    the stored resolvers in their stored order; one answered 502 has changed the rows
    but may not be in force; any other answer means that neither the rows nor the data
    plane have changed. *)
Theorem resolver_edit_applied op h dp st h' :
  h_DataPlaneClient h = Some dp → int_positions (rows (h_Resolvers h)) → run_resolver op h = (st, h') → resolver_outcome op h st h'.
Proof.
  intros Hdp Hint. destruct op as [now uuid req|id req|id]; simpl.
  - unfold CreateResolver. destruct req as [req|]; [|refused].
    destruct (validateResolverAddress _) as [[]|] eqn:Hv; [|refused].
    destruct (normalizeProtocol _) as [proto|] eqn:Hproto; [|refused].
    destruct (ResolverRepo_NextPosition _) as [pos|] eqn:Hpos; [|refused].
    destruct (ResolverRepo_Create _ _ _) as [t|] eqn:Hc; [|refused].
    assert (resolver_rows (RCreate now uuid (Ok req)) (rows (h_Resolvers h)) (rows t)).
    { apply insert_law in Hc. eexists. split; [exact Hc|]. repeat split; [done..|]. by apply next_position. }
    pushes Hdp; done.
  - unfold UpdateResolver. destruct (ResolverRepo_Get _ _) as [r|] eqn:Hg; [|refused].
    destruct req as [req|]; [|refused]. destruct (resolver_edit req r) as [r'|] eqn:He; [|refused].
    destruct (ResolverRepo_Update _ _) as [t|] eqn:Hc; [|refused].
    assert (resolver_rows (RUpdate id (Ok req)) (rows (h_Resolvers h)) (rows t)).
    { exists r, r'. apply sql_first_row in Hg as Hr. destruct Hr as [Hr Hid]. split; [done|]. split; [done|].
      split; [done|]. apply resolver_edit_id in He as [Hi Hc']. apply update_key in Hc as ->; [|done].
      apply reflexive_eq, list_fmap_ext. intros i x Hx%list_elem_of_lookup_2. unfold row_key, ResolverRow_key in *.
      rewrite Hi, Hid. case_bool_decide as Hk; [|done].
      assert (x = r) as -> by (by apply (row_at_unique (h_Resolvers h) id)).
      unfold resolver_fields. rewrite <- Hi, <- Hc'. by destruct r'. }
    pushes Hdp; done.
  - unfold DeleteResolver. destruct (ResolverRepo_Delete _ _) as [t|] eqn:Hc; [|refused].
    assert (resolver_rows (RDelete id) (rows (h_Resolvers h)) (rows t)).
    { apply delete_key in Hc as [[r [? ?]] ?]. split; [by exists r|done]. }
    pushes Hdp; done.
Qed.

(** ** Seeding *)

Definition seed_row (now : Z) (newID : nat → string) (i : nat) (addr : string) : ResolverRow := {|
  rs_ID := newID i; rs_Name := addr; rs_Address := addr; rs_Protocol := "udp"; rs_Position := Z.of_nat i;
  rs_CreatedAt := now |}.
Fixpoint seed_rows (now : Z) (newID : nat → string) (i : nat) (addrs : list string) : list ResolverRow :=
  match addrs with [] => [] | a :: rest => seed_row now newID i a :: seed_rows now newID (S i) rest end.

Lemma seed_loop_rows now newID addrs i t t' :
  seed_loop now newID i addrs t = (Ok tt, t') → rows t' ≡ₚ rows t ++ seed_rows now newID i addrs.
Proof.
  revert i t. induction addrs as [|a rest IH]; intros i t; simpl; [intros [= <-]; by rewrite app_nil_r|].
  destruct (sql_insert _ t) as [u|] eqn:E; [|done]. intros ->%IH. apply insert_law in E as ->.
  unfold seed_row. by rewrite <- Permutation_middle.
Qed.

Lemma seed_rows_addresses now newID i addrs : rs_Address <$> seed_rows now newID i addrs = addrs.
Proof. revert i. induction addrs as [|a rest IH]; intros i; [done|]. csimpl. by rewrite IH. Qed.

Lemma seed_rows_later now newID i addrs r : r ∈ seed_rows now newID i addrs → Z.of_nat i ≤ rs_Position r.
Proof.
  revert i. induction addrs as [|a rest IH]; intros i; [by intros ?%not_elem_of_nil|].
  simpl. rewrite elem_of_cons. intros [->|H%IH]; simpl; lia.
Qed.

Lemma seed_rows_sorted now newID i addrs :
  StronglySorted (λ a b, resolver_order a b = true) (seed_rows now newID i addrs).
Proof.
  revert i. induction addrs as [|a rest IH]; intros i; [constructor|]. simpl. constructor; [done|].
  apply Forall_forall. intros r H%seed_rows_later. unfold resolver_order. simpl.
  destruct (Z.ltb_spec (Z.of_nat i) (rs_Position r)); [done|lia].
Qed.

Lemma seed_rows_unique now newID i addrs r r' :
  r ∈ seed_rows now newID i addrs → r' ∈ seed_rows now newID i addrs →
  rs_Position r = rs_Position r' → r = r'.
Proof.
  revert i. induction addrs as [|a rest IH]; intros i; [by intros ?%not_elem_of_nil|].
  simpl. rewrite !elem_of_cons. intros [->|H] [->|H'] E; [done| | |by eapply IH].
  - apply seed_rows_later in H'. simpl in E. lia.
  - apply seed_rows_later in H. simpl in E. lia.
Qed.

(** The first start moves the configured resolvers into the empty table in their
    order: what is read back is the configured list. A table with resolvers is left
    alone, so the configuration has no say from then on. *)
Theorem SeedDefaults_addresses now newID addrs t t' l :
  SeedDefaults now newID addrs t = (Ok tt, t') → ResolverRepo_Addresses t' = Ok l →
  (rows t = [] → l = addrs) ∧ (rows t ≠ [] → t' = t).
Proof.
  unfold SeedDefaults, ResolverRepo_Count, ResolverRepo_Addresses.
  destruct (sql_select everything any_order t) as [k|] eqn:Ek; [|done].
  apply everything_perm in Ek as [Ek%Permutation_length _]. rewrite Ek. intros Hs Ha.
  destruct (rows t) as [|r rest] eqn:Et; [|split; [done|]; intros _; simpl in Hs; congruence].
  split; [|done]. intros _. simpl in Hs. apply seed_loop_rows in Hs. rewrite Et in Hs. simpl in Hs.
  destruct (sql_select _ _ t') as [m|] eqn:Em; [|done]. apply everything_perm in Em as [Em Ho].
  injection Ha as <-. rewrite Hs in Em.
  assert (m = seed_rows now newID 0 addrs) as ->; [|apply seed_rows_addresses].
  eapply StronglySorted_unique_strong; [|exact Ho|apply seed_rows_sorted|exact Em].
  intros x y Hx Hy. rewrite Em in Hx. unfold resolver_order. rewrite !orb_true_iff, !andb_true_iff.
  rewrite !Z.ltb_lt, !Z.eqb_eq, !Z.leb_le. intros H1 H2. eapply seed_rows_unique; [done..|]. lia.
Qed.

(** ** Policies *)

Lemma reload_spec t h : engine_reloaded h (reloadPolicyEngine (with_policies t h))
  ∧ h_Policies (reloadPolicyEngine (with_policies t h)) = t.
Proof.
  unfold engine_reloaded, reloadPolicyEngine. cbn [with_policies h_PolicyEngine h_Policies].
  destruct (h_PolicyEngine h) as [e|] eqn:E; cbn [with_policies h_Policies h_PolicyEngine].
  - destruct (PolicyRepo_List t) as [l|] eqn:El; cbn [with_engine with_policies h_Policies h_PolicyEngine]; rewrite El.
    + done.
    + by rewrite E.
  - destruct (PolicyRepo_List t); by rewrite E.
Qed.

Ltac refused_policy := solve [cbn; intros [= <- <-]; right; split; [by apply (bool_decide_unpack _)|done]].
Ltac reloads t h :=
  cbn; intros [= <- <-]; left; split; [by auto|]; destruct (reload_spec t h) as [? ->]; split; [|done].

Lemma run_policy_outcome op h st h' : run_policy op h = (st, h') → policy_outcome op h st h'.
Proof.
  destruct op as [req|id req|id]; simpl.
  - unfold CreatePolicy. destruct req as [req|]; [|refused_policy].
    destruct (ValidatePolicy _) as [[]|] eqn:Hv; [|refused_policy].
    destruct (PolicyRepo_Create _ _) as [t|] eqn:Hc; [|refused_policy].
    reloads t h. apply insert_law in Hc. split; [done|exact Hc].
  - unfold UpdatePolicy. destruct (PolicyRepo_GetByID _ _) as [m|] eqn:Hg; [|refused_policy].
    destruct req as [req|]; [|refused_policy].
    destruct (ValidatePolicy _) as [[]|] eqn:Hv; [|refused_policy].
    destruct (PolicyRepo_Update _ _) as [t|] eqn:Hc; [|refused_policy].
    reloads t h. apply sql_first_row in Hg as [Hm Hid]. exists m. split; [done|]. split; [done|]. split; [done|].
    apply save_law in Hc. rewrite <- Hid. exact Hc.
  - unfold DeletePolicy. destruct (PolicyRepo_Delete _ _) as [t|[]] eqn:Hc; [|refused_policy..].
    reloads t h. apply delete_key in Hc as [[m [? ?]] ?]. split; [by exists m|done].
Qed.

(** A policy edit that is answered with success has stored the policy as asked, and
    the handler's engine now holds the stored policies; what it stored passes the
    engine's own validation. Any other answer means that nothing has changed. *)
Theorem policy_edit_applied op h st h' : run_policy op h = (st, h') → policy_outcome op h st h'.
Proof. apply run_policy_outcome. Qed.

Lemma policy_rows_valid op l l' :
  (∀ m, m ∈ l → valid_row m) → policy_rows op l l' → ∀ m, m ∈ l' → valid_row m.
Proof.
  destruct op as [[req|]|id [req|]|id]; simpl; try done.
  - intros Hl [Hv E] m. rewrite E, elem_of_cons. by intros [->|?]; auto.
  - intros Hl (r & _ & _ & Hv & E) m. rewrite E, elem_of_cons, list_elem_of_filter. by intros [->|[_ ?]]; auto.
  - intros Hl [_ E] m. rewrite E, list_elem_of_filter. by intros [_ ?]; auto.
Qed.

(** C15. The policies the API lets into the store are ones the engine accepts: from a
    store of valid policies, any sequence of policy requests leads to a store of valid
    policies. *)
Theorem policies_stay_valid ops h : valid_store h → valid_store (run_policies ops h).
Proof.
  revert h. induction ops as [|op ops IH]; intros h Hh; [done|]. apply IH.
  destruct (run_policy op h) as [st h'] eqn:E.
  apply run_policy_outcome in E as [(_ & Hr & _)|(_ & ->)]; [|done]. exact (policy_rows_valid _ _ _ Hh Hr).
Qed.

(** ** The engine switch *)

Lemma insert_absent {R} `{T : SqlTable R} `{!SqlTableLaws T} (r : R) t t' s :
  sql_insert r t = Ok t' → ¬ row_at t (row_key r) s.
Proof.
  intros Hi%insert_law [Hs Hk]. pose proof (rows_nodup t') as Hn. rewrite Hi in Hn. csimpl in Hn.
  apply NoDup_cons in Hn as [Hn _]. apply Hn. rewrite <- Hk. by apply list_elem_of_fmap_2.
Qed.

Lemma get_state t s s' t' : SystemStateRepo_Get t = (Ok s', t') → row_at t "1" s → s' = s ∧ t' = t.
Proof.
  unfold SystemStateRepo_Get. intros E Hs. destruct (sql_first "1" t) as [x|[]] eqn:Ef; simplify_eq.
  - split; [|done]. symmetry. by eapply sql_first_unique.
  - destruct (sql_insert _ t) eqn:Ei; [|done]. by destruct (insert_absent _ _ _ s Ei).
Qed.

Lemma set_dns_row b t t' s : SetDNSEnabled b t = Ok t' → row_at t "1" s →
  ∃ s', row_at t' "1" s' ∧ ss_DNSEnabled s' = b ∧ ss_PolicyEnabled s' = ss_PolicyEnabled s.
Proof.
  unfold SetDNSEnabled. destruct (sql_update _ _ _) as [[n u]|] eqn:E; [|done]. intros [= <-] [Hs Hk].
  apply update_law in E as [E _]; [|done].
  exists {| ss_ID := ss_ID s; ss_DNSEnabled := b; ss_PolicyEnabled := ss_PolicyEnabled s |}.
  split; [|done]. split; [|done]. rewrite E. apply list_elem_of_fmap. exists s. split; [|done].
  unfold key_is. by rewrite bool_decide_eq_true_2.
Qed.

(** Switching the engine: after a switch answered 200, a status request that is
    answered reports the engine accepting exactly as asked and, the state's row having
    been created at start-up, the same desired state. *)
Theorem toggle_then_status b dp (h : handler) r h1 dp1 s r2 (h2 : handler) st :
  row_at (h_SystemState h) "1" s →
  ToggleDnsEngine net (Ok b) dp h = (r, h1) → r_status r = 200 → h_DataPlaneClient h1 = Some dp1 →
  GetDnsEngineStatus net dp1 h1 = (r2, h2) → r_data r2 = Some st →
  ds_Enabled st = b ∧ ds_AcceptingQueries st = b.
Proof.
  intros Hs. unfold ToggleDnsEngine. destruct (SetDNSEnabled _ _) as [t|] eqn:Et; [|by intros [= <- <-]].
  destruct (set_dns_row _ _ _ _ Et Hs) as (s' & Hs' & Hb & _).
  unfold client_SetAcceptQueries. destruct (net _); intros [= <- <-]; try done. intros _ [= <-].
  unfold GetDnsEngineStatus. cbn [called with_state h_SystemState].
  destruct (SystemStateRepo_Get t) as [[x|] t'] eqn:Eg; [|by intros [= <- <-]].
  destruct (get_state _ _ _ _ Eg Hs') as [-> ->]. unfold client_GetStatus.
  destruct (net _); intros [= <- <-]; try done. intros [= <-]. done.
Qed.
End Spec.
