(* ===== verification/BlocklistApi.v ===== *)
(** * Blocklists, categories and collections through the API

    [cmd/controlplane/handlers]: blocklists.go, categories.go and collections.go, over
    the repository of Blocklist.v and the toggles of Storage.v; the look-ups of
    internal/blocklist/catalog.go. A refresh started by a request goes on in the
    background when it takes longer than the request waits: the handlers return the
    refreshes still to finish. *)
From S2P Require Import Prelude GoStrings Blocklist Policy Storage ControlPlane.

Definition StatusConflict : Z := 409.

(** ** catalog.go *)

Record CategoryDef := { cd_Name : string; cd_Description : string; cd_Type : string; cd_Feeds : list Feed }.
Record CollectionDef := { ld_Name : string; ld_App : string; ld_Description : string; ld_Domains : list string }.

Section BlocklistApi.
Context `{U : GoUnicode} `{D : BlocklistDb} `{F : Fetcher} (hash : string → string).
Context {TC : SqlTable CategoryRow} {TL : SqlTable CollectionRow}.

Definition Catalog_Category (defs : list CategoryDef) (name : string) : option CategoryDef :=
  first_match (λ def, if EqualFold (cd_Name def) name then Some def else None) defs.
Definition Catalog_Collection (defs : list CollectionDef) (name : string) : option CollectionDef :=
  first_match (λ def, if EqualFold (ld_Name def) name then Some def else None) defs.
Definition CategorySourceID (name : string) : string := ("category:" +:+ ToLower name)%string.
Definition CollectionSourceID (name : string) : string := ("collection:" +:+ ToLower name)%string.

(** ** blocklists.go *)

Record ApiBlocklist := {
  bl_ID : string; bl_Name : string; bl_URL : string; bl_Format : string; bl_Category : string;
  bl_DomainsCount : Z; bl_Enabled : bool;
}.
Record CreateBlocklistRequest := { cb_ID : string; cb_Name : string; cb_URL : string; cb_Format : string; cb_Category : string }.
Record UpdateBlocklistRequest := {
  ub_Name : option string; ub_URL : option string; ub_Format : option string; ub_Category : option string;
  ub_Enabled : option bool;
}.

Definition blocklistFromSource (src : BlocklistSource) (count : Z) : ApiBlocklist := {|
  bl_ID := bs_ID src; bl_Name := bs_Name src; bl_URL := bs_URL src; bl_Format := bs_Format src;
  bl_Category := bs_Category src; bl_DomainsCount := count; bl_Enabled := bs_Enabled src |}.

Definition isHTTPURL (u : string) : bool := HasPrefix u "http://" || HasPrefix u "https://".

(** The work of [refreshSource]'s goroutine. *)
Definition refreshSource (now : Z) (src : BlocklistSource) (d : db) : db :=
  (UpdateSource hash now src (bs_ETag src) d).2.
Definition CountEntriesBySource (id : string) (d : db) : Z :=
  match sql_count_source_entries id d with Ok n => n | Err _ => 0 end.
(** [waitForCount] of a refresh that is finished in time ([quick]) or goes on: the count,
    the database and the refreshes still running. *)
Definition waitForCount (quick : bool) (now : Z) (src : BlocklistSource) (d : db) : Z * db * list BlocklistSource :=
  let d := if quick then refreshSource now src d else d in
  (CountEntriesBySource (bs_ID src) d, d, if quick then [] else [src]).

Definition reload_source (src : BlocklistSource) (d : db) : BlocklistSource :=
  match sql_get_source (bs_ID src) d with Ok s => s | Err _ => src end.

Record BlocklistListData := { bd_TotalBlocklists : Z; bd_TotalDomains : Z; bd_ActiveLists : list ApiBlocklist }.
Definition ListBlocklists (d : db) : response BlocklistListData :=
  match sql_list_sources d with
  | Err _ => err_response StatusInternalServerError (ApiMsg "failed to fetch blocklist sources")
  | Ok sources =>
      let counts := match sql_group_counts d with Ok m => m | Err _ => ∅ end in
      let count src := default 0 (counts !! bs_ID src) in
      ok_response StatusOK {|
        bd_TotalBlocklists := Z.of_nat (length sources);
        bd_TotalDomains := foldl (λ acc src, acc + count src) 0 sources;
        bd_ActiveLists := (λ src, blocklistFromSource src (count src)) <$> sources |}
  end.

Definition GetBlocklist (id : string) (d : db) : response ApiBlocklist :=
  match sql_get_source id d with
  | Err _ => err_response StatusNotFound (ApiMsg "blocklist not found")
  | Ok src => ok_response StatusOK (blocklistFromSource src (CountEntriesBySource (bs_ID src) d))
  end.

Definition CreateBlocklist (quick : bool) (now : Z) (req : result string CreateBlocklistRequest) (d : db)
  : response ApiBlocklist * db * list BlocklistSource :=
  match req with
  | Err msg => (err_response StatusBadRequest (ApiMsg msg), d, [])
  | Ok req =>
      if negb (isHTTPURL (cb_URL req)) then
        (err_response StatusBadRequest (ApiMsg "url must use http:// or https://"), d, [])
      else
        match sql_get_source (cb_ID req) d with
        | Ok _ => (err_response StatusConflict (ApiMsg "blocklist with this id already exists"), d, [])
        | Err _ =>
            let src := {| bs_ID := cb_ID req; bs_Name := cb_Name req; bs_URL := cb_URL req; bs_Format := cb_Format req;
                          bs_Category := cb_Category req; bs_Enabled := true; bs_Priority := 0; bs_ETag := "" |} in
            match sql_create_source src d with
            | Err _ => (err_response StatusInternalServerError (ApiMsg "failed to create blocklist source"), d, [])
            | Ok d =>
                let '(count, d, jobs) := waitForCount quick now src d in
                (ok_response StatusCreated (blocklistFromSource (reload_source src d) count), d, jobs)
            end
        end
  end.

(** The fields of a request applied to a source, and whether its URL or format changed. *)
Definition blocklist_edit (req : UpdateBlocklistRequest) (src : BlocklistSource)
  : result api_error (BlocklistSource * bool) :=
  let? url := (match ub_URL req with
               | None => Ok (bs_URL src, false)
               | Some u => if isHTTPURL u then Ok (u, negb (bool_decide (u = bs_URL src)))
                           else Err (ApiMsg "url must use http:// or https://")
               end) in
  let format := default (bs_Format src) (ub_Format req) in
  Ok ({| bs_ID := bs_ID src; bs_Name := default (bs_Name src) (ub_Name req); bs_URL := url.1; bs_Format := format;
         bs_Category := default (bs_Category src) (ub_Category req);
         bs_Enabled := default (bs_Enabled src) (ub_Enabled req); bs_Priority := bs_Priority src;
         bs_ETag := bs_ETag src |},
      url.2 || negb (bool_decide (format = bs_Format src))).

(** The entries and snapshots of a source dropped; an error is only logged. *)
Definition clear_entries (id : string) (d : db) : db := (DeleteEntriesBySource id d).2.

Definition UpdateBlocklist (quick : bool) (now : Z) (id : string) (req : result string UpdateBlocklistRequest) (d : db)
  : response ApiBlocklist * db * list BlocklistSource :=
  match sql_get_source id d with
  | Err _ => (err_response StatusNotFound (ApiMsg "blocklist not found"), d, [])
  | Ok old =>
      match req with
      | Err msg => (err_response StatusBadRequest (ApiMsg msg), d, [])
      | Ok req =>
          match blocklist_edit req old with
          | Err e => (err_response StatusBadRequest e, d, [])
          | Ok (src, sourceChanged) =>
              let needsRefresh := bs_Enabled src && (negb (bs_Enabled old) || sourceChanged) in
              let src := if needsRefresh then with_etag src "" else src in
              match sql_save_source src d with
              | Err _ => (err_response StatusInternalServerError (ApiMsg "failed to update blocklist source"), d, [])
              | Ok d =>
                  let '(count, d, jobs) :=
                    (if negb (bs_Enabled src) then (0, if bs_Enabled old then clear_entries id d else d, [])
                     else if needsRefresh then waitForCount quick now src (clear_entries id d)
                     else (CountEntriesBySource id d, d, [])) in
                  (ok_response StatusOK (blocklistFromSource (reload_source src d) count), d, jobs)
              end
          end
      end
  end.

Definition DeleteBlocklist (id : string) (d : db) : response unit * db :=
  match DeleteSource id d with
  | (Err _, d) => (err_response StatusNotFound (ApiMsg "blocklist not found"), d)
  | (Ok _, d) => (ok_response StatusOK tt, d)
  end.

(** ** categories.go *)

Record ApiCategory := {
  ac_Name : string; ac_Description : string; ac_Type : string; ac_Enabled : bool; ac_FeedsCount : Z; ac_DomainsCount : Z;
}.
Record CategoryListData := { cg_Total : Z; cg_Enabled : Z; cg_List : list ApiCategory }.

Definition categoryEnabled (name : string) (t : table CategoryRow) : bool :=
  match Toggle_GetByName name t with Ok cat => ct_Enabled cat | Err _ => false end.

Definition api_category (def : CategoryDef) (enabled : bool) (count : Z) : ApiCategory := {|
  ac_Name := cd_Name def; ac_Description := cd_Description def; ac_Type := cd_Type def; ac_Enabled := enabled;
  ac_FeedsCount := Z.of_nat (length (cd_Feeds def)); ac_DomainsCount := count |}.

Definition ListCategories (defs : list CategoryDef) (t : table CategoryRow) (d : db) : response CategoryListData :=
  let counts := match sql_group_counts d with Ok m => m | Err _ => ∅ end in
  let l := (λ def, api_category def (categoryEnabled (cd_Name def) t)
                     (default 0 (counts !! CategorySourceID (cd_Name def)))) <$> defs in
  ok_response StatusOK {| cg_Total := Z.of_nat (length l);
                          cg_Enabled := Z.of_nat (length (filter (λ c, ac_Enabled c = true) l)); cg_List := l |}.

Definition GetCategory (defs : list CategoryDef) (name : string) (t : table CategoryRow) (d : db) : response ApiCategory :=
  match Catalog_Category defs name with
  | None => err_response StatusNotFound (ApiMsg "unknown category")
  | Some def =>
      ok_response StatusOK (api_category def (categoryEnabled (cd_Name def) t)
                              (CountEntriesBySource (CategorySourceID (cd_Name def)) d))
  end.

Definition ToggleCategory (now : Z) (defs : list CategoryDef) (name : string) (req : result string bool)
  (t : table CategoryRow) (d : db) : response ApiCategory * table CategoryRow * db :=
  match Catalog_Category defs name with
  | None => (err_response StatusNotFound (ApiMsg "unknown category"), t, d)
  | Some def =>
      match req with
      | Err msg => (err_response StatusBadRequest (ApiMsg msg), t, d)
      | Ok enabled =>
          let row := {| ct_Name := cd_Name def; ct_Description := cd_Description def; ct_Type := cd_Type def;
                        ct_Enabled := false |} in
          match EnsureExists row t with
          | Err _ => (err_response StatusInternalServerError (ApiMsg "failed to persist category"), t, d)
          | Ok t =>
              let sourceID := CategorySourceID (cd_Name def) in
              let d := clear_entries sourceID d in
              let '(n, d) := (if enabled : bool
                              then AggregateFeeds hash now sourceID ("Category: " +:+ cd_Name def) (cd_Name def) (cd_Feeds def) d
                              else (Ok 0, d)) in
              match n with
              | Err e => (err_response StatusBadGateway (ApiMsg ("failed to aggregate category feeds: " +:+ e)), t, d)
              | Ok count =>
                  match SetEnabled category_enabled (cd_Name def) enabled t with
                  | Err _ => (err_response StatusInternalServerError (ApiMsg "failed to update category state"), t, d)
                  | Ok t => (ok_response StatusOK (api_category def enabled count), t, d)
                  end
              end
          end
      end
  end.

(** ** collections.go *)

Record ApiCollection := { ao_Name : string; ao_App : string; ao_Description : string; ao_Enabled : bool; ao_DomainsCount : Z }.
Record CollectionListData := { cn_Total : Z; cn_Enabled : Z; cn_List : list ApiCollection }.

Definition collectionEnabled (name : string) (t : table CollectionRow) : bool :=
  match Toggle_GetByName name t with Ok col => cl_Enabled col | Err _ => false end.

Definition api_collection (def : CollectionDef) (enabled : bool) (count : Z) : ApiCollection := {|
  ao_Name := ld_Name def; ao_App := ld_App def; ao_Description := ld_Description def; ao_Enabled := enabled;
  ao_DomainsCount := count |}.

Definition ListCollections (defs : list CollectionDef) (t : table CollectionRow) (d : db) : response CollectionListData :=
  let counts := match sql_group_counts d with Ok m => m | Err _ => ∅ end in
  let l := (λ def, api_collection def (collectionEnabled (ld_Name def) t)
                     (default 0 (counts !! CollectionSourceID (ld_Name def)))) <$> defs in
  ok_response StatusOK {| cn_Total := Z.of_nat (length l);
                          cn_Enabled := Z.of_nat (length (filter (λ c, ao_Enabled c = true) l)); cn_List := l |}.

Definition ToggleCollection (now : Z) (defs : list CollectionDef) (name : string) (req : result string bool)
  (t : table CollectionRow) (d : db) : response ApiCollection * table CollectionRow * db :=
  match Catalog_Collection defs name with
  | None => (err_response StatusNotFound (ApiMsg "unknown collection"), t, d)
  | Some def =>
      match req with
      | Err msg => (err_response StatusBadRequest (ApiMsg msg), t, d)
      | Ok enabled =>
          let row := {| cl_Name := ld_Name def; cl_App := ld_App def; cl_Description := ld_Description def;
                        cl_Enabled := false |} in
          match EnsureExists row t with
          | Err _ => (err_response StatusInternalServerError (ApiMsg "failed to persist collection"), t, d)
          | Ok t =>
              let sourceID := CollectionSourceID (ld_Name def) in
              let d := clear_entries sourceID d in
              let '(n, d) := (if enabled : bool
                              then StoreDomains hash now sourceID ("Collection: " +:+ ld_App def) (ld_Name def) (ld_Domains def) d
                              else (Ok 0, d)) in
              match n with
              | Err _ => (err_response StatusInternalServerError (ApiMsg "failed to store collection bundle"), t, d)
              | Ok count =>
                  match SetEnabled collection_enabled (ld_Name def) enabled t with
                  | Err _ => (err_response StatusInternalServerError (ApiMsg "failed to update collection state"), t, d)
                  | Ok t => (ok_response StatusOK (api_collection def enabled count), t, d)
                  end
              end
          end
      end
  end.
End BlocklistApi.

(** ** What the requests do to the stored entries *)

Section Entries.
Context `{U : GoUnicode} `{D : BlocklistDb} `{L : !BlocklistDbLaws D} `{F : Fetcher} (hash : string → string).
Context {TC : SqlTable CategoryRow} {TL : SqlTable CollectionRow} {LC : SqlTableLaws TC} {LL : SqlTableLaws TL}.

Definition others (id : string) (l : list BlocklistEntry) : list BlocklistEntry := filter (λ e, en_SourceID e ≠ id) l.

Lemma entries_of_others id l : entries_of id (others id l) = [].
Proof. unfold entries_of, others. rewrite list_filter_filter. apply filter_nothing. naive_solver. Qed.

Lemma others_idem id l : others id (others id l) = others id l.
Proof. unfold others. rewrite list_filter_filter. apply list_filter_iff. naive_solver. Qed.

Lemma entries_of_added id sn cat ds l :
  entries_of id (l ++ (with_snapshot sn <$> (entry_of id cat <$> ds)))
  = entries_of id l ++ (with_snapshot sn <$> (entry_of id cat <$> ds)).
Proof.
  unfold entries_of. rewrite filter_app. f_equal. induction ds as [|x ds IH]; [done|]. csimpl.
  rewrite filter_cons_True by done. by rewrite IH.
Qed.

Lemma others_added id sn cat ds l : others id (l ++ (with_snapshot sn <$> (entry_of id cat <$> ds))) = others id l.
Proof.
  unfold others. rewrite filter_app. rewrite <- (app_nil_r (filter _ l)) at 2. f_equal.
  apply filter_nothing. intros e. rewrite <- list_fmap_compose.
  intros (x & -> & _)%list_elem_of_fmap Hne. by apply Hne.
Qed.

Lemma added_domains sn id cat (ds : list string) : en_Domain <$> (with_snapshot sn <$> (entry_of id cat <$> ds)) = ds.
Proof. rewrite <- !list_fmap_compose. induction ds; csimpl; congruence. Qed.

Lemma clear_entries_ok id d :
  (DeleteEntriesBySource id d).1 = Ok tt → db_entries (clear_entries id d) = others id (db_entries d).
Proof.
  unfold clear_entries, DeleteEntriesBySource. destruct (sql_delete_entries id d) as [d1|] eqn:E1; [|done].
  destruct (sql_delete_snapshots id d1) as [d2|] eqn:E2; [|done].
  destruct (sql_commit d2) as [d3|] eqn:E3; [|done]. intros _. simpl.
  apply delete_entries_law in E1 as (E1 & _). apply delete_snapshots_law in E2 as (E2 & _).
  apply commit_law in E3 as (E3 & _). by rewrite E3, E2, E1.
Qed.

Lemma set_enabled_row {R} {K : Keyed R} {T : SqlTable R} {LT : SqlTableLaws T} (f : bool → R → R) name b t t' row :
  (∀ r, row_key (f b r) = row_key r) → SetEnabled f name b t = Ok t' → row_at t' name row → ∃ r, row = f b r.
Proof.
  intros Hf Hs%update_key [Hr Hk]; [|done]. rewrite Hs in Hr. apply list_elem_of_fmap in Hr as (r & -> & _).
  case_bool_decide as Hn; [eauto|]. by destruct Hn.
Qed.

(** C23. A category switched on blocks exactly the names of its feeds that could be read,
    and switched off none: after a request answered 200 the entries of the category's
    source are those names, every other source has the entries it had, and the stored
    state is the one asked for. *)
Theorem ToggleCategory_entries now defs name def enabled t d r t' d' :
  Catalog_Category defs name = Some def → let sid := CategorySourceID (cd_Name def) in
  (DeleteEntriesBySource sid d).1 = Ok tt →
  ToggleCategory hash now defs name (Ok enabled) t d = (r, t', d') → r_status r = 200 →
  (∀ x, x ∈ en_Domain <$> entries_of sid (db_entries d') ↔
        enabled = true ∧ x ∈ names_of (cd_Feeds def ≫= feed_entries)) ∧
  others sid (db_entries d') = others sid (db_entries d) ∧
  (∀ row, row_at t' (cd_Name def) row → ct_Enabled row = enabled).
Proof.
  intros Hdef sid Hclear. unfold ToggleCategory. rewrite Hdef.
  destruct (EnsureExists _ t) as [t1|]; [|by intros [= <- <- <-]].
  pose proof (clear_entries_ok sid d Hclear) as Hc. change (CategorySourceID (cd_Name def)) with sid.
  assert (∀ d1 t2, SetEnabled category_enabled (cd_Name def) enabled t1 = Ok t2 →
    (∀ x, x ∈ en_Domain <$> entries_of sid (db_entries d1) ↔
        enabled = true ∧ x ∈ names_of (cd_Feeds def ≫= feed_entries)) →
    others sid (db_entries d1) = others sid (db_entries d) →
    (∀ x, x ∈ en_Domain <$> entries_of sid (db_entries d1) ↔
        enabled = true ∧ x ∈ names_of (cd_Feeds def ≫= feed_entries)) ∧
    others sid (db_entries d1) = others sid (db_entries d) ∧
    (∀ row, row_at t2 (cd_Name def) row → ct_Enabled row = enabled)) as Hset.
  { intros d1 t2 Hs H1 H2. split; [done|]. split; [done|]. intros row Hrow.
    by destruct (set_enabled_row category_enabled (cd_Name def) enabled t1 t2 row) as [r0 ->]. }
  destruct enabled.
  - destruct (AggregateFeeds _ _ _ _ _ _ _) as [[n|e] d1] eqn:Ea; apply AggregateFeeds_entries in Ea; [|by intros [= <- <- <-]].
    destruct (SetEnabled _ _ _ _) as [t2|] eqn:Es; [|by intros [= <- <- <-]]. intros [= <- <- <-] _.
    destruct Ea as [_ (id & out & _ & Ho & _ & E)]. rewrite Hc in E. apply Hset; [done|..].
    + intros x. rewrite E, entries_of_added, entries_of_others, app_nil_l, added_domains, <- Ho, elem_of_list_to_set. naive_solver.
    + by rewrite E, others_added, others_idem.
  - destruct (SetEnabled _ _ _ _) as [t2|] eqn:Es; [|by intros [= <- <- <-]]. intros [= <- <- <-] _.
    apply Hset; [done|..]; rewrite Hc; [|apply others_idem].
    intros x. rewrite entries_of_others. split; [by intros ?%not_elem_of_nil|by intros []].
Qed.

(** A failed switch-on has already dropped what was blocked, and leaves the row. *)
Lemma ToggleCategory_failed now defs name def t d r t' d' :
  Catalog_Category defs name = Some def → let sid := CategorySourceID (cd_Name def) in
  (DeleteEntriesBySource sid d).1 = Ok tt →
  ToggleCategory hash now defs name (Ok true) t d = (r, t', d') → r_status r = 502 →
  entries_of sid (db_entries d') = [] ∧ ∀ row, row_at t (cd_Name def) row → row_at t' (cd_Name def) row.
Proof.
  intros Hdef sid Hclear. unfold ToggleCategory. rewrite Hdef.
  destruct (EnsureExists _ t) as [t1|] eqn:Ee; [|by intros [= <- <- <-]].
  pose proof (clear_entries_ok sid d Hclear) as Hc. change (CategorySourceID (cd_Name def)) with sid.
  destruct (AggregateFeeds _ _ _ _ _ _ _) as [[n|e] d1] eqn:Ea; apply AggregateFeeds_entries in Ea.
  - destruct (SetEnabled _ _ _ _); by intros [= <- <- <-].
  - intros [= <- <- <-] _. subst d1. rewrite Hc. split; [apply entries_of_others|]. intros row [Hr Hk].
    unfold EnsureExists in Ee. destruct (sql_first _ t) as [x|[]]; [by injection Ee as <-| |done].
    apply insert_law in Ee. split; [|done]. rewrite Ee. set_solver.
Qed.

(** What a refresh that starts from no entries leaves: nothing, or the names of a
    fetched body. *)
Lemma refresh_entries now src d :
  entries_of (bs_ID src) (db_entries d) = [] → bs_Enabled src = true →
  let d' := refreshSource hash now src d in
  others (bs_ID src) (db_entries d') = others (bs_ID src) (db_entries d) ∧
  (db_entries d' = db_entries d ∨
   ∃ body etag parse ds, Fetch (bs_URL src) (bs_ETag src) = Ok (Body body etag) ∧
     parser_Get (bs_Format src) = Some parse ∧ parse body = Ok ds ∧
     en_Domain <$> entries_of (bs_ID src) (db_entries d') = ds).
Proof.
  intros He Hen d'. subst d'. unfold refreshSource.
  destruct (UpdateSource _ _ _ _ _) as [r d1] eqn:E. apply UpdateSource_entries in E. cbn [snd].
  assert (d1 = d → others (bs_ID src) (db_entries d1) = others (bs_ID src) (db_entries d) ∧
          (db_entries d1 = db_entries d ∨ ∃ body etag parse ds, Fetch (bs_URL src) (bs_ETag src) = Ok (Body body etag) ∧
            parser_Get (bs_Format src) = Some parse ∧ parse body = Ok ds ∧
            en_Domain <$> entries_of (bs_ID src) (db_entries d1) = ds)) as Hsame by (intros ->; auto).
  destruct r as [u|]; [|by apply Hsame]. destruct (Fetch _ _) as [[etag|body etag]|]; [by apply Hsame| |by apply Hsame].
  rewrite Hen in E. destruct E as (parse & ds & id & Hp & Hd & E). rewrite E. split; [by rewrite others_added|].
  right. exists body, etag, parse, ds. split; [done|]. split; [done|]. split; [done|].
  by rewrite entries_of_added, He, app_nil_l, added_domains.
Qed.

(** The entries of a source that a refresh from none leaves. *)
Lemma refreshSource_names now src d : saves_succeed → bs_Enabled src = true → bs_ETag src = ""%string →
  entries_of (bs_ID src) (db_entries d) = [] →
  let d' := refreshSource hash now src d in
  en_Domain <$> entries_of (bs_ID src) (db_entries d') = default [] (fetched_names src) ∧
  others (bs_ID src) (db_entries d') = others (bs_ID src) (db_entries d).
Proof.
  intros Hs En Het He d'. subst d'. unfold refreshSource. rewrite Het. pose proof (UpdateSource_adds hash now src d Hs En) as H.
  destruct (fetched_names src) as [ds|]; [destruct H as [id H]|]; rewrite H; [|by rewrite He].
  by rewrite entries_of_added, others_added, He, app_nil_l, added_domains.
Qed.

(** C22. Editing a list, when the database's statements succeed: a request answered 200
    leaves every other list's entries alone. If the list is then off, it has no entries
    when the request switched it off and those it had when it was off before; if the
    request switched it on, or changed the URL or the format of one that is on, its
    entries are exactly the names of the body now fetched, none if that failed: at once
    when the fetch is finished in time, and otherwise when the refresh that goes on
    has finished, until when it has none; in every other case they are untouched. *)
Theorem UpdateBlocklist_entries quick now id req d old src changed r d' jobs :
  saves_succeed → (∀ d1, (DeleteEntriesBySource id d1).1 = Ok tt) →
  sql_get_source id d = Ok old → blocklist_edit req old = Ok (src, changed) →
  UpdateBlocklist hash quick now id (Ok req) d = (r, d', jobs) → r_status r = 200 →
  others id (db_entries d') = others id (db_entries d) ∧
  if negb (bs_Enabled src) then
    jobs = [] ∧ entries_of id (db_entries d') = if bs_Enabled old then [] else entries_of id (db_entries d)
  else if negb (bs_Enabled old) || changed then
    (if quick then jobs = [] ∧ en_Domain <$> entries_of id (db_entries d') = default [] (fetched_names src)
     else entries_of id (db_entries d') = [] ∧
          ∃ job, jobs = [job] ∧ ∀ later,
            en_Domain <$> entries_of id (db_entries (refreshSource hash later job d')) = default [] (fetched_names src) ∧
            others id (db_entries (refreshSource hash later job d')) = others id (db_entries d))
  else jobs = [] ∧ db_entries d' = db_entries d.
Proof.
  intros Hsave Hclear Hget Hedit. pose proof (get_source_law _ _ _ Hget) as [_ Hid].
  assert (bs_ID src = id) as Hsid.
  { rewrite <- Hid. unfold blocklist_edit in Hedit. destruct (ub_URL req) as [u|]; [destruct (isHTTPURL u)|]; by simplify_eq/=. }
  unfold UpdateBlocklist. rewrite Hget, Hedit. set (fresh := bs_Enabled src && _).
  destruct (sql_save_source _ d) as [d1|] eqn:Es; [|by intros [= <- <- <-]].
  apply save_source_law in Es as (Ee & _). rewrite <- Ee. assert (Hc := clear_entries_ok id d1 (Hclear d1)).
  destruct (bs_Enabled src) eqn:Hen.
  - destruct (negb (bs_Enabled old) || changed) eqn:Hr; subst fresh; cbn [andb negb].
    + cbn [with_etag bs_Enabled negb]. rewrite Hen. cbn [negb].
      assert (entries_of id (db_entries (clear_entries id d1)) = []) as Hnone by (rewrite Hc; apply entries_of_others).
      assert (∀ later, let d2 := refreshSource hash later (with_etag src "") (clear_entries id d1) in
        en_Domain <$> entries_of id (db_entries d2) = default [] (fetched_names src) ∧
        others id (db_entries d2) = others id (db_entries d1)) as Hlater.
      { intros later d2. subst d2. destruct (refreshSource_names later (with_etag src "") (clear_entries id d1) Hsave) as [H1 H2];
          cbn [with_etag bs_Enabled bs_ETag bs_ID] in *; [done|done|by rewrite Hsid|]. rewrite Hsid in *.
        rewrite H1, H2, Hc. split; [done|apply others_idem]. }
      unfold waitForCount. destruct quick; intros [= <- <- <-] _.
      * destruct (Hlater now) as [H1 H2]. by split.
      * split; [by rewrite Hc, others_idem|]. split; [done|]. by eexists.
    + rewrite Hen. intros [= <- <- <-] _. done.
  - subst fresh. cbn [andb negb]. rewrite Hen. cbn [negb]. intros [= <- <- <-] _.
    destruct (bs_Enabled old); [|done]. rewrite Hc, others_idem, entries_of_others. done.
Qed.
End Entries.

(** ** Concrete runs *)

Module Runs.
#[local] Instance run_u : GoUnicode := ascii_unicode.
#[local] Instance run_db : BlocklistDb := list_db.
#[local] Instance run_laws : BlocklistDbLaws run_db := list_db_laws.
#[local] Instance run_fetcher : Fetcher := {| Fetch := λ url etag,
  if bool_decide (url = "http://lists/ads"%string) then
    (if bool_decide (etag = "v2"%string) then Ok (NotModified "v2") else Ok (Body ex_feed_body "v2"))
  else Err "unreachable"%string |}.
#[local] Instance run_categories : SqlTable CategoryRow := list_table.
#[local] Instance run_categories_laws : SqlTableLaws run_categories := list_table_laws.

Definition create_ads : CreateBlocklistRequest :=
  {| cb_ID := "ads"; cb_Name := "Ads"; cb_URL := "http://lists/ads"; cb_Format := "domains"; cb_Category := "ads" |}.
Definition disable : UpdateBlocklistRequest :=
  {| ub_Name := None; ub_URL := None; ub_Format := None; ub_Category := None; ub_Enabled := Some false |}.
Definition no_tables : tables := {| t_entries := []; t_snapshots := []; t_sources := [] |}.

(** A list created with a slow first fetch and switched off before it is finished: the
    late fetch stores its names and switches the list on again. *)
Definition slow_create := CreateBlocklist id false 1 (Ok create_ads) no_tables.
Definition then_disable := UpdateBlocklist id true 2 "ads" (Ok disable) slow_create.1.2.
Definition late_finish : tables := foldl (λ d src, refreshSource id 3 src d) then_disable.1.2 slow_create.2.

Lemma late_refresh_undoes_disable :
  r_status then_disable.1.1 = 200 ∧ map bs_Enabled (t_sources then_disable.1.2) = [false] ∧
  t_entries then_disable.1.2 = [] ∧ map bs_Enabled (t_sources late_finish) = [true] ∧
  IsBlocked "evil.com" late_finish = Ok true.
Proof. vm_compute. auto. Qed.

(** The same list created with a quick fetch, and switched off. *)
Definition quick_create := CreateBlocklist id true 1 (Ok create_ads) no_tables.
Definition ads_source : BlocklistSource := {|
  bs_ID := "ads"; bs_Name := "Ads"; bs_URL := "http://lists/ads"; bs_Format := "domains"; bs_Category := "ads";
  bs_Enabled := true; bs_Priority := 0; bs_ETag := "v2" |}.
Definition ads_off : BlocklistSource := {|
  bs_ID := "ads"; bs_Name := "Ads"; bs_URL := "http://lists/ads"; bs_Format := "domains"; bs_Category := "ads";
  bs_Enabled := false; bs_Priority := 0; bs_ETag := "v2" |}.
Definition quick_disable := UpdateBlocklist id true 2 "ads" (Ok disable) quick_create.1.2.

Definition enable : UpdateBlocklistRequest :=
  {| ub_Name := None; ub_URL := None; ub_Format := None; ub_Category := None; ub_Enabled := Some true |}.
Definition quick_enable := UpdateBlocklist id true 3 "ads" (Ok enable) quick_disable.1.2.

Lemma UpdateBlocklist_entries_witness :
  length (t_entries quick_create.1.2) = 3%nat ∧
  entries_of "ads" (t_entries quick_disable.1.2) = [] ∧
  en_Domain <$> entries_of "ads" (t_entries quick_enable.1.2) = ["evil.com"; "bad.net"; "evil.com"]%string.
Proof.
  split; [vm_compute; reflexivity|]. split.
  - refine (proj2 (proj2 (UpdateBlocklist_entries id true 2 "ads" disable quick_create.1.2 ads_source ads_off false
      quick_disable.1.1 quick_disable.1.2 quick_disable.2 list_db_saves _ _ _ _ _)));
      [by intros|vm_compute; reflexivity|vm_compute; reflexivity|vm_compute; reflexivity|vm_compute; reflexivity].
  - refine (proj2 (proj2 (UpdateBlocklist_entries id true 3 "ads" enable quick_disable.1.2 ads_off ads_source false
      quick_enable.1.1 quick_enable.1.2 quick_enable.2 list_db_saves _ _ _ _ _)));
      [by intros|vm_compute; reflexivity|vm_compute; reflexivity|vm_compute; reflexivity|vm_compute; reflexivity].
Defined.

Definition run_catalog : list CategoryDef :=
  [{| cd_Name := "Ads"; cd_Description := ""; cd_Type := "content";
      cd_Feeds := [{| fd_Name := "a"; fd_URL := "http://lists/ads"; fd_Format := "domains" |}] |}].
Definition empty_toggles : table CategoryRow := ([] ↾ NoDup_nil_2 : keyed_list (R:=CategoryRow)).
Definition toggled := ToggleCategory id 1 run_catalog "ADS" (Ok true) empty_toggles no_tables.

Lemma ToggleCategory_entries_witness :
  "bad.net"%string ∈ (en_Domain <$> entries_of "category:ads" (t_entries toggled.2)).
Proof.
  refine (proj2 (proj1 (ToggleCategory_entries id 1 run_catalog "ADS"
    {| cd_Name := "Ads"; cd_Description := ""; cd_Type := "content";
       cd_Feeds := [{| fd_Name := "a"; fd_URL := "http://lists/ads"; fd_Format := "domains" |}] |}
    true empty_toggles no_tables toggled.1.1 toggled.1.2 toggled.2 _ _ _ _) "bad.net"%string) _);
    [vm_compute; reflexivity|vm_compute; reflexivity|vm_compute; reflexivity|vm_compute; reflexivity|].
  split; [reflexivity|]. apply (bool_decide_unpack _). vm_compute. exact I.
Defined.

(** Switched on, then again while the feed cannot be reached. *)
Definition dead_catalog : list CategoryDef :=
  [{| cd_Name := "Ads"; cd_Description := ""; cd_Type := "content";
      cd_Feeds := [{| fd_Name := "a"; fd_URL := "http://dead"; fd_Format := "domains" |}] |}].
Definition retoggled := ToggleCategory id 2 dead_catalog "ads" (Ok true) toggled.1.2 toggled.2.

Lemma failed_toggle_unblocks :
  r_status toggled.1.1 = 200 ∧ IsBlocked "bad.net" toggled.2 = Ok true ∧
  r_status retoggled.1.1 = 502 ∧ IsBlocked "bad.net" retoggled.2 = Ok false ∧
  categoryEnabled "Ads" retoggled.1.2 = true.
Proof. vm_compute. auto. Qed.
End Runs.
