(* ===== verification/Planes.v ===== *)
(** * The two processes

    [cmd/dataplane/main.go], [Server.Run] of internal/dnsengine/server.go and the
    start-up of [cmd/controlplane/main.go]: how the components are put together, what is
    in force after a start and after each poll of the database, and what an edit made
    through the API means for the queries the data plane answers. *)
From S2P Require Import Prelude GoStrings GoUtf8 GoStrconv GoNet Policy PolicyEngine PolicySpec DnsMsg Upstream QueryLog.
From S2P Require Import Alert Metrics Threat Blocklist Nrd GeoIp Config DnsEngine Watchdog Json Storage ControlPlane ControlSpec.

(** ** Intervals *)

(** [healthInterval]. *)
Definition healthInterval `{GoUnicode} (v : string) : Z :=
  let k := ToLower (TrimSpace v) in
  if bool_decide (k = ""%string) then hour
  else if bool_decide (k ∈ ["off"; "0"; "disabled"]%string) then 0
  else default hour (ParseDuration v).

(** The blocklist refresh interval; [time.NewTicker] panics unless it is positive. *)
Definition refreshInterval (v : string) : Z :=
  match ParseDuration v with Some d => if d =? 0 then 6 * hour else d | None => 6 * hour end.
Definition NewTicker (d : Z) : option unit := if d <=? 0 then None else Some tt.

Definition nrdConfigOf (c : DataPlaneConfig) : NrdConfig := {|
  nc_FeedURL := cf_NRDFeedURL c; nc_Block := cf_NRDBlock c;
  nc_RefreshInterval := match ParseDuration (cf_NRDRefreshInterval c) with
                        | Some d => if 0 <? d then d else 0 | None => 0 end;
  nc_Format := "" |}.

(** The checker as the engine's interface sees it. *)
Definition as_checker `{GoUnicode} (c : Checker) : NRDChecker :=
  {| nrdc_IsListed := nrd_IsListed (Some c); nrdc_BlockMode := nrd_BlockMode (Some c) |}.

(** The watchdog [startWatchdog] makes; it is only started when it is enabled. *)
Definition startWatchdog `{GoUnicode} (c : DataPlaneConfig) : option Watchdog :=
  let w := wd_New {| wc_Interval := WatchdogIntervalDuration c;
                     wc_FailureThreshold := cf_WatchdogFailureThreshold c |} in
  if wd_enabled w then Some (wd_Start w).2 else None.

Section Planes.
Context `{U : GoUnicode} `{TZ : TzDatabase} `{BL : BloomLib} `{RX : RegexpLib} `{TR : TransportEnv}.
Context `{TE : ThreatEnv} `{D : BlocklistDb} `{F : Fetcher} (hash : string → string).
Context {TP : SqlTable PolicyRow} {TRs : SqlTable ResolverRow} {TS : SqlTable SystemState}.
Context {W : Type} (close_mgr : UpstreamManager → W → W) (net : nat → rpc_outcome).

(** ** The data plane *)

(** [reloadPolicies]: the file's policies and then the stored ones. *)
Definition reloadPolicies (filePolicies : list Policy) (t : table PolicyRow) (e : PEngine) : PEngine :=
  let stored := match PolicyRepo_List t with Ok l => ToEnginePolicy <$> l | Err _ => [] end in
  LoadPolicies e (filePolicies ++ stored).

(** [refreshBlocklists]: an error is logged and the next source tried. *)
Definition refresh_source (now : Z) (d : db) (src : BlocklistSource) : db :=
  if negb (bs_Enabled src) then d else (UpdateSource hash now src (bs_ETag src) d).2.
Definition refreshBlocklists (now : Z) (sources : result string (list BlocklistSource)) (d : db) : db :=
  match sources with Err _ => d | Ok l => foldl (refresh_source now) d l end.

(** What a start of the data plane reads besides its configuration. *)
Record BootEnv := {
  bo_now : Z; bo_statistics : bool; bo_syslog_ok : bool; bo_alert : AlertConfig;
  bo_file : result load_error (list Policy);          (* LoadPoliciesFromFile *)
  bo_bundled : bool; bo_bundle : string;              (* BUNDLED_BLOCKLIST and the embedded list *)
  bo_geo : result string (option GeoFilter);          (* geoip.FromConfig *)
  bo_devices : option (string → option DeviceInfo);
  bo_listeners : bool;                                (* both listeners came up *)
}.

(** [main] up to the signal: [None] is a fatal error, or a listener that did not come up. *)
Definition dataplane_main (b : BootEnv) (cfg : DataPlaneConfig) (d : db) (t : table PolicyRow) : option (Engine * db) :=
  let d := if bo_bundled b then (SeedIfEmpty hash (bo_now b) (bo_bundle b) d).2 else d in
  let filePolicies := match bo_file b with Ok ps => ps | Err _ => [] end in
  let pe := reloadPolicies filePolicies t NewPolicyEngine in
  match NewDNSEngine (bo_now b) true (bo_statistics b) (bo_syslog_ok b) (bo_alert b) cfg (Some pe) with
  | Err _ => None
  | Ok e =>
      let e := AttachDeviceResolver (bo_devices b) e in
      let e := match bo_geo b with Ok (Some f) => AttachGeoFilter (Some f) e | _ => e end in
      let e := AttachNRDChecker (Some (as_checker (nrd_New (nrdConfigOf cfg)))) e in
      let e := AttachBlocklistChecker (Some (λ domain, IsBlocked domain d)) e in
      if bo_listeners b then Some (SetAcceptQueries true e, d) else None
  end.

(** The rest of [Server.Run]: the signal, and the deferred [Shutdown]. *)
Definition dataplane_stop (e : Engine) (w : W) : Engine * W := Shutdown close_mgr (SetAcceptQueries false e) w.

(** ** The control plane *)

Definition apply_accept (enabled : bool) (h : APIHandler (W:=W)) : APIHandler :=
  match h_DataPlaneClient h with
  | Some dp => (client_SetAcceptQueries net enabled dp h).2 | None => h
  end.
(** The stored resolvers, if there are any, pushed to the data plane; failures are
    only logged. *)
Definition apply_resolvers (h : APIHandler (W:=W)) : APIHandler :=
  match h_DataPlaneClient h, ResolverRepo_Addresses (h_Resolvers h) with
  | Some dp, Ok (a :: addrs) => (client_SetUpstreamResolvers close_mgr net (a :: addrs) dp h).2
  | _, _ => h
  end.

(** [main] up to the router: [None] is a fatal error. *)
Definition controlplane_main (now : Z) (newID : nat → string) (cfg : DataPlaneConfig) (h : APIHandler (W:=W))
  : option APIHandler :=
  match SystemStateRepo_Get (h_SystemState h) with
  | (Err _, _) => None
  | (Ok state, t) =>
      let h := apply_accept (ss_DNSEnabled state) (with_state t h) in
      let h := with_resolvers (SeedDefaults now newID (cf_UpstreamResolvers cfg) (h_Resolvers h)).2 h in
      let h := apply_resolvers h in
      let pe := match PolicyRepo_List (h_Policies h) with
                | Ok l => LoadPolicies NewPolicyEngine (ToEnginePolicy <$> l)
                | Err _ => NewPolicyEngine
                end in
      Some (with_engine (Some pe) h)
  end.
End Planes.

(** ** The next poll enforces what the API accepted *)

Section Polls.
Context `{U : GoUnicode} `{TZ : TzDatabase} `{BL : BloomLib} `{RX : RegexpLib} {LB : BloomLaws BL}.
Context {TP : SqlTable PolicyRow} {TRs : SqlTable ResolverRow} {TS : SqlTable SystemState} {W : Type}.
Context {LP : SqlTableLaws TP}.

(** The policies the data plane has after a poll that can read the table. *)
Definition polled (filePolicies : list Policy) (t : table PolicyRow) (ps : list Policy) : Prop :=
  ∃ l, PolicyRepo_List t = Ok l ∧ ps = filePolicies ++ (ToEnginePolicy <$> l).

Definition separate_ids (filePolicies : list Policy) (t : table PolicyRow) : Prop :=
  distinct_ids filePolicies ∧ ∀ p m, p ∈ filePolicies → m ∈ rows t → p_ID p ≠ mp_ID m.

Lemma polled_elem files t ps p : polled files t ps →
  p ∈ ps ↔ p ∈ files ∨ ∃ m, m ∈ rows t ∧ p = ToEnginePolicy m.
Proof.
  intros (l & El & ->). apply everything_perm in El as [El _].
  rewrite elem_of_app, list_elem_of_fmap. setoid_rewrite El. naive_solver.
Qed.

Lemma polled_distinct files t ps : polled files t ps → separate_ids files t → distinct_ids ps.
Proof.
  intros (l & El & ->) [Hf Hd]. apply everything_perm in El as [El _].
  unfold distinct_ids in *. rewrite fmap_app. apply NoDup_app. split; [done|]. split.
  - intros k (p & -> & Hp)%list_elem_of_fmap (q & E & (m & -> & Hm)%list_elem_of_fmap)%list_elem_of_fmap.
    apply (Hd p m); [done|by rewrite <- El|exact E].
  - pose proof (rows_nodup t) as Hn. rewrite <- El in Hn. rewrite <- list_fmap_compose. exact Hn.
Qed.

(** What a name asked is decided by, when its own rules are the policy [p]'s. *)
Lemma decided_by ps e now domain clientIP p :
  let n := normalizeDomain domain in
  distinct_ids ps → p ∈ ps → (1 < length (Split n dot))%nat → lists_exact n p →
  in_force now (parseClientIP clientIP) p →
  (∀ q, q ∈ ps → lists_exact n q → in_force now (parseClientIP clientIP) q → q = p ∨ better p q) →
  Evaluate (LoadPolicies e ps) now domain clientIP = Ok (policyDecision (Some p)).
Proof.
  intros n Hnd Hp Hl Hx Hf Hbest. apply Evaluate_iff; [done|]. exists (Some p). split; [|done].
  destruct (parent_candidates n) as [|c rest] eqn:Ec; apply parent_candidates_head in Hl as Hh; rewrite Ec in Hh; [done|].
  injection Hh as ->. apply (winner_exact _ _ _ _ [] n rest); [done|set_solver|].
  split; [done|]. intros q (? & ? & ?). auto.
Qed.

Lemma marshal_column (v : option (list string)) :
  column_list (marshal_strings v) = (λ l : list string, to_valid <$> l) <$> v.
Proof.
  unfold column_list. rewrite bool_decide_eq_false_2; [apply unmarshal_marshal|]. by destruct v.
Qed.

Lemma valid_list l : Forall (λ d, valid_utf8 d = true) l → to_valid <$> l = l.
Proof. induction 1 as [|d l Hd _ IH]; [done|]. csimpl. by rewrite to_valid_id, IH. Qed.

Lemma column_elems v : Forall (λ d, valid_utf8 d = true) (elems v) → elems (column_list (marshal_strings v)) = elems v.
Proof. rewrite marshal_column. destruct v as [l|]; [|done]. apply valid_list. Qed.

Lemma schedule_elems v :
  Forall (λ d, valid_utf8 d = true) (elems v) → elems (column_list (scheduleDaysJSON v)) = elems v.
Proof.
  unfold scheduleDaysJSON. case_bool_decide as He; [by rewrite He|]. apply column_elems.
Qed.

(** The policy a request describes, field by field. *)
Definition requested_policy (req : CreatePolicyRequest) : Policy := {|
  p_ID := pc_ID req; p_Name := pc_Name req; p_Description := pc_Description req; p_Category := pc_Category req;
  p_Redirect := pc_RedirectIP req; p_Source := ""; p_Enabled := true; p_Priority := pc_Priority req;
  p_Action := pc_Action req; p_Domains := elems (pc_Domains req); p_Regexes := elems (pc_Regexes req);
  p_ScheduleDays := elems (pc_ScheduleDays req); p_StartTime := pc_StartTime req; p_EndTime := pc_EndTime req;
  p_Timezone := pc_Timezone req; p_sched := None; p_ClientCIDRs := elems (pc_ClientCIDRs req) |}.

(** The lists hold valid UTF-8, as those of a decoded JSON request do. *)
Definition utf8_request (req : CreatePolicyRequest) : Prop :=
  Forall (λ v, Forall (λ d, valid_utf8 d = true) (elems v))
    [pc_Domains req; pc_Regexes req; pc_ClientCIDRs req; pc_ScheduleDays req].

(** Nothing is lost on the way through the row's JSON columns. *)
Lemma stored_as_requested req : utf8_request req → ToEnginePolicy (policy_of_request req) = requested_policy req.
Proof.
  unfold utf8_request. rewrite !Forall_cons. intros (Hd & Hr & Hc & Hs & _).
  unfold ToEnginePolicy, policy_of_request, requested_policy.
  cbn [mp_ID mp_Name mp_Description mp_Category mp_Action mp_RedirectIP mp_Domains mp_Regexes mp_ClientCIDRs mp_Priority
       mp_Enabled mp_ScheduleDays mp_ScheduleStart mp_ScheduleEnd mp_Timezone].
  by rewrite !column_elems, schedule_elems.
Qed.

(** C6. From the API to a query: once a policy has been answered 201 Created, the data
    plane's next poll that can read the table puts it in force as it was requested. A
    query of a client in the policy's scope, inside its schedule, for a name it lists
    gets the policy's decision, unless another policy in force for that very name ranks
    above it. The policy passes through the request, its row's JSON columns,
    validation, the merge with the file's policies and the compiled snapshot. *)
Theorem accepted_policy_enforced req (h : APIHandler (W:=W)) r h' files ps e now domain clientIP d :
  CreatePolicy (Ok req) h = (r, h') → r_status r = 201 → utf8_request req →
  polled files (h_Policies h') ps → separate_ids files (h_Policies h') →
  let p := requested_policy req in
  d ∈ p_Domains p → Contains (normalizeDomain d) "*" = false →
  normalizeDomain domain = normalizeDomain d → (1 < length (Split (normalizeDomain d) dot))%nat →
  in_force now (parseClientIP clientIP) p →
  (∀ q, q ∈ ps → lists_exact (normalizeDomain d) q → in_force now (parseClientIP clientIP) q → q = p ∨ better p q) →
  Evaluate (reloadPolicies files (h_Policies h') e) now domain clientIP = Ok (policyDecision (Some p)).
Proof.
  intros Hc Hst Hu Hps Hsep p Hd Hw Hn Hl Hf Hb.
  assert (run_policy (PCreate (Ok req)) h = (201, h')) as Hrun by (unfold run_policy; by rewrite Hc, Hst).
  apply run_policy_outcome in Hrun as [(_ & [_ Hrows] & _)|[H4 _]]; [|by apply (bool_decide_pack _) in H4].
  destruct Hps as (l & El & Eps). unfold reloadPolicies. rewrite El, <- Eps.
  assert (polled files (h_Policies h') ps) as Hps by (by exists l).
  apply decided_by; rewrite ?Hn; [by eapply polled_distinct| |done| |done|done].
  - apply (polled_elem files (h_Policies h')); [done|]. right. eexists. split; [rewrite Hrows; apply list_elem_of_here|].
    by rewrite stored_as_requested.
  - by exists d.
Qed.
End Polls.

(** ** Starting *)

Section Starting.
Context `{U : GoUnicode} `{TZ : TzDatabase} `{BL : BloomLib} `{RX : RegexpLib} `{TR : TransportEnv}.
Context {TP : SqlTable PolicyRow} {TRs : SqlTable ResolverRow} {TS : SqlTable SystemState}.
Context {W : Type} (close_mgr : UpstreamManager → W → W) (net : nat → rpc_outcome).
Context {LP : SqlTableLaws TP} {LR : SqlTableLaws TRs} {LS : SqlTableLaws TS}.

Lemma apply_accept_spec enabled (h : APIHandler (W:=W)) dp :
  (∀ i, net i = Delivered) → h_DataPlaneClient h = Some dp →
  apply_accept net enabled h = called (svc_SetAcceptQueries enabled dp) h.
Proof. intros Hn Hdp. unfold apply_accept, client_SetAcceptQueries. by rewrite Hdp, Hn. Qed.

Lemma set_upstream_accepts addrs (dp : DataPlane (W:=W)) :
  e_acceptQueries (dp_engine (svc_SetUpstreamResolvers close_mgr addrs dp).2) = e_acceptQueries (dp_engine dp).
Proof. unfold svc_SetUpstreamResolvers, SetUpstreamResolvers. by destruct (NewUpstreamManager _ _ _). Qed.

(** A start of the control plane whose calls get through. *)
Lemma apply_resolvers_spec (h : APIHandler (W:=W)) dp :
  (∀ i, net i = Delivered) → h_DataPlaneClient h = Some dp →
  ∃ dp', h_DataPlaneClient (apply_resolvers close_mgr net h) = Some dp' ∧ h_Resolvers (apply_resolvers close_mgr net h) = h_Resolvers h ∧
    e_acceptQueries (dp_engine dp') = e_acceptQueries (dp_engine dp) ∧
    ∀ a addrs mgr, ResolverRepo_Addresses (h_Resolvers h) = Ok (a :: addrs) →
      NewUpstreamManager (a :: addrs) 4 false = Ok mgr → e_upstreamManager (dp_engine dp') = Some mgr.
Proof.
  intros Hn Hdp. unfold apply_resolvers. rewrite Hdp.
  destruct (ResolverRepo_Addresses _) as [[|a addrs]|] eqn:Ea; [by exists dp| |by exists dp].
  pose proof (set_upstream_accepts (a :: addrs) dp) as Hacc.
  unfold client_SetUpstreamResolvers. rewrite Hn. destruct (svc_SetUpstreamResolvers _ _ _) as [err dp'] eqn:Es.
  exists dp'. split; [done|]. split; [done|]. split; [done|]. intros a' addrs' mgr [= <- <-] Hm. clear Hacc.
  unfold svc_SetUpstreamResolvers, SetUpstreamResolvers in Es. rewrite Hm in Es. by injection Es as <- <-.
Qed.

(** C24. What a start of the control plane puts in force, when its calls get through:
    the data plane accepts queries exactly if the stored state says so, and asks the
    stored resolvers in their order, the configured ones having been stored first if
    there were none. *)
Theorem controlplane_start_restores now newID cfg (h : APIHandler (W:=W)) h' dp s :
  (∀ i, net i = Delivered) → h_DataPlaneClient h = Some dp → row_at (h_SystemState h) "1" s →
  controlplane_main close_mgr net now newID cfg h = Some h' →
  ∃ dp', h_DataPlaneClient h' = Some dp' ∧ e_acceptQueries (dp_engine dp') = ss_DNSEnabled s ∧
    ∀ a addrs mgr, ResolverRepo_Addresses (h_Resolvers h') = Ok (a :: addrs) →
      NewUpstreamManager (a :: addrs) 4 false = Ok mgr → e_upstreamManager (dp_engine dp') = Some mgr.
Proof.
  intros Hn Hdp Hs. unfold controlplane_main.
  destruct (SystemStateRepo_Get _) as [[x|] t] eqn:Eg; [|done]. destruct (get_state _ _ _ _ Eg Hs) as [-> ->].
  rewrite (apply_accept_spec _ _ dp) by done. set (h2 := with_resolvers _ _).
  destruct (apply_resolvers_spec h2 (svc_SetAcceptQueries (ss_DNSEnabled s) dp)) as (dp' & Hd & Hr & Ha & Hm); [done..|].
  intros [= <-]. exists dp'. cbn [with_engine h_DataPlaneClient h_Resolvers]. rewrite Hr. auto.
Qed.

End Starting.

Section DataPlaneStart.
Context `{U : GoUnicode} `{TZ : TzDatabase} `{BL : BloomLib} `{RX : RegexpLib} `{TR : TransportEnv}.
Context `{TE : ThreatEnv} `{D : BlocklistDb} `{F : Fetcher} (hash : string → string).
Context {TP : SqlTable PolicyRow} {LD : BlocklistDbLaws D}.

(** A start of the data plane alone: whatever is stored, it accepts queries and asks the
    resolvers of its configuration. *)
Lemma dataplane_start_forgets b cfg d t e d' :
  dataplane_main hash b cfg d t = Some (e, d') →
  e_acceptQueries e = true ∧
  ∃ mgr, NewUpstreamManager (cf_UpstreamResolvers cfg) 4 (cf_DNS0x20 cfg) = Ok mgr ∧ e_upstreamManager e = Some mgr.
Proof.
  unfold dataplane_main, NewDNSEngine. destruct (NewUpstreamManager _ _ _) as [mgr|]; [|done].
  destruct (bo_listeners b); [|done]. intros [= <- <-]. split; [done|]. exists mgr. split; [done|].
  by destruct (bo_geo b) as [[]|].
Qed.

(** A poll that cannot read the table takes the stored policies out of force. *)
Lemma failed_poll_forgets files t e err :
  PolicyRepo_List t = Err err → reloadPolicies files t e = LoadPolicies e files.
Proof. unfold reloadPolicies. intros ->. by rewrite app_nil_r. Qed.

Lemma dataplane_main_blocklist b cfg d t e d' :
  dataplane_main hash b cfg d t = Some (e, d') → e_blocklist e = Some (λ domain, IsBlocked domain d') ∧
  d' = if bo_bundled b then (SeedIfEmpty hash (bo_now b) (bo_bundle b) d).2 else d.
Proof.
  unfold dataplane_main. destruct (NewDNSEngine _ _ _ _ _ _ _) as [e0|]; [|done].
  destruct (bo_listeners b); [|done]. by intros [= <- <-].
Qed.

(** C25. Offline first: on the first start, when no snapshot of any blocklist is stored and
    the database's statements succeed, the embedded list is stored and the engine blocks
    every name of it of two labels or more, and the names below them, before any feed
    has been fetched. *)
Theorem first_start_blocks_bundle b cfg d t e d1 ds chk x name ans :
  bo_bundled b = true → db_snapshots d = [] → is_ok (CountSnapshots d) = true → saves_succeed →
  HostsParser_Parse (bo_bundle b) = Ok ds → x ∈ ds → x ∈ parent_candidates (repo_normalize name) →
  dataplane_main hash b cfg d t = Some (e, d1) → e_blocklist e = Some chk → chk name = Ok ans → ans = true.
Proof.
  intros Hb He Hn Hs Hp Hx Hname [-> Hd1]%dataplane_main_blocklist [= <-] Hc. apply (IsBlocked_listed name d1 ans Hc).
  rewrite Hb in Hd1. destruct (SeedIfEmpty_first hash (bo_now b) (bo_bundle b) d ds Hs He Hn Hp) as (d2 & id & Es & Hd2).
  rewrite Es in Hd1. simpl in Hd1. subst d1. eapply listed_app; [exact Hd2|]. right. by exists x.
Qed.

Lemma refreshBlocklists_keeps now sources d name : listed d name → listed (refreshBlocklists hash now sources d) name.
Proof.
  unfold refreshBlocklists. destruct sources as [l|]; [|done]. revert d. induction l as [|src l IH]; intros d Hd; [done|].
  simpl. apply IH. unfold refresh_source. destruct (bs_Enabled src); [|done]. simpl.
  unfold UpdateSource. destruct (negb _); [done|]. destruct (Fetch _ _) as [[]|]; [done| |done].
  destruct (parser_Get _) as [parse|]; [|done]. destruct (parse _) as [ds|]; [|done].
  destruct (SaveSnapshotWithEntries _ _ _ _ _) as [[id|] d1] eqn:Es; apply SaveSnapshot_cases in Es; simpl.
  - eapply listed_app; [exact Es|]. by left.
  - by rewrite Es.
Qed.
End DataPlaneStart.
