(* ===== verification/ConfigIO.v ===== *)
(** * Export and import of the configuration

    [cmd/controlplane/handlers/config.go]: the portable document of policies, blocklist
    sources and settings, its validation, and the import in one transaction over the
    three tables. The document is a value here; its JSON text is the business of the
    HTTP binding. *)
From S2P Require Import Prelude GoStrings GoText GoUtf8 GoNet Policy PolicyEngine DnsMsg Upstream Threat Blocklist.
From S2P Require Import Config DnsEngine Json Storage ControlPlane ControlSpec BlocklistApi Planes.

Definition ConfigVersion : string := "1".
Definition validPolicyActions : list string := ["BLOCK"; "ALLOW"; "REDIRECT"]%string.

Record ConfigPolicy := {
  xp_ID : string; xp_Name : string; xp_Description : string; xp_Category : string; xp_Action : string;
  xp_RedirectIP : string; xp_Domains : option (list string); xp_Priority : Z; xp_Enabled : bool;
}.
Record ConfigBlocklist := {
  xb_ID : string; xb_Name : string; xb_URL : string; xb_Format : string; xb_Category : string;
  xb_Priority : Z; xb_Enabled : bool;
}.
Record ConfigSettings := { xs_DNSEnabled : bool; xs_PolicyEnabled : bool }.
Record ConfigDoc := {
  xd_Version : string; xd_Policies : list ConfigPolicy; xd_Blocklists : list ConfigBlocklist; xd_Settings : ConfigSettings;
}.
Record ImportSummary := {
  is_DryRun : bool; is_Policies : Z; is_Blocklists : Z; is_SettingsApplied : bool; is_Warnings : list string;
}.

(** ** Validation *)

Fixpoint validate_config_policies (seen : gset string) (ps : list ConfigPolicy) : result string unit :=
  match ps with
  | [] => Ok tt
  | p :: ps =>
      if bool_decide (xp_ID p = ""%string) then Err "policy id is required"%string
      else if bool_decide (xp_ID p ∈ seen) then Err ("duplicate policy id: " +:+ xp_ID p)%string
      else if bool_decide (xp_Name p = ""%string) then Err ("policy name is required for id: " +:+ xp_ID p)%string
      else if negb (bool_decide (xp_Action p ∈ validPolicyActions))
      then Err ("invalid action for policy " +:+ xp_ID p +:+ ": " +:+ xp_Action p)%string
      else validate_config_policies ({[xp_ID p]} ∪ seen) ps
  end.

Fixpoint validate_config_blocklists (seen : gset string) (bs : list ConfigBlocklist) : result string unit :=
  match bs with
  | [] => Ok tt
  | b :: bs =>
      if bool_decide (xb_ID b = ""%string) then Err "blocklist id is required"%string
      else if bool_decide (xb_ID b ∈ seen) then Err ("duplicate blocklist id: " +:+ xb_ID b)%string
      else if bool_decide (xb_Name b = ""%string) then Err ("blocklist name is required for id: " +:+ xb_ID b)%string
      else if bool_decide (xb_URL b = ""%string) then Err ("blocklist url is required for id: " +:+ xb_ID b)%string
      else if negb (isHTTPURL (xb_URL b))
      then Err ("blocklist url must use http:// or https:// for id: " +:+ xb_ID b)%string
      else if bool_decide (xb_Format b = ""%string) then Err ("blocklist format is required for id: " +:+ xb_ID b)%string
      else validate_config_blocklists ({[xb_ID b]} ∪ seen) bs
  end.

Definition validateConfig (cfg : ConfigDoc) : result string unit :=
  if bool_decide (xd_Version cfg = ""%string) then Err "config version is required"%string
  else if negb (bool_decide (xd_Version cfg = ConfigVersion)) then Err ("unsupported config version: " +:+ xd_Version cfg)%string
  else let? _ := validate_config_policies ∅ (xd_Policies cfg) in validate_config_blocklists ∅ (xd_Blocklists cfg).

(** ** Documents and rows *)

Definition export_policy (m : PolicyRow) : ConfigPolicy := {|
  xp_ID := mp_ID m; xp_Name := mp_Name m; xp_Description := mp_Description m; xp_Category := mp_Category m;
  xp_Action := mp_Action m; xp_RedirectIP := mp_RedirectIP m; xp_Domains := column_list (mp_Domains m);
  xp_Priority := mp_Priority m; xp_Enabled := mp_Enabled m |}.
Definition export_source (s : BlocklistSource) : ConfigBlocklist := {|
  xb_ID := bs_ID s; xb_Name := bs_Name s; xb_URL := bs_URL s; xb_Format := bs_Format s; xb_Category := bs_Category s;
  xb_Priority := bs_Priority s; xb_Enabled := bs_Enabled s |}.

Definition import_policy (p : ConfigPolicy) : PolicyRow := {|
  mp_ID := xp_ID p; mp_Name := xp_Name p; mp_Description := xp_Description p; mp_Category := xp_Category p;
  mp_Action := xp_Action p; mp_RedirectIP := xp_RedirectIP p; mp_Domains := marshal_strings (xp_Domains p);
  mp_Regexes := ""; mp_ClientCIDRs := ""; mp_Priority := xp_Priority p; mp_Enabled := xp_Enabled p;
  mp_ScheduleDays := ""; mp_ScheduleStart := ""; mp_ScheduleEnd := ""; mp_Timezone := "" |}.
(** The columns an existing row takes from the row that was to be inserted. *)
Definition assign_policy (m old : PolicyRow) : PolicyRow := {|
  mp_ID := mp_ID old; mp_Name := mp_Name m; mp_Description := mp_Description m; mp_Category := mp_Category m;
  mp_Action := mp_Action m; mp_RedirectIP := mp_RedirectIP m; mp_Domains := mp_Domains m; mp_Regexes := mp_Regexes old;
  mp_ClientCIDRs := mp_ClientCIDRs old; mp_Priority := mp_Priority m; mp_Enabled := mp_Enabled m;
  mp_ScheduleDays := mp_ScheduleDays old; mp_ScheduleStart := mp_ScheduleStart old; mp_ScheduleEnd := mp_ScheduleEnd old;
  mp_Timezone := mp_Timezone old |}.
Definition import_source (b : ConfigBlocklist) : BlocklistSource := {|
  bs_ID := xb_ID b; bs_Name := xb_Name b; bs_URL := xb_URL b; bs_Format := xb_Format b; bs_Category := xb_Category b;
  bs_Enabled := xb_Enabled b; bs_Priority := xb_Priority b; bs_ETag := "" |}.
Definition assign_source (s old : BlocklistSource) : BlocklistSource := {|
  bs_ID := bs_ID old; bs_Name := bs_Name s; bs_URL := bs_URL s; bs_Format := bs_Format s; bs_Category := bs_Category s;
  bs_Enabled := bs_Enabled s; bs_Priority := bs_Priority s; bs_ETag := bs_ETag old |}.
Definition assign_state (s old : SystemState) : SystemState := {|
  ss_ID := ss_ID old; ss_DNSEnabled := ss_DNSEnabled s; ss_PolicyEnabled := ss_PolicyEnabled s |}.

Section ConfigIO.
Context `{U : GoUnicode} `{TZ : TzDatabase} `{BL : BloomLib} `{RX : RegexpLib} `{D : BlocklistDb}.
Context {TP : SqlTable PolicyRow} {TRs : SqlTable ResolverRow} {TS : SqlTable SystemState}.
Context {W : Type} (net : nat → rpc_outcome).

(** [sort.Slice] by ID: the IDs are keys, so the order is determined. *)
Definition buildExport (h : APIHandler (W:=W)) (d : db) : result string ConfigDoc * APIHandler :=
  match PolicyRepo_List (h_Policies h) with
  | Err _ => (Err "policies"%string, h)
  | Ok policyModels =>
      match sql_list_sources d with
      | Err e => (Err e, h)
      | Ok sources =>
          match SystemStateRepo_Get (h_SystemState h) with
          | (Err _, t) => (Err "state"%string, with_state t h)
          | (Ok state, t) =>
              (Ok {| xd_Version := ConfigVersion;
                     xd_Policies := sort_by xp_ID (export_policy <$> policyModels);
                     xd_Blocklists := sort_by xb_ID (export_source <$> sources);
                     xd_Settings := {| xs_DNSEnabled := ss_DNSEnabled state; xs_PolicyEnabled := ss_PolicyEnabled state |} |},
               with_state t h)
          end
      end
  end.

Definition ExportConfig (h : APIHandler (W:=W)) (d : db) : response ConfigDoc * APIHandler :=
  match buildExport h d with
  | (Err _, h) => (err_response StatusInternalServerError (ApiMsg "failed to export config"), h)
  | (Ok cfg, h) => (ok_response StatusOK cfg, h)
  end.

(** The three loops of the transaction. *)
Fixpoint upsert_policies (ps : list ConfigPolicy) (t : table PolicyRow) : result db_error (table PolicyRow) :=
  match ps with
  | [] => Ok t
  | p :: ps =>
      let m := policy_defaults (import_policy p) in
      match sql_upsert m (assign_policy m) t with Err e => Err e | Ok t => upsert_policies ps t end
  end.
Fixpoint upsert_sources (bs : list ConfigBlocklist) (d : db) : result string db :=
  match bs with
  | [] => Ok d
  | b :: bs =>
      match sql_upsert_source (import_source b) (assign_source (import_source b)) d with
      | Err e => Err e | Ok d => upsert_sources bs d
      end
  end.
Definition upsert_state (s : ConfigSettings) (t : table SystemState) : result db_error (table SystemState) :=
  let state := {| ss_ID := 1; ss_DNSEnabled := xs_DNSEnabled s; ss_PolicyEnabled := xs_PolicyEnabled s |} in
  sql_upsert state (assign_state state) t.

(** [applyConfig]: the tables after the transaction, or nothing when a statement or the
    commit fails. *)
Definition applyConfig (commit_ok : bool) (cfg : ConfigDoc) (h : APIHandler (W:=W)) (d : db)
  : option (APIHandler * db) :=
  match upsert_policies (xd_Policies cfg) (h_Policies h) with
  | Err _ => None
  | Ok tp =>
      match upsert_sources (xd_Blocklists cfg) d with
      | Err _ => None
      | Ok d' =>
          match upsert_state (xd_Settings cfg) (h_SystemState h) with
          | Err _ => None
          | Ok ts => if commit_ok then Some (with_state ts (with_policies tp h), d') else None
          end
      end
  end.

Definition ImportConfig (commit_ok : bool) (dry_run : string) (req : result string ConfigDoc)
  (h : APIHandler (W:=W)) (d : db) : response ImportSummary * APIHandler * db :=
  match req with
  | Err msg => (err_response StatusBadRequest (ApiMsg ("invalid config payload: " +:+ msg)), h, d)
  | Ok cfg =>
      match validateConfig cfg with
      | Err e => (err_response StatusBadRequest (ApiMsg e), h, d)
      | Ok _ =>
          let dryRun := EqualFold dry_run "true" in
          let summary w := {| is_DryRun := dryRun; is_Policies := Z.of_nat (length (xd_Policies cfg));
                              is_Blocklists := Z.of_nat (length (xd_Blocklists cfg)); is_SettingsApplied := true;
                              is_Warnings := w |} in
          if dryRun then (ok_response StatusOK (summary []), h, d)
          else
            match applyConfig commit_ok cfg h d with
            | None => (err_response StatusInternalServerError (ApiMsg "failed to apply config"), h, d)
            | Some (h, d) =>
                match h_DataPlaneClient h with
                | None => (ok_response StatusOK (summary []), h, d)
                | Some dp =>
                    match client_SetAcceptQueries net (xs_DNSEnabled (xd_Settings cfg)) dp h with
                    | (true, h) => (ok_response StatusOK (summary []), h, d)
                    | (false, h) =>
                        (ok_response StatusOK (summary ["config persisted but engine reload failed"%string]), h, d)
                    end
                end
            end
      end
  end.
End ConfigIO.

(** ** Sequences of upserts *)

Section Upserts.
Context {R : Type} (key : R → string).

Definition upserted (r : R) (f : R → R) (l l' : list R) : Prop :=
  l' ≡ₚ if bool_decide (key r ∈ key <$> l) then (λ x, if bool_decide (key x = key r) then f x else x) <$> l else r :: l.

Inductive upserts : list (R * (R → R)) → list R → list R → Prop :=
| upserts_nil l : upserts [] l l
| upserts_cons r f steps l l1 l' : (∀ x, key (f x) = key x) → upserted r f l l1 → upserts steps l1 l' →
    upserts ((r, f) :: steps) l l'.

Definition step_keys (steps : list (R * (R → R))) : list string := (key ∘ fst) <$> steps.

Lemma upserted_kept r f l l' x : upserted r f l l' → x ∈ l → key x ≠ key r → x ∈ l'.
Proof.
  unfold upserted. intros -> Hx Hk. case_bool_decide; [|set_solver].
  apply list_elem_of_fmap. exists x. by rewrite bool_decide_eq_false_2.
Qed.

Lemma upserts_kept steps l l' x : upserts steps l l' → x ∈ l → key x ∉ step_keys steps → x ∈ l'.
Proof.
  induction 1 as [|r f steps l l1 l' _ Hu _ IH]; [done|]. csimpl. rewrite not_elem_of_cons. intros Hx [Hk Hks].
  apply IH; [|done]. by eapply upserted_kept.
Qed.

(** Each row that was to be inserted is there, or the row with its key has taken its
    columns. *)
Lemma upserts_stored steps l l' r f : upserts steps l l' → NoDup (step_keys steps) → (r, f) ∈ steps →
  r ∈ l' ∨ ∃ x, x ∈ l ∧ key x = key r ∧ f x ∈ l'.
Proof.
  induction 1 as [|r0 f0 steps l l1 l' Hf Hu Hs IH]; [by intros _ ?%not_elem_of_nil|]. csimpl.
  rewrite NoDup_cons, elem_of_cons. intros [Hn Hnd] [[= -> ->]|Hin].
  - unfold upserted in Hu. case_bool_decide as Hk; [right|left].
    + apply list_elem_of_fmap in Hk as (x & Hk & Hx). exists x. split; [done|]. split; [done|].
      eapply upserts_kept; [exact Hs| |by rewrite Hf, <- Hk]. rewrite Hu. apply list_elem_of_fmap. exists x.
      by rewrite bool_decide_eq_true_2.
    + eapply upserts_kept; [exact Hs| |done]. rewrite Hu. set_solver.
  - destruct (IH Hnd Hin) as [?|(x & Hx & Hk & Hfx)]; [by left|].
    assert (key r ≠ key r0) as Hne.
    { intros E. apply Hn. rewrite <- E. apply list_elem_of_fmap. by exists (r, f). }
    unfold upserted in Hu. case_bool_decide as Hm.
    + rewrite Hu in Hx. apply list_elem_of_fmap in Hx as (y & -> & Hy). case_bool_decide as Hy0.
      * rewrite Hf in Hk. congruence.
      * right. by exists y.
    + rewrite Hu, elem_of_cons in Hx. destruct Hx as [->|Hx]; [congruence|]. right. by exists x.
Qed.

(** Every row is still there, at most with the columns of one upsert. *)
Lemma upserts_merged steps l l' x : upserts steps l l' → NoDup (step_keys steps) → x ∈ l →
  x ∈ l' ∨ ∃ r f, (r, f) ∈ steps ∧ key r = key x ∧ f x ∈ l'.
Proof.
  induction 1 as [|r0 f0 steps l l1 l' Hf Hu Hs IH]; [by left|]. csimpl. rewrite NoDup_cons. intros [Hn Hnd] Hx.
  destruct (decide (key x = key r0)) as [E|E].
  - right. exists r0, f0. split; [set_solver|]. split; [done|].
    eapply upserts_kept; [exact Hs| |by rewrite Hf, E]. unfold upserted in Hu. rewrite Hu, bool_decide_eq_true_2.
    + apply list_elem_of_fmap. exists x. by rewrite bool_decide_eq_true_2.
    + rewrite <- E. by apply list_elem_of_fmap_2.
  - destruct IH as [?|(r & f & ? & ? & ?)]; [done|by eapply upserted_kept|by left|].
    right. exists r, f. split; [set_solver|done].
Qed.

(** No row comes from anywhere else. *)
Lemma upserts_only steps l l' x : upserts steps l l' → x ∈ l' → key x ∈ key <$> l ∨ key x ∈ step_keys steps.
Proof.
  induction 1 as [|r f steps l l1 l' Hf Hu _ IH]; [by left; apply list_elem_of_fmap_2|].
  intros Hx. csimpl. rewrite elem_of_cons. destruct (IH Hx) as [H|H]; [|by auto].
  apply list_elem_of_fmap in H as (y & -> & Hy). unfold upserted in Hu. rewrite Hu in Hy. case_bool_decide.
  - apply list_elem_of_fmap in Hy as (z & -> & Hz). left. apply list_elem_of_fmap. exists z. split; [|done]. case_bool_decide; [apply Hf|done].
  - apply elem_of_cons in Hy as [->|Hy]; [by auto|]. left. by apply list_elem_of_fmap_2.
Qed.

(** Into an empty table the rows themselves. *)
Lemma upserts_fresh steps l l' : upserts steps l l' → NoDup (step_keys steps) →
  (∀ k, k ∈ step_keys steps → k ∉ key <$> l) → l' ≡ₚ (fst <$> steps) ++ l.
Proof.
  induction 1 as [|r f steps l l1 l' _ Hu _ IH]; [done|]. csimpl. rewrite NoDup_cons. intros [Hn Hnd] Hd.
  unfold upserted in Hu. rewrite bool_decide_eq_false_2 in Hu by (apply Hd; set_solver).
  rewrite IH; [rewrite Hu; by rewrite Permutation_middle|done|]. intros k Hk. rewrite Hu. csimpl.
  apply not_elem_of_cons. split; [by intros ->|]. apply Hd. set_solver.
Qed.
End Upserts.

Section Facts.
Context `{U : GoUnicode} `{TZ : TzDatabase} `{BL : BloomLib} `{RX : RegexpLib} `{D : BlocklistDb}.
Context {TP : SqlTable PolicyRow} {TRs : SqlTable ResolverRow} {TS : SqlTable SystemState}.
Context {W : Type} (net : nat → rpc_outcome).
Context {LP : SqlTableLaws TP} {LS : SqlTableLaws TS} {LD : BlocklistDbLaws D}.

Definition policy_step (p : ConfigPolicy) : PolicyRow * (PolicyRow → PolicyRow) :=
  let m := policy_defaults (import_policy p) in (m, assign_policy m).
Definition source_step (b : ConfigBlocklist) : BlocklistSource * (BlocklistSource → BlocklistSource) :=
  (import_source b, assign_source (import_source b)).

Lemma upsert_policies_steps ps t t' :
  upsert_policies ps t = Ok t' → upserts mp_ID (policy_step <$> ps) (rows t) (rows t').
Proof.
  revert t. induction ps as [|p ps IH]; intros t; simpl; [intros [= <-]; constructor|].
  destruct (sql_upsert _ _ t) as [t1|] eqn:E; [|done]. intros H%IH. apply upsert_law in E; [|done].
  by apply (upserts_cons _ _ _ _ _ (rows t1)).
Qed.

Lemma upsert_sources_steps bs d d' :
  upsert_sources bs d = Ok d' → upserts bs_ID (source_step <$> bs) (db_sources d) (db_sources d') ∧ db_entries d' = db_entries d.
Proof.
  revert d. induction bs as [|b bs IH]; intros d; simpl; [intros [= <-]; split; [constructor|done]|].
  destruct (sql_upsert_source _ _ d) as [d1|] eqn:E; [|done]. intros [H1 H2]%IH.
  apply upsert_source_law in E as (E1 & _ & E2); [|done]. split; [|congruence].
  by apply (upserts_cons _ _ _ _ _ (db_sources d1)).
Qed.

Lemma policy_step_keys ps : step_keys mp_ID (policy_step <$> ps) = xp_ID <$> ps.
Proof. unfold step_keys. by rewrite <- list_fmap_compose. Qed.
Lemma source_step_keys bs : step_keys bs_ID (source_step <$> bs) = xb_ID <$> bs.
Proof. unfold step_keys. by rewrite <- list_fmap_compose. Qed.

Lemma valid_policy_ids seen ps : validate_config_policies seen ps = Ok tt →
  NoDup (xp_ID <$> ps) ∧ ∀ p, p ∈ ps → xp_ID p ∉ seen.
Proof.
  revert seen. induction ps as [|p ps IH]; intros seen; simpl; [intros _; split; [constructor|by intros ? ?%not_elem_of_nil]|].
  repeat (case_bool_decide; try done). intros [Hn Hs]%IH. csimpl. split.
  - constructor; [|done]. intros (q & E & Hq)%list_elem_of_fmap. apply (Hs q Hq). set_solver.
  - intros q [->|Hq]%elem_of_cons; [done|]. specialize (Hs q Hq). set_solver.
Qed.

Lemma valid_blocklist_ids seen bs : validate_config_blocklists seen bs = Ok tt →
  NoDup (xb_ID <$> bs) ∧ ∀ b, b ∈ bs → (xb_ID b ∉ seen) ∧ isHTTPURL (xb_URL b) = true.
Proof.
  revert seen. induction bs as [|b bs IH]; intros seen; simpl; [intros _; split; [constructor|by intros ? ?%not_elem_of_nil]|].
  repeat (case_bool_decide; try done); destruct (isHTTPURL (xb_URL b)) eqn:Hu; simpl; try done. intros [Hn Hs]%IH. csimpl. split.
  - constructor; [|done]. intros (q & E & Hq)%list_elem_of_fmap. destruct (Hs q Hq). set_solver.
  - intros q [->|Hq]%elem_of_cons; [done|]. destruct (Hs q Hq). set_solver.
Qed.

Lemma validateConfig_inv cfg : validateConfig cfg = Ok tt →
  xd_Version cfg = ConfigVersion ∧ NoDup (xp_ID <$> xd_Policies cfg) ∧ NoDup (xb_ID <$> xd_Blocklists cfg) ∧
  ∀ b, b ∈ xd_Blocklists cfg → isHTTPURL (xb_URL b) = true.
Proof.
  unfold validateConfig. case_bool_decide; [done|]. case_bool_decide; [|done]. simpl.
  destruct (validate_config_policies _ _) as [[]|] eqn:E; [|done]. intros [Hb Hu]%valid_blocklist_ids.
  apply valid_policy_ids in E as [Hp _]. split; [done|]. split; [done|]. split; [done|]. intros b Hin. by apply Hu.
Qed.

(** What the import does with a request: refused, tried, or applied. *)
Lemma ImportConfig_cases commit_ok dry req (h : APIHandler (W:=W)) d r h' d' :
  ImportConfig net commit_ok dry req h d = (r, h', d') →
  r_status r = 200 ∧ (∃ cfg, req = Ok cfg ∧ validateConfig cfg = Ok tt ∧
    if EqualFold dry "true" then h' = h ∧ d' = d
    else ∃ tp ts, upsert_policies (xd_Policies cfg) (h_Policies h) = Ok tp ∧
           upsert_sources (xd_Blocklists cfg) d = Ok d' ∧
           upsert_state (xd_Settings cfg) (h_SystemState h) = Ok ts ∧
           h_Policies h' = tp ∧ h_SystemState h' = ts ∧ h_Resolvers h' = h_Resolvers h ∧
           h_PolicyEngine h' = h_PolicyEngine h)
  ∨ r_status r ∈ [400; 500] ∧ h' = h ∧ d' = d.
Proof.
  unfold ImportConfig.
  destruct req as [cfg|]; [|intros [= <- <- <-]; right; split; [by apply (bool_decide_unpack _)|done]].
  destruct (validateConfig cfg) as [[]|] eqn:Ev; [|intros [= <- <- <-]; right; split; [by apply (bool_decide_unpack _)|done]].
  destruct (EqualFold dry "true") eqn:Ed; [intros [= <- <- <-]; left; split; [done|]; by exists cfg|].
  unfold applyConfig. destruct (upsert_policies _ _) as [tp|] eqn:Ep;
    [|intros [= <- <- <-]; right; split; [by apply (bool_decide_unpack _)|done]].
  destruct (upsert_sources _ _) as [d1|] eqn:Eb; [|intros [= <- <- <-]; right; split; [by apply (bool_decide_unpack _)|done]].
  destruct (upsert_state _ _) as [ts|] eqn:Es; [|intros [= <- <- <-]; right; split; [by apply (bool_decide_unpack _)|done]].
  destruct commit_ok; [|intros [= <- <- <-]; right; split; [by apply (bool_decide_unpack _)|done]].
  intros E. left. cbn [with_state with_policies h_DataPlaneClient] in E. unfold client_SetAcceptQueries in E.
  destruct (h_DataPlaneClient h) as [dp|]; [destruct (net _)|]; injection E as <- <- <-;
    (split; [done|]; exists cfg; split; [done|]; split; [done|]; by exists tp, ts).
Qed.

(** What gorm and the JSON column make of a policy of a document: the column holds valid
    UTF-8, and its default has taken the place of a false [Enabled]. *)
Definition stored_form (p : ConfigPolicy) : ConfigPolicy := {|
  xp_ID := xp_ID p; xp_Name := xp_Name p; xp_Description := xp_Description p; xp_Category := xp_Category p;
  xp_Action := xp_Action p; xp_RedirectIP := xp_RedirectIP p;
  xp_Domains := (λ l : list string, to_valid <$> l) <$> xp_Domains p; xp_Priority := xp_Priority p; xp_Enabled := true |}.

Lemma export_stored p : export_policy (policy_defaults (import_policy p)) = stored_form p.
Proof.
  unfold export_policy, policy_defaults, import_policy, stored_form.
  cbn [mp_ID mp_Name mp_Description mp_Category mp_Action mp_RedirectIP mp_Domains mp_Priority mp_Enabled].
  by rewrite marshal_column.
Qed.

Lemma export_assigned p old : mp_ID old = xp_ID p →
  export_policy (assign_policy (policy_defaults (import_policy p)) old) = stored_form p.
Proof.
  intros E. rewrite <- export_stored. unfold export_policy, assign_policy.
  cbn [mp_ID mp_Name mp_Description mp_Category mp_Action mp_RedirectIP mp_Domains mp_Priority mp_Enabled]. by rewrite E.
Qed.

(** The texts of a document that was decoded from JSON are valid UTF-8. *)
Definition decoded (p : ConfigPolicy) : Prop := Forall (λ d, valid_utf8 d = true) (elems (xp_Domains p)).
Definition with_Enabled (b : bool) (p : ConfigPolicy) : ConfigPolicy := {|
  xp_ID := xp_ID p; xp_Name := xp_Name p; xp_Description := xp_Description p; xp_Category := xp_Category p;
  xp_Action := xp_Action p; xp_RedirectIP := xp_RedirectIP p; xp_Domains := xp_Domains p; xp_Priority := xp_Priority p;
  xp_Enabled := b |}.

Lemma stored_form_valid p : decoded p → stored_form p = with_Enabled true p.
Proof.
  unfold decoded. intros Hd. destruct p as [id n ds c a rip doms prio en]. unfold stored_form, with_Enabled; simpl in *. f_equal.
  destruct doms as [l|]; [|done]. simpl in *. f_equal. induction Hd as [|x l Hx _ IH]; [done|].
  csimpl. by rewrite to_valid_id, IH.
Qed.
Lemma with_Enabled_same p : with_Enabled (xp_Enabled p) p = p.
Proof. by destruct p. Qed.

(** The row a policy of the document has become: what the document says in every column it
    carries; of its flag, that one that was enabled still is. *)
Definition stored_as (p : ConfigPolicy) (m : PolicyRow) : Prop :=
  with_Enabled (xp_Enabled p) (export_policy m) = p ∧ (xp_Enabled p = true → mp_Enabled m = true).
Lemma stored_form_as p m : decoded p → export_policy m = stored_form p → stored_as p m.
Proof.
  intros Hd Hm. rewrite (stored_form_valid p Hd) in Hm. unfold stored_as. rewrite Hm. split; [by destruct p|]. intros _.
  by apply (f_equal xp_Enabled) in Hm.
Qed.

(** The parts of a policy a document does not carry. *)
Definition scope_of (m : PolicyRow) : string * string * string * string * string * string :=
  (mp_Regexes m, mp_ClientCIDRs m, mp_ScheduleDays m, mp_ScheduleStart m, mp_ScheduleEnd m, mp_Timezone m).

Definition imported (cfg : ConfigDoc) (h h' : APIHandler (W:=W)) (d d' : db) : Prop :=
  (∀ p, p ∈ xd_Policies cfg → decoded p → ∃ m, m ∈ rows (h_Policies h') ∧ stored_as p m) ∧
  (∀ m, m ∈ rows (h_Policies h) → ∃ m', m' ∈ rows (h_Policies h') ∧ mp_ID m' = mp_ID m ∧ scope_of m' = scope_of m ∧
        (mp_ID m ∉ xp_ID <$> xd_Policies cfg → m' = m)) ∧
  (∀ m', m' ∈ rows (h_Policies h') → mp_ID m' ∈ mp_ID <$> rows (h_Policies h) ∨ mp_ID m' ∈ xp_ID <$> xd_Policies cfg) ∧
  (∀ b, b ∈ xd_Blocklists cfg → ∃ s, s ∈ db_sources d' ∧ export_source s = b) ∧
  (∀ s, s ∈ db_sources d → ∃ s', s' ∈ db_sources d' ∧ bs_ID s' = bs_ID s ∧
        (bs_ID s ∉ xb_ID <$> xd_Blocklists cfg → s' = s)) ∧
  (∀ s', s' ∈ db_sources d' → bs_ID s' ∈ bs_ID <$> db_sources d ∨ bs_ID s' ∈ xb_ID <$> xd_Blocklists cfg) ∧
  db_entries d' = db_entries d ∧
  (∃ s, row_at (h_SystemState h') "1" s ∧ ss_DNSEnabled s = xs_DNSEnabled (xd_Settings cfg) ∧
        ss_PolicyEnabled s = xs_PolicyEnabled (xd_Settings cfg)) ∧
  h_Resolvers h' = h_Resolvers h ∧ h_PolicyEngine h' = h_PolicyEngine h.

Lemma upsert_state_row s t t' : upsert_state s t = Ok t' →
  ∃ x, row_at t' "1" x ∧ ss_DNSEnabled x = xs_DNSEnabled s ∧ ss_PolicyEnabled x = xs_PolicyEnabled s.
Proof.
  unfold upsert_state. set (state := {| ss_ID := 1 |}). intros E. apply upsert_law in E; [|done]. case_bool_decide as Hk.
  - apply list_elem_of_fmap in Hk as (x & Hk & Hx). exists (assign_state state x).
    split; [|done]. split; [|by symmetry].
    rewrite E. apply list_elem_of_fmap. exists x. by rewrite bool_decide_eq_true_2 by done.
  - eexists. split; [split; [rewrite E; apply list_elem_of_here|reflexivity]|done].
Qed.

(** C16. An import is all or nothing. Answered 200, and not a trial, it has stored every
    blocklist of the document, its settings, and every policy in all the fields a
    document has but one: a policy that is enabled there is stored enabled, while for
    one that is not the flag is left open (gorm stores it enabled all the same). It has
    deleted nothing, added nothing else, left what the document does not name as it was,
    and the regular expressions, client ranges and schedules of the policies it does
    name; a trial or any other answer has changed nothing. *)
Theorem ImportConfig_applied commit_ok dry req (h : APIHandler (W:=W)) d r h' d' :
  ImportConfig net commit_ok dry req h d = (r, h', d') →
  r_status r = 200 ∧ (∃ cfg, req = Ok cfg ∧ validateConfig cfg = Ok tt ∧
    if EqualFold dry "true" then h' = h ∧ d' = d else imported cfg h h' d d')
  ∨ r_status r ∈ [400; 500] ∧ h' = h ∧ d' = d.
Proof.
  intros [(Hr & cfg & -> & Hv & Hd)|?]%ImportConfig_cases; [|by right]. left. split; [done|]. exists cfg.
  split; [done|]. split; [done|]. destruct (EqualFold dry "true"); [done|].
  destruct Hd as (tp & ts & Hp & Hb & Hs & <- & <- & Hres & Hpe).
  apply validateConfig_inv in Hv as (_ & Hnp & Hnb & _). apply upsert_policies_steps in Hp.
  apply upsert_sources_steps in Hb as [Hb He]. rewrite <- policy_step_keys in Hnp. rewrite <- source_step_keys in Hnb.
  unfold imported. rewrite <- policy_step_keys, <- source_step_keys. split_and!; [..|done|by eapply upsert_state_row|done|done].
  - intros p Hin Hdec. cut (∃ m, m ∈ rows (h_Policies h') ∧ export_policy m = stored_form p).
    { intros (m & Hm & Hx). exists m. split; [done|]. by apply stored_form_as. }
    destruct (upserts_stored _ _ _ _ (policy_step p).1 (policy_step p).2 Hp Hnp) as [?|(x & Hx & Hk & Hf)].
    + by apply (list_elem_of_fmap_2 policy_step).
    + eexists. split; [done|]. apply export_stored.
    + eexists. split; [done|]. by apply export_assigned.
  - intros m Hm. destruct (upserts_merged _ _ _ _ m Hp Hnp Hm) as [?|(r0 & f & Hin & Hk & Hf)]; [by exists m|].
    apply list_elem_of_fmap in Hin as (p & [= -> ->] & Hin). eexists. split; [done|]. split; [done|]. split; [done|].
    intros Hno. destruct Hno. rewrite <- Hk, policy_step_keys. exact (list_elem_of_fmap_2 xp_ID _ p Hin).
  - intros m' Hm'. exact (upserts_only _ _ _ _ m' Hp Hm').
  - intros b Hin. destruct (upserts_stored _ _ _ _ (source_step b).1 (source_step b).2 Hb Hnb) as [?|(x & Hx & Hk & Hf)].
    + by apply (list_elem_of_fmap_2 source_step).
    + eexists. split; [done|]. by destruct b.
    + eexists. split; [done|]. simpl in Hk. unfold export_source. simpl. rewrite Hk. by destruct b.
  - intros s Hsrc. destruct (upserts_merged _ _ _ _ s Hb Hnb Hsrc) as [?|(r0 & f & Hin & Hk & Hf)]; [by exists s|].
    apply list_elem_of_fmap in Hin as (b & [= -> ->] & Hin). eexists. split; [done|]. split; [done|].
    intros Hno. destruct Hno. rewrite <- Hk, source_step_keys. exact (list_elem_of_fmap_2 xb_ID _ b Hin).
  - intros s' Hs'. exact (upserts_only _ _ _ _ s' Hb Hs').
Qed.

(** *** The round trip *)

(** What an export holds, whatever the order the statements return the rows in. *)
Lemma buildExport_spec (h : APIHandler (W:=W)) d cfg h' s :
  buildExport h d = (Ok cfg, h') → row_at (h_SystemState h) "1" s →
  xd_Version cfg = ConfigVersion ∧
  xd_Policies cfg ≡ₚ export_policy <$> rows (h_Policies h) ∧ StronglySorted (by_key xp_ID) (xd_Policies cfg) ∧
  xd_Blocklists cfg ≡ₚ export_source <$> db_sources d ∧ StronglySorted (by_key xb_ID) (xd_Blocklists cfg) ∧
  xd_Settings cfg = {| xs_DNSEnabled := ss_DNSEnabled s; xs_PolicyEnabled := ss_PolicyEnabled s |}.
Proof.
  unfold buildExport, PolicyRepo_List. destruct (sql_select _ _ _) as [l|] eqn:El; [|done].
  destruct (sql_list_sources d) as [sl|] eqn:Es; [|done]. intros E Hs.
  destruct (SystemStateRepo_Get _) as [[st|] t] eqn:Eg; [|done]. destruct (get_state _ _ _ _ Eg Hs) as [-> ->].
  injection E as <- <-. apply everything_perm in El as [El _]. apply list_sources_law in Es.
  cbn [xd_Version xd_Policies xd_Blocklists xd_Settings].
  split; [done|]. split; [by rewrite sort_by_perm, El|]. split; [apply sort_by_sorted|].
  split; [by rewrite sort_by_perm, Es|]. split; [apply sort_by_sorted|done].
Qed.

Lemma stored_same p : xp_Enabled p = true → decoded p → stored_form p = p.
Proof. intros He Hd. rewrite (stored_form_valid p Hd), <- He. apply with_Enabled_same. Qed.

(** C17. Cloning a box: a configuration that was exported and then imported, with answer
    200, into an empty store is exported there as the same document, if its policies
    are all enabled and its domains are valid UTF-8. *)
Theorem export_import_export commit_ok dry (h h1 h2 h3 h4 : APIHandler (W:=W)) d d2 d3 s0 cfg cfg' r :
  row_at (h_SystemState h) "1" s0 → buildExport h d = (Ok cfg, h1) →
  rows (h_Policies h2) = [] → db_sources d2 = [] → EqualFold dry "true" = false →
  (∀ p, p ∈ xd_Policies cfg → xp_Enabled p = true ∧ Forall (λ d, valid_utf8 d = true) (elems (xp_Domains p))) →
  ImportConfig net commit_ok dry (Ok cfg) h2 d2 = (r, h3, d3) → r_status r = 200 →
  buildExport h3 d3 = (Ok cfg', h4) → cfg' = cfg.
Proof.
  intros Hs0 Hx Hp2 Hd2 Hdry Hen Hi Hr Hx'.
  apply ImportConfig_cases in Hi as [(_ & c & [= <-] & Hv & Hc)|[Hr' _]];
    [|exfalso; rewrite Hr in Hr'; by apply (bool_decide_pack _) in Hr'].
  rewrite Hdry in Hc. destruct Hc as (tp & ts & Ep & Eb & Es & <- & <- & _).
  apply validateConfig_inv in Hv as (_ & Hnp & Hnb & _).
  destruct (buildExport_spec _ _ _ _ _ Hx Hs0) as (V & _ & SP & _ & SB & _).
  destruct (upsert_state_row _ _ _ Es) as (s & Hs & Hdns & Hpol).
  destruct (buildExport_spec _ _ _ _ _ Hx' Hs) as (V' & P' & SP' & B' & SB' & S').
  apply upsert_policies_steps in Ep. apply upsert_sources_steps in Eb as [Eb _].
  apply upserts_fresh in Ep; [|by rewrite policy_step_keys|rewrite Hp2; intros k _; by intros ?%not_elem_of_nil].
  apply upserts_fresh in Eb; [|by rewrite source_step_keys|rewrite Hd2; intros k _; by intros ?%not_elem_of_nil].
  rewrite Hp2, app_nil_r in Ep. rewrite Hd2, app_nil_r in Eb.
  assert (xd_Policies cfg = xd_Policies cfg') as EP.
  { apply (sorted_by_key_unique xp_ID); [done..|]. rewrite P', Ep, <- !list_fmap_compose.
    apply reflexive_eq. symmetry. rewrite <- (list_fmap_id (xd_Policies cfg)) at 2. apply list_fmap_ext.
    intros i p Hp%list_elem_of_lookup_2. simpl. rewrite export_stored. apply stored_same; by apply Hen. }
  assert (xd_Blocklists cfg = xd_Blocklists cfg') as EB.
  { apply (sorted_by_key_unique xb_ID); [done..|]. rewrite B', Eb, <- !list_fmap_compose.
    apply reflexive_eq. symmetry. rewrite <- (list_fmap_id (xd_Blocklists cfg)) at 2. apply list_fmap_ext.
    intros i b _. by destruct b. }
  destruct cfg as [v ps bs st], cfg' as [v' ps' bs' st']. simpl in *. subst.
  rewrite Hdns, Hpol. by destruct st.
Qed.

(** Where the round trip fails. A source with no URL, which the embedded list and every
    category and collection have, is exported and makes the document unacceptable. *)
Lemma export_with_aggregate_rejected (h : APIHandler (W:=W)) d cfg h' s src commit_ok dry (h2 : APIHandler (W:=W)) d2 :
  row_at (h_SystemState h) "1" s → buildExport h d = (Ok cfg, h') → src ∈ db_sources d → bs_URL src = ""%string →
  r_status (ImportConfig net commit_ok dry (Ok cfg) h2 d2).1.1 = 400.
Proof.
  intros Hs Hx Hsrc Hurl. destruct (buildExport_spec _ _ _ _ _ Hx Hs) as (_ & _ & _ & B & _).
  assert (export_source src ∈ xd_Blocklists cfg) as Hin by (rewrite B; by apply list_elem_of_fmap_2).
  unfold ImportConfig. destruct (validateConfig cfg) as [[]|] eqn:Ev; [|done].
  apply validateConfig_inv in Ev as (_ & _ & _ & Hu). apply Hu in Hin. simpl in Hin. by rewrite Hurl in Hin.
Qed.

Lemma seeded_export_rejected (hash : string → string) now raw d d' (h : APIHandler (W:=W)) cfg h' s commit_ok dry
  (h2 : APIHandler (W:=W)) d2 :
  SeedIfEmpty hash now raw d = (Ok true, d') → row_at (h_SystemState h) "1" s → buildExport h d' = (Ok cfg, h') →
  r_status (ImportConfig net commit_ok dry (Ok cfg) h2 d2).1.1 = 400.
Proof.
  unfold SeedIfEmpty. destruct (CountSnapshots d) as [n|]; [|done]. destruct (0 <? n); [done|]. simpl.
  destruct (HostsParser_Parse raw) as [ds|]; [|done]. set (src := {| bs_ID := bundle_SourceID |}).
  destruct (SaveSnapshotWithEntries _ _ _ _ _) as [[id|] d1] eqn:Es; [|done]. intros [= <-] Hs Hx.
  apply (export_with_aggregate_rejected h d1 cfg h' s src); [done|done| |done].
  unfold SaveSnapshotWithEntries in Es. destruct (sql_create_snapshot _ d) as [[i t1]|]; [|done].
  destruct (create_entries _ _ t1) as [t2|]; [|done]. destruct (sql_save_source src t2) as [t3|] eqn:E3; [|done].
  destruct (sql_commit t3) as [t4|] eqn:E4; [|done]. injection Es as <- <-.
  apply save_source_law in E3 as (_ & _ & E3). apply commit_law in E4 as (_ & _ & E4). rewrite E4, E3. set_solver.
Qed.
End Facts.
