(* ===== verification/Auth.v ===== *)
(** * Administrator authentication

    [cmd/controlplane/middlewares/auth.go] and [cmd/controlplane/handlers/auth.go], over
    the credential repository of Storage.v. bcrypt is an interface. *)
From S2P Require Import Prelude GoStrings GoUtf8 Blocklist Policy Storage ControlPlane BlocklistApi.

(** golang.org/x/crypto/bcrypt; the salt is an argument. *)
Class Bcrypt := {
  GenerateFromPassword : string → string → option string;
  CompareHashAndPassword : string → string → bool;
}.
Class BcryptLaws `(Bcrypt) : Prop := {
  compare_generated : ∀ salt p h, GenerateFromPassword salt p = Some h → CompareHashAndPassword h p = true;
}.

(** ** The middleware *)

Inductive auth_outcome := Next | AbortWithStatus (status : Z).
#[export] Instance auth_outcome_eq_dec : EqDecision auth_outcome.
Proof. solve_decision. Defined.

Definition exemptPaths : list string :=
  ["/health"; "/"; "/api/v1/auth/status"; "/api/v1/auth/login"; "/api/v1/auth/setup"; "/api/v1/fleet/heartbeat"]%string.
Definition bearer : string := "Bearer ".

Section Auth.
Context {TA : SqlTable AdminCredential} `{D : BlocklistDb} `{B : Bcrypt}.

(** [header] is the Authorization header, empty when there is none. *)
Definition Auth (path header : string) (t : table AdminCredential) : auth_outcome :=
  if bool_decide (path ∈ exemptPaths) then Next
  else
    match IsSetup t with
    | Ok true =>
        if negb (HasPrefix header bearer) then AbortWithStatus 401
        else
          match ValidateAPIKey (TrimPrefix header bearer) t with
          | Ok true => Next
          | _ => AbortWithStatus 401
          end
    | _ => AbortWithStatus 403
    end.

(** ** The handlers *)

Definition GetAuthStatus (t : table AdminCredential) : response bool :=
  match IsSetup t with
  | Err _ => err_response StatusInternalServerError (ApiMsg "internal error")
  | Ok setup => ok_response StatusOK setup
  end.

Record setupBlocklistRequest := { sb_ID : string; sb_Name : string; sb_URL : string; sb_Format : string }.
Record setupRequest := { sr_Password : string; sr_Blocklists : list setupBlocklistRequest }.
Record setupData := { sd_token : string; sd_warnings : list string }.

(** The loop over the requested lists: the warnings, and the database. *)
Definition setup_blocklist (acc : list string * db) (bl : setupBlocklistRequest) : list string * db :=
  let '(warnings, d) := acc in
  if negb (isHTTPURL (sb_URL bl))
  then (warnings ++ [("skipped " +:+ sb_Name bl +:+ ": URL must use http:// or https://")%string], d)
  else
    let format := if bool_decide (sb_Format bl = ""%string) then "hosts"%string else sb_Format bl in
    let src := {| bs_ID := sb_ID bl; bs_Name := sb_Name bl; bs_URL := sb_URL bl; bs_Format := format;
                  bs_Category := ""; bs_Enabled := true; bs_Priority := 0; bs_ETag := "" |} in
    match sql_create_source src d with
    | Err _ => (warnings ++ [("failed to add " +:+ sb_Name bl)%string], d)
    | Ok d => (warnings, d)
    end.

(** The binding requires a password of at least eight characters. *)
Definition bind_setup (req : option setupRequest) : option setupRequest :=
  match req with
  | Some r => if bool_decide (sr_Password r = ""%string) || (RuneCountInString (sr_Password r) <? 8) then None else Some r
  | None => None
  end.

Definition Setup (salt uuid : string) (req : option setupRequest) (t : table AdminCredential) (d : db)
  : response setupData * table AdminCredential * db :=
  match IsSetup t with
  | Err _ => (err_response StatusInternalServerError (ApiMsg "internal error"), t, d)
  | Ok true => (err_response StatusConflict (ApiMsg "setup already completed"), t, d)
  | Ok false =>
      match bind_setup req with
      | None => (err_response StatusBadRequest (ApiMsg "password is required (minimum 8 characters)"), t, d)
      | Some req =>
          match GenerateFromPassword salt (sr_Password req) with
          | None => (err_response StatusInternalServerError (ApiMsg "internal error"), t, d)
          | Some hash =>
              match CreateAdmin hash uuid t with
              | Err _ => (err_response StatusInternalServerError (ApiMsg "failed to create admin"), t, d)
              | Ok t =>
                  let '(warnings, d) := foldl setup_blocklist ([], d) (sr_Blocklists req) in
                  (ok_response StatusOK {| sd_token := uuid; sd_warnings := warnings |}, t, d)
              end
          end
      end
  end.

Definition StatusUnauthorized : Z := 401.
(** [None]: the body could not be bound, or the password is empty. *)
Definition Login (req : option string) (t : table AdminCredential) : response string :=
  match req with
  | None => err_response StatusBadRequest (ApiMsg "password is required")
  | Some password =>
      match GetAdmin t with
      | Err _ => err_response StatusUnauthorized (ApiMsg "invalid credentials")
      | Ok admin =>
          if CompareHashAndPassword (ad_PasswordHash admin) password then ok_response StatusOK (ad_APIKey admin)
          else err_response StatusUnauthorized (ApiMsg "invalid credentials")
      end
  end.

(** ** Who gets in *)

Context {LA : SqlTableLaws TA}.

(** The reads of the table get through. *)
Definition readable (t : table AdminCredential) : Prop := ∀ w, is_ok (sql_select w any_order t) = true.

Lemma count_positive (w : AdminCredential → bool) t l :
  sql_select w any_order t = Ok l → (0 <? Z.of_nat (length l)) = true ↔ ∃ a, a ∈ rows t ∧ w a = true.
Proof.
  intros [E _]%select_law. rewrite Z.ltb_lt. split.
  - intros Hl. destruct l as [|a l]; [simpl in Hl; lia|].
    assert (a ∈ filter w (rows t)) as [Hw Ha]%list_elem_of_filter by (rewrite <- E; set_solver).
    exists a. split; [done|]. by apply Is_true_eq_true.
  - intros (a & Ha & Hw). assert (a ∈ l) as Hin.
    { rewrite E. apply list_elem_of_filter. by rewrite Hw. }
    destruct l; [by apply not_elem_of_nil in Hin|]. simpl. lia.
Qed.

Lemma ValidateAPIKey_iff key t b : ValidateAPIKey key t = Ok b → b = true ↔ ∃ a, a ∈ rows t ∧ ad_APIKey a = key.
Proof.
  unfold ValidateAPIKey. destruct (sql_select _ _ t) as [l|] eqn:E; [|done]. intros [= <-].
  rewrite (count_positive _ _ _ E). by setoid_rewrite bool_decide_eq_true.
Qed.

Lemma IsSetup_iff t b : IsSetup t = Ok b → b = true ↔ rows t ≠ [].
Proof.
  unfold IsSetup. destruct (sql_select _ _ t) as [l|] eqn:E; [|done]. intros [= <-].
  rewrite (count_positive _ _ _ E). unfold everything. split.
  - intros (a & Ha & _) Hn. rewrite Hn in Ha. by apply not_elem_of_nil in Ha.
  - destruct (rows t) as [|a l']; [done|]. intros _. exists a. split; [apply list_elem_of_here|done].
Qed.

Lemma key_passes path t a : readable t → a ∈ rows t → Auth path (bearer +:+ ad_APIKey a)%string t = Next.
Proof.
  intros Hr Ha. unfold Auth. destruct (bool_decide _); [done|]. destruct (IsSetup t) as [b|] eqn:Es.
  - destruct (IsSetup_iff _ _ Es) as [_ Hs]. rewrite Hs by (intros Hn; rewrite Hn in Ha; by apply not_elem_of_nil in Ha).
    rewrite HasPrefix_app, TrimPrefix_app. simpl.
    destruct (ValidateAPIKey (ad_APIKey a) t) as [b'|] eqn:Ev.
    + destruct (ValidateAPIKey_iff _ _ _ Ev) as [_ Hv]. by rewrite Hv by eauto.
    + unfold ValidateAPIKey in Ev. specialize (Hr (λ x, bool_decide (ad_APIKey x = ad_APIKey a))).
      by destruct (sql_select _ _ t).
  - unfold IsSetup in Es. specialize (Hr everything). by destruct (sql_select _ _ t).
Qed.

(** The gate: a request for a path that is not exempt goes on to its handler only with
    the header "Bearer <key>" for the key of a stored administrator; whenever the table
    can be read such a request does go on. *)
Theorem Auth_next_iff path header t :
  path ∉ exemptPaths →
  (Auth path header t = Next → ∃ a, a ∈ rows t ∧ header = (bearer +:+ ad_APIKey a)%string) ∧
  (readable t → (∃ a, a ∈ rows t ∧ header = (bearer +:+ ad_APIKey a)%string) → Auth path header t = Next).
Proof.
  intros Hp. split; [|by intros Hr (a & Ha & ->); apply key_passes].
  unfold Auth. rewrite bool_decide_eq_false_2 by done.
  destruct (IsSetup t) as [[]|]; [|done..]. destruct (HasPrefix header bearer) eqn:Hh; [|done]. simpl.
  destruct (ValidateAPIKey _ t) as [[]|] eqn:Ev; [|done..]. intros _.
  destruct (proj1 (ValidateAPIKey_iff _ _ _ Ev) eq_refl) as (a & Ha & Hk). exists a. split; [done|].
  rewrite Hk. by apply HasPrefix_TrimPrefix.
Qed.

(** ** Setting up and logging in *)

Lemma CreateAdmin_rows hash key t t' : CreateAdmin hash key t = Ok t' →
  rows t = [] ∧ rows t' = [{| ad_ID := 1; ad_PasswordHash := hash; ad_APIKey := key |}].
Proof.
  unfold CreateAdmin. destruct (IsSetup t) as [[]|] eqn:Es; [done| |done]. intros Hi%insert_law.
  assert (rows t = []) as Hn.
  { destruct (rows t) as [|a l] eqn:E; [done|]. assert (false = true); [|done]. apply (IsSetup_iff _ _ Es). by rewrite E. }
  rewrite Hn in Hi. split; [done|]. by apply Permutation_singleton_r.
Qed.

Inductive auth_request := RStatus | RSetup (salt uuid : string) (req : option setupRequest) | RLogin (req : option string).
Definition run_auth (r : auth_request) (s : table AdminCredential * db) : table AdminCredential * db :=
  match r with
  | RSetup salt uuid req => let '(_, t, d) := Setup salt uuid req s.1 s.2 in (t, d)
  | _ => s
  end.

Lemma Setup_table salt uuid req t d r t' d' : Setup salt uuid req t d = (r, t', d') →
  t' = t ∨ rows t = [] ∧ r_status r = 200 ∧ ∃ q h, req = Some q ∧ GenerateFromPassword salt (sr_Password q) = Some h ∧
    rows t' = [{| ad_ID := 1; ad_PasswordHash := h; ad_APIKey := uuid |}] ∧ sd_token <$> r_data r = Some uuid.
Proof.
  unfold Setup. destruct (IsSetup t) as [[]|]; [intros [= <- <- <-]; by left| |intros [= <- <- <-]; by left].
  destruct (bind_setup req) as [q|] eqn:Eb; [|intros [= <- <- <-]; by left].
  destruct (GenerateFromPassword _ _) as [h|] eqn:Eg; [|intros [= <- <- <-]; by left].
  destruct (CreateAdmin h uuid t) as [t1|] eqn:Ec; [|intros [= <- <- <-]; by left].
  destruct (foldl setup_blocklist _ _) as [ws d1]. intros [= <- <- <-]. right.
  apply CreateAdmin_rows in Ec as [H1 H2]. split; [done|]. split; [done|]. exists q, h. split; [|done].
  unfold bind_setup in Eb. destruct req as [q'|]; [|done]. by destruct (_ || _); simplify_eq.
Qed.

(** Set up once: as long as there is an administrator, no sequence of status, set-up
    and log-in requests changes the credential. *)
Theorem setup_only_once reqs t d : rows t ≠ [] → (foldl (λ s r, run_auth r s) (t, d) reqs).1 = t.
Proof.
  revert d. induction reqs as [|r reqs IH]; intros d Hn; [done|]. simpl.
  assert ((run_auth r (t, d)).1 = t) as Hr.
  { destruct r as [|salt uuid req|]; [done| |done]. simpl. destruct (Setup _ _ _ _ _) as [[x t'] d'] eqn:E.
    by apply Setup_table in E as [?|[? _]]. }
  destruct (run_auth r (t, d)) as [t1 d1]. simpl in Hr. subst t1. by apply IH.
Qed.

Context {LB : BcryptLaws B}.

(** C19. What set-up promises: once it is answered 200 with a token, a later log-in with the
    password chosen returns that token, and a request for any path that bears it passes
    the gate, as long as the table can be read. *)
Theorem setup_login_access salt uuid q t d r t' d' path :
  rows t = [] → Setup salt uuid (Some q) t d = (r, t', d') → r_status r = 200 → readable t' →
  is_ok (GetAdmin t') = true →
  sd_token <$> r_data r = Some uuid ∧ Login (Some (sr_Password q)) t' = ok_response StatusOK uuid ∧
  Auth path (bearer +:+ uuid)%string t' = Next.
Proof.
  intros Hn Hs Hr Hread Hget. pose proof Hs as Hs'. apply Setup_table in Hs as [->|(_ & _ & q' & h & [= <-] & Hg & Hrows & Hd)].
  - exfalso. unfold Setup in Hs'. destruct (IsSetup t) as [[]|]; [by injection Hs' as <-| |by injection Hs' as <-].
    destruct (bind_setup _) as [q'|]; [|by injection Hs' as <-].
    destruct (GenerateFromPassword _ _); [|by injection Hs' as <-].
    destruct (CreateAdmin _ _ t) as [t1|] eqn:Ec; [|by injection Hs' as <-].
    destruct (foldl setup_blocklist _ _) as [ws d1]. injection Hs' as <- <- <-.
    apply CreateAdmin_rows in Ec as [_ Ec]. congruence.
  - set (a := {| ad_ID := 1; ad_PasswordHash := h; ad_APIKey := uuid |}) in *. split; [done|]. split.
    + unfold Login. destruct (GetAdmin t') as [x|] eqn:E; [|done]. apply sql_first_row in E as [E _].
      rewrite Hrows in E. apply list_elem_of_singleton in E as ->. simpl. by rewrite (compare_generated _ _ _ Hg).
    + apply (key_passes path t' a); [done|]. rewrite Hrows. set_solver.
Qed.
End Auth.
