(* ===== verification/ApiRuns.v ===== *)
(** * Concrete runs of the control plane and of the two processes

    Tables that are lists, a data plane made by [NewDNSEngine], and the theorems of
    ControlSpec.v, Planes.v and ConfigIO.v at concrete requests. *)
From S2P Require Import Prelude GoStrings GoUtf8 GoNet Policy PolicyEngine PolicySpec DnsMsg Upstream Alert Threat.
From S2P Require Import Blocklist Config DnsEngine EngineSpec Json Storage ControlPlane ControlSpec BlocklistApi Planes ConfigIO Auth.

#[local] Existing Instance run_unicode.
#[local] Existing Instance run_tz.
#[local] Existing Instance run_bloom.
#[local] Existing Instance run_regexp.
#[local] Existing Instance run_threat.
#[local] Existing Instance run_transport.
#[local] Instance run_bloom_laws : BloomLaws run_bloom := set_bloom_laws.
#[local] Instance run_blocklists : BlocklistDb := list_db.
#[local] Instance run_blocklists_laws : BlocklistDbLaws run_blocklists := list_db_laws.
#[local] Instance run_fetcher : Fetcher := ex_fetcher.
#[local] Instance policy_table : SqlTable PolicyRow := list_table.
#[local] Instance resolver_table : SqlTable ResolverRow := list_table.
#[local] Instance state_table : SqlTable SystemState := list_table.
#[local] Instance policy_table_laws : SqlTableLaws policy_table := list_table_laws.
#[local] Instance resolver_table_laws : SqlTableLaws resolver_table := list_table_laws.
#[local] Instance state_table_laws : SqlTableLaws state_table := list_table_laws.

Definition run_close (_ : UpstreamManager) (w : unit) : unit := w.
Definition run_net (_ : nat) : rpc_outcome := Delivered.

Lemma run_boot_ok : is_Some (run_engine false true false).
Proof. apply run_engine_ok. Qed.
Definition run_dp : DataPlane (W:=unit) := {| dp_engine := is_Some_proj run_boot_ok; dp_world := tt |}.

Definition run_resolver_row (id addr : string) (pos : Z) : ResolverRow := {|
  rs_ID := id; rs_Name := addr; rs_Address := addr; rs_Protocol := "udp"; rs_Position := pos; rs_CreatedAt := pos |}.
Definition run_on : SystemState := {| ss_ID := 1; ss_DNSEnabled := true; ss_PolicyEnabled := true |}.
Definition run_off : SystemState := {| ss_ID := 1; ss_DNSEnabled := false; ss_PolicyEnabled := true |}.

Definition run_handler (state : SystemState) (resolvers : table ResolverRow) : APIHandler (W:=unit) := {|
  h_Policies := table_of [] eq_refl; h_Resolvers := resolvers; h_SystemState := table_of [state] eq_refl;
  h_DataPlaneClient := Some run_dp; h_PolicyEngine := Some NewPolicyEngine; h_calls := 0 |}.
Definition two_resolvers : table ResolverRow :=
  table_of [run_resolver_row "b" "1.1.1.1:53" 1; run_resolver_row "a" "8.8.8.8:53" 0] eq_refl.
Definition run_h : APIHandler (W:=unit) := run_handler run_on two_resolvers.

(** ** Resolvers *)

Definition add_quad9 : resolver_op :=
  RCreate 5 "c" (Ok {| cr_Name := ""; cr_Address := "9.9.9.9:53"; cr_Protocol := "TCP" |}).
Definition after_quad9 := run_resolver run_close run_net add_quad9 run_h.

Lemma run_positions : int_positions (rows (h_Resolvers run_h)).
Proof.
  intros x. change (rows (h_Resolvers run_h)) with [run_resolver_row "b" "1.1.1.1:53" 1; run_resolver_row "a" "8.8.8.8:53" 0].
  intros [->|[->|Hx]%elem_of_cons]%elem_of_cons; [by vm_compute|by vm_compute|by apply not_elem_of_nil in Hx].
Qed.
Lemma resolver_edit_applied_witness :
  after_quad9.1 = 201 ∧ resolver_outcome add_quad9 run_h after_quad9.1 after_quad9.2.
Proof.
  split; [vm_compute; reflexivity|].
  exact (resolver_edit_applied run_close run_net add_quad9 run_h run_dp after_quad9.1 after_quad9.2
    eq_refl run_positions (surjective_pairing after_quad9)).
Defined.

(** With a position that is the largest int, which an edit may set, the next resolver to
    be created is stored with the smallest and asked first. *)
Lemma position_wraps :
  let moved := run_resolver run_close run_net (RUpdate "b" (Ok {| ur_Name := None; ur_Address := None; ur_Protocol := None;
                                                                  ur_Position := Some int64_max |})) run_h in
  let added := run_resolver run_close run_net add_quad9 moved.2 in
  moved.1 = 200 ∧ added.1 = 201 ∧
  ResolverRepo_Addresses (h_Resolvers added.2) = Ok ["9.9.9.9:53"; "8.8.8.8:53"; "1.1.1.1:53"]%string.
Proof. vm_compute. repeat split. Qed.

(** The last resolver can be deleted: the engine then asks nobody. *)
Lemma last_resolver_deleted :
  let h := run_handler run_on (table_of [run_resolver_row "a" "8.8.8.8:53" 0] eq_refl) in
  let r := run_resolver run_close run_net (RDelete "a") h in
  r.1 = 200 ∧ match h_DataPlaneClient r.2 with
              | Some dp => (λ m, length (um_upstreams m)) <$> e_upstreamManager (dp_engine dp) = Some 0%nat
              | None => False end.
Proof. vm_compute. auto. Qed.

Definition run_ids (i : nat) : string := pretty i.
Definition no_resolvers : table ResolverRow := table_of [] eq_refl.
Definition configured : list string := ["8.8.8.8:53"; "1.1.1.1:53"]%string.
Definition seeded := SeedDefaults 3 run_ids configured no_resolvers.
Lemma seeded_ok : seeded.1 = Ok tt.
Proof. vm_compute. reflexivity. Qed.

Lemma SeedDefaults_addresses_witness :
  is_ok (ResolverRepo_Addresses seeded.2) = true ∧ ∀ l, ResolverRepo_Addresses seeded.2 = Ok l → l = configured.
Proof.
  split; [vm_compute; reflexivity|]. intros l Hl.
  refine (proj1 (SeedDefaults_addresses 3 run_ids configured no_resolvers seeded.2 l _ Hl) eq_refl).
  rewrite <- seeded_ok. apply surjective_pairing.
Defined.

(** ** Policies *)

Definition block_games : CreatePolicyRequest := {|
  pc_ID := "games"; pc_Name := "Games"; pc_Description := ""; pc_Category := "fun"; pc_Action := "block";
  pc_RedirectIP := ""; pc_Domains := Some ["Games.example.com."]%string; pc_Regexes := None;
  pc_ClientCIDRs := Some ["192.168.1.0/24"]%string; pc_Priority := 5; pc_ScheduleDays := None;
  pc_StartTime := ""; pc_EndTime := ""; pc_Timezone := "" |}.
Definition after_games := run_policy (PCreate (Ok block_games)) run_h.

Lemma policy_edit_applied_witness :
  after_games.1 = 201 ∧ policy_outcome (PCreate (Ok block_games)) run_h after_games.1 after_games.2.
Proof.
  split; [vm_compute; reflexivity|].
  exact (policy_edit_applied (PCreate (Ok block_games)) run_h after_games.1 after_games.2 (surjective_pairing after_games)).
Defined.

Definition run_edits : list policy_op := [PCreate (Ok block_games); PDelete "nope"; PCreate (Err "bad JSON"%string)].
Lemma policies_stay_valid_witness : valid_store (run_policies run_edits run_h).
Proof. apply (policies_stay_valid run_edits run_h). intros m Hm. by apply not_elem_of_nil in Hm. Defined.

Definition switched := ToggleDnsEngine run_net (Ok false) run_dp run_h.
Lemma toggle_then_status_witness :
  ∃ dp1 st, h_DataPlaneClient switched.2 = Some dp1 ∧
    r_data (GetDnsEngineStatus run_net dp1 switched.2).1 = Some st ∧ ds_Enabled st = false ∧ ds_AcceptingQueries st = false.
Proof.
  exists (svc_SetAcceptQueries false run_dp).
  exists {| ds_Enabled := false; ds_AcceptingQueries := false; ds_LastError := "" |}.
  assert (h_DataPlaneClient switched.2 = Some (svc_SetAcceptQueries false run_dp)) as Hd by (vm_compute; reflexivity).
  assert (r_data (GetDnsEngineStatus run_net (svc_SetAcceptQueries false run_dp) switched.2).1
          = Some {| ds_Enabled := false; ds_AcceptingQueries := false; ds_LastError := "" |}) as Hs by (vm_compute; reflexivity).
  split; [exact Hd|]. split; [exact Hs|].
  exact (toggle_then_status run_net false run_dp run_h switched.1 switched.2 (svc_SetAcceptQueries false run_dp) run_on
    (GetDnsEngineStatus run_net (svc_SetAcceptQueries false run_dp) switched.2).1
    (GetDnsEngineStatus run_net (svc_SetAcceptQueries false run_dp) switched.2).2 _
    (conj (list_elem_of_here _ _) eq_refl) (surjective_pairing _) ltac:(vm_compute; reflexivity) Hd
    (surjective_pairing _) Hs).
Defined.

(** ** From the API to a query *)

Definition run_client : string := "192.168.1.7:4242".
Definition polled_policies : list Policy := [requested_policy block_games].
Lemma polled_games : polled [] (h_Policies after_games.2) polled_policies.
Proof.
  assert (PolicyRepo_List (h_Policies after_games.2) = Ok [policy_of_request block_games]) as H by (vm_compute; reflexivity).
  exists [policy_of_request block_games]. split; [exact H|reflexivity].
Qed.
Definition games_deny : Decision :=
  {| d_Action := ActionDeny; d_PolicyID := "games"; d_Category := "fun"; d_RedirectIP := "" |}.

Lemma games_in_force : in_force 0 (parseClientIP run_client) (requested_policy block_games).
Proof.
  split; [vm_compute; reflexivity|]. right. split; [by vm_compute|].
  eexists "192.168.1.0/24"%string, _. split; [vm_compute; by left|]. split; vm_compute; reflexivity.
Qed.

Lemma accepted_policy_enforced_witness :
  Evaluate (reloadPolicies [] (h_Policies after_games.2) NewPolicyEngine) 0 "games.example.com" run_client
  = Ok games_deny.
Proof.
  refine (accepted_policy_enforced (TRs := resolver_table) (TS := state_table) block_games run_h
    (CreatePolicy (Ok block_games) run_h).1 after_games.2 [] polled_policies NewPolicyEngine 0 "games.example.com"
    run_client "Games.example.com." _ _ _ polled_games _ _ _ _ _ games_in_force _).
  - assert ((CreatePolicy (Ok block_games) run_h).2 = after_games.2) as <- by
      (unfold after_games, run_policy; by destruct (CreatePolicy _ _)).
    apply surjective_pairing.
  - vm_compute. reflexivity.
  - repeat constructor.
  - split; [constructor|]. intros p m Hp. by apply not_elem_of_nil in Hp.
  - vm_compute. by left.
  - vm_compute. reflexivity.
  - vm_compute. reflexivity.
  - apply (proj1 (Nat.ltb_lt _ _)). vm_compute. reflexivity.
  - intros q Hq _ _. left. by apply list_elem_of_singleton in Hq.
Defined.

(** ** Starting *)

Definition cp_started := controlplane_main run_close run_net 3 run_ids (run_config false false) (run_handler run_off two_resolvers).
Definition cp_after : APIHandler (W:=unit) := default (run_handler run_off two_resolvers) cp_started.
Lemma cp_started_ok : cp_started = Some cp_after.
Proof.
  assert ((if cp_started is Some _ then true else false) = true) as H by (vm_compute; reflexivity).
  unfold cp_after. by destruct cp_started.
Qed.
Lemma cp_after_addresses : ResolverRepo_Addresses (h_Resolvers cp_after) = Ok ["8.8.8.8:53"; "1.1.1.1:53"]%string.
Proof. vm_compute. reflexivity. Qed.

Lemma controlplane_start_restores_witness :
  ∃ dp' mgr, h_DataPlaneClient cp_after = Some dp' ∧ e_acceptQueries (dp_engine dp') = false ∧
    NewUpstreamManager ["8.8.8.8:53"; "1.1.1.1:53"]%string 4 false = Ok mgr ∧ e_upstreamManager (dp_engine dp') = Some mgr.
Proof.
  destruct (controlplane_start_restores run_close run_net 3 run_ids (run_config false false)
    (run_handler run_off two_resolvers) cp_after run_dp run_off (λ _, eq_refl) eq_refl
    (conj (list_elem_of_here _ _) eq_refl) cp_started_ok) as (dp' & H1 & H2 & H3).
  destruct (NewUpstreamManager ["8.8.8.8:53"; "1.1.1.1:53"]%string 4 false) as [mgr|] eqn:Em; [|by vm_compute in Em].
  exists dp', mgr. split; [exact H1|]. split; [exact H2|]. split; [reflexivity|]. exact (H3 _ _ _ cp_after_addresses Em).
Defined.

Definition run_bundle : string := "0.0.0.0 evil.com" +:+ utf8 [10].
Definition run_boot : BootEnv := {|
  bo_now := 1; bo_statistics := true; bo_syslog_ok := false; bo_alert := {| ac_Threshold := 0; ac_Window := 0 |};
  bo_file := Err LoadNoPath; bo_bundled := true; bo_bundle := run_bundle; bo_geo := Ok None; bo_devices := None;
  bo_listeners := true |}.
Definition fresh_tables : tables := {| t_entries := []; t_snapshots := []; t_sources := [] |}.
Definition seeded_tables : tables := (SeedIfEmpty id 1 run_bundle fresh_tables).2.
Definition no_policies : table PolicyRow := table_of [] eq_refl.
Definition dp_started := dataplane_main id run_boot (run_config false false) fresh_tables no_policies.
Definition started_engine : option Engine := fst <$> dp_started.

Lemma dp_started_ok : match dp_started with Some (e, d) => d = seeded_tables | None => False end.
Proof. vm_compute. reflexivity. Qed.

Lemma first_start_blocks_bundle_witness :
  ∃ e chk, dp_started = Some (e, seeded_tables) ∧ e_blocklist e = Some chk ∧
    ∀ ans, chk "www.EVIL.com"%string = Ok ans → ans = true.
Proof.
  pose proof dp_started_ok as Hs. destruct dp_started as [[e d]|] eqn:E; [|done]. subst d.
  assert (e_blocklist e = Some (λ domain, IsBlocked domain seeded_tables)) as Hb.
  { exact (proj1 (dataplane_main_blocklist _ _ _ _ _ _ _ E)). }
  exists e, (λ domain, @IsBlocked run_unicode run_blocklists domain seeded_tables). split; [done|]. split; [done|]. intros ans Ha.
  refine (first_start_blocks_bundle id run_boot (run_config false false) fresh_tables no_policies e seeded_tables
    ["evil.com"%string] (λ domain, @IsBlocked run_unicode run_blocklists domain seeded_tables) "evil.com" "www.EVIL.com" ans
    eq_refl eq_refl eq_refl list_db_saves _ (list_elem_of_here _ _) _ E Hb Ha).
  - vm_compute. reflexivity.
  - apply (bool_decide_unpack _). vm_compute. exact I.
Defined.

(** A negative refresh interval is accepted by the parser and makes [NewTicker] panic. *)
Lemma negative_interval_panics : NewTicker (refreshInterval "-1h") = None.
Proof. vm_compute. reflexivity. Qed.
Lemma empty_health_interval : healthInterval "" = hour ∧ healthInterval "off" = 0.
Proof. vm_compute. auto. Qed.

(** ** Export and import *)

Definition run_doc : ConfigDoc := {|
  xd_Version := "1";
  xd_Policies := [{| xp_ID := "p"; xp_Name := "P"; xp_Description := ""; xp_Category := "c"; xp_Action := "BLOCK";
                     xp_RedirectIP := ""; xp_Domains := Some ["a.com"]%string; xp_Priority := 3; xp_Enabled := true |}];
  xd_Blocklists := [{| xb_ID := "ads"; xb_Name := "Ads"; xb_URL := "https://lists/ads"; xb_Format := "hosts";
                       xb_Category := ""; xb_Priority := 0; xb_Enabled := true |}];
  xd_Settings := {| xs_DNSEnabled := false; xs_PolicyEnabled := true |} |}.

Definition imported_once := ImportConfig run_net true "" (Ok run_doc) run_h fresh_tables.
Lemma pair3 {A B C} (x : A * B * C) : x = (x.1.1, x.1.2, x.2).
Proof. by destruct x as [[]]. Qed.

Lemma ImportConfig_applied_witness :
  r_status imported_once.1.1 = 200 ∧
  (r_status imported_once.1.1 = 200 ∧ (∃ cfg, Ok run_doc = Ok (E:=string) cfg ∧ validateConfig cfg = Ok tt ∧
    if EqualFold "" "true" then imported_once.1.2 = run_h ∧ imported_once.2 = fresh_tables
    else imported cfg run_h imported_once.1.2 fresh_tables imported_once.2)
  ∨ r_status imported_once.1.1 ∈ [400; 500] ∧ imported_once.1.2 = run_h ∧ imported_once.2 = fresh_tables).
Proof.
  split; [vm_compute; reflexivity|].
  exact (ImportConfig_applied run_net true "" (Ok run_doc) run_h fresh_tables imported_once.1.1 imported_once.1.2
    imported_once.2 (pair3 imported_once)).
Defined.

Definition cloned := ImportConfig run_net true "" (Ok run_doc) run_h fresh_tables.
Definition clone_export := buildExport cloned.1.2 cloned.2.
Lemma first_export : (buildExport imported_once.1.2 imported_once.2).1 = Ok run_doc.
Proof. vm_compute. reflexivity. Qed.

Definition clone_doc : ConfigDoc := match clone_export.1 with Ok cfg => cfg | Err _ => run_doc end.
Lemma clone_export_ok : clone_export.1 = Ok clone_doc.
Proof. vm_compute. reflexivity. Qed.

Lemma export_import_export_witness : clone_export.1 = Ok clone_doc ∧ clone_doc = run_doc.
Proof.
  split; [exact clone_export_ok|]. pose proof clone_export_ok as Hc.
  destruct (upsert_state_row (xd_Settings run_doc) (h_SystemState run_h) (h_SystemState imported_once.1.2)) as (s & Hs & _).
  { vm_compute. reflexivity. }
  refine (export_import_export run_net true "" imported_once.1.2 (buildExport imported_once.1.2 imported_once.2).2 run_h
    cloned.1.2 clone_export.2 imported_once.2 fresh_tables cloned.2 s run_doc clone_doc cloned.1.1 Hs _ eq_refl eq_refl _ _
    (pair3 cloned) _ _).
  - rewrite <- first_export. apply surjective_pairing.
  - vm_compute. reflexivity.
  - intros p ->%list_elem_of_singleton. split; [reflexivity|]. repeat constructor.
  - vm_compute. reflexivity.
  - rewrite <- Hc. apply surjective_pairing.
Defined.

(** An import stores policies that the policy API and the engine's validation refuse. *)
Definition blank_domain_doc : ConfigDoc := {|
  xd_Version := "1";
  xd_Policies := [{| xp_ID := "p"; xp_Name := "P"; xp_Description := ""; xp_Category := "c"; xp_Action := "BLOCK";
                     xp_RedirectIP := ""; xp_Domains := Some [" "]%string; xp_Priority := 3; xp_Enabled := false |}];
  xd_Blocklists := []; xd_Settings := {| xs_DNSEnabled := true; xs_PolicyEnabled := true |} |}.
Definition blank_imported := ImportConfig run_net true "" (Ok blank_domain_doc) run_h fresh_tables.
Lemma import_skips_validation :
  r_status blank_imported.1.1 = 200 ∧
  map (λ m, (is_ok (ValidatePolicy (ToEnginePolicy m)), mp_Enabled m)) (rows (h_Policies blank_imported.1.2)) = [(false, true)].
Proof. vm_compute. auto. Qed.

(** A policy that is disabled in the document is stored enabled. *)
Definition disabled_doc : ConfigDoc := {|
  xd_Version := "1";
  xd_Policies := [{| xp_ID := "p"; xp_Name := "P"; xp_Description := ""; xp_Category := "c"; xp_Action := "BLOCK";
                     xp_RedirectIP := ""; xp_Domains := Some ["a.com"]%string; xp_Priority := 3; xp_Enabled := false |}];
  xd_Blocklists := []; xd_Settings := {| xs_DNSEnabled := true; xs_PolicyEnabled := true |} |}.
Definition disabled_imported := ImportConfig run_net true "" (Ok disabled_doc) run_h fresh_tables.
Lemma import_enables :
  r_status disabled_imported.1.1 = 200 ∧ map mp_Enabled (rows (h_Policies disabled_imported.1.2)) = [true].
Proof. vm_compute. auto. Qed.

(** ** Authentication *)

#[local] Instance run_bcrypt : Bcrypt := {|
  GenerateFromPassword := λ salt p, Some p; CompareHashAndPassword := λ h p, bool_decide (h = p) |}.
#[local] Instance run_bcrypt_laws : BcryptLaws run_bcrypt.
Proof. split. intros salt p h [= <-]. by apply bool_decide_eq_true_2. Qed.
#[local] Instance admin_table : SqlTable AdminCredential := list_table.
#[local] Instance admin_table_laws : SqlTableLaws admin_table := list_table_laws.

Definition run_setup : setupRequest := {|
  sr_Password := "correct horse";
  sr_Blocklists := [{| sb_ID := "x"; sb_Name := "X"; sb_URL := "file:///etc/passwd"; sb_Format := "" |}] |}.
Definition no_admin : table AdminCredential := table_of [] eq_refl.
Definition set_up := Setup "salt" "key-1" (Some run_setup) no_admin fresh_tables.
Lemma set_up_readable : readable set_up.1.2.
Proof.
  intros w. assert (rows set_up.1.2 = [{| ad_ID := 1; ad_PasswordHash := "correct horse"; ad_APIKey := "key-1" |}]) as Hr
    by (vm_compute; reflexivity).
  cbn [sql_select admin_table list_table]. change (`set_up.1.2) with (rows set_up.1.2). rewrite Hr.
  rewrite filter_cons. case_decide; reflexivity.
Qed.

Lemma setup_login_access_witness :
  r_status set_up.1.1 = 200 ∧ sd_token <$> r_data set_up.1.1 = Some "key-1"%string ∧
  Login (Some "correct horse"%string) set_up.1.2 = ok_response StatusOK "key-1"%string ∧
  Auth "/api/v1/policies" "Bearer key-1" set_up.1.2 = Next.
Proof.
  split; [vm_compute; reflexivity|].
  exact (setup_login_access "salt" "key-1" run_setup no_admin fresh_tables set_up.1.1 set_up.1.2 set_up.2
    "/api/v1/policies" eq_refl (pair3 set_up) ltac:(vm_compute; reflexivity) set_up_readable ltac:(vm_compute; reflexivity)).
Defined.

Lemma Auth_next_iff_witness :
  Auth "/api/v1/policies" "Bearer key-1" set_up.1.2 = Next ∧
  ∃ a, a ∈ rows set_up.1.2 ∧ "Bearer key-1"%string = (bearer +:+ ad_APIKey a)%string.
Proof.
  assert (Auth "/api/v1/policies" "Bearer key-1" set_up.1.2 = Next) as H by (vm_compute; reflexivity).
  split; [exact H|]. refine (proj1 (Auth_next_iff "/api/v1/policies" "Bearer key-1" set_up.1.2 _) H).
  apply (bool_decide_unpack _). vm_compute. exact I.
Defined.

Lemma setup_only_once_witness :
  (foldl (λ s r, run_auth (D:=run_blocklists) r s) (set_up.1.2, fresh_tables) [RSetup "s" "key-2" (Some run_setup); RLogin None]).1 = set_up.1.2.
Proof.
  apply (setup_only_once (D:=run_blocklists) [RSetup "s" "key-2" (Some run_setup); RLogin None] set_up.1.2 fresh_tables).
  intros Hn. assert (length (rows set_up.1.2) = 1%nat) as Hl by (vm_compute; reflexivity). by rewrite Hn in Hl.
Defined.
