(* ===== verification/GoTime.v ===== *)
(** * Go's [time]: durations as numbers, dates, RFC 3339

    What the repository uses of [time] beyond instants and durations (Prelude.v): the
    float64 views of a duration, the civil date of an instant in UTC, [Time.Format] for
    the layouts that occur, and [time.Parse] for RFC 3339 stamps and plain dates. *)
From S2P Require Import Prelude GoStrings GoStrconv.

(** ** Durations *)

(** [Duration.Seconds] and [Duration.Hours]. *)
Definition Seconds (d : Z) : float64 :=
  f64_add (f64_of_Z (Z.quot d second)) (f64_div (f64_of_Z (Z.rem d second)) (f64_of_Z second)).
Definition Hours (d : Z) : float64 :=
  f64_add (f64_of_Z (Z.quot d hour)) (f64_div (f64_of_Z (Z.rem d hour)) (f64_of_Z hour)).
(** [int64(d.Seconds())] *)
Definition whole_seconds (d : Z) : Z := f64_trunc (Seconds d).

(** The zero [time.Time], midnight of 1 January of the year 1. *)
Definition zero_time : Z := - 62135596800 * second.
Definition IsZero (t : Z) : bool := t =? zero_time.

(** ** Dates *)

Record date := { d_year : Z; d_month : Z; d_day : Z }.
Definition day_ns : Z := 24 * hour.

(** The proleptic Gregorian calendar, counted in years that start in March. *)
Definition civil_of_days (z : Z) : date :=
  let z := z + 719468 in
  let era := z / 146097 in
  let doe := z mod 146097 in
  let yoe := (doe - doe / 1460 + doe / 36524 - doe / 146096) / 365 in
  let doy := doe - (365 * yoe + yoe / 4 - yoe / 100) in
  let mp := (5 * doy + 2) / 153 in
  let m := if mp <? 10 then mp + 3 else mp - 9 in
  {| d_year := yoe + era * 400 + (if m <=? 2 then 1 else 0); d_month := m; d_day := doy - (153 * mp + 2) / 5 + 1 |}.
Definition days_of_civil (d : date) : Z :=
  let y := d_year d - (if d_month d <=? 2 then 1 else 0) in
  let era := y / 400 in
  let yoe := y mod 400 in
  let doy := (153 * (if d_month d <=? 2 then d_month d + 9 else d_month d - 3) + 2) / 5 + d_day d - 1 in
  era * 146097 + (yoe * 365 + yoe / 4 - yoe / 100 + doy) - 719468.

Lemma yoe_range doe : 0 ≤ doe < 146097 →
  0 ≤ (doe - doe / 1460 + doe / 36524 - doe / 146096) / 365 ≤ 399 ∧
  let yoe := (doe - doe / 1460 + doe / 36524 - doe / 146096) / 365 in
  0 ≤ doe - (365 * yoe + yoe / 4 - yoe / 100) ≤ 365.
Proof. intros H. cbv zeta. Z.to_euclidean_division_equations. lia. Qed.

Lemma days_of_civil_of_days z : days_of_civil (civil_of_days z) = z.
Proof.
  unfold civil_of_days. set (w := z + 719468). set (doe := w mod 146097).
  assert (0 ≤ doe < 146097) as Hd by (apply Z.mod_pos_bound; lia).
  apply yoe_range in Hd as [Hy Hdoy]. cbv zeta in Hdoy |- *.
  set (yoe := (doe - doe / 1460 + doe / 36524 - doe / 146096) / 365) in *.
  set (doy := doe - (365 * yoe + yoe / 4 - yoe / 100)) in *. set (mp := (5 * doy + 2) / 153).
  assert (0 ≤ mp ≤ 11) as Hm by (subst mp; Z.to_euclidean_division_equations; lia).
  unfold days_of_civil. cbn [d_year d_month d_day].
  assert (w = 146097 * (w / 146097) + doe) as Hw by (apply Z.div_mod; lia).
  set (m := if mp <? 10 then mp + 3 else mp - 9). set (b := if m <=? 2 then 1 else 0).
  assert ((if m <=? 2 then m + 9 else m - 3) = mp) as Em.
  { subst m. destruct (Z.ltb_spec mp 10); case_match; lia. }
  replace (yoe + w / 146097 * 400 + b - b) with (yoe + w / 146097 * 400) by lia.
  rewrite Z.div_add, Z.mod_add, Z.div_small, Z.mod_small by lia. rewrite Em. subst doy. lia.
Qed.

Definition isLeap (y : Z) : bool := (y mod 4 =? 0) && (negb (y mod 100 =? 0) || (y mod 400 =? 0)).
Definition daysIn (m y : Z) : Z :=
  if m =? 2 then (if isLeap y then 29 else 28) else if (m =? 4) || (m =? 6) || (m =? 9) || (m =? 11) then 30 else 31.

Definition date_of (t : Z) : date := civil_of_days (t / day_ns).
Definition hour_of (t : Z) : Z := t / hour mod 24.
Definition minute_of (t : Z) : Z := t / minute mod 60.
Definition second_of (t : Z) : Z := t / second mod 60.
(** [time.Date] in UTC. *)
Definition Date (d : date) (hh mm ss ns : Z) : Z :=
  days_of_civil d * day_ns + hh * hour + mm * minute + ss * second + ns.

Lemma Date_of t : Date (date_of t) (hour_of t) (minute_of t) (second_of t) (t mod second) = t.
Proof.
  unfold Date, date_of, hour_of, minute_of, second_of. rewrite days_of_civil_of_days.
  unfold day_ns, hour, minute, second. Z.to_euclidean_division_equations. lia.
Qed.

(** ** Format *)

(** [appendInt]: a sign, and the digits padded to the width. *)
Definition pad_int (width : nat) (z : Z) : string :=
  let ds := Itoa (Z.abs z) in
  ((if (z <? 0)%Z then "-" else "") +:+ zeros (width - String.length ds) +:+ ds)%string.

Definition month_abbr (m : Z) : string :=
  default ""%string (["Jan"; "Feb"; "Mar"; "Apr"; "May"; "Jun"; "Jul"; "Aug"; "Sep"; "Oct"; "Nov"; "Dec"]%string !! Z.to_nat (m - 1)).

(** The layouts time.RFC3339 (of a time in UTC), "Jan 2", "Jan 2, 2006", "15:04". *)
Definition Format_RFC3339 (t : Z) : string :=
  let d := date_of t in
  (pad_int 4 (d_year d) +:+ "-" +:+ pad_int 2 (d_month d) +:+ "-" +:+ pad_int 2 (d_day d) +:+ "T" +:+
   pad_int 2 (hour_of t) +:+ ":" +:+ pad_int 2 (minute_of t) +:+ ":" +:+ pad_int 2 (second_of t) +:+ "Z")%string.
Definition Format_month_day (t : Z) : string :=
  (month_abbr (d_month (date_of t)) +:+ " " +:+ Itoa (d_day (date_of t)))%string.
Definition Format_month_day_year (t : Z) : string :=
  (Format_month_day t +:+ ", " +:+ pad_int 4 (d_year (date_of t)))%string.
Definition Format_clock (t : Z) : string := (pad_int 2 (hour_of t) +:+ ":" +:+ pad_int 2 (minute_of t))%string.
(** The stamp of the standard logger, "2006/01/02 15:04:05 ", of a wall clock. *)
Definition Format_log_stamp (t : Z) : string :=
  let d := date_of t in
  (pad_int 4 (d_year d) +:+ "/" +:+ pad_int 2 (d_month d) +:+ "/" +:+ pad_int 2 (d_day d) +:+ " " +:+
   Format_clock t +:+ ":" +:+ pad_int 2 (second_of t) +:+ " ")%string.

(** [fmtFrac]: the last [prec] digits as a fraction without trailing zeros, and the rest. *)
Fixpoint fmtFrac (prec : nat) (v : Z) (print : bool) (acc : string) : string * Z :=
  match prec with
  | O => (if print then String "." acc else acc, v)
  | S p => let digit := v mod 10 in
           let print := print || negb (digit =? 0) in
           fmtFrac p (v / 10) print (if print then Itoa digit +:+ acc else acc)%string
  end.
(** [Duration.String]; the sign of microseconds is U+00B5. *)
Definition Duration_String (d : Z) : string :=
  let u := Z.abs d in
  let sub_second (prec : nat) (name : string) : string :=
    let '(f, v) := fmtFrac prec u false "" in (Itoa v +:+ f +:+ name)%string in
  let body : string :=
    if u =? 0 then "0s"
    else if u <? 1000 then sub_second 0%nat "ns"
    else if u <? millisecond then sub_second 3%nat (utf8 [194; 181; 115])
    else if u <? second then sub_second 6%nat "ms"
    else
      let '(f, v) := fmtFrac 9 u false "" in
      let secs := (Itoa (v mod 60) +:+ f +:+ "s")%string in
      let m := v / 60 in
      if m =? 0 then secs
      else
        let mins := (Itoa (m mod 60) +:+ "m" +:+ secs)%string in
        let h := m / 60 in
        if h =? 0 then mins else (Itoa h +:+ "h" +:+ mins)%string in
  ((if (d <? 0)%Z then "-" else "") +:+ body)%string.

Example Duration_String_ex :
  Duration_String <$> [0; 12; 1500; 2 * millisecond; 1500 * millisecond; 90 * second; hour; - (90 * minute)] =
  ["0s"; "12ns"; "1.5" +:+ utf8 [194; 181; 115]; "2ms"; "1.5s"; "1m30s"; "1h0m0s"; "-1h30m0s"]%string.
Proof. vm_compute. reflexivity. Qed.

(** ** Parse *)

(** [getnum]: one or two digits, exactly two when [fixed]. *)
Definition getnum (fixed : bool) (s : string) : option (Z * string) :=
  match s with
  | String a s' =>
      if negb (is_digit_byte a) then None
      else
        match s' with
        | String b s'' =>
            if is_digit_byte b then Some (digit_val a * 10 + digit_val b, s'')
            else if fixed then None else Some (digit_val a, s')
        | EmptyString => if fixed then None else Some (digit_val a, s')
        end
  | EmptyString => None
  end.
Definition expect (c : ascii) (s : string) : option string :=
  match s with String a s' => if Ascii.eqb a c then Some s' else None | EmptyString => None end.

(** The year of the layouts: four digits. *)
Definition parse_year (s : string) : option (Z * string) :=
  let y := take_bytes 4 s in
  if (String.length y =? 4)%nat && string_forallb is_digit_byte y then Some (digits_val 0 y, drop_bytes 4 s) else None.
(** "2006-01-02"; the day is checked against the month once all is read. *)
Definition parse_date (s : string) : option (date * string) :=
  '(y, s) ← parse_year s; s ← expect "-" s; '(m, s) ← getnum true s; s ← expect "-" s; '(d, s) ← getnum true s;
  if (m <? 1) || (12 <? m) then None else Some ({| d_year := y; d_month := m; d_day := d |}, s).
Definition valid_day (d : date) : bool := (1 <=? d_day d) && (d_day d <=? daysIn (d_month d) (d_year d)).

(** A fraction after the seconds, though the layout has none: at most nine digits of it
    count. *)
Fixpoint leading_digits (s : string) : string :=
  match s with String c s' => if is_digit_byte c then String c (leading_digits s') else EmptyString | EmptyString => EmptyString end.
Definition parse_fraction (s : string) : Z * string :=
  match s with
  | String c s' =>
      let ds := leading_digits s' in
      if ((Ascii.eqb c "." || Ascii.eqb c ",") && negb (bool_decide (ds = EmptyString))) then
        let used := take_bytes 9 ds in
        (digits_val 0 used * 10 ^ (9 - Z.of_nat (String.length used)), drop_bytes (String.length ds) s')
      else (0, s)
  | EmptyString => (0, s)
  end.
(** "Z07:00": the offset in seconds. *)
Definition parse_zone (s : string) : option (Z * string) :=
  match s with
  | String c s' =>
      if Ascii.eqb c "Z" then Some (0, s')
      else
        '(hh, s1) ← getnum true s'; s2 ← expect ":" s1; '(mm, s3) ← getnum true s2;
        if (24 <? hh) || (60 <? mm) then None
        else if Ascii.eqb c "+" then Some ((hh * 60 + mm) * 60, s3)
        else if Ascii.eqb c "-" then Some (- ((hh * 60 + mm) * 60), s3) else None
  | EmptyString => None
  end.

(** A time as a value: the instant, and the offset from UTC its layouts are written in. *)
Record zoned := { zt_time : Z; zt_offset : Z }.
Definition in_UTC (t : Z) : zoned := {| zt_time := t; zt_offset := 0 |}.
(** What its clock shows. *)
Definition wall (t : zoned) : Z := zt_time t + zt_offset t.

(** [time.Parse(time.RFC3339, s)] and [time.Parse("2006-01-02", s)]. *)
Definition Parse_RFC3339_zoned (s : string) : option zoned :=
  '(d, s) ← parse_date s; s ← expect "T" s;
  '(hh, s) ← getnum false s; s ← expect ":" s; '(mm, s) ← getnum true s; s ← expect ":" s; '(ss, s) ← getnum true s;
  let '(ns, s) := parse_fraction s in
  '(off, s) ← parse_zone s;
  if (23 <? hh) || (59 <? mm) || (59 <? ss) || negb (valid_day d) || negb (bool_decide (s = EmptyString)) then None
  else Some {| zt_time := Date d hh mm ss ns - off * second; zt_offset := off * second |}.
Definition Parse_RFC3339 (s : string) : option Z := zt_time <$> Parse_RFC3339_zoned s.
Definition Parse_date (s : string) : option Z :=
  '(d, s) ← parse_date s;
  if negb (valid_day d) || negb (bool_decide (s = EmptyString)) then None else Some (Date d 0 0 0 0).

Example time_ex :
  Format_RFC3339 (1735689600 * second) = "2025-01-01T00:00:00Z"%string ∧
  Format_RFC3339 zero_time = "0001-01-01T00:00:00Z"%string ∧
  Parse_RFC3339 "2024-02-29T23:59:59.5+01:00" = Some (1709247599 * second + 500000000) ∧
  Parse_RFC3339 "2023-02-29T00:00:00Z" = None ∧ Parse_RFC3339 "2023-02-28T7:00:00Z" = Some (1677567600 * second) ∧
  Parse_date "2025-01-01" = Some (1735689600 * second) ∧ Parse_date "2025-1-01" = None ∧
  Format_month_day_year (1735689600 * second) = "Jan 1, 2025"%string ∧
  whole_seconds (90 * second + 999999999) = 90 ∧ whole_seconds (- 1500000000) = -1.
Proof. vm_compute. repeat split. Qed.
