(* ===== verification/Inventory.v ===== *)
(** * The device inventory

    [internal/inventory] and the adapter of internal/alert/inventory_resolver.go: the
    ARP table and the DHCP leases, merged once per refresh into a map from addresses to
    devices. The text of the two files is an argument of a refresh ([None] when it cannot
    be read), the clock's reading another. *)
From S2P Require Import Prelude GoStrings GoText Alert.

(** ** inventory.go: data *)

Record Device := { dv_IP : string; dv_MAC : string; dv_Hostname : string; dv_FirstSeen : Z; dv_LastSeen : Z }.
#[export] Instance Device_eq_dec : EqDecision Device.
Proof. solve_decision. Defined.

Record InventoryConfig := { iv_Enabled : bool; iv_DHCPLeasesPath : string; iv_RefreshInterval : Z }.
Definition DefaultRefreshInterval : Z := 60 * second.

Definition inv_parseBool (v : string) : bool :=
  bool_decide (v ∈ ["1"; "t"; "T"; "true"; "TRUE"; "True"; "yes"; "YES"; "on"; "ON"]%string).

(** [ConfigFromEnv]; an unset variable reads as the empty string. *)
Definition inv_ConfigFromEnv (getenv : string → string) : InventoryConfig :=
  let v := getenv "INVENTORY_ENABLED"%string in
  let p := getenv "DHCP_LEASES_PATH"%string in
  {| iv_Enabled := if bool_decide (v = ""%string) then false else inv_parseBool v;
     iv_DHCPLeasesPath := p; iv_RefreshInterval := DefaultRefreshInterval |}.

Record Inventory := { inv_cfg : InventoryConfig; inv_devices : gmap string Device }.

Definition inv_New (cfg : InventoryConfig) : Inventory := {|
  inv_cfg := {| iv_Enabled := iv_Enabled cfg; iv_DHCPLeasesPath := iv_DHCPLeasesPath cfg;
                iv_RefreshInterval := if iv_RefreshInterval cfg <=? 0 then DefaultRefreshInterval
                                      else iv_RefreshInterval cfg |};
  inv_devices := ∅ |}.
Definition inv_Enabled (inv : Inventory) : bool := iv_Enabled (inv_cfg inv).

(** ** arp.go, dhcp.go *)

Record arpEntry := { ae_IP : string; ae_MAC : string }.
Record dhcpLease := { le_IP : string; le_MAC : string; le_Hostname : string }.
Definition emptyMAC : string := "00:00:00:00:00:00".

Section Inventory.
Context `{U : GoUnicode}.

Definition arp_line (raw : string) : option arpEntry :=
  let line := TrimSpace raw in
  if bool_decide (line = ""%string) then None
  else if HasPrefix line "IP address" then None
  else
    match Fields line with
    | ip :: _ :: flags :: hw :: _ :: _ :: _ =>
        let mac := ToLower hw in
        if bool_decide (flags = "0x0"%string) then None
        else if bool_decide (mac = ""%string) || bool_decide (mac = emptyMAC) then None
        else Some {| ae_IP := ip; ae_MAC := mac |}
    | _ => None
    end.
(** A line too long for the scanner ends the loop; its error is not looked at. *)
Definition parseARP (data : string) : list arpEntry := omap arp_line (scan_lines MaxScanTokenSize data).1.

Definition dhcp_line (raw : string) : option dhcpLease :=
  let line := TrimSpace raw in
  if bool_decide (line = ""%string) then None
  else
    match Fields line with
    | _ :: mac :: ip :: rest =>
        let hostname := match rest with h :: _ => if bool_decide (h = "*"%string) then ""%string else h | [] => ""%string end in
        Some {| le_IP := ip; le_MAC := ToLower mac; le_Hostname := hostname |}
    | _ => None
    end.
Definition parseDHCPLeases (data : string) : list dhcpLease := omap dhcp_line (scan_lines MaxScanTokenSize data).1.

(** arp_linux.go *)
Definition readARPTable (file : option string) : list arpEntry :=
  match file with Some data => parseARP data | None => [] end.

(** ** merge *)

Record observation := { ob_MAC : string; ob_Hostname : string }.
Definition no_observation : observation := {| ob_MAC := ""; ob_Hostname := "" |}.

(** Go's [if new != "" { old = new }]. *)
Definition keep (new old : string) : string := if bool_decide (new = ""%string) then old else new.

Definition observe_arp (obs : gmap string observation) (a : arpEntry) : gmap string observation :=
  let o := default no_observation (obs !! ae_IP a) in
  <[ae_IP a := {| ob_MAC := keep (ae_MAC a) (ob_MAC o); ob_Hostname := ob_Hostname o |}]> obs.
Definition observe_lease (obs : gmap string observation) (l : dhcpLease) : gmap string observation :=
  let o := default no_observation (obs !! le_IP l) in
  <[le_IP l := {| ob_MAC := keep (le_MAC l) (ob_MAC o); ob_Hostname := keep (le_Hostname l) (ob_Hostname o) |}]> obs.
Definition observations (arps : list arpEntry) (leases : list dhcpLease) : gmap string observation :=
  foldl observe_lease (foldl observe_arp ∅ arps) leases.

(** The body of the loop over the observations. *)
Definition merge_device (now : Z) (ip : string) (o : observation) (known : option Device) : Device :=
  match known with
  | None => {| dv_IP := ip; dv_MAC := ob_MAC o; dv_Hostname := ob_Hostname o; dv_FirstSeen := now; dv_LastSeen := now |}
  | Some d => {| dv_IP := dv_IP d; dv_MAC := keep (ob_MAC o) (dv_MAC d); dv_Hostname := keep (ob_Hostname o) (dv_Hostname d);
                 dv_FirstSeen := dv_FirstSeen d; dv_LastSeen := now |}
  end.
Definition merge_step (now : Z) (devices : gmap string Device) (p : string * observation) : gmap string Device :=
  <[p.1 := merge_device now p.1 p.2 (devices !! p.1)]> devices.

(** [order] is the order in which Go ranges over the observations. *)
Definition inv_merge (now : Z) (order : gmap string observation → list (string * observation))
  (arps : list arpEntry) (leases : list dhcpLease) (inv : Inventory) : Inventory :=
  {| inv_cfg := inv_cfg inv;
     inv_devices := foldl (merge_step now) (inv_devices inv) (order (observations arps leases)) |}.

(** ** Refreshing *)

(** What one refresh reads. *)
Record cycle := { cy_now : Z; cy_arp : option string; cy_leases : option string }.

Definition refresh (order : gmap string observation → list (string * observation)) (c : cycle) (inv : Inventory) : Inventory :=
  if negb (inv_Enabled inv) then inv
  else
    let arps := readARPTable (cy_arp c) in
    let leases :=
      if bool_decide (iv_DHCPLeasesPath (inv_cfg inv) = ""%string) then []
      else match cy_leases c with Some data => parseDHCPLeases data | None => [] end in
    inv_merge (cy_now c) order arps leases inv.

(** [Start]: one refresh at once, and one per tick until [Stop]. *)
Definition inv_Start (order : gmap string observation → list (string * observation)) (first : cycle) (ticks : list cycle)
  (inv : Inventory) : Inventory :=
  if negb (inv_Enabled inv) then inv else foldl (λ i c, refresh order c i) (refresh order first inv) ticks.

Definition inv_Lookup (ip : string) (inv : Inventory) : option Device := inv_devices inv !! ip.
(** [Devices]: the map's values, sorted by address. *)
Definition Devices (inv : Inventory) : list Device := sort_by dv_IP (map_to_list (inv_devices inv)).*2.
End Inventory.

(** ** inventory_resolver.go *)

(** A nil inventory resolves every address as unknown. *)
Definition resolver_Lookup (inv : option Inventory) (ip : string) : option DeviceInfo :=
  match inv with
  | None => None
  | Some inv =>
      match inv_Lookup ip inv with
      | None => None
      | Some d => Some {| di_IP := dv_IP d; di_MAC := dv_MAC d; di_Hostname := dv_Hostname d |}
      end
  end.

(** [GetDevices] of cmd/controlplane/handlers/devices.go answers 200 with this list. *)
Definition GetDevices (inv : option Inventory) : list Device :=
  match inv with Some inv => Devices inv | None => [] end.

(** ** Reading the tables back *)

Section Parsers.
Context `{U : GoUnicode}.

(** A line of /proc/net/arp: the columns with the width of the gaps between them. *)
Record arp_row := {
  ar_ip : string; ar_type : nat * string; ar_flags : nat * string; ar_mac : nat * string;
  ar_mask : nat * string; ar_dev : nat * string;
}.
Definition arp_columns (r : arp_row) : list (nat * string) := [ar_type r; ar_flags r; ar_mac r; ar_mask r; ar_dev r].
Definition arp_text (r : arp_row) : string := columns (ar_ip r) (arp_columns r).
(** Visible ASCII without blanks in every column, and a line that fits the scanner. *)
Definition arp_row_ok (r : arp_row) : Prop :=
  word (ar_ip r) = true ∧ Forall (λ p, word p.2 = true) (arp_columns r) ∧
  HasPrefix (arp_text r) "IP address" = false ∧ plain_line MaxScanTokenSize (arp_text r).
(** The entries the kernel has resolved. *)
Definition arp_resolved (r : arp_row) : option arpEntry :=
  let mac := ToLower (ar_mac r).2 in
  if bool_decide ((ar_flags r).2 = "0x0"%string) then None
  else if bool_decide (mac = ""%string) || bool_decide (mac = emptyMAC) then None
  else Some {| ae_IP := ar_ip r; ae_MAC := mac |}.

Lemma arp_line_text r : arp_row_ok r → arp_line (arp_text r) = arp_resolved r.
Proof.
  intros (Hw & Hws & Hp & _). unfold arp_line. rewrite TrimSpace_trimmed by (by apply columns_trimmed).
  rewrite Hp. unfold arp_text. rewrite Fields_columns by done.
  rewrite bool_decide_eq_false_2; [done|]. intros E. apply word_inv in Hw as (c & ? & r' & E' & _).
  unfold columns in E. by rewrite E', string_cons_app in E.
Qed.

Definition arp_header : string := "IP address       HW type     Flags       HW address            Mask     Device".
Definition arp_table (rows : list arp_row) : string := unlines (arp_header :: (arp_text <$> rows)).

Theorem parseARP_table rows :
  Forall arp_row_ok rows → parseARP (arp_table rows) = omap arp_resolved rows.
Proof.
  intros H. unfold parseARP, arp_table. rewrite scan_unlines.
  2: { constructor; [split; [reflexivity|split; [done|reflexivity]]|].
       apply Forall_fmap. eapply Forall_impl; [exact H|]. by intros r (_ & _ & _ & ?). }
  cbn [fst omap list_omap]. replace (arp_line arp_header) with (@None arpEntry) by (vm_compute; reflexivity).
  induction H as [|r rows Hr _ IH]; [done|]. csimpl. rewrite arp_line_text by done. by rewrite IH.
Qed.
End Parsers.

(** ** What the inventory knows *)

(** The last value that is not empty. *)
Definition latest (l : list string) : string := foldl (λ old new, keep new old) ""%string l.

Lemma latest_snoc l x : latest (l ++ [x]) = keep x (latest l).
Proof. unfold latest. by rewrite foldl_app. Qed.
Lemma latest_cons_snoc a l x : latest (a :: l ++ [x]) = keep x (latest (a :: l)).
Proof. apply (latest_snoc (a :: l)). Qed.

(** What one cycle saw of an address: a lease's MAC over the ARP table's, the last
    entry over the ones before it. *)
Definition seen_at (ip : string) (arps : list arpEntry) (leases : list dhcpLease) : option observation :=
  let a := filter (λ a, ae_IP a = ip) arps in
  let l := filter (λ l, le_IP l = ip) leases in
  match a, l with
  | [], [] => None
  | _, _ => Some {| ob_MAC := latest ((ae_MAC <$> a) ++ (le_MAC <$> l)); ob_Hostname := latest (le_Hostname <$> l) |}
  end.

Lemma seen_at_arp ip arps a :
  seen_at ip (arps ++ [a]) [] =
  if bool_decide (ae_IP a = ip) then
    let o := default no_observation (seen_at ip arps []) in
    Some {| ob_MAC := keep (ae_MAC a) (ob_MAC o); ob_Hostname := ob_Hostname o |}
  else seen_at ip arps [].
Proof.
  unfold seen_at. rewrite filter_app, filter_cons, filter_nil. case_decide as E; case_bool_decide; try done.
  - destruct (filter _ arps) as [|x l]; simpl; [done|]. rewrite fmap_app, !app_nil_r. simpl.
    by rewrite latest_cons_snoc.
  - by rewrite app_nil_r.
Qed.

Lemma seen_at_lease ip arps leases b :
  seen_at ip arps (leases ++ [b]) =
  if bool_decide (le_IP b = ip) then
    let o := default no_observation (seen_at ip arps leases) in
    Some {| ob_MAC := keep (le_MAC b) (ob_MAC o); ob_Hostname := keep (le_Hostname b) (ob_Hostname o) |}
  else seen_at ip arps leases.
Proof.
  unfold seen_at. rewrite filter_app, filter_cons, filter_nil. case_decide as E; case_bool_decide; try done.
  - destruct (filter _ arps) as [|x l], (filter _ leases) as [|y k]; simpl; try done;
      rewrite ?fmap_app, ?app_nil_r; simpl.
    + by rewrite !latest_cons_snoc.
    + by rewrite latest_cons_snoc.
    + rewrite (app_comm_cons (le_MAC <$> k)), (app_assoc (list_fmap _ _ ae_MAC l)). by rewrite !latest_cons_snoc.
  - by rewrite app_nil_r.
Qed.

Lemma observations_lookup ip arps leases : observations arps leases !! ip = seen_at ip arps leases.
Proof.
  unfold observations. induction leases as [|b leases IH] using rev_ind.
  - simpl. induction arps as [|a arps IH] using rev_ind; [done|]. rewrite foldl_app, seen_at_arp. simpl.
    unfold observe_arp at 1. case_bool_decide as E; [subst ip; by rewrite lookup_insert_eq, IH|].
    by rewrite lookup_insert_ne.
  - rewrite foldl_app, seen_at_lease. simpl. unfold observe_lease at 1.
    case_bool_decide as E; [subst ip; by rewrite lookup_insert_eq, IH|]. by rewrite lookup_insert_ne.
Qed.

Lemma merge_steps_lookup now l devices ip : NoDup l.*1 →
  foldl (merge_step now) devices l !! ip =
  match (list_to_map l : gmap string observation) !! ip with
  | Some o => Some (merge_device now ip o (devices !! ip)) | None => devices !! ip end.
Proof.
  revert devices. induction l as [|[k o] l IH]; intros devices Hn; [done|].
  csimpl in *. apply NoDup_cons in Hn as [Hk Hn]. rewrite IH by done. unfold merge_step. simpl.
  destruct (decide (k = ip)) as [->|Hne].
  - rewrite lookup_insert_eq, not_elem_of_list_to_map_1 by done. by rewrite lookup_insert_eq.
  - by rewrite !lookup_insert_ne by done.
Qed.

Section History.
Context `{U : GoUnicode} (order : gmap string observation → list (string * observation)).
Context (Horder : ∀ m, order m ≡ₚ map_to_list m).

Lemma merge_lookup now arps leases inv ip :
  inv_devices (inv_merge now order arps leases inv) !! ip =
  match seen_at ip arps leases with
  | Some o => Some (merge_device now ip o (inv_devices inv !! ip)) | None => inv_devices inv !! ip end.
Proof.
  unfold inv_merge. cbn [inv_devices]. rewrite merge_steps_lookup by (rewrite Horder; apply NoDup_fst_map_to_list).
  rewrite (list_to_map_proper _ (map_to_list (observations arps leases))), list_to_map_to_list.
  - by rewrite observations_lookup.
  - rewrite Horder. apply NoDup_fst_map_to_list.
  - apply Horder.
Qed.

(** The leases a cycle reads under a configuration, and what it saw of an address. *)
Definition cycle_sighting (cfg : InventoryConfig) (ip : string) (c : cycle) : option (Z * observation) :=
  let leases := if bool_decide (iv_DHCPLeasesPath cfg = ""%string) then []
                else match cy_leases c with Some data => parseDHCPLeases data | None => [] end in
  (cy_now c,.) <$> seen_at ip (readARPTable (cy_arp c)) leases.

(** A device by its sightings, oldest first. *)
Definition device_of (ip : string) (sightings : list (Z * observation)) : option Device :=
  match sightings with
  | [] => None
  | s :: rest => Some {| dv_IP := ip; dv_MAC := latest (ob_MAC <$> sightings.*2); dv_Hostname := latest (ob_Hostname <$> sightings.*2);
                         dv_FirstSeen := s.1; dv_LastSeen := default s.1 (last rest.*1) |}
  end.

Lemma device_of_snoc ip l t o : device_of ip (l ++ [(t, o)]) = Some (merge_device t ip o (device_of ip l)).
Proof.
  destruct l as [|s l]; simpl; [by destruct o as [m h]; unfold latest, keep; simpl; repeat case_bool_decide; subst|].
  f_equal. rewrite !fmap_app. simpl. rewrite last_snoc.
  by rewrite !latest_cons_snoc.
Qed.

Lemma refresh_lookup cfg c inv ip l :
  inv_cfg inv = cfg → iv_Enabled cfg = true → inv_devices inv !! ip = device_of ip l →
  inv_cfg (refresh order c inv) = cfg ∧
  inv_devices (refresh order c inv) !! ip = device_of ip (l ++ option_list (cycle_sighting cfg ip c)).
Proof.
  intros Hc He Hl. unfold refresh, inv_Enabled. rewrite Hc, He. cbn [negb]. split; [done|].
  rewrite merge_lookup, Hl. unfold cycle_sighting. destruct (seen_at _ _ _); simpl; [by rewrite device_of_snoc|].
  by rewrite app_nil_r.
Qed.

Lemma refreshes_lookup cfg cs inv ip l :
  inv_cfg inv = cfg → iv_Enabled cfg = true → inv_devices inv !! ip = device_of ip l →
  inv_devices (foldl (λ i c, refresh order c i) inv cs) !! ip = device_of ip (l ++ omap (cycle_sighting cfg ip) cs).
Proof.
  revert inv l. induction cs as [|c cs IH]; intros inv l Hc He Hl; csimpl; [by rewrite app_nil_r|].
  destruct (refresh_lookup cfg c inv ip l Hc He Hl) as [Hc' Hl']. rewrite (IH _ _ Hc' He Hl').
  destruct (cycle_sighting cfg ip c); simpl; [by rewrite <- app_assoc|by rewrite app_nil_r].
Qed.

Lemma started_lookup cfg first ticks ip : iv_Enabled cfg = true →
  inv_Lookup ip (inv_Start order first ticks (inv_New cfg)) = device_of ip (omap (cycle_sighting cfg ip) (first :: ticks)).
Proof.
  intros He. unfold inv_Start, inv_Enabled. cbn [inv_New inv_cfg iv_Enabled]. rewrite He. cbn [negb].
  apply (refreshes_lookup (inv_cfg (inv_New cfg)) (first :: ticks) (inv_New cfg) ip []); done.
Qed.

Lemma device_of_IP ip l d : device_of ip l = Some d → dv_IP d = ip.
Proof. by destruct l; [|intros [= <-]]. Qed.

(** The listing of a map whose devices carry their key. *)
Lemma Devices_listing inv : (∀ ip d, inv_Lookup ip inv = Some d → dv_IP d = ip) →
  StronglySorted (strictly_by_key dv_IP) (Devices inv) ∧
  ∀ d, d ∈ Devices inv ↔ inv_Lookup (dv_IP d) inv = Some d.
Proof.
  intros Hk. unfold Devices, inv_Lookup in *. set (l := (map_to_list (inv_devices inv)).*2).
  assert (dv_IP <$> l = (map_to_list (inv_devices inv)).*1) as El.
  { subst l. rewrite <- list_fmap_compose. apply list_fmap_ext. intros i [ip d] Hi. simpl. apply Hk.
    apply elem_of_map_to_list. by eapply list_elem_of_lookup_2. }
  split; [apply sort_by_strict; rewrite El; apply NoDup_fst_map_to_list|].
  intros d. rewrite sort_by_perm. subst l. rewrite list_elem_of_fmap. split.
  - intros ([ip x] & -> & Hx). apply elem_of_map_to_list in Hx. simpl. by rewrite (Hk ip x).
  - intros Hd. exists (dv_IP d, d). split; [done|]. by apply elem_of_map_to_list.
Qed.

(** C37. What the inventory answers, after any sequence of refreshes and whatever order Go
    ranges over its maps in: a device is known exactly if some refresh saw its address;
    it was first seen by the earliest of those and last seen by the latest, and its MAC
    and host name are the last ones that were not empty, where within one refresh the
    leases come after the ARP table and so go before it. The listing holds exactly the
    known devices, in strictly increasing order of address. *)
Theorem inventory_history cfg first ticks : iv_Enabled cfg = true →
  let inv := inv_Start order first ticks (inv_New cfg) in
  (∀ ip, inv_Lookup ip inv = device_of ip (omap (cycle_sighting cfg ip) (first :: ticks))) ∧
  StronglySorted (strictly_by_key dv_IP) (Devices inv) ∧
  ∀ d, d ∈ Devices inv ↔ inv_Lookup (dv_IP d) inv = Some d.
Proof.
  intros He inv. assert (∀ ip, inv_Lookup ip inv = device_of ip (omap (cycle_sighting cfg ip) (first :: ticks))) as Hl
    by (intros ip; by apply started_lookup).
  split; [done|]. apply Devices_listing. intros ip d. rewrite Hl. apply device_of_IP.
Qed.
End History.

(** An inventory that is off touches nothing and knows nothing. *)
Lemma inventory_off `{U : GoUnicode} order cfg first ticks : iv_Enabled cfg = false →
  inv_Start order first ticks (inv_New cfg) = inv_New cfg ∧ Devices (inv_New cfg) = [].
Proof. intros He. unfold inv_Start, inv_Enabled. simpl. by rewrite He. Qed.

(** ** A concrete run *)

Definition ex_inventory_cfg : InventoryConfig :=
  inv_ConfigFromEnv (λ v, if bool_decide (v = "INVENTORY_ENABLED"%string) then "yes" else "/leases")%string.
Definition ex_arp (flags mac : string) : string := arp_table [
  {| ar_ip := "10.0.0.7"; ar_type := (8%nat, "0x1"); ar_flags := (9%nat, flags); ar_mac := (9%nat, mac);
     ar_mask := (5%nat, "*"); ar_dev := (8%nat, "eth0") |}]%string.
Definition ex_cycles : list cycle := [
  {| cy_now := 1; cy_arp := Some (ex_arp "0x2" "AA:BB:CC:DD:EE:FF"); cy_leases := None |};
  {| cy_now := 2; cy_arp := Some (ex_arp "0x0" "00:00:00:00:00:00"); cy_leases := Some "17 aa:bb:cc:dd:ee:01 10.0.0.7 laptop x"%string |};
  {| cy_now := 3; cy_arp := None; cy_leases := Some "garbage"%string |}].

Lemma inventory_history_witness :
  inv_Lookup "10.0.0.7" (inv_Start (U:=ascii_unicode) map_to_list
    {| cy_now := 0; cy_arp := None; cy_leases := None |} ex_cycles (inv_New ex_inventory_cfg))
  = Some {| dv_IP := "10.0.0.7"; dv_MAC := "aa:bb:cc:dd:ee:01"; dv_Hostname := "laptop"; dv_FirstSeen := 1; dv_LastSeen := 2 |}.
Proof.
  rewrite (proj1 (inventory_history (U:=ascii_unicode) map_to_list (λ m, reflexivity _) ex_inventory_cfg
    {| cy_now := 0; cy_arp := None; cy_leases := None |} ex_cycles eq_refl) "10.0.0.7"%string).
  vm_compute. reflexivity.
Defined.

(** The comment on [merge] has a lease's MAC stand in only where the ARP table has none;
    the lease is what is kept. *)
Lemma lease_overrides_arp :
  inv_Lookup "10.0.0.7" (inv_merge 1 map_to_list
    (parseARP (U:=ascii_unicode) (ex_arp "0x2" "AA:BB:CC:DD:EE:FF"))
    (parseDHCPLeases (U:=ascii_unicode) "17 aa:bb:cc:dd:ee:01 10.0.0.7 laptop x") (inv_New ex_inventory_cfg))
  = Some {| dv_IP := "10.0.0.7"; dv_MAC := "aa:bb:cc:dd:ee:01"; dv_Hostname := "laptop"; dv_FirstSeen := 1; dv_LastSeen := 1 |}.
Proof. vm_compute. reflexivity. Qed.
