(* ===== verification/Fleet.v ===== *)
(** * The fleet aggregator

    [internal/fleet] and [cmd/controlplane/handlers/fleet.go]: boxes post heartbeats under
    a token of their own, an operator reads one view of all sites. The store is the map of
    the last heartbeat of each site; the clock's reading is an argument. *)
From S2P Require Import Prelude GoStrings GoText GoStrconv GoTime Inventory Policy Blocklist Storage ControlPlane Auth.

(** ** config.go *)

Record FleetConfig := { fc_Enabled : bool; fc_HeartbeatToken : string; fc_StaleAfter : Z }.
Definition DefaultStaleAfter : Z := 90 * second.

Definition fleet_LoadConfig (getenv : string → string) : FleetConfig :=
  let v := getenv "FLEET_STALE_AFTER"%string in
  {| fc_Enabled := bool_decide (getenv "FLEET_ENABLED"%string = "true"%string);
     fc_HeartbeatToken := getenv "FLEET_HEARTBEAT_TOKEN"%string;
     fc_StaleAfter := if bool_decide (v = ""%string) then DefaultStaleAfter
                      else match ParseDuration v with Some d => if 0 <? d then d else DefaultStaleAfter | None => DefaultStaleAfter end |}.

(** ** store.go *)

Record Heartbeat := {
  hb_SiteID : string; hb_Name : string; hb_Version : string; hb_QPS : float64; hb_BlockedPercent : float64;
  hb_BlocklistUpdatedAt : option Z; hb_Alerts : list string;
}.
Record Site := {
  si_SiteID : string; si_Name : string; si_Version : string; si_Status : string; si_LastSeen : Z;
  si_LastSeenAgeSeconds : Z; si_QPS : float64; si_BlockedPercent : float64; si_BlocklistUpdatedAt : option Z;
  si_BlocklistAgeSeconds : option Z; si_Alerts : list string;
}.
Record FleetView := {
  fv_GeneratedAt : Z; fv_StaleAfterSeconds : Z; fv_Total : Z; fv_Up : Z; fv_Down : Z; fv_Sites : list Site;
}.
Record fleet_record := { fr_hb : Heartbeat; fr_lastSeen : Z }.
Record FleetStore := { fs_sites : gmap string fleet_record; fs_staleAfter : Z }.

Definition StatusUp : string := "up".
Definition StatusDown : string := "down".

Definition NewStore (staleAfter : Z) : FleetStore :=
  {| fs_sites := ∅; fs_staleAfter := if staleAfter <=? 0 then DefaultStaleAfter else staleAfter |}.

(** [Record]. *)
Definition RecordHeartbeat (now : Z) (hb : Heartbeat) (s : FleetStore) : FleetStore :=
  {| fs_sites := <[hb_SiteID hb := {| fr_hb := hb; fr_lastSeen := now |}]> (fs_sites s); fs_staleAfter := fs_staleAfter s |}.

Definition site_down (now stale : Z) (r : fleet_record) : bool := stale <? time_sub now (fr_lastSeen r).
(** The body of the loop of [Snapshot]. *)
Definition site_of (now stale : Z) (r : fleet_record) : Site := {|
  si_SiteID := hb_SiteID (fr_hb r); si_Name := hb_Name (fr_hb r); si_Version := hb_Version (fr_hb r);
  si_Status := if site_down now stale r then StatusDown else StatusUp;
  si_LastSeen := fr_lastSeen r; si_LastSeenAgeSeconds := whole_seconds (time_sub now (fr_lastSeen r));
  si_QPS := hb_QPS (fr_hb r); si_BlockedPercent := hb_BlockedPercent (fr_hb r);
  si_BlocklistUpdatedAt := hb_BlocklistUpdatedAt (fr_hb r);
  si_BlocklistAgeSeconds := (λ t, whole_seconds (time_sub now t)) <$> hb_BlocklistUpdatedAt (fr_hb r);
  si_Alerts := hb_Alerts (fr_hb r) |}.
Definition count_site (now stale : Z) (acc : list Site * Z * Z) (r : fleet_record) : list Site * Z * Z :=
  let '(sites, up, down) := acc in
  let '(up, down) := if site_down now stale r then (up, down + 1) else (up + 1, down) in
  (sites ++ [site_of now stale r], up, down).
Definition Snapshot (now : Z) (s : FleetStore) : FleetView :=
  let '(sites, up, down) := foldl (count_site now (fs_staleAfter s)) ([], 0, 0) (map_to_list (fs_sites s)).*2 in
  let sites := sort_by si_SiteID sites in
  {| fv_GeneratedAt := now; fv_StaleAfterSeconds := whole_seconds (fs_staleAfter s);
     fv_Total := Z.of_nat (length sites); fv_Up := up; fv_Down := down; fv_Sites := sites |}.

(** ** middleware.go *)

(** [header] is the Authorization header; [ConstantTimeCompare] is equality. *)
Definition RequireHeartbeatToken (token header : string) : auth_outcome :=
  if bool_decide (token = ""%string) then AbortWithStatus 503
  else if negb (HasPrefix header bearer) || negb (bool_decide (TrimPrefix header bearer = token)) then AbortWithStatus 401
  else Next.

(** ** The handlers *)

Definition StatusServiceUnavailable : Z := 503.
(** The binding requires a site id; [None] is a body that is not such JSON. *)
Definition bind_heartbeat (body : option Heartbeat) : option Heartbeat :=
  match body with Some hb => if bool_decide (hb_SiteID hb = ""%string) then None else Some hb | None => None end.

Definition PostFleetHeartbeat (now : Z) (body : option Heartbeat) (fleet : option FleetStore) : response string * option FleetStore :=
  match fleet with
  | None => (err_response StatusServiceUnavailable (ApiMsg "fleet aggregator disabled"), fleet)
  | Some s =>
      match bind_heartbeat body with
      | None => (err_response StatusBadRequest (ApiMsg "invalid heartbeat payload — site_id is required"), fleet)
      | Some hb => (ok_response StatusOK (hb_SiteID hb), Some (RecordHeartbeat now hb s))
      end
  end.
Definition GetFleet (now : Z) (fleet : option FleetStore) : response FleetView :=
  match fleet with
  | None => err_response StatusServiceUnavailable (ApiMsg "fleet aggregator disabled")
  | Some s => ok_response StatusOK (Snapshot now s)
  end.

(** cmd/controlplane/main.go: the store is made only with a token. *)
Definition fleet_setup (cfg : FleetConfig) : option FleetStore :=
  if fc_Enabled cfg && negb (bool_decide (fc_HeartbeatToken cfg = ""%string)) then Some (NewStore (fc_StaleAfter cfg)) else None.

(** ** The view is the history of heartbeats *)

Definition record_all (hist : list (Z * Heartbeat)) (s : FleetStore) : FleetStore :=
  foldl (λ s p, RecordHeartbeat p.1 p.2 s) s hist.

Definition last_heartbeat (id : string) (hist : list (Z * Heartbeat)) : option (Z * Heartbeat) :=
  last (filter (λ p, hb_SiteID p.2 = id) hist).

Lemma record_all_sites hist s id :
  fs_sites (record_all hist s) !! id =
  match last_heartbeat id hist with
  | Some (t, hb) => Some {| fr_hb := hb; fr_lastSeen := t |} | None => fs_sites s !! id end.
Proof.
  unfold record_all, last_heartbeat. induction hist as [|[t hb] hist IH] using rev_ind; [done|].
  rewrite foldl_app, filter_app, filter_cons, filter_nil. cbn [foldl fst snd RecordHeartbeat fs_sites].
  case_decide as E; simpl in E.
  - subst id. by rewrite last_snoc, lookup_insert_eq.
  - by rewrite app_nil_r, lookup_insert_ne.
Qed.

Lemma record_all_stale hist s : fs_staleAfter (record_all hist s) = fs_staleAfter s.
Proof. unfold record_all. revert s. induction hist; intros s; simpl; [done|]. by rewrite IHhist. Qed.

Lemma count_sites now stale l acc :
  foldl (count_site now stale) acc l =
  (acc.1.1 ++ (site_of now stale <$> l),
   acc.1.2 + Z.of_nat (length (filter (λ r, site_down now stale r = false) l)),
   acc.2 + Z.of_nat (length (filter (λ r, site_down now stale r = true) l))).
Proof.
  revert acc. induction l as [|r l IH]; intros [[sites up] down].
  - simpl. by rewrite app_nil_r, !Z.add_0_r.
  - cbn [foldl]. unfold count_site at 2. rewrite !filter_cons. csimpl.
    destruct (site_down now stale r); rewrite IH; cbn [fst snd]; rewrite <- app_assoc; simpl; apply pair_equal_spec; (split; [apply pair_equal_spec; (split; [done|lia])|lia]).
Qed.

Lemma up_or_down now stale l :
  (length (filter (λ r, site_down now stale r = false) l) + length (filter (λ r, site_down now stale r = true) l) = length l)%nat.
Proof.
  induction l as [|r l IH]; [done|]. rewrite !filter_cons. destruct (site_down now stale r); simpl; lia.
Qed.

(** The view an operator reads, after any history of heartbeats: it lists exactly the
    sites that ever reported, once each and in strictly increasing order of id, every one
    with the data of its last heartbeat; a site is down exactly if more than the stale
    window has passed since then on the store's own clock; the totals count the list. *)
Theorem fleet_view hist staleAfter now :
  let stale := if staleAfter <=? 0 then DefaultStaleAfter else staleAfter in
  let v := Snapshot now (record_all hist (NewStore staleAfter)) in
  StronglySorted (strictly_by_key si_SiteID) (fv_Sites v) ∧
  (∀ s, s ∈ fv_Sites v ↔ ∃ t hb, last_heartbeat (si_SiteID s) hist = Some (t, hb) ∧
                                 s = site_of now stale {| fr_hb := hb; fr_lastSeen := t |}) ∧
  (∀ s, s ∈ fv_Sites v → si_Status s = StatusDown ↔ stale < time_sub now (si_LastSeen s)) ∧
  fv_Total v = Z.of_nat (length (fv_Sites v)) ∧ fv_Up v + fv_Down v = fv_Total v ∧
  fv_Down v = Z.of_nat (length (filter (λ s, si_Status s = StatusDown) (fv_Sites v))).
Proof.
  intros stale v. set (st := record_all hist (NewStore staleAfter)).
  assert (fs_staleAfter st = stale) as Es by apply record_all_stale.
  set (recs := (map_to_list (fs_sites st)).*2).
  assert (∀ id t hb, last_heartbeat id hist = Some (t, hb) → hb_SiteID hb = id) as Hid.
  { intros id t hb H. apply last_Some_elem_of in H. by apply list_elem_of_filter in H as [? _]. }
  assert (∀ r, r ∈ recs ↔ fs_sites st !! hb_SiteID (fr_hb r) = Some r) as Hrecs.
  { intros r. subst recs. rewrite list_elem_of_fmap. split.
    - intros ([id x] & -> & Hx). apply elem_of_map_to_list in Hx. simpl. pose proof Hx as Hx'.
      subst st. rewrite record_all_sites in Hx. destruct (last_heartbeat id hist) as [[t hb]|] eqn:E; [|done].
      injection Hx as <-. cbn [fr_hb]. by rewrite (Hid _ _ _ E).
    - intros Hr. exists (hb_SiteID (fr_hb r), r). split; [done|]. by apply elem_of_map_to_list. }
  assert (v = {| fv_GeneratedAt := now; fv_StaleAfterSeconds := whole_seconds stale;
                 fv_Total := Z.of_nat (length (sort_by si_SiteID (site_of now stale <$> recs)));
                 fv_Up := Z.of_nat (length (filter (λ r, site_down now stale r = false) recs));
                 fv_Down := Z.of_nat (length (filter (λ r, site_down now stale r = true) recs));
                 fv_Sites := sort_by si_SiteID (site_of now stale <$> recs) |}) as Ev.
  { subst v. unfold Snapshot. fold st. by rewrite count_sites, Es. }
  rewrite Ev. cbn [fv_Sites fv_Total fv_Up fv_Down]. split; [|split; [|split; [|split; [done|split]]]].
  - apply sort_by_strict. rewrite <- list_fmap_compose.
    replace (si_SiteID ∘ site_of now stale <$> recs) with (map_to_list (fs_sites st)).*1; [apply NoDup_fst_map_to_list|].
    subst recs. rewrite <- list_fmap_compose. apply list_fmap_ext. intros i [id r] Hi. simpl.
    apply list_elem_of_lookup_2, elem_of_map_to_list in Hi. subst st. rewrite record_all_sites in Hi.
    destruct (last_heartbeat id hist) as [[t hb]|] eqn:E; [|done]. injection Hi as <-. cbn [fr_hb]. by erewrite Hid.
  - intros s. rewrite sort_by_perm, list_elem_of_fmap. split.
    + intros (r & -> & Hr%Hrecs). subst st. rewrite record_all_sites in Hr. cbn [site_of si_SiteID].
      destruct (last_heartbeat _ hist) as [[t hb]|]; [|done]. injection Hr as <-. by exists t, hb.
    + intros (t & hb & E & ->). eexists. split; [done|]. apply Hrecs. subst st. rewrite record_all_sites.
      cbn [fr_hb]. cbn [site_of si_SiteID fr_hb] in E. by rewrite E.
  - intros s. rewrite sort_by_perm, list_elem_of_fmap. intros (r & -> & _). cbn [site_of si_Status si_LastSeen].
    unfold site_down. destruct (Z.ltb_spec stale (time_sub now (fr_lastSeen r))); split; done || lia.
  - rewrite sort_by_perm, length_fmap. pose proof (up_or_down now stale recs). lia.
  - rewrite sort_by_perm. clear. induction recs as [|r recs IH]; [done|]. csimpl. rewrite !filter_cons.
    cbn [site_of si_Status]. destruct (site_down now stale r); simpl; lia.
Qed.

(** ** Who may report *)

(** A heartbeat on its way: the token check, then the handler. *)
Definition fleet_request (cfg : FleetConfig) (now : Z) (header : string) (body : option Heartbeat) (fleet : option FleetStore)
  : Z * option FleetStore :=
  match RequireHeartbeatToken (fc_HeartbeatToken cfg) header with
  | AbortWithStatus st => (st, fleet)
  | Next => let '(r, fleet) := PostFleetHeartbeat now body fleet in (r_status r, fleet)
  end.

(** Who changes the fleet view: on a box whose aggregator is set up, a heartbeat is
    recorded, and answered 200, exactly if its Authorization header is the configured
    token behind "Bearer " and its body names a site; every other request is answered
    with an error and leaves the store as it was. Without a token nothing is set up. *)
Theorem heartbeat_recorded_iff cfg now header body fleet st fleet' :
  (fleet = None ↔ fleet_setup cfg = None) →
  fleet_request cfg now header body fleet = (st, fleet') →
  (st = 200 ↔ fc_Enabled cfg = true ∧ fc_HeartbeatToken cfg ≠ ""%string ∧
              header = (bearer +:+ fc_HeartbeatToken cfg)%string ∧ ∃ hb, body = Some hb ∧ hb_SiteID hb ≠ ""%string) ∧
  (st = 200 → ∃ s hb, fleet = Some s ∧ body = Some hb ∧ fleet' = Some (RecordHeartbeat now hb s)) ∧
  (st ≠ 200 → st ∈ [400; 401; 503] ∧ fleet' = fleet).
Proof.
  intros Hset. unfold fleet_request, RequireHeartbeatToken.
  case_bool_decide as Ht; [intros [= <- <-]; split; [split; [done|naive_solver]|split; [done|set_solver]]|].
  destruct (HasPrefix header bearer) eqn:Hp; cbn [negb orb].
  2: { intros [= <- <-]. split; [split; [done|]|split; [done|set_solver]]. intros (_ & _ & -> & _).
       by rewrite HasPrefix_app in Hp. }
  apply HasPrefix_TrimPrefix in Hp. case_bool_decide as Hh; cbn [negb].
  2: { intros [= <- <-]. split; [split; [done|]|split; [done|set_solver]]. intros (_ & _ & E & _).
       rewrite E in Hh. by rewrite TrimPrefix_app in Hh. }
  rewrite Hh in Hp. unfold fleet_setup in Hset. unfold PostFleetHeartbeat.
  destruct fleet as [s|].
  2: { intros [= <- <-]. split; [split; [done|]|split; [done|set_solver]]. intros (He & _).
       rewrite He, bool_decide_eq_false_2 in Hset by done. destruct Hset as [Hs _]. by specialize (Hs eq_refl). }
  assert (fc_Enabled cfg = true) as He.
  { destruct (fc_Enabled cfg); [done|]. destruct Hset as [_ Hs]. by specialize (Hs eq_refl). }
  clear Hset. unfold bind_heartbeat. destruct body as [hb|]; [case_bool_decide as Hs|]; intros [= <- <-].
  - split; [split; [done|naive_solver]|split; [done|set_solver]].
  - split; [split; [intros _; repeat split; eauto|done]|]. split; [|done]. intros _. by exists s, hb.
  - split; [split; [done|naive_solver]|split; [done|set_solver]].
Qed.

(** ** A concrete run *)

Definition ex_hb (id name : string) : Heartbeat := {|
  hb_SiteID := id; hb_Name := name; hb_Version := ""; hb_QPS := f64_zero; hb_BlockedPercent := f64_zero;
  hb_BlocklistUpdatedAt := Some 0; hb_Alerts := [] |}.
Definition ex_fleet_cfg : FleetConfig :=
  fleet_LoadConfig (λ v, if bool_decide (v = "FLEET_ENABLED"%string) then "true"
                         else if bool_decide (v = "FLEET_HEARTBEAT_TOKEN"%string) then "s3cret" else "60s")%string.
Definition ex_posted := fleet_request ex_fleet_cfg (5 * second) "Bearer s3cret" (Some (ex_hb "b" "B")) (fleet_setup ex_fleet_cfg).
Lemma heartbeat_recorded_iff_witness :
  ex_posted.1 = 200 ∧ ∃ s hb, fleet_setup ex_fleet_cfg = Some s ∧ Some (ex_hb "b" "B") = Some hb ∧ ex_posted.2 = Some (RecordHeartbeat (5 * second) hb s).
Proof.
  assert (ex_posted.1 = 200) as H by (vm_compute; reflexivity). split; [exact H|].
  exact (proj1 (proj2 (heartbeat_recorded_iff ex_fleet_cfg (5 * second) "Bearer s3cret" (Some (ex_hb "b" "B"))
    (fleet_setup ex_fleet_cfg) ex_posted.1 ex_posted.2 (iff_refl _) (surjective_pairing ex_posted))) H).
Defined.

Example fleet_ex :
  let v := Snapshot (100 * second) (record_all [(0, ex_hb "b" "old"); (5 * second, ex_hb "a" "A"); (50 * second, ex_hb "b" "B")] (NewStore (60 * second))) in
  ((λ s, (si_Name s, si_Status s, si_LastSeenAgeSeconds s)) <$> fv_Sites v) = [("A", "down", 95); ("B", "up", 50)]%string ∧
  (fv_Up v, fv_Down v) = (1, 1).
Proof. vm_compute. done. Qed.
