(* ===== verification/DiskHealth.v ===== *)
(** * Disk health

    [internal/diskhealth]: diskhealth.go, wear_linux.go and stat_unix.go. A reading of the
    file system is an argument ([None] when [Statfs] fails), the clock's reading another;
    the attributes under /sys are a list of paths with their contents. *)
From S2P Require Import Prelude GoStrings GoText GoStrconv GoTime QueryLog.

(** ** diskhealth.go *)

Definition ReasonOK : string := "".
Definition ReasonLowSpace : string := "low-space".
Definition ReasonRapidGrowth : string := "rapid-growth".
Definition DiskDefaultInterval : Z := 5 * minute.
Definition DefaultMinFreePercent : float64 := f64_of_Z 10.
Definition DefaultGrowthPercentPerHour : float64 := f64_of_Z 20.

Record diskStat := { dk_Path : string; dk_TotalBytes : Z; dk_FreeBytes : Z; dk_SampledAt : Z }.
(** The zero value. *)
Definition no_sample : diskStat := {| dk_Path := ""; dk_TotalBytes := 0; dk_FreeBytes := 0; dk_SampledAt := zero_time |}.

Definition sample_valid (d : diskStat) : bool := (0 <? dk_TotalBytes d) && negb (IsZero (dk_SampledAt d)).
Definition freePercent (d : diskStat) : float64 :=
  if dk_TotalBytes d =? 0 then f64_zero
  else f64_mul (f64_div (f64_of_Z (dk_FreeBytes d)) (f64_of_Z (dk_TotalBytes d))) (f64_of_Z 100).
Definition usedBytes (d : diskStat) : Z :=
  if dk_TotalBytes d <=? dk_FreeBytes d then 0 else u64 (dk_TotalBytes d - dk_FreeBytes d).

Record Thresholds := { dt_MinFreePercent : float64; dt_GrowthPercentPerHour : float64 }.
Definition DefaultThresholds : Thresholds :=
  {| dt_MinFreePercent := DefaultMinFreePercent; dt_GrowthPercentPerHour := DefaultGrowthPercentPerHour |}.

Record WearInfo := { wi_Device : string; wi_LifeUsedPct : Z; wi_Source : string }.
Record DiskStatus := {
  ds_OK : bool; ds_Reason : string; ds_Detail : string; ds_Path : string; ds_TotalBytes : Z; ds_FreeBytes : Z;
  ds_FreePercent : float64; ds_GrowthPercentPerHour : float64; ds_Wear : option WearInfo; ds_CheckedAt : Z;
}.

Definition growthRatePercentPerHour (prev cur : diskStat) : float64 :=
  if negb (sample_valid prev) || negb (sample_valid cur) || (dk_TotalBytes cur =? 0) then f64_zero
  else
    let elapsed := time_sub (dk_SampledAt cur) (dk_SampledAt prev) in
    if elapsed <=? 0 then f64_zero
    else if usedBytes cur <=? usedBytes prev then f64_zero
    else f64_div (f64_mul (f64_div (f64_of_Z (u64 (usedBytes cur - usedBytes prev))) (f64_of_Z (dk_TotalBytes cur))) (f64_of_Z 100))
           (Hours elapsed).

(** The cases of the switch. *)
Definition low_space (th : Thresholds) (free : float64) : bool :=
  f64_ltb f64_zero (dt_MinFreePercent th) && f64_ltb free (dt_MinFreePercent th).
Definition rapid_growth (th : Thresholds) (growth : float64) : bool :=
  f64_ltb f64_zero (dt_GrowthPercentPerHour th) && f64_ltb (dt_GrowthPercentPerHour th) growth.

Definition disk_evaluate (prev cur : diskStat) (th : Thresholds) : DiskStatus :=
  let free := freePercent cur in
  let growth := growthRatePercentPerHour prev cur in
  let status ok reason detail := {|
    ds_OK := ok; ds_Reason := reason; ds_Detail := detail; ds_Path := dk_Path cur; ds_TotalBytes := dk_TotalBytes cur;
    ds_FreeBytes := dk_FreeBytes cur; ds_FreePercent := free; ds_GrowthPercentPerHour := growth; ds_Wear := None;
    ds_CheckedAt := dk_SampledAt cur |} in
  let pc x := (FormatFloat_f 1 x +:+ "%")%string in
  if low_space th free then
    status false ReasonLowSpace ("free space " +:+ pc free +:+ " below minimum " +:+ pc (dt_MinFreePercent th))%string
  else if rapid_growth th growth then
    status false ReasonRapidGrowth ("usage growing " +:+ pc growth +:+ "/hour above threshold " +:+ pc (dt_GrowthPercentPerHour th) +:+ "/hour")%string
  else status true ReasonOK ("free space " +:+ pc free +:+ " healthy")%string.

Definition disk_LoadConfig (getenv : string → string) : Z * Thresholds :=
  let iv := getenv "DISK_HEALTH_INTERVAL"%string in
  let mf := getenv "DISK_MIN_FREE_PERCENT"%string in
  (if bool_decide (iv = ""%string) then DiskDefaultInterval
   else match ParseDuration iv with Some d => if 0 <? d then d else DiskDefaultInterval | None => DiskDefaultInterval end,
   {| dt_MinFreePercent :=
        if bool_decide (mf = ""%string) then DefaultMinFreePercent
        else match ParseFloat mf with
             | Some p => if f64_ltb f64_zero p && f64_ltb p (f64_of_Z 100) then p else DefaultMinFreePercent
             | None => DefaultMinFreePercent end;
      dt_GrowthPercentPerHour := DefaultGrowthPercentPerHour |}).

(** ** stat_unix.go *)

(** The fields of [Statfs_t] that are read. *)
Record statfs := { sf_Bsize : Z; sf_Blocks : Z; sf_Bavail : Z }.
Definition readDiskStat (now : Z) (dir : string) (fs : option statfs) : option diskStat :=
  match fs with
  | None => None
  | Some fs =>
      if sf_Bsize fs <? 0 then None
      else Some {| dk_Path := dir; dk_TotalBytes := u64 (sf_Blocks fs * sf_Bsize fs);
                   dk_FreeBytes := u64 (sf_Bavail fs * sf_Bsize fs); dk_SampledAt := now |}
  end.

(** ** wear_linux.go *)

(** One "life time" value: [None] when it is not defined. *)
Definition life_level (f : string) : option Z :=
  match ParseInt 16 32 (TrimPrefix (TrimPrefix f "0x") "0X") with
  | Some v => if v <=? 0 then None else Some (if 11 <=? v then 100 else (v - 1) * 10)
  | None => None
  end.
Definition worse (worst : Z) (f : string) : Z :=
  match life_level f with Some p => if worst <? p then p else worst | None => worst end.
Definition parseLifeTime (s : string) : option Z :=
  match Fields s with
  | [] => None
  | fields => let worst := foldl worse (-1) fields in if worst <? 0 then None else Some worst
  end.

(** [matches]: what the glob found, with the contents of the files that can be read. *)
Definition readWear (matches : list (string * option string)) : option WearInfo :=
  first_match (λ p, data ← p.2; pct ← parseLifeTime data;
    Some {| wi_Device := Base (Dir (Dir p.1)); wi_LifeUsedPct := pct; wi_Source := "emmc-life_time" |}) matches.

(** ** The monitor *)

Record Monitor := {
  dm_dir : string; dm_interval : Z; dm_thresholds : Thresholds; dm_last : DiskStatus; dm_prev : diskStat; dm_hasPrev : bool;
}.

Definition NewMonitor (dbPath : string) (interval : Z) (th : Thresholds) : Monitor :=
  let dir := Dir dbPath in
  let dir := if bool_decide (dir = ""%string) then "."%string else dir in
  {| dm_dir := dir; dm_interval := interval; dm_thresholds := th;
     dm_last := {| ds_OK := true; ds_Reason := ReasonOK; ds_Detail := "not yet sampled"; ds_Path := dir; ds_TotalBytes := 0;
                   ds_FreeBytes := 0; ds_FreePercent := f64_zero; ds_GrowthPercentPerHour := f64_zero; ds_Wear := None;
                   ds_CheckedAt := zero_time |};
     dm_prev := no_sample; dm_hasPrev := false |}.
Definition NewMonitorFromEnv (getenv : string → string) (dbPath : string) : Monitor :=
  let '(interval, th) := disk_LoadConfig getenv in NewMonitor dbPath interval th.

Definition with_wear (w : option WearInfo) (st : DiskStatus) : DiskStatus :=
  match w with
  | None => st
  | Some w => {| ds_OK := ds_OK st; ds_Reason := ds_Reason st; ds_Detail := ds_Detail st; ds_Path := ds_Path st;
                 ds_TotalBytes := ds_TotalBytes st; ds_FreeBytes := ds_FreeBytes st; ds_FreePercent := ds_FreePercent st;
                 ds_GrowthPercentPerHour := ds_GrowthPercentPerHour st; ds_Wear := Some w; ds_CheckedAt := ds_CheckedAt st |}
  end.

(** What one call of [sample] reads. *)
Record reading := { rd_stat : option diskStat; rd_wear : option WearInfo }.

Definition sample (r : reading) (m : Monitor) : DiskStatus * Monitor :=
  match rd_stat r with
  | None => (dm_last m, m)
  | Some cur =>
      let trendPrev := if dm_hasPrev m then dm_prev m else no_sample in
      let st := with_wear (rd_wear r) (disk_evaluate trendPrev cur (dm_thresholds m)) in
      (st, {| dm_dir := dm_dir m; dm_interval := dm_interval m; dm_thresholds := dm_thresholds m; dm_last := st;
              dm_prev := cur; dm_hasPrev := true |})
  end.

(** [Run]: a sample at once and one per tick. *)
Definition disk_Run (first : reading) (ticks : list reading) (m : Monitor) : Monitor :=
  let m := {| dm_dir := dm_dir m; dm_interval := if dm_interval m <=? 0 then DiskDefaultInterval else dm_interval m;
              dm_thresholds := dm_thresholds m; dm_last := dm_last m; dm_prev := dm_prev m; dm_hasPrev := dm_hasPrev m |} in
  foldl (λ m r, (sample r m).2) (sample first m).2 ticks.

(** ** What the status says *)

(** The samples that could be taken. *)
Definition taken (rs : list reading) : list (diskStat * option WearInfo) := omap (λ r, (., rd_wear r) <$> rd_stat r) rs.
(** The verdict on the last of them, with the one before it for the trend. *)
Definition verdict (th : Thresholds) (l : list (diskStat * option WearInfo)) : option DiskStatus :=
  match reverse l with
  | [] => None
  | (cur, w) :: rest => Some (with_wear w (disk_evaluate (default no_sample (head rest.*1)) cur th))
  end.

Lemma sample_tracks rs r m th st0 :
  dm_thresholds m = th → dm_last m = default st0 (verdict th (taken rs)) →
  (if dm_hasPrev m then Some (dm_prev m) else None) = last (taken rs).*1 →
  let m' := (sample r m).2 in
  dm_thresholds m' = th ∧ dm_last m' = default st0 (verdict th (taken (rs ++ [r]))) ∧
  (if dm_hasPrev m' then Some (dm_prev m') else None) = last (taken (rs ++ [r])).*1.
Proof.
  intros Ht Hl Hp. unfold taken in *. rewrite omap_app. unfold sample. destruct r as [[cur|] w]; csimpl.
  - rewrite fmap_app. cbn [fmap list_fmap]. rewrite last_snoc. split; [done|]. split; [|done].
    unfold verdict. rewrite reverse_snoc. cbn [from_option]. rewrite Ht. f_equal. f_equal.
    rewrite fmap_reverse, head_reverse, <- Hp. by destruct (dm_hasPrev m).
  - by rewrite app_nil_r.
Qed.

(** What the health surface reports after any sequence of samples, failed ones
    included: the verdict on the latest sample that could be taken, with the growth
    measured from the one before it, however many failures lie between; a failed sample
    changes nothing, and before the first success the status is the initial one. *)
Theorem monitor_status dbPath interval th first ticks :
  let m := NewMonitor dbPath interval th in
  dm_last (disk_Run first ticks m) = default (dm_last m) (verdict th (taken (first :: ticks))).
Proof.
  intros m. unfold disk_Run. set (m0 := {| dm_dir := _ |}).
  change (foldl (λ m r, (sample r m).2) (sample first m0).2 ticks) with (foldl (λ m r, (sample r m).2) m0 (first :: ticks)).
  generalize (first :: ticks) as rs. intros rs.
  assert (let m' := foldl (λ m r, (sample r m).2) m0 rs in
          dm_thresholds m' = th ∧ dm_last m' = default (dm_last m) (verdict th (taken rs)) ∧
          (if dm_hasPrev m' then Some (dm_prev m') else None) = last (taken rs).*1) as (_ & H & _); [|exact H].
  induction rs as [|r rs IH] using rev_ind; [done|]. cbv zeta in *. rewrite foldl_app. cbn [foldl].
  destruct IH as (H1 & H2 & H3). exact (sample_tracks rs r _ th _ H1 H2 H3).
Qed.

(** Which verdict: low space comes before rapid growth, and OK is reported exactly when
    neither holds. *)
Theorem disk_evaluate_spec prev cur th :
  let st := disk_evaluate prev cur th in
  (ds_OK st = true ↔ ds_Reason st = ReasonOK) ∧
  (ds_Reason st = ReasonLowSpace ↔ low_space th (freePercent cur) = true) ∧
  (ds_Reason st = ReasonRapidGrowth ↔ low_space th (freePercent cur) = false ∧ rapid_growth th (growthRatePercentPerHour prev cur) = true).
Proof.
  intros st. subst st. unfold disk_evaluate. destruct (low_space _ _), (rapid_growth _ _); simpl; naive_solver.
Qed.

(** No growth is reported for the first sample, when the clock did not move on, or when
    no more is used than before. *)
Lemma no_growth prev cur :
  sample_valid prev = false ∨ dk_SampledAt cur ≤ dk_SampledAt prev ∨ usedBytes cur ≤ usedBytes prev →
  growthRatePercentPerHour prev cur = f64_zero.
Proof.
  intros H. unfold growthRatePercentPerHour. case_match; [done|]. boolp. destruct H as [H|[H|H]]; [congruence|..].
  - rewrite (proj2 (Z.leb_le _ _)); [done|]. unfold time_sub, clamp_int64, int64_min, int64_max. lia.
  - destruct (_ <=? 0); [done|]. by rewrite (proj2 (Z.leb_le _ _)).
Qed.

(** ** The wear estimate *)

Lemma worse_max worst f : worse worst f = Z.max worst (default (-1) (life_level f)) ∨ worst < -1.
Proof. unfold worse. destruct (life_level f) as [p|]; simpl; [destruct (Z.ltb_spec worst p)|]; lia. Qed.

Lemma life_level_range f p : life_level f = Some p → 0 ≤ p ≤ 100 ∧ p mod 10 = 0.
Proof.
  unfold life_level. destruct (ParseInt _ _ _) as [v|]; [|done]. destruct (Z.leb_spec v 0); [done|].
  destruct (Z.leb_spec 11 v); intros [= <-]; [split; [lia|reflexivity]|]. split; [lia|].
  rewrite Z.mul_comm, Z.mul_comm. by apply Z_mod_mult.
Qed.

(** The worst of the values that are defined, a multiple of ten up to a hundred; nothing
    when none is. *)
Theorem parseLifeTime_spec s :
  match parseLifeTime s with
  | Some p => (∃ f, f ∈ Fields s ∧ life_level f = Some p) ∧ (∀ f q, f ∈ Fields s → life_level f = Some q → q ≤ p) ∧
              0 ≤ p ≤ 100 ∧ p mod 10 = 0
  | None => ∀ f, f ∈ Fields s → life_level f = None
  end.
Proof.
  assert (∀ l w, -1 ≤ w → let r := foldl worse w l in
    w ≤ r ∧ (r = w ∨ ∃ f, f ∈ l ∧ life_level f = Some r) ∧ ∀ f q, f ∈ l → life_level f = Some q → q ≤ r) as H.
  { induction l as [|f l IH]; intros w Hw; simpl; [repeat split; [lia|by left|by intros ? ? ?%not_elem_of_nil]|].
    destruct (worse_max w f) as [E|]; [|lia]. destruct (IH (worse w f)) as (H1 & H2 & H3); [lia|].
    split; [lia|]. split.
    - destruct H2 as [H2|(g & Hg & Eg)]; [|right; exists g; split; [by right|done]].
      rewrite H2, E. destruct (life_level f) as [p|] eqn:Ep; simpl; [|left; lia].
      destruct (Z.max_spec w p) as [[_ ->]|[_ ->]]; [right; exists f; split; [by left|done]|by left].
    - intros g q [->|Hg]%elem_of_cons Hq; [|eauto]. rewrite Hq in E. simpl in E. lia. }
  unfold parseLifeTime. destruct (H (Fields s) (-1)) as (H1 & H2 & H3); [lia|]. clear H.
  destruct (Fields s) as [|f0 l] eqn:E; [by intros f ?%not_elem_of_nil|]. rewrite <- E in *.
  destruct (Z.ltb_spec (foldl worse (-1) (Fields s)) 0) as [Hneg|Hpos].
  - intros f Hf. destruct (life_level f) as [q|] eqn:Eq; [|done]. pose proof (H3 f q Hf Eq).
    apply life_level_range in Eq. lia.
  - destruct H2 as [H2|(f & Hf & Ef)]; [lia|]. split; [by exists f|]. split; [done|]. by eapply life_level_range.
Qed.

Example wear_ex : parseLifeTime "0x01 0x0A" = Some 90 ∧ parseLifeTime "0x0B" = Some 100 ∧ parseLifeTime "0x00 x" = None.
Proof. vm_compute. done. Qed.
Example evaluate_ex :
  let s used at_ := {| dk_Path := "/d"; dk_TotalBytes := 1000; dk_FreeBytes := 1000 - used; dk_SampledAt := at_ |} in
  ds_Detail (disk_evaluate no_sample (s 950 0) DefaultThresholds) = "free space 5.0% below minimum 10.0%"%string ∧
  ds_Detail (disk_evaluate (s 100 0) (s 200 (5 * minute)) DefaultThresholds) = "usage growing 120.0%/hour above threshold 20.0%/hour"%string ∧
  ds_Detail (disk_evaluate (s 100 0) (s 101 (5 * minute)) DefaultThresholds) = "free space 89.9% healthy"%string.
Proof. vm_compute. done. Qed.
