(* ===== verification/Heartbeat.v ===== *)
(** * Reports that leave the box: heartbeat and telemetry

    [internal/heartbeat/heartbeat.go] and [internal/telemetry/telemetry.go]. A report is
    the status that is posted, and where to; what the collector answers, the readings of the clock and
    of the disk, and the build version are arguments. *)
From S2P Require Import Prelude GoStrings GoText GoUrl GoStrconv GoTime GoNet Policy PolicyEngine DnsMsg Upstream QueryLog Metrics Threat.
From S2P Require Import Config DnsEngine.

(** ** heartbeat.go *)

Definition HeartbeatDefaultInterval : Z := 60 * second.

Record HeartbeatStatus := {
  hs_Status : string; hs_Healthy : bool; hs_Version : string; hs_UptimeSeconds : Z; hs_AcceptingQueries : bool;
  hs_QPS : float64; hs_BlockedPercent : float64; hs_WindowQueries : Z; hs_WindowSeconds : Z; hs_DiskFreeBytes : Z;
  hs_DiskTotalBytes : Z; hs_BlocklistUpdated : option Z; hs_BlocklistAgeSec : option Z; hs_ReportedAt : Z;
}.
Record HeartbeatConfig := { hc_URL : string; hc_Interval : string; hc_DBPath : string; hc_Version : string }.
Record Reporter := { rp_url : string; rp_interval : Z; rp_version : string; rp_dbPath : string; rp_startedAt : Z }.

(** [buildVersion]: the main module's version, if the build recorded one. *)
Definition buildVersion (info : option string) : string :=
  match info with
  | Some v => if bool_decide (v = ""%string) || bool_decide (v = "(devel)"%string) then "dev" else v
  | None => "dev"
  end.

Definition hb_New (now : Z) (build : option string) (cfg : HeartbeatConfig) : Reporter := {|
  rp_url := hc_URL cfg;
  rp_interval := if bool_decide (hc_Interval cfg = ""%string) then HeartbeatDefaultInterval
                 else match ParseDuration (hc_Interval cfg) with
                      | Some d => if 0 <? d then d else HeartbeatDefaultInterval | None => HeartbeatDefaultInterval end;
  rp_version := if bool_decide (hc_Version cfg = ""%string) then buildVersion build else hc_Version cfg;
  rp_dbPath := hc_DBPath cfg; rp_startedAt := now |}.
Definition hb_Enabled (r : Reporter) : bool := negb (bool_decide (rp_url r = ""%string)).

Definition dbDir (dbPath : string) : string :=
  if bool_decide (dbPath = ""%string) then "."
  else let dir := Dir dbPath in if bool_decide (dir = ""%string) then "." else dir.

Definition round2 (f : float64) : float64 := f64_div (f64_round (f64_mul f (f64_of_Z 100))) (f64_of_Z 100).

Record inputs := {
  in_now : Z; in_startedAt : Z; in_version : string; in_agg : AggregatedMetrics; in_window : Z;
  in_acceptingQueries : bool; in_diskFree : Z; in_diskTotal : Z; in_blocklistUpdated : Z;
}.

Definition buildStatus (i : inputs) : HeartbeatStatus :=
  let windowSecs := Seconds (in_window i) in
  let agg := in_agg i in
  let qps := if f64_ltb f64_zero windowSecs then f64_div (f64_of_Z (ag_Total agg)) windowSecs else f64_zero in
  let blockedPct := if 0 <? ag_Total agg
                    then f64_mul (f64_div (f64_of_Z (ag_Blocked agg)) (f64_of_Z (ag_Total agg))) (f64_of_Z 100) else f64_zero in
  let updated := if IsZero (in_blocklistUpdated i) then None else Some (in_blocklistUpdated i) in {|
    hs_Status := if in_acceptingQueries i then "healthy" else "degraded"; hs_Healthy := in_acceptingQueries i;
    hs_Version := in_version i; hs_UptimeSeconds := whole_seconds (time_sub (in_now i) (in_startedAt i));
    hs_AcceptingQueries := in_acceptingQueries i; hs_QPS := round2 qps; hs_BlockedPercent := round2 blockedPct;
    hs_WindowQueries := ag_Total agg; hs_WindowSeconds := f64_trunc windowSecs; hs_DiskFreeBytes := in_diskFree i;
    hs_DiskTotalBytes := in_diskTotal i; hs_BlocklistUpdated := updated;
    hs_BlocklistAgeSec := (λ u, whole_seconds (time_sub (in_now i) u)) <$> updated; hs_ReportedAt := in_now i |}.

(** The latest update time of the listed sources; the zero time when there is no
    repository ([None]) or the listing fails. *)
Definition blocklistLastUpdate (sources : option (result string (list Z))) : Z :=
  match sources with
  | Some (Ok ts) => foldl (λ latest t, if latest <? t then t else latest) zero_time ts
  | _ => zero_time
  end.

(** [diskUsage] with what [Statfs] said. *)
Record hb_statfs := { hsf_Bsize : Z; hsf_Blocks : Z; hsf_Bavail : Z }.
Definition diskUsage (fs : option hb_statfs) : option (Z * Z) :=
  match fs with
  | None => None
  | Some fs => if hsf_Bsize fs <? 0 then None
               else Some (u64 (hsf_Bavail fs * hsf_Bsize fs), u64 (hsf_Blocks fs * hsf_Bsize fs))
  end.

(** What [encoding/json] refuses to encode: a float that is not finite, a time whose
    year has not four digits. *)
Definition f64_finite (x : float64) : bool := match x with S754_zero _ | S754_finite _ _ _ => true | _ => false end.
Definition json_time (t : Z) : bool := let y := d_year (date_of t) in (0 <=? y) && (y <=? 9999).
Definition json_status (s : HeartbeatStatus) : bool :=
  f64_finite (hs_QPS s) && f64_finite (hs_BlockedPercent s) && json_time (hs_ReportedAt s)
  && match hs_BlocklistUpdated s with Some t => json_time t | None => true end.

Inductive report_error := MarshalStatus | BuildRequest | PostHeartbeat | CollectorStatus (code : Z).

Section Reporter.
Context `{U : GoUnicode} `{TZ : TzDatabase} `{BL : BloomLib} `{RX : RegexpLib} `{DL : DnsLib}
        `{TE : ThreatEnv} `{TR : TransportEnv}.

(** The moment of one report: clock, disk, sources, and what the collector answers
    ([None] when the post fails). *)
Record moment := {
  mo_now : Z; mo_fs : option hb_statfs; mo_sources : option (result string (list Z)); mo_answer : option Z; mo_engine : Engine;
}.

Definition Collect (mo : moment) (r : Reporter) : HeartbeatStatus :=
  let '(free, total) := default (0, 0) (diskUsage (mo_fs mo)) in
  buildStatus {| in_now := mo_now mo; in_startedAt := rp_startedAt r; in_version := rp_version r;
    in_agg := Aggregate (mo_now mo / second) (e_metrics (mo_engine mo)); in_window := defaultWindowSize;
    in_acceptingQueries := st_AcceptingQueries (engine_Status (mo_engine mo)); in_diskFree := free; in_diskTotal := total;
    in_blocklistUpdated := blocklistLastUpdate (mo_sources mo) |}.

(** [reportOnce]: the error, and what was posted where. *)
Definition reportOnce (mo : moment) (r : Reporter) : option report_error * list (string * HeartbeatStatus) :=
  let status := Collect mo r in
  if negb (json_status status) then (Some MarshalStatus, [])
  else if negb (NewRequest_ok (rp_url r)) then (Some BuildRequest, [])
  else
    let posted := [(rp_url r, status)] in
    match mo_answer mo with
    | None => (Some PostHeartbeat, posted)
    | Some code => if 300 <=? code then (Some (CollectorStatus code), posted) else (None, posted)
    end.

(** [Start] and the loop: everything posted until the context ends. An error is only
    logged. *)
Definition hb_Start (first : moment) (ticks : list moment) (r : Reporter) : list (string * HeartbeatStatus) :=
  if negb (hb_Enabled r) then [] else foldl (λ sent mo, sent ++ (reportOnce mo r).2) [] (first :: ticks).

Lemma loop_posts r mos sent :
  NewRequest_ok (rp_url r) = true → (∀ mo, mo ∈ mos → json_status (Collect mo r) = true) →
  foldl (λ sent mo, sent ++ (reportOnce mo r).2) sent mos = sent ++ ((λ mo, (rp_url r, Collect mo r)) <$> mos).
Proof.
  intros Hu. revert sent. induction mos as [|mo mos IH]; intros sent H; [by rewrite app_nil_r|]. csimpl.
  rewrite IH by set_solver. assert ((reportOnce mo r).2 = [(rp_url r, Collect mo r)]) as ->.
  { unfold reportOnce. rewrite H by set_solver. rewrite Hu. simpl. destruct (mo_answer mo) as [c|]; [|done]. by destruct (300 <=? c). }
  by rewrite <- app_assoc.
Qed.

(** With a URL that parses every tick posts one status to it, the first at once, whatever
    the collector answered before; without one nothing is ever sent. *)
Theorem heartbeat_posts first ticks r :
  NewRequest_ok (rp_url r) = true → (∀ mo, mo ∈ first :: ticks → json_status (Collect mo r) = true) →
  hb_Start first ticks r = if hb_Enabled r then (λ mo, (rp_url r, Collect mo r)) <$> first :: ticks else [].
Proof. intros Hu H. unfold hb_Start. destruct (hb_Enabled r); simpl; [|done]. by apply (loop_posts r (first :: ticks) []). Qed.

(** Whatever the moments, every post goes to the configured collector. *)
Lemma heartbeat_to first ticks r : Forall (λ p, p.1 = rp_url r ∧ p.1 ≠ ""%string) (hb_Start first ticks r).
Proof.
  unfold hb_Start, hb_Enabled. case_bool_decide as E; cbn [negb]; [constructor|].
  enough (∀ mos sent, Forall (λ p, p.1 = rp_url r ∧ p.1 ≠ ""%string) sent →
    Forall (λ p, p.1 = rp_url r ∧ p.1 ≠ ""%string) (foldl (λ sent mo, sent ++ (reportOnce mo r).2) sent mos)) as H by (by apply H).
  induction mos as [|mo mos IH]; intros sent Hs; [done|]. cbn [foldl]. apply IH, Forall_app. split; [done|].
  unfold reportOnce. destruct (json_status _); [|constructor]. destruct (NewRequest_ok _); [|constructor].
  cbn. destruct (mo_answer mo) as [c|]; [|by repeat constructor]. destruct (300 <=? c); by repeat constructor.
Qed.

(** The status tells whether the engine accepts queries, and names the latest update of
    a source. *)
Theorem Collect_spec mo r :
  let s := Collect mo r in
  hs_Healthy s = e_acceptQueries (mo_engine mo) ∧ (hs_Status s = "healthy"%string ↔ e_acceptQueries (mo_engine mo) = true) ∧
  (∀ ts, mo_sources mo = Some (Ok ts) → Forall (λ t, zero_time < t) ts →
     match hs_BlocklistUpdated s with
     | Some u => u ∈ ts ∧ ∀ t, t ∈ ts → t ≤ u
     | None => ts = []
     end).
Proof.
  unfold Collect. destruct (default _ _) as [free total]. unfold buildStatus. cbn [hs_Healthy hs_Status hs_BlocklistUpdated in_blocklistUpdated in_acceptingQueries].
  change (st_AcceptingQueries (engine_Status (mo_engine mo))) with (e_acceptQueries (mo_engine mo)).
  split; [done|]. split; [by destruct (e_acceptQueries _)|]. intros ts -> Hts. unfold blocklistLastUpdate.
  assert (∀ z l, let r := foldl (λ latest t, if latest <? t then t else latest) z l in
            z ≤ r ∧ (r = z ∨ r ∈ l) ∧ ∀ t, t ∈ l → t ≤ r) as Hf.
  { intros z l. revert z. induction l as [|t l IH]; intros z; simpl; [split; [lia|split; [by left|by intros t ?%not_elem_of_nil]]|].
    destruct (IH (if z <? t then t else z)) as (H1 & H2 & H3). destruct (Z.ltb_spec z t).
    - split; [lia|]. split; [right; destruct H2 as [->|]; [by left|by right]|]. intros u [->|?]%elem_of_cons; auto.
    - split; [lia|]. split; [destruct H2 as [->|]; [by left|right; by right]|]. intros u [->|?]%elem_of_cons; [lia|auto]. }
  destruct (Hf zero_time ts) as (H1 & H2 & H3). set (u := foldl _ _ ts) in *. unfold IsZero.
  destruct (Z.eqb_spec u zero_time) as [E|E].
  - destruct ts as [|t ts]; [done|]. apply Forall_cons in Hts as [Ht _]. pose proof (H3 t ltac:(by left)). lia.
  - destruct H2 as [H2|H2]; [lia|]. split; [done|auto].
Qed.
End Reporter.

(** ** telemetry.go *)

(** [Report]: what is sent, and the error; [send] is [None] when no sender was given. *)
Definition telemetry_Report `{U : GoUnicode} (lookupEnv : string → option string) (cfg : Config)
  (send : option (string → option string)) (event : string) : list string * option string :=
  if negb (AssertLocalOnlyRespected lookupEnv cfg "telemetry.Report") then ([], None)
  else match send with None => ([], None) | Some f => ([event], f event) end.

(** Under LOCAL_ONLY, set in the environment or in the file and not overridden, telemetry
    sends nothing and reports no error. *)
Theorem telemetry_local_only `{U : GoUnicode} lookupEnv cfg send event :
  telemetry_Report lookupEnv cfg send event =
  if LocalOnly lookupEnv cfg then ([], None)
  else match send with Some f => ([event], f event) | None => ([], None) end.
Proof. unfold telemetry_Report, AssertLocalOnlyRespected. by destruct (LocalOnly _ _); simpl; [|destruct send]. Qed.

(** The heartbeat is not bound by that contract: with LOCAL_ONLY engaged and a URL
    configured the reporter of the data plane is enabled all the same. *)
Definition custody_env (v : string) : string :=
  if bool_decide (v = "LOCAL_ONLY"%string) then "true"
  else if bool_decide (v = "HEARTBEAT_URL"%string) then "https://collector/hb" else "".
Definition custody_cfg : Config := DefaultConfig (U := ascii_unicode) custody_env (λ _, None) (λ _, None).
Lemma local_only_heartbeat :
  LocalOnly (U := ascii_unicode) (λ v, Some (custody_env v)) custody_cfg = true ∧
  hb_Enabled (hb_New 0 None {| hc_URL := cf_HeartbeatURL (c_DataPlane custody_cfg);
    hc_Interval := cf_HeartbeatInterval (c_DataPlane custody_cfg); hc_DBPath := ""; hc_Version := "" |}) = true.
Proof. vm_compute. done. Qed.

Example build_ex :
  let s := buildStatus {| in_now := 90 * second; in_startedAt := 0; in_version := "v1";
    in_agg := {| ag_Total := 1000; ag_Errors := 0; ag_Blocked := 333; ag_Buckets := []; ag_QueryLogDropped := 0 |};
    in_window := defaultWindowSize; in_acceptingQueries := true; in_diskFree := 1; in_diskTotal := 2;
    in_blocklistUpdated := 30 * second |} in
  FormatFloat_f 4 (hs_QPS s) = "3.3300"%string ∧ FormatFloat_f 4 (hs_BlockedPercent s) = "33.3000"%string ∧
  hs_BlocklistAgeSec s = Some 60 ∧ hs_WindowSeconds s = 300.
Proof. vm_compute. done. Qed.
