(* ===== verification/Export.v ===== *)
(** * Event export: the syslog and webhook sinks

    The rest of [internal/dnsengine/export.go] (its queue is in QueryLog.v, [Event] and
    [NewExporter] in DnsEngine.v) and [internal/alert/webhook.go]. A sink's connection is
    the list of what was written to it, or posted; whether a write succeeds is an
    argument. Callers, the worker and [Close] are a step relation. *)
From S2P Require Import Prelude GoStrings GoText GoUrl GoStrconv GoTime QueryLog Config DnsEngine.

(** ** The syslog sink *)

Inductive syslog_error := EmptySyslogAddress | ParseSyslogAddr | UnsupportedNetwork (network : string) | MissingHostPort.

Definition parseSyslogAddr (addr0 : string) : result syslog_error (string * string) :=
  let addr := TrimSpace addr0 in
  if bool_decide (addr = ""%string) then Err EmptySyslogAddress
  else
    match (if Contains addr "://" then url_Parse addr else Some ("udp"%string, addr)) with
    | None => Err ParseSyslogAddr
    | Some (network, address) =>
        if negb (bool_decide (network ∈ ["udp"; "udp4"; "udp6"; "tcp"; "tcp4"; "tcp6"]%string)) then Err (UnsupportedNetwork network)
        else if bool_decide (address = ""%string) then Err MissingHostPort
        else Ok (network, address)
    end.

Definition syslogFacilityLocal0 : Z := 16.
Definition syslogSDID : string := "hydradns@32473".
Record syslogSink := { sy_network : string; sy_address : string; sy_hostname : string; sy_appName : string; sy_procID : string;
  sy_conn : string * string }.   (* the network and address that were dialled *)

(** What is dialled, and the sink; [dial] says whether the connection comes up, and
    [hostname] is empty when the host has no name that can be read. *)
Definition newSyslogSink (dial : string → string → bool) (hostname : string) (pid : Z) (addr : string) : list (string * string) * option syslogSink :=
  match parseSyslogAddr addr with
  | Err _ => ([], None)
  | Ok (network, address) =>
      let conn := (network, address) in
      ([conn], if dial network address then
        Some {| sy_network := network; sy_address := address;
                sy_hostname := if bool_decide (hostname = ""%string) then "-" else hostname;
                sy_appName := "hydradns"; sy_procID := Itoa pid; sy_conn := conn |}
      else None)
  end.

Definition severityFor (action : string) : Z :=
  if bool_decide (action = "error"%string) then 3
  else if bool_decide (action = "flagged"%string) then 4
  else if bool_decide (action = "block"%string) || bool_decide (action = "redirect"%string) then 5
  else 6.

Definition nilIfEmpty (s : string) : string := if bool_decide (s = ""%string) then "-" else s.

Definition dquote : ascii := chr 34.
Definition backslash : ascii := "\"%char.
Definition must_escape (c : ascii) : bool := Ascii.eqb c backslash || Ascii.eqb c dquote || Ascii.eqb c "]".
(** The replacer's three strings are single bytes, so it maps byte by byte. *)
Fixpoint escapeSD (s : string) : string :=
  match s with
  | EmptyString => EmptyString
  | String c s' => if must_escape c then String backslash (String c (escapeSD s')) else String c (escapeSD s')
  end.

(** The parameters of the structured data, in order. *)
Definition sd_params (ev : Event) : list (string * string) := [
  ("domain", ev_Domain ev); ("client", ev_ClientIP ev); ("action", ev_Action ev);
  ("suspicious", FormatBool (ev_IsSuspicious ev)); ("score", FormatFloat_f 2 (ev_ThreatScore ev));
  ("method", ev_DetectionMethod ev); ("reason", ev_ThreatReason ev)]%string.
(** [suspicious] and [score] are not escaped in the code; neither holds a byte that
    would be. *)
Definition sd_raw (name : string) : bool := bool_decide (name ∈ ["suspicious"; "score"]%string).
Definition param_text (p : string * string) : string :=
  (p.1 +:+ "=" +:+ String dquote ((if sd_raw p.1 then p.2 else escapeSD p.2) +:+ String dquote ""))%string.
Definition sd_param (p : string * string) : string := String " " (param_text p).
Definition sd_element (ev : Event) : string :=
  ("[" +:+ syslogSDID +:+ foldr (λ p s, sd_param p +:+ s) "]" (sd_params ev))%string.

Definition rfc5424_header (hostname appName procID : string) (t : Z) (ev : Event) : string :=
  ("<" +:+ Itoa (syslogFacilityLocal0 * 8 + severityFor (ev_Action ev)) +:+ ">1 " +:+
   (if IsZero t then "-" else Format_RFC3339 t) +:+ " " +:+ nilIfEmpty hostname +:+ " " +:+ nilIfEmpty appName +:+ " " +:+
   nilIfEmpty procID +:+ " DNSQUERY ")%string.
Definition formatRFC5424 (hostname appName procID : string) (t : Z) (ev : Event) : string :=
  (rfc5424_header hostname appName procID t ev +:+ sd_element ev +:+ " dns query domain=" +:+ ev_Domain ev +:+
   " client=" +:+ ev_ClientIP ev +:+ " action=" +:+ ev_Action ev)%string.

(** ** Sinks and the worker *)

Inductive sink := Syslog (s : syslogSink) | Webhook (url : string).

(** What one [Send] hands to the network. *)
Inductive delivery := Line (conn : string * string) (text : string) | Post (url : string) (ev : Event).

Definition syslog_line (s : syslogSink) (ev : Event) : string :=
  let line := formatRFC5424 (sy_hostname s) (sy_appName s) (sy_procID s) (ev_Timestamp ev) ev in
  if HasPrefix (sy_network s) "tcp" then (line +:+ String newline "")%string else line.

(** [encoding/json] refuses an event whose score is not finite or whose year has not
    four digits. *)
Definition json_event (ev : Event) : bool :=
  match ev_ThreatScore ev with S754_zero _ | S754_finite _ _ _ => true | _ => false end
  && (let y := d_year (date_of (ev_Timestamp ev)) in (0 <=? y) && (y <=? 9999)).

(** [Send]: what goes out, and the error; [answer] is the write's success or the
    webhook's status code. *)
Definition Send (s : sink) (ev : Event) (answer : option Z) : list delivery * option string :=
  match s with
  | Syslog s => ([Line (sy_conn s) (syslog_line s ev)], match answer with Some _ => None | None => Some "write"%string end)
  | Webhook url =>
      if negb (json_event ev) then ([], Some "marshal event"%string)
      else if negb (NewRequest_ok url) then ([], Some "build request"%string)
      else ([Post url ev], match answer with
                           | None => Some "post webhook"%string
                           | Some code => if 300 <=? code then Some ("webhook returned status " +:+ Itoa code)%string else None
                           end)
  end.

(** What [NewExporter] dials, and the sinks it builds; a syslog target that fails is
    skipped. *)
Definition export_sinks (dial : string → string → bool) (hostname : string) (pid : Z) (syslogAddr webhookURL : string)
  : list (string * string) * list sink :=
  let '(dialled, s) := if bool_decide (TrimSpace syslogAddr = ""%string) then ([], None)
                       else newSyslogSink dial hostname pid syslogAddr in
  (dialled, option_list (Syslog <$> s) ++ (if bool_decide (TrimSpace webhookURL = ""%string) then [] else [Webhook webhookURL])).

(** [run]: every queued event to every sink; errors are only logged. [answers] is the
    network's behaviour at each send. *)
Definition export_event (answers : sink → Event → option Z) (sinks : list sink) (out : list delivery) (ev : Event) : list delivery :=
  foldl (λ out s, out ++ (Send s ev (answers s ev)).1) out sinks.
Definition exporter_run (answers : sink → Event → option Z) (sinks : list sink) (queue : list Event) : list delivery :=
  foldl (export_event answers sinks) [] queue.

(** alert/webhook.go: no URL, no sink; every alert is posted to it, on its own. *)
Definition NewWebhookSink (url : string) : option string := if bool_decide (url = ""%string) then None else Some url.

(** ** Reading a line back *)

(** A reader of RFC 5424 structured data, written from the RFC and not from the sink: the
    bytes a value must escape are 34, 92 and 93 (6.3.3), and a name is one to 32 printable
    bytes other than space, [=], [\]] and the quote (6.3.2). *)
Definition rfc_special (c : ascii) : bool := (ord c =? 34) || (ord c =? 92) || (ord c =? 93).
Definition rfc_name_byte (c : ascii) : bool :=
  (33 <=? ord c) && (ord c <=? 126) && negb (ord c =? 61) && negb (ord c =? 93) && negb (ord c =? 34).

(** A value up to its closing quote: a backslash before one of the three bytes stands for
    that byte, one before any other for itself, and a bare closing bracket is an error. *)
Fixpoint read_value (s : string) : option (string * string) :=
  match s with
  | EmptyString => None
  | String c s' =>
      if ord c =? 34 then Some (EmptyString, s')
      else if ord c =? 93 then None
      else if ord c =? 92 then
        match s' with
        | String d s'' => if rfc_special d then '(v, r) ← read_value s''; Some (String d v, r) else '(v, r) ← read_value s'; Some (String c v, r)
        | EmptyString => None
        end
      else '(v, r) ← read_value s'; Some (String c v, r)
  end.
(** The longest run of name bytes, and what follows. *)
Fixpoint name_run (s : string) : string * string :=
  match s with
  | EmptyString => (EmptyString, EmptyString)
  | String c s' => if rfc_name_byte c then let '(n, r) := name_run s' in (String c n, r) else (EmptyString, s)
  end.
Definition read_name (s : string) : option (string * string) :=
  let '(n, r) := name_run s in
  if (1 <=? String.length n)%nat && (String.length n <=? 32)%nat then Some (n, r) else None.
Definition read_byte (b : Z) (s : string) : option string :=
  match s with String c s' => if ord c =? b then Some s' else None | EmptyString => None end.
Definition read_param (s : string) : option ((string * string) * string) :=
  '(name, s) ← read_name s; s ← read_byte 61 s; s ← read_byte 34 s; '(v, s) ← read_value s; Some ((name, v), s).
(** Parameters, each behind a space, until the closing bracket. *)
Fixpoint read_params (fuel : nat) (s : string) : option (list (string * string) * string) :=
  match fuel with
  | O => None
  | S n =>
      match read_byte 93 s with
      | Some s' => Some ([], s')
      | None => s' ← read_byte 32 s; '(p, r) ← read_param s'; '(ps, r) ← read_params n r; Some (p :: ps, r)
      end
  end.
(** One element: its identifier, its parameters, and what follows it. *)
Definition read_element (s : string) : option (string * list (string * string) * string) :=
  s ← read_byte 91 s; '(id, s) ← read_name s; '(ps, r) ← read_params (String.length s) s; Some (id, ps, r).

(** *** The writer against the reader *)

Lemma must_escape_rfc c : must_escape c = rfc_special c.
Proof. by destruct c as [[] [] [] [] [] [] [] []]. Qed.

Lemma read_escaped v rest : read_value (escapeSD v +:+ String dquote rest)%string = Some (v, rest).
Proof.
  induction v as [|c v IH]; [done|]. cbn [escapeSD]. rewrite must_escape_rfc. destruct (rfc_special c) eqn:E.
  - rewrite !string_cons_app. cbn [read_value]. simpl (ord backslash =? _). cbn iota. by rewrite E, IH.
  - rewrite string_cons_app. cbn [read_value]. unfold rfc_special in E. apply orb_false_iff in E as [E ->].
    apply orb_false_iff in E as [-> ->]. by rewrite IH.
Qed.

(** A value without any of the three bytes is read as it is. *)
Lemma escapeSD_id v : string_forallb (λ c, negb (must_escape c)) v = true → escapeSD v = v.
Proof.
  induction v as [|c v IH]; [done|]. cbn. intros [Hc%negb_true_iff Hv]%andb_true_iff. by rewrite Hc, IH.
Qed.

Definition harmless (c : ascii) : bool := negb (must_escape c).

Lemma digit_harmless c : is_digit_byte c = true → harmless c = true.
Proof. by destruct c as [[] [] [] [] [] [] [] []]. Qed.

Lemma zeros_harmless n : string_forallb harmless (zeros n) = true.
Proof. by induction n. Qed.

Lemma FormatFloat_harmless prec x : string_forallb harmless (FormatFloat_f prec x) = true.
Proof.
  assert (∀ n, 0 ≤ n → string_forallb harmless (fixed_digits prec n) = true) as Hd.
  { intros n Hn. unfold fixed_digits. rewrite !forallb_app. cbn zeta.
    assert (string_forallb harmless (zeros (S prec - String.length (Itoa n)) +:+ Itoa n) = true) as H.
    { rewrite forallb_app, zeros_harmless. apply Itoa_forallb; [done|apply digit_harmless]. }
    by rewrite forallb_take, forallb_drop. }
  destruct x as [s|s| |s m e]; cbn [FormatFloat_f]; [rewrite forallb_app, Hd by lia; by destruct s|by destruct s|done|].
  rewrite forallb_app, Hd; [by destruct s|].
  destruct (0 <=? e) eqn:E; boolp; [apply Z.mul_nonneg_nonneg; [lia|apply Z.pow_nonneg; lia]|].
  assert (0 ≤ Z.pos m * 10 ^ Z.of_nat prec / 2 ^ (- e)) as H by (apply Z.div_pos; [lia|apply Z.pow_pos_nonneg; lia]).
  repeat case_match; lia.
Qed.

(** ** Every field is recovered *)

Definition rfc_name (name : string) : Prop :=
  string_forallb rfc_name_byte name = true ∧ (1 ≤ String.length name ≤ 32)%nat.

Lemma read_name_app name c rest :
  rfc_name name → rfc_name_byte c = false → read_name (name +:+ String c rest) = Some (name, String c rest).
Proof.
  intros [Hn Hl] Hc. unfold read_name. assert (name_run (name +:+ String c rest) = (name, String c rest)) as ->.
  { clear Hl. induction name as [|d name IH]; [change ("" +:+ String c rest)%string with (String c rest); cbn; by rewrite Hc|].
    cbn in Hn. apply andb_true_iff in Hn as [Hd Hn]. rewrite string_cons_app. cbn. by rewrite Hd, IH. }
  destruct Hl as [H1 H2]. by rewrite (proj2 (Nat.leb_le _ _) H1), (proj2 (Nat.leb_le _ _) H2).
Qed.

Definition param_ok (p : string * string) : Prop :=
  rfc_name p.1 ∧ (sd_raw p.1 = true → string_forallb harmless p.2 = true).

Lemma read_sd_param p rest : param_ok p → read_param (param_text p +:+ rest) = Some (p, rest).
Proof.
  intros [Hn Hr]. destruct p as [name v]. unfold param_text. cbn [fst snd] in *.
  assert ((if sd_raw name then v else escapeSD v) = escapeSD v) as ->.
  { destruct (sd_raw name); [|done]. symmetry. by apply escapeSD_id, Hr. }
  set (val := (escapeSD v +:+ String dquote "")%string).
  change (name +:+ "=" +:+ String dquote val)%string with (name +:+ String "=" (String dquote val))%string.
  rewrite <- string_app_assoc, string_cons_app, string_cons_app. unfold read_param. rewrite read_name_app by done.
  cbn [mbind option_bind read_byte]. change (ord "=" =? 61) with true. cbn [mbind option_bind read_byte].
  change (ord dquote =? 34) with true. cbn [mbind option_bind].
  subst val. by rewrite <- string_app_assoc, string_cons_app, read_escaped.
Qed.

Lemma read_all_params ps : ∀ fuel rest, Forall param_ok ps → (length ps < fuel)%nat →
  read_params fuel (foldr (λ p s, sd_param p +:+ s) "]" ps +:+ rest)%string = Some (ps, rest).
Proof.
  induction ps as [|p ps IH]; intros fuel rest H Hf; destruct fuel as [|n]; simpl in Hf; [lia| |lia|].
  - done.
  - apply Forall_cons in H as [Hp Hps]. cbn [foldr]. rewrite <- string_app_assoc.
    unfold sd_param at 1. rewrite string_cons_app. cbn [read_params read_byte].
    change (ord " " =? 93) with false. change (ord " " =? 32) with true. cbn [mbind option_bind].
    rewrite read_sd_param by done. cbn [mbind option_bind]. by rewrite IH by (done || lia).
Qed.

Lemma sd_params_ok ev : Forall param_ok (sd_params ev).
Proof.
  unfold sd_params. repeat (apply Forall_cons; split); [..|constructor]; (split; [by split; [vm_compute|cbn; lia]|]); cbn [fst snd];
    try (by vm_compute); intros _; [by destruct (ev_IsSuspicious ev)|apply FormatFloat_harmless].
Qed.

Lemma read_sd_element ev rest : read_element (sd_element ev +:+ rest) = Some (syslogSDID, sd_params ev, rest).
Proof.
  unfold sd_element. set (body := foldr _ _ _).
  assert ((("[" +:+ syslogSDID +:+ body) +:+ rest) = String "[" (syslogSDID +:+ (body +:+ rest)))%string as ->.
  { by rewrite <- !string_app_assoc. }
  unfold read_element. cbn [read_byte]. simpl (ord "[" =? 91). cbn [mbind option_bind].
  assert (∃ b, body = String " " b) as [b Hb] by (eexists; reflexivity).
  assert (read_name (syslogSDID +:+ (body +:+ rest)) = Some (syslogSDID, (body +:+ rest)%string)) as ->.
  { rewrite Hb, string_cons_app. apply read_name_app; [|done]. split; [by vm_compute|cbn; lia]. }
  cbn [mbind option_bind]. subst body. rewrite read_all_params; [done|apply sd_params_ok|].
  rewrite length_app_string. unfold sd_params. cbn [foldr length]. rewrite !length_app_string. cbn. lia.
Qed.

(** C38. No field of an event, whatever bytes a client or a feed has put in it, can break
    out of its place in a syslog line: behind the header, a reader of RFC 5424 finds one
    element with each field of the event under its own name, every byte of it, and ends
    the element where the free text begins. *)
Theorem syslog_fields_recovered hostname appName procID t ev :
  ∃ tail,
    formatRFC5424 hostname appName procID t ev = (rfc5424_header hostname appName procID t ev +:+ tail)%string ∧
    read_element tail =
      Some ("hydradns@32473",
            [("domain", ev_Domain ev); ("client", ev_ClientIP ev); ("action", ev_Action ev);
             ("suspicious", if ev_IsSuspicious ev then "true" else "false");
             ("score", FormatFloat_f 2 (ev_ThreatScore ev));
             ("method", ev_DetectionMethod ev); ("reason", ev_ThreatReason ev)],
            " dns query domain=" +:+ ev_Domain ev +:+ " client=" +:+ ev_ClientIP ev +:+ " action=" +:+ ev_Action ev)%string.
Proof.
  eexists. split; [reflexivity|]. rewrite read_sd_element. unfold syslogSDID, sd_params, FormatBool.
  by destruct (ev_IsSuspicious ev).
Qed.

(** Every sink is sent every event in order, whatever the other sinks' sends came to. *)
Definition delivered_to (s : sink) (ev : Event) : list delivery := (Send s ev None).1.

Lemma Send_answer s ev a : (Send s ev a).1 = delivered_to s ev.
Proof. unfold delivered_to. destruct s; simpl; [done|]. by destruct (json_event ev), (NewRequest_ok url). Qed.

Lemma exporter_one answers sinks ev out :
  export_event answers sinks out ev = out ++ (sinks ≫= λ s, delivered_to s ev).
Proof.
  unfold export_event. revert out. induction sinks as [|s l IH]; intros out; csimpl; [by rewrite app_nil_r|].
  by rewrite IH, Send_answer, app_assoc.
Qed.

Theorem exporter_delivers answers sinks queue :
  exporter_run answers sinks queue = queue ≫= λ ev, sinks ≫= λ s, delivered_to s ev.
Proof.
  unfold exporter_run. enough (∀ out, foldl (export_event answers sinks) out queue = out ++ (queue ≫= λ ev, sinks ≫= λ s, delivered_to s ev)) as H
    by apply H.
  induction queue as [|ev queue IH]; intros out; csimpl; [by rewrite app_nil_r|]. by rewrite IH, exporter_one, app_assoc.
Qed.

(** ** Callers, the worker and [Close] *)

(** [Dropped], and the queue after [Close] has closed it; a second [Close] changes
    nothing. *)
Definition ex_Dropped (oe : option (Exporter Event)) : Z := match oe with None => 0 | Some e => ex_dropped e end.
Definition ex_close (e : Exporter Event) : Exporter Event :=
  {| ex_queue := ex_queue e; ex_closed := true; ex_dropped := ex_dropped e |}.

(** The exporter, the event in the worker's hands, what was sent, and the events
    exported so far. *)
Record xrun := { x_exporter : Exporter Event; x_busy : option Event; x_out : list delivery; x_exported : list Event }.

Inductive exporter_step (answers : sink → Event → option Z) (sinks : list sink) : xrun → xrun → Prop :=
| x_call e e' ev b out evs :
    Export ev (Some e) = Some (Some e') →
    exporter_step answers sinks {| x_exporter := e; x_busy := b; x_out := out; x_exported := evs |}
      {| x_exporter := e'; x_busy := b; x_out := out; x_exported := evs ++ [ev] |}
| x_take e ev q out evs :
    ex_queue e = ev :: q →
    exporter_step answers sinks {| x_exporter := e; x_busy := None; x_out := out; x_exported := evs |}
      {| x_exporter := {| ex_queue := q; ex_closed := ex_closed e; ex_dropped := ex_dropped e |};
         x_busy := Some ev; x_out := out; x_exported := evs |}
| x_send e ev out evs :
    exporter_step answers sinks {| x_exporter := e; x_busy := Some ev; x_out := out; x_exported := evs |}
      {| x_exporter := e; x_busy := None; x_out := export_event answers sinks out ev; x_exported := evs |}
| x_close s :
    exporter_step answers sinks s
      {| x_exporter := ex_close (x_exporter s); x_busy := x_busy s; x_out := x_out s; x_exported := x_exported s |}.

Definition x_start : xrun := {|
  x_exporter := {| ex_queue := []; ex_closed := false; ex_dropped := 0 |}; x_busy := None; x_out := []; x_exported := [] |}.
(** [Close] returns once the worker has left its loop. *)
Definition x_closed (s : xrun) : Prop := ex_closed (x_exporter s) = true ∧ ex_queue (x_exporter s) = [] ∧ x_busy s = None.

(** The events that were taken in, each either sent to every sink or waiting, and the
    number of those that were not. *)
Definition x_accounts (sinks : list sink) (s : xrun) : Prop :=
  ∃ sent, sublist (sent ++ option_list (x_busy s) ++ ex_queue (x_exporter s)) (x_exported s) ∧
    x_out s = (sent ≫= λ ev, sinks ≫= λ k, delivered_to k ev) ∧
    ex_Dropped (Some (x_exporter s)) = u64 (Z.of_nat (length (x_exported s)) -
      Z.of_nat (length (sent ++ option_list (x_busy s) ++ ex_queue (x_exporter s)))) ∧
    Z.of_nat (length (ex_queue (x_exporter s))) ≤ exportQueueSize.

Lemma exporter_step_accounts answers sinks s s' :
  exporter_step answers sinks s s' → x_accounts sinks s → x_accounts sinks s'.
Proof.
  destruct 1 as [e e' ev b out evs He|e ev q out evs He|e ev out evs|s]; intros (sent & Hs & Ho & Hd & Hq);
    unfold x_accounts; cbn [x_exporter x_busy x_out x_exported ex_Dropped ex_queue ex_dropped ex_close] in *.
  - unfold Export, try_send in He. destruct (ex_closed e); [done|]. exists sent.
    destruct (Z.ltb_spec (Z.of_nat (length (ex_queue e))) exportQueueSize); injection He as <-; cbn [ex_queue ex_dropped].
    + rewrite !app_assoc. split; [apply sublist_app; [by rewrite <- app_assoc|done]|]. split; [done|].
      rewrite Hd, !length_app. cbn [length]. split; [f_equal; rewrite ?length_app; cbn; lia|lia].
    + split; [by apply sublist_inserts_r|]. split; [done|]. split; [|done].
      rewrite Hd, u64_succ, !length_app. cbn [length]. f_equal. lia.
  - exists sent. rewrite He in *. cbn [option_list app] in *. split; [done|]. split; [done|]. split; [done|]. cbn in Hq. lia.
  - exists (sent ++ [ev]). rewrite <- app_assoc. split; [done|]. rewrite exporter_one, bind_app, Ho. csimpl.
    rewrite app_nil_r. by split.
  - by exists sent.
Qed.

(** Over every interleaving of callers, worker and [Close], the exporter sends, in order
    and to every sink, a part of what was exported, and counts what it did not take in;
    when [Close] returns nothing that was taken in is unsent. *)
Theorem exporter_accounting answers sinks s :
  rtc (exporter_step answers sinks) x_start s →
  x_accounts sinks s ∧
  (x_closed s → ∃ sent, sublist sent (x_exported s) ∧ x_out s = (sent ≫= λ ev, sinks ≫= λ k, delivered_to k ev) ∧
     ex_Dropped (Some (x_exporter s)) = u64 (Z.of_nat (length (x_exported s)) - Z.of_nat (length sent))).
Proof.
  intros Hr. assert (x_accounts sinks s) as H.
  { revert Hr. apply (rtc_ind_r (λ s, x_accounts sinks s)); [by exists []|]. intros; by eapply exporter_step_accounts. }
  split; [done|]. destruct H as (sent & H1 & H2 & H3 & _). intros (_ & Hq & Hb). exists sent. rewrite Hq, Hb in *.
  cbn in H1, H3. rewrite app_nil_r in *. done.
Qed.

Definition ex_event (domain : string) : Event := {|
  ev_Timestamp := 1735689600 * second; ev_Domain := domain; ev_ClientIP := "10.0.0.1"; ev_Action := "block";
  ev_IsSuspicious := true; ev_ThreatScore := f64_lit 875 3; ev_DetectionMethod := "dga"; ev_ThreatReason := "" |}.
Example syslog_ex :
  HasPrefix (formatRFC5424 "" "hydradns" "7" (1735689600 * second) (ex_event "a.com"))
    "<133>1 2025-01-01T00:00:00Z - hydradns 7 DNSQUERY [hydradns@32473 domain=" = true ∧
  (λ r, r.1.2 !! 0%nat) <$> read_element (sd_element (ex_event ("x" +:+ String dquote "]")) +:+ " tail")%string
    = Some (Some ("domain", "x" +:+ String dquote "]"))%string ∧
  parseSyslogAddr " TCP://user@[::1]:514/x " = Ok ("tcp", "[::1]:514")%string ∧ parseSyslogAddr "host:514" = Ok ("udp", "host:514")%string ∧
  parseSyslogAddr "http://h" = Err (UnsupportedNetwork "http") ∧ parseSyslogAddr "udp://" = Err MissingHostPort ∧
  parseSyslogAddr "udp://h:x" = Err ParseSyslogAddr ∧ parseSyslogAddr "1://h" = Err ParseSyslogAddr.
Proof. vm_compute. repeat split. Qed.
