(* ===== verification/Analytics.v ===== *)
(** * The query log and what is computed from it

    [internal/storage/repositories]: query_log.go, analytics.go, anomaly.go and
    statistics_repo.go. The log is a table of rows (Storage.v); the clauses of an
    aggregating statement are functions on the rows its condition selects. Times of rows
    are instants, their hours those of UTC. *)
From S2P Require Import Prelude GoStrings GoText GoUtf8 GoStrconv GoTime Json QueryLog Storage.

(** ** Rows and orders *)

(** models.DNSQuery with its key and time stamp. *)
Record LoggedQuery := { lq_ID : Z; lq_Timestamp : Z; lq_query : DNSQuery }.
#[export] Instance LoggedQuery_keyed : Keyed LoggedQuery := λ q, Itoa (lq_ID q).
Definition lq_Domain (q : LoggedQuery) : string := dq_Domain (lq_query q).
Definition lq_ClientIP (q : LoggedQuery) : string := dq_ClientIP (lq_query q).
Definition lq_Action (q : LoggedQuery) : string := dq_Action (lq_query q).

(** ORDER BY timestamp desc. *)
Definition newest_first (a b : LoggedQuery) : bool := lq_Timestamp b <=? lq_Timestamp a.

(** GROUP BY: the rows of each key, the keys in the order they first occur. *)
Definition group_by {A K} `{EqDecision K} (key : A → K) (l : list A) : list (K * list A) :=
  (λ k, (k, filter (λ a, key a = k) l)) <$> remove_dups (key <$> l).
Definition count_where {A} (f : A → bool) (l : list A) : Z := Z.of_nat (length (List.filter f l)).

(** ORDER BY count DESC, name ASC. *)
Definition ranked {A} (count : A → Z) (name : A → string) (a b : A) : Prop :=
  count b < count a ∨ count a = count b ∧ String.le (name a) (name b).
#[export] Instance ranked_dec {A} (count : A → Z) (name : A → string) : RelDecision (ranked count name).
Proof. intros a b. unfold ranked. apply _. Defined.
#[export] Instance ranked_trans {A} (count : A → Z) (name : A → string) : Transitive (ranked count name).
Proof.
  intros a b c [H1|[E1 H1]] [H2|[E2 H2]]; unfold ranked; [left; lia..|]. right. split; [lia|]. by transitivity (name b).
Qed.
#[export] Instance ranked_total {A} (count : A → Z) (name : A → string) : Total (ranked count name).
Proof.
  intros a b. unfold ranked. destruct (Z.lt_trichotomy (count a) (count b)) as [|[|]]; [auto| |auto].
  destruct (total String.le (name a) (name b)); auto.
Qed.

(** The first [n] of a ranking: none that is left out ranks above one that is in. *)
Definition leaderboard {A} (count : A → Z) (name : A → string) (n : Z) (l : list A) : list A :=
  take (Z.to_nat n) (merge_sort (ranked count name) l).

Lemma leaderboard_spec {A} (count : A → Z) (name : A → string) n l :
  let top := leaderboard count name n l in
  StronglySorted (ranked count name) top ∧ length top = (Z.to_nat n `min` length l)%nat ∧ (∀ a, a ∈ top → a ∈ l) ∧
  ∃ rest, l ≡ₚ top ++ rest ∧ ∀ a b, a ∈ top → b ∈ rest → ranked count name a b.
Proof.
  intros top. set (s := merge_sort (ranked count name) l).
  assert (StronglySorted (ranked count name) s) as Hs by (apply StronglySorted_merge_sort; apply _).
  assert (s ≡ₚ l) as Hp by apply merge_sort_Permutation.
  rewrite <- (take_drop (Z.to_nat n) s) in Hs. apply StronglySorted_app in Hs as (Hr & Ht & _).
  split; [done|]. split; [unfold top, leaderboard; by rewrite length_take, merge_sort_Permutation|].
  split; [intros a Ha; rewrite <- Hp; rewrite <- (take_drop (Z.to_nat n) s); set_solver|].
  exists (drop (Z.to_nat n) s). split; [|done]. unfold top, leaderboard. fold s. by rewrite take_drop.
Qed.

(** ** query_log.go *)

Definition DefaultQueryLogPageSize : Z := 50.
Definition MaxQueryLogPageSize : Z := 200.
Definition ClampQueryLogPageSize (limit : Z) : Z :=
  if limit <=? 0 then DefaultQueryLogPageSize else if MaxQueryLogPageSize <? limit then MaxQueryLogPageSize else limit.

Record QueryLogFilter := {
  qf_ClientIP : string; qf_Action : string; qf_Domain : string; qf_SuspiciousOnly : bool;
  qf_From : option Z; qf_To : option Z; qf_Limit : Z; qf_Offset : Z;
}.

(** SQL's LIKE on the characters of a text: "%" stands for any of them, "_" for one; the
    case of ASCII letters does not matter. *)
Definition like_lower (r : Z) : Z := if (65 <=? r) && (r <=? 90) then r + 32 else r.
Fixpoint like_chars (p s : list Z) {struct p} : bool :=
  match p with
  | [] => bool_decide (s = [])
  | c :: p' =>
      if c =? 37 then
        (fix any (s : list Z) : bool := like_chars p' s || match s with [] => false | _ :: s' => any s' end) s
      else match s with
           | [] => false
           | d :: s' => ((c =? 95) || (like_lower c =? like_lower d)) && like_chars p' s'
           end
  end.
Definition sql_like (value pattern : string) : bool := like_chars (runes pattern) (runes value).

Definition opt_string (f : string) (v : string) : bool := bool_decide (f = ""%string) || bool_decide (v = f).
Definition opt_from (f : option Z) (t : Z) : bool := match f with Some x => x <=? t | None => true end.
Definition opt_to (f : option Z) (t : Z) : bool := match f with Some x => t <=? x | None => true end.

(** The WHERE clause [List] builds. *)
Definition query_matches (f : QueryLogFilter) (q : LoggedQuery) : bool :=
  opt_string (qf_ClientIP f) (lq_ClientIP q) && opt_string (qf_Action f) (lq_Action q)
  && (negb (qf_SuspiciousOnly f) || dq_IsSuspicious (lq_query q))
  && opt_from (qf_From f) (lq_Timestamp q) && opt_to (qf_To f) (lq_Timestamp q)
  && (bool_decide (qf_Domain f = ""%string) || sql_like (lq_Domain q) ("%" +:+ qf_Domain f +:+ "%")).

(** ** analytics.go: data *)

Definition DefaultAnalyticsTopN : Z := 10.
Definition MaxAnalyticsTopN : Z := 100.
Definition ClampAnalyticsTopN (n : Z) : Z :=
  if n <=? 0 then DefaultAnalyticsTopN else if MaxAnalyticsTopN <? n then MaxAnalyticsTopN else n.

Record AnalyticsWindow := { aw_From : option Z; aw_To : option Z; aw_Limit : Z }.
Record ClientActivity := { ca_ClientIP : string; ca_Total : Z; ca_Blocked : Z }.
Record DomainCount := { dc_Domain : string; dc_Count : Z }.
Record CategoryCount := { cc_Category : string; cc_Count : Z }.
Record TimeBucket := { tb_Bucket : Z; tb_Total : Z; tb_Blocked : Z }.
Record HeatmapCell := { hm_Hour : Z; hm_Category : string; hm_Count : Z }.

Definition is_blocked (q : LoggedQuery) : bool := bool_decide (lq_Action q = "block"%string).
Definition in_window (w : AnalyticsWindow) (q : LoggedQuery) : bool :=
  opt_from (aw_From w) (lq_Timestamp q) && opt_to (aw_To w) (lq_Timestamp q).

Definition bucket_order (a b : TimeBucket) : Prop := tb_Bucket a ≤ tb_Bucket b.
#[export] Instance bucket_order_dec : RelDecision bucket_order.
Proof. intros a b. unfold bucket_order. apply _. Defined.
Definition cell_order (a b : HeatmapCell) : Prop :=
  hm_Hour a < hm_Hour b ∨ hm_Hour a = hm_Hour b ∧ String.le (hm_Category a) (hm_Category b).
#[export] Instance cell_order_dec : RelDecision cell_order.
Proof. intros a b. unfold cell_order. apply _. Defined.

(** The lists the statements compute from the rows they select. *)
Definition client_activity (g : string * list LoggedQuery) : ClientActivity :=
  {| ca_ClientIP := g.1; ca_Total := Z.of_nat (length g.2); ca_Blocked := count_where is_blocked g.2 |}.
Definition domain_count (g : string * list LoggedQuery) : DomainCount :=
  {| dc_Domain := g.1; dc_Count := Z.of_nat (length g.2) |}.
Definition category_count (g : string * list LoggedQuery) : CategoryCount :=
  {| cc_Category := g.1; cc_Count := Z.of_nat (length g.2) |}.
Definition time_bucket (g : Z * list LoggedQuery) : TimeBucket :=
  {| tb_Bucket := g.1; tb_Total := Z.of_nat (length g.2); tb_Blocked := count_where is_blocked g.2 |}.
Definition heatmap_cell (g : Z * string * list LoggedQuery) : HeatmapCell :=
  {| hm_Hour := g.1.1; hm_Category := g.1.2; hm_Count := Z.of_nat (length g.2) |}.

Section QueryLogRepo.
Context {T : SqlTable LoggedQuery}.

Definition QueryLogRepo_Save (now id : Z) (q : DNSQuery) (t : table LoggedQuery) : result db_error (table LoggedQuery) :=
  sql_insert {| lq_ID := id; lq_Timestamp := now; lq_query := q |} t.

Definition QueryLogRepo_ListRecent (limit : Z) (t : table LoggedQuery) : result db_error (list LoggedQuery) :=
  let? l := sql_select everything newest_first t in Ok (take (Z.to_nat limit) l).

(** A call that issues several statements does so outside any transaction, while the data
    plane goes on inserting rows: [ts k] is the log as its k-th statement finds it. Not
    the rows alone are the statement's: how rows that the order leaves tied come out is up
    to the table as it is then. *)

(** [List]: the count, then the page. *)
Definition QueryLogRepo_List (f : QueryLogFilter) (ts : nat → table LoggedQuery) : result db_error (list LoggedQuery * Z) :=
  let limit := ClampQueryLogPageSize (qf_Limit f) in
  let offset := if qf_Offset f <? 0 then 0 else qf_Offset f in
  let? all := sql_select (query_matches f) any_order (ts 0%nat) in
  let? l := sql_select (query_matches f) newest_first (ts 1%nat) in
  Ok (take (Z.to_nat limit) (drop (Z.to_nat offset) l), Z.of_nat (length all)).

(** ** analytics.go *)

Definition TopClients (w : AnalyticsWindow) (t : table LoggedQuery) : result db_error (list ClientActivity) :=
  let? l := sql_select (in_window w) any_order t in
  Ok (leaderboard ca_Total ca_ClientIP (ClampAnalyticsTopN (aw_Limit w)) (client_activity <$> group_by lq_ClientIP l)).

Definition TopBlockedDomains (w : AnalyticsWindow) (t : table LoggedQuery) : result db_error (list DomainCount) :=
  let? l := sql_select (λ q, in_window w q && is_blocked q) any_order t in
  Ok (leaderboard dc_Count dc_Domain (ClampAnalyticsTopN (aw_Limit w)) (domain_count <$> group_by lq_Domain l)).

Definition CategoryBreakdown (w : AnalyticsWindow) (t : table LoggedQuery) : result db_error (list CategoryCount) :=
  let? l := sql_select (in_window w) any_order t in
  Ok (merge_sort (ranked cc_Count cc_Category) (category_count <$> group_by lq_Action l)).

(** The hour a row falls in; its text form is parsed back to the same instant. *)
Definition bucket_of (q : LoggedQuery) : Z := lq_Timestamp q / hour * hour.
Definition ClientTimeline (clientIP : string) (w : AnalyticsWindow) (t : table LoggedQuery) : result db_error (list TimeBucket) :=
  let? l := sql_select (λ q, in_window w q && bool_decide (lq_ClientIP q = clientIP)) any_order t in
  Ok (merge_sort bucket_order (time_bucket <$> group_by bucket_of l)).

Definition CategoryHourHeatmap (w : AnalyticsWindow) (t : table LoggedQuery) : result db_error (list HeatmapCell) :=
  let? l := sql_select (in_window w) any_order t in
  Ok (merge_sort cell_order (heatmap_cell <$> group_by (λ q, (hour_of (lq_Timestamp q), lq_Action q)) l)).
End QueryLogRepo.

(** ** anomaly.go *)

Record AnomalyThresholds := {
  at_BlockedRateSpikePoints : float64; at_ClientSurgeFactor : float64; at_ClientSurgeMinQueries : Z;
}.
Definition DefaultAnomalyThresholds : AnomalyThresholds :=
  {| at_BlockedRateSpikePoints := f64_of_Z 10; at_ClientSurgeFactor := f64_of_Z 3; at_ClientSurgeMinQueries := 20 |}.
Definition withDefaults (t : AnomalyThresholds) : AnomalyThresholds :=
  let d := DefaultAnomalyThresholds in {|
    at_BlockedRateSpikePoints := if f64_leb (at_BlockedRateSpikePoints t) f64_zero then at_BlockedRateSpikePoints d else at_BlockedRateSpikePoints t;
    at_ClientSurgeFactor := if f64_leb (at_ClientSurgeFactor t) f64_zero then at_ClientSurgeFactor d else at_ClientSurgeFactor t;
    at_ClientSurgeMinQueries := if at_ClientSurgeMinQueries t <=? 0 then at_ClientSurgeMinQueries d else at_ClientSurgeMinQueries t |}.

Record WindowStats := { ws_Total : Z; ws_Blocked : Z; ws_Clients : list ClientActivity }.
Definition BlockedRate (w : WindowStats) : float64 :=
  if ws_Total w <=? 0 then f64_zero else f64_mul (f64_div (f64_of_Z (ws_Blocked w)) (f64_of_Z (ws_Total w))) (f64_of_Z 100).

Record ClientSurge := { cg_ClientIP : string; cg_Current : Z; cg_Prior : Z; cg_GrowthFactor : float64 }.
Record AnomalyDigest := {
  ad_TotalCurrent : Z; ad_TotalPrior : Z; ad_TotalDelta : Z; ad_BlockedRateCurrent : float64; ad_BlockedRatePrior : float64;
  ad_BlockedRateDeltaPoints : float64; ad_BlockedRateSpike : bool; ad_SurgingClients : list ClientSurge;
}.

(** The body of the loop over the current clients. *)
Definition client_surge (cfg : AnomalyThresholds) (prior : gmap string Z) (c : ClientActivity) : option ClientSurge :=
  if ca_Total c <? at_ClientSurgeMinQueries cfg then None
  else
    let priorTotal := default 0 (prior !! ca_ClientIP c) in
    let denom := if priorTotal <? 1 then 1 else priorTotal in
    let factor := f64_div (f64_of_Z (ca_Total c)) (f64_of_Z denom) in
    if f64_ltb factor (at_ClientSurgeFactor cfg) then None
    else Some {| cg_ClientIP := ca_ClientIP c; cg_Current := ca_Total c; cg_Prior := priorTotal; cg_GrowthFactor := factor |}.

Definition surge_less (a b : ClientSurge) : bool :=
  f64_ltb (cg_GrowthFactor a) (cg_GrowthFactor b)
  || f64_eqb (cg_GrowthFactor b) (cg_GrowthFactor a) && String.ltb (cg_ClientIP b) (cg_ClientIP a).
(** One turn of the outer loop: the new element moves left past those that are less; the
    part already sorted is kept with its last element first. *)
Fixpoint sift (b : ClientSurge) (done : list ClientSurge) : list ClientSurge :=
  match done with
  | [] => [b]
  | a :: rest => if surge_less a b then a :: sift b rest else b :: done
  end.
Definition sortClientSurges (s : list ClientSurge) : list ClientSurge := reverse (foldl (λ done b, sift b done) [] s).

(** Prior totals: a later row of a client replaces an earlier one. *)
Definition prior_totals (clients : list ClientActivity) : gmap string Z :=
  foldl (λ m c, <[ca_ClientIP c := ca_Total c]> m) ∅ clients.

Definition ComputeAnomalyDigest (current prior : WindowStats) (cfg : AnomalyThresholds) : AnomalyDigest :=
  let cfg := withDefaults cfg in
  let delta := f64_sub (BlockedRate current) (BlockedRate prior) in {|
    ad_TotalCurrent := ws_Total current; ad_TotalPrior := ws_Total prior; ad_TotalDelta := wrap_int64 (ws_Total current - ws_Total prior);
    ad_BlockedRateCurrent := BlockedRate current; ad_BlockedRatePrior := BlockedRate prior; ad_BlockedRateDeltaPoints := delta;
    ad_BlockedRateSpike := f64_leb (at_BlockedRateSpikePoints cfg) delta;
    ad_SurgingClients := sortClientSurges (omap (client_surge cfg (prior_totals (ws_Clients prior))) (ws_Clients current)) |}.

Section Anomaly.
Context {T : SqlTable LoggedQuery}.

Definition GatherWindowStats (w : AnalyticsWindow) (ts : nat → table LoggedQuery) : result db_error WindowStats :=
  let? l := sql_select (in_window w) any_order (ts 0%nat) in
  let? clients := TopClients w (ts 1%nat) in
  Ok {| ws_Total := Z.of_nat (length l); ws_Blocked := count_where is_blocked l; ws_Clients := clients |}.

Definition AnomalyDigestBetween (current prior : AnalyticsWindow) (cfg : AnomalyThresholds) (ts : nat → table LoggedQuery)
  : result db_error AnomalyDigest :=
  let? cur := GatherWindowStats current ts in
  let? pri := GatherWindowStats prior (λ k, ts (2 + k)%nat) in
  Ok (ComputeAnomalyDigest cur pri cfg).
End Anomaly.

(** ** statistics_repo.go *)

Definition u64_succ (z : Z) : Z := u64 (z + 1).
Record StatRow := { sr_ID : Z; sr_Total : Z; sr_Blocked : Z; sr_Allowed : Z; sr_Redirected : Z; sr_UpdatedAt : Z }.
#[export] Instance StatRow_keyed : Keyed StatRow := λ s, Itoa (sr_ID s).
#[export] Instance StatRow_eq_dec : EqDecision StatRow.
Proof. solve_decision. Defined.
Definition fresh_stats : StatRow :=
  {| sr_ID := 1; sr_Total := 0; sr_Blocked := 0; sr_Allowed := 0; sr_Redirected := 0; sr_UpdatedAt := 0 |}.
Definition recent_first (a b : StatRow) : bool := sr_UpdatedAt b <=? sr_UpdatedAt a.

(** What [IncrementCounter] makes of the row it has read. *)
Definition count_action (now : Z) (action : string) (s : StatRow) : StatRow := {|
  sr_ID := sr_ID s;
  sr_Total := u64_succ (sr_Total s);
  sr_Blocked := if bool_decide (action = "block"%string) then u64_succ (sr_Blocked s) else sr_Blocked s;
  sr_Allowed := if bool_decide (action = "allow"%string) then u64_succ (sr_Allowed s) else sr_Allowed s;
  sr_Redirected := if bool_decide (action = "redirect"%string) then u64_succ (sr_Redirected s) else sr_Redirected s;
  sr_UpdatedAt := now |}.

Section Statistics.
Context {T : SqlTable StatRow}.

Definition StatisticsRepo_ListRecent (limit : Z) (t : table StatRow) : result db_error (list StatRow) :=
  let? l := sql_select everything recent_first t in Ok (take (Z.to_nat limit) l).

(** gorm's [FirstOrCreate] of row 1: the row read, and the table. *)
Definition read_stats (t : table StatRow) : result db_error (StatRow * table StatRow) :=
  match sql_first "1" t with
  | Ok s => Ok (s, t)
  | Err ErrRecordNotFound => let? t := sql_insert fresh_stats t in Ok (fresh_stats, t)
  | Err e => Err e
  end.
Definition StatisticsRepo_Save (now : Z) (s : StatRow) (t : table StatRow) : result db_error (table StatRow) :=
  sql_save {| sr_ID := sr_ID s; sr_Total := sr_Total s; sr_Blocked := sr_Blocked s; sr_Allowed := sr_Allowed s;
              sr_Redirected := sr_Redirected s; sr_UpdatedAt := now |} t.
Definition IncrementCounter (now : Z) (action : string) (t : table StatRow) : result db_error (table StatRow) :=
  let? r := read_stats t in sql_save (count_action now action r.1) r.2.
End Statistics.

(** The query-log writer runs several workers: the two statements of [IncrementCounter]
    are two critical sections of the shared connection, and a worker holds the row it
    has read in between. *)
Record stats_worker := { wk_now : Z; wk_action : string; wk_read : option StatRow }.
Inductive stats_step : StatRow * list stats_worker → StatRow * list stats_worker → Prop :=
| stats_read s ws1 ws2 now action :
    stats_step (s, ws1 ++ {| wk_now := now; wk_action := action; wk_read := None |} :: ws2)
               (s, ws1 ++ {| wk_now := now; wk_action := action; wk_read := Some s |} :: ws2)
| stats_save s ws1 ws2 now action r :
    stats_step (s, ws1 ++ {| wk_now := now; wk_action := action; wk_read := Some r |} :: ws2)
               (count_action now action r, ws1 ++ ws2).
Definition stats_worker_of (p : Z * string) : stats_worker := {| wk_now := p.1; wk_action := p.2; wk_read := None |}.

(** One worker after the other counts every row. *)
Definition count_all (calls : list (Z * string)) (s : StatRow) : StatRow := foldl (λ s p, count_action p.1 p.2 s) s calls.
Definition calls_of (action : string) (calls : list (Z * string)) : Z := count_where (λ p, bool_decide (p.2 = action)) calls.

Lemma stats_serial calls s : rtc stats_step (s, stats_worker_of <$> calls) (count_all calls s, []).
Proof.
  revert s. induction calls as [|[now action] calls IH]; intros s; [apply rtc_refl|]. csimpl.
  eapply rtc_l; [apply (stats_read s [] _ now action)|]. eapply rtc_l; [apply (stats_save s [] _ now action s)|]. apply IH.
Qed.

Lemma count_all_totals calls s :
  let s' := count_all calls s in
  sr_Total s' = u64 (sr_Total s + Z.of_nat (length calls)) ∨ calls = [].
Proof.
  cbv zeta. induction calls as [|p calls IH] using rev_ind; [by right|left]. unfold count_all. rewrite foldl_app. cbn [foldl].
  fold (count_all calls s). cbn [count_action sr_Total]. rewrite length_app. cbn [length].
  destruct IH as [->| ->]; unfold u64_succ, u64; [|by simpl; f_equal; lia]. rewrite Zplus_mod_idemp_l. f_equal. lia.
Qed.

(** Two workers that interleave lose a count. *)
Lemma stats_lost_update :
  rtc stats_step (fresh_stats, stats_worker_of <$> [(1, "block"%string); (2, "allow"%string)])
    (count_action 2 "allow" fresh_stats, []) ∧
  sr_Total (count_action 2 "allow" fresh_stats) = 1 ∧ sr_Blocked (count_action 2 "allow" fresh_stats) = 0.
Proof.
  split; [|by vm_compute]. csimpl. eapply rtc_l; [apply (stats_read fresh_stats [] _ 1 "block")|].
  eapply rtc_l; [apply (stats_read fresh_stats [_] [] 2 "allow")|].
  eapply rtc_l; [apply (stats_save fresh_stats [] _ 1 "block")|].
  eapply rtc_l; [apply (stats_save _ [] [] 2 "allow")|]. apply rtc_refl.
Qed.

(** ** The substring filter *)

Lemma like_any p s : like_chars (37 :: p) s = true ↔ ∃ s1 s2, s = s1 ++ s2 ∧ like_chars p s2 = true.
Proof.
  cbn [like_chars Z.eqb Pos.eqb]. induction s as [|d s IH].
  - split; [|intros (s1 & s2 & E & H); symmetry in E; apply app_eq_nil in E as [-> ->]; by rewrite H].
    rewrite orb_false_r. intros H. by exists [], [].
  - rewrite orb_true_iff, IH. split.
    + intros [H|(s1 & s2 & -> & H)]; [by exists [], (d :: s)|by exists (d :: s1), s2].
    + intros (s1 & s2 & E & H). destruct s1 as [|x s1]; simpl in E; [left; by rewrite E|right]. injection E as -> ->. by exists s1, s2.
Qed.

Definition plain_chars (p : list Z) : Prop := Forall (λ c, c ≠ 37 ∧ c ≠ 95) p.

Lemma like_plain p q s : plain_chars p →
  like_chars (p ++ q) s = true ↔ ∃ s1 s2, s = s1 ++ s2 ∧ like_lower <$> s1 = like_lower <$> p ∧ like_chars q s2 = true.
Proof.
  intros Hp. revert s. induction Hp as [|c p [H1 H2] Hp IH]; intros s.
  - simpl. split; [intros H; by exists [], s|]. intros (s1 & s2 & -> & E & H). by apply fmap_nil_inv in E as ->.
  - cbn [app like_chars]. rewrite (proj2 (Z.eqb_neq c 37)), (proj2 (Z.eqb_neq c 95)) by done. cbn [orb].
    destruct s as [|d s].
    + split; [done|]. intros (s1 & s2 & E & El & _). destruct s1; [done|]. done.
    + rewrite andb_true_iff, IH, Z.eqb_eq. split.
      * intros (E & s1 & s2 & -> & El & H). exists (d :: s1), s2. csimpl. split; [done|]. split; [by f_equal|done].
      * intros (s1 & s2 & E & El & H). destruct s1 as [|x s1]; [done|]. csimpl in *. injection E as <- ->. injection El as E1 E2.
        split; [done|]. by exists s1, s2.
Qed.

(** A filter of characters none of which LIKE treats specially selects the rows that
    contain it, whatever the case of ASCII letters. *)
Lemma like_substring x s : plain_chars x →
  like_chars (37 :: x ++ [37]) s = true ↔ ∃ s1 y s2, s = s1 ++ y ++ s2 ∧ like_lower <$> y = like_lower <$> x.
Proof.
  intros Hx. rewrite like_any. setoid_rewrite (like_plain x [37] _ Hx). split.
  - intros (s1 & r & -> & y & s2 & -> & E & _). by exists s1, y, s2.
  - intros (s1 & y & s2 & -> & E). exists s1, (y ++ s2). split; [done|]. exists y, s2. split; [done|]. split; [done|].
    apply like_any. exists s2, []. by rewrite app_nil_r.
Qed.

(** An underscore, common in service names, matches any character. *)
Lemma underscore_matches_anything : sql_like "xdmarc.example.com" "%_dmarc%" = true.
Proof. vm_compute. reflexivity. Qed.

(** ** Leaderboards count what the log holds *)

Lemma group_by_spec {A K} `{EqDecision K} (key : A → K) l :
  (group_by key l).*1 = remove_dups (key <$> l) ∧
  ∀ k g, (k, g) ∈ group_by key l ↔ k ∈ key <$> l ∧ g = filter (λ a, key a = k) l.
Proof.
  unfold group_by. split; [rewrite <- list_fmap_compose; by rewrite list_fmap_id|].
  intros k g. rewrite list_elem_of_fmap. setoid_rewrite elem_of_remove_dups. split.
  - by intros (k' & [= -> ->] & H).
  - intros [H ->]. by exists k.
Qed.

Section Leaderboards.
Context {T : SqlTable LoggedQuery} {L : SqlTableLaws T}.

Definition blocked_in (w : AnalyticsWindow) (t : table LoggedQuery) (domain : string) : Z :=
  Z.of_nat (length (filter (λ q, in_window w q = true ∧ is_blocked q = true ∧ lq_Domain q = domain) (rows t))).

Lemma blocked_group w t l d : l ≡ₚ filter (λ q, in_window w q && is_blocked q) (rows t) →
  Z.of_nat (length (filter (λ q, lq_Domain q = d) l)) = blocked_in w t d.
Proof.
  intros E. unfold blocked_in. rewrite E, list_filter_filter. f_equal. f_equal. apply list_filter_iff. intros q.
  destruct (in_window w q), (is_blocked q); naive_solver.
Qed.

(** The board of the most blocked domains: at most the clamped number of rows, each a
    domain with the number of its blocked queries in the window, in order; and no domain
    left out has been blocked more often than one that is listed. *)
Theorem TopBlockedDomains_spec w t top :
  TopBlockedDomains w t = Ok top →
  (length top ≤ Z.to_nat (ClampAnalyticsTopN (aw_Limit w)))%nat ∧ NoDup (dc_Domain <$> top) ∧
  StronglySorted (ranked dc_Count dc_Domain) top ∧
  (∀ c, c ∈ top → dc_Count c = blocked_in w t (dc_Domain c) ∧ 0 < dc_Count c) ∧
  ∀ d, 0 < blocked_in w t d → d ∉ dc_Domain <$> top → ∀ c, c ∈ top → blocked_in w t d ≤ dc_Count c.
Proof.
  unfold TopBlockedDomains. destruct (sql_select _ _ t) as [l|] eqn:El; [|done]. apply select_law in El as [El _].
  set (all := domain_count <$> group_by lq_Domain l).
  intros Htop. assert (top = leaderboard dc_Count dc_Domain (ClampAnalyticsTopN (aw_Limit w)) all) as -> by congruence. clear Htop.
  destruct (leaderboard_spec dc_Count dc_Domain (ClampAnalyticsTopN (aw_Limit w)) all) as (Hs & Hlen & Hin & rest & Hp & Hr).
  set (top := leaderboard _ _ _ all) in *.
  destruct (group_by_spec lq_Domain l) as [Hk Hg].
  assert (∀ c, c ∈ all ↔ dc_Domain c ∈ lq_Domain <$> l ∧ dc_Count c = blocked_in w t (dc_Domain c)) as Hall.
  { intros c. unfold all. rewrite list_elem_of_fmap. split.
    - intros ([k g] & -> & [H ->]%Hg). cbn. split; [done|]. by apply blocked_group.
    - intros [H Hc]. exists (dc_Domain c, filter (λ q, lq_Domain q = dc_Domain c) l). split; [|by apply Hg].
      unfold domain_count. cbn [fst snd]. rewrite (blocked_group w t) by done. by destruct c; simpl in *; subst. }
  assert (∀ d, d ∈ lq_Domain <$> l ↔ 0 < blocked_in w t d) as Hpos.
  { intros d. rewrite <- (blocked_group w t l d El), list_elem_of_fmap. split.
    - intros (q & -> & Hq). assert (q ∈ filter (λ q0, lq_Domain q0 = lq_Domain q) l) as H by (by apply list_elem_of_filter).
      destruct (filter _ l); [by apply not_elem_of_nil in H|]. simpl. lia.
    - intros H. destruct (filter (λ q, lq_Domain q = d) l) as [|q k] eqn:E; [simpl in H; lia|].
      assert (q ∈ filter (λ q, lq_Domain q = d) l) as [Hq Hl]%list_elem_of_filter by (rewrite E; left). by exists q. }
  assert (NoDup (dc_Domain <$> all)) as Hn.
  { unfold all. rewrite <- list_fmap_compose. change (dc_Domain ∘ domain_count) with (fst : string * list LoggedQuery → string).
    rewrite Hk. apply NoDup_remove_dups. }
  split; [lia|]. split; [rewrite Hp, fmap_app in Hn; by apply NoDup_app in Hn as [? _]|]. split; [done|].
  split; [intros c [Hd Hc]%Hin%Hall; split; [done|]; rewrite Hc; by apply Hpos|].
  intros d Hd Hnot c Hc. pose proof (proj2 (Hpos d) Hd) as Hdl.
  assert ({| dc_Domain := d; dc_Count := blocked_in w t d |} ∈ all) as Ha by (by apply Hall).
  rewrite Hp in Ha. apply elem_of_app in Ha as [Ha|Ha]; [destruct Hnot; by apply (list_elem_of_fmap_2 dc_Domain) in Ha|].
  destruct (Hr c _ Hc Ha) as [H|[H _]]; simpl in H; lia.
Qed.
End Leaderboards.

(** ** The anomaly digest *)

(** The order of the floats that are numbers, as triples compared from the left. *)
Definition f64_rank (x : float64) : Z * Z * Z :=
  match x with
  | S754_nan => (0, 0, 0)
  | S754_infinity s => (if s then -2 else 2, 0, 0)
  | S754_zero _ => (0, 0, 0)
  | S754_finite s m e => if s then (-1, - e, Z.neg m) else (1, e, Z.pos m)
  end.
Definition rank_lt (a b : Z * Z * Z) : Prop :=
  a.1.1 < b.1.1 ∨ a.1.1 = b.1.1 ∧ (a.1.2 < b.1.2 ∨ a.1.2 = b.1.2 ∧ a.2 < b.2).
Definition number (x : float64) : Prop := x ≠ S754_nan.

Lemma f64_ltb_rank x y : number x → number y → f64_ltb x y = true ↔ rank_lt (f64_rank x) (f64_rank y).
Proof.
  unfold number, f64_ltb, rank_lt. intros Hx Hy.
  destruct x as [[]|[]| |[] m1 e1], y as [[]|[]| |[] m2 e2]; try done; simpl; try (split; [done|lia]); try (split; [intros _; lia|done]).
  - destruct (Z.compare_spec e1 e2); [|split; [done|lia]|split; [lia|done]]. subst. change (Pos.compare_cont Eq m1 m2) with (m1 ?= m2)%positive.
    destruct (Pos.compare_spec m1 m2); simpl; split; done || lia.
  - destruct (Z.compare_spec e1 e2); [|split; [lia|done]|split; [done|lia]]. subst. change (Pos.compare_cont Eq m1 m2) with (m1 ?= m2)%positive.
    destruct (Pos.compare_spec m1 m2); simpl; split; done || lia.
Qed.

Lemma f64_eqb_rank x y : number x → number y → f64_eqb x y = true ↔ f64_rank x = f64_rank y.
Proof.
  unfold number, f64_eqb. intros Hx Hy.
  destruct x as [[]|[]| |[] m1 e1], y as [[]|[]| |[] m2 e2]; try done; simpl.
  - destruct (Z.compare_spec e1 e2); [|split; [done|intros [=]; lia]..]. subst. change (Pos.compare_cont Eq m1 m2) with (m1 ?= m2)%positive.
    destruct (Pos.compare_spec m1 m2); simpl; split; try done; try congruence; intros [=]; lia.
  - destruct (Z.compare_spec e1 e2); [|split; [done|intros [=]; lia]..]. subst. change (Pos.compare_cont Eq m1 m2) with (m1 ?= m2)%positive.
    destruct (Pos.compare_spec m1 m2); simpl; split; try done; try congruence; intros [=]; lia.
Qed.

Definition surge_number (s : ClientSurge) : Prop := number (cg_GrowthFactor s).

Lemma surge_less_iff a b : surge_number a → surge_number b →
  surge_less a b = true ↔ rank_lt (f64_rank (cg_GrowthFactor a)) (f64_rank (cg_GrowthFactor b)) ∨
    f64_rank (cg_GrowthFactor a) = f64_rank (cg_GrowthFactor b) ∧ String.ltb (cg_ClientIP b) (cg_ClientIP a) = true.
Proof.
  intros Ha Hb. unfold surge_less. rewrite orb_true_iff, andb_true_iff, f64_ltb_rank, f64_eqb_rank by done. intuition congruence.
Qed.

Lemma rank_lt_trans a b c : rank_lt a b → rank_lt b c → rank_lt a c.
Proof. unfold rank_lt. lia. Qed.
Lemma rank_lt_irrefl a : ¬ rank_lt a a.
Proof. unfold rank_lt. lia. Qed.
Lemma rank_total a b : rank_lt a b ∨ a = b ∨ rank_lt b a.
Proof. destruct a as [[x y] z], b as [[x' y'] z']. unfold rank_lt. simpl. destruct (decide ((x, y, z) = (x', y', z'))) as [|Hn]; [auto|].
  assert (x ≠ x' ∨ y ≠ y' ∨ z ≠ z') as H; [|lia]. destruct (decide (x = x')), (decide (y = y')), (decide (z = z')); subst; auto. Qed.

Lemma surge_less_asym a b : surge_number a → surge_number b → surge_less a b = true → surge_less b a = false.
Proof.
  intros Ha Hb H. apply not_true_iff_false. rewrite surge_less_iff in H |- * by done.
  destruct H as [H|[E H]], 1 as [H'|[E' H']].
  - by apply (rank_lt_irrefl (f64_rank (cg_GrowthFactor a))), (rank_lt_trans _ _ _ H).
  - rewrite E' in H. by apply rank_lt_irrefl in H.
  - rewrite E in H'. by apply rank_lt_irrefl in H'.
  - pose proof (string_ltb_trans _ _ _ H H') as Hs. by rewrite string_ltb_irrefl in Hs.
Qed.

Lemma surge_less_negtrans a b c : surge_number a → surge_number b → surge_number c →
  surge_less a b = false → surge_less b c = false → surge_less a c = false.
Proof.
  intros Ha Hb Hc. rewrite <- !not_true_iff_false, !surge_less_iff by done. intros H1 H2 H.
  destruct (rank_total (f64_rank (cg_GrowthFactor a)) (f64_rank (cg_GrowthFactor b))) as [Hr|[Hr|Hr]]; [naive_solver| |].
  - destruct (rank_total (f64_rank (cg_GrowthFactor b)) (f64_rank (cg_GrowthFactor c))) as [Hr'|[Hr'|Hr']]; [naive_solver| |].
    + destruct H as [H|[_ H]]; [rewrite Hr, Hr' in H; by apply rank_lt_irrefl in H|].
      assert (String.ltb (cg_ClientIP b) (cg_ClientIP a) = false) as Hab by (apply not_true_iff_false; naive_solver).
      assert (String.ltb (cg_ClientIP c) (cg_ClientIP b) = false) as Hbc by (apply not_true_iff_false; naive_solver).
      apply string_ltb_total in Hab as [Hab|Hab], Hbc as [Hbc|Hbc].
      * by rewrite Hbc, Hab, string_ltb_irrefl in H.
      * rewrite Hab in Hbc. pose proof (string_ltb_trans _ _ _ H Hbc) as Hs. by rewrite string_ltb_irrefl in Hs.
      * rewrite Hbc in H. pose proof (string_ltb_trans _ _ _ H Hab) as Hs. by rewrite string_ltb_irrefl in Hs.
      * pose proof (string_ltb_trans _ _ _ H (string_ltb_trans _ _ _ Hab Hbc)) as Hs. by rewrite string_ltb_irrefl in Hs.
    + destruct H as [H|[H _]]; rewrite Hr in H; [by apply (rank_lt_irrefl _ (rank_lt_trans _ _ _ H Hr'))|].
      rewrite H in Hr'. by apply rank_lt_irrefl in Hr'.
  - destruct (rank_total (f64_rank (cg_GrowthFactor b)) (f64_rank (cg_GrowthFactor c))) as [Hr'|[Hr'|Hr']]; [naive_solver| |].
    + rewrite Hr' in Hr. destruct H as [H|[H _]]; [by apply (rank_lt_irrefl _ (rank_lt_trans _ _ _ H Hr))|].
      rewrite H in Hr. by apply rank_lt_irrefl in Hr.
    + pose proof (rank_lt_trans _ _ _ Hr' Hr) as Hr2. destruct H as [H|[H _]]; [by apply (rank_lt_irrefl _ (rank_lt_trans _ _ _ H Hr2))|].
      rewrite H in Hr2. by apply rank_lt_irrefl in Hr2.
Qed.

Lemma sift_perm b l : sift b l ≡ₚ b :: l.
Proof. induction l as [|a l IH]; simpl; [done|]. destruct (surge_less a b); [|done]. rewrite IH. apply Permutation_swap. Qed.

Lemma sift_sorted b l : surge_number b → Forall surge_number l →
  StronglySorted (λ a c, surge_less c a = false) l → StronglySorted (λ a c, surge_less c a = false) (sift b l).
Proof.
  intros Hb Hl Hs. induction Hs as [|a l Hs IH Ha]; simpl; [by repeat constructor|]. apply Forall_cons in Hl as [Hna Hl].
  destruct (surge_less a b) eqn:E.
  - constructor; [by apply IH|]. rewrite sift_perm. constructor; [by apply surge_less_asym|done].
  - constructor; [by constructor|]. constructor; [done|]. rewrite Forall_forall in Ha, Hl |- *. intros x Hx.
    apply (surge_less_negtrans x a b); auto.
Qed.

Lemma StronglySorted_reverse {A} (R : A → A → Prop) l : StronglySorted R l → StronglySorted (flip R) (reverse l).
Proof.
  induction 1 as [|a l Hs IH Ha]; [constructor|]. rewrite reverse_cons. apply StronglySorted_app. split; [|split; [done|by repeat constructor]].
  intros x y Hx ->%list_elem_of_singleton. rewrite elem_of_reverse in Hx. rewrite Forall_forall in Ha. exact (Ha x Hx).
Qed.

(** The hand-written sort sorts: by growth, then by address, and keeps every element. *)
Theorem sortClientSurges_sorted s :
  sortClientSurges s ≡ₚ s ∧ (Forall surge_number s → StronglySorted (λ a b, surge_less a b = false) (sortClientSurges s)).
Proof.
  unfold sortClientSurges.
  assert (∀ l acc, foldl (λ done b, sift b done) acc l ≡ₚ l ++ acc ∧
    (Forall surge_number (l ++ acc) → StronglySorted (λ a c, surge_less c a = false) acc →
     StronglySorted (λ a c, surge_less c a = false) (foldl (λ done b, sift b done) acc l))) as H.
  { induction l as [|b l IH]; intros acc; [done|]. cbn [foldl app]. destruct (IH (sift b acc)) as [Hp Hs]. split.
    - rewrite Hp, sift_perm. symmetry. apply Permutation_middle.
    - intros Hn%Forall_cons Hd. destruct Hn as [Hb Hn]. apply Forall_app in Hn as [Hl Hacc]. apply Hs; [|by apply sift_sorted].
      apply Forall_app. split; [done|]. rewrite sift_perm. by constructor. }
  destruct (H s []) as [Hp Hs]. rewrite app_nil_r in Hp, Hs. split; [by rewrite reverse_Permutation|].
  intros Hn. apply (StronglySorted_reverse _ _ (Hs Hn (SSorted_nil _))).
Qed.
