(* ===== verification/AnalyticsApi.v ===== *)
(** * The analytics endpoints

    [cmd/controlplane/handlers]: analytics.go, analytics_rollups.go and dashboard.go, over
    the query log and the statistics of Analytics.v. A request is its query parameters as
    strings, absent ones empty. *)
From S2P Require Import Prelude GoStrings GoText GoStrconv GoTime QueryLog Storage ControlPlane Analytics.

(** ** analytics.go *)

Record QueryLogEntry := {
  ql_ID : Z; ql_Domain : string; ql_ClientIP : string; ql_Action : string; ql_Timestamp : Z; ql_IsSuspicious : bool;
  ql_ThreatScore : float64; ql_DetectionMethod : string; ql_ThreatReason : string;
}.
Definition toQueryLogEntry (q : LoggedQuery) : QueryLogEntry := {|
  ql_ID := lq_ID q; ql_Domain := lq_Domain q; ql_ClientIP := lq_ClientIP q; ql_Action := lq_Action q;
  ql_Timestamp := lq_Timestamp q; ql_IsSuspicious := dq_IsSuspicious (lq_query q); ql_ThreatScore := dq_ThreatScore (lq_query q);
  ql_DetectionMethod := dq_DetectionMethod (lq_query q); ql_ThreatReason := dq_ThreatReason (lq_query q) |}.

Record AnalyticsSummaryData := { su_Total : Z; su_Blocked : Z; su_Allowed : Z; su_Redirected : option Z; su_BlockRatePercent : float64 }.
Definition blockRate (s : StatRow) : float64 :=
  if 0 <? sr_Total s then f64_mul (f64_div (f64_of_Z (sr_Blocked s)) (f64_of_Z (sr_Total s))) (f64_of_Z 100) else f64_zero.

Record LogParams := {
  lp_limit : string; lp_offset : string; lp_client_ip : string; lp_action : string; lp_domain : string;
  lp_suspicious : string; lp_from : string; lp_to : string;
}.
Record QueryLogPageInfo := { pi_Total : Z; pi_Limit : Z; pi_Offset : Z; pi_HasMore : bool }.
Record QueryLogListData := { ld_Items : list QueryLogEntry; ld_PageInfo : QueryLogPageInfo }.

Definition isValidQueryLogAction (a : string) : bool := bool_decide (a ∈ ["block"; "allow"; "flagged"; "redirect"]%string).

(** An integer parameter of at least [low]; a time; both with what an empty one means. *)
Definition int_param (low : Z) (default_ : Z) (msg v : string) : result string Z :=
  if bool_decide (v = ""%string) then Ok default_
  else match Atoi v with Some n => if n <? low then Err msg else Ok n | None => Err msg end.
Definition time_param (msg v : string) : result string (option Z) :=
  if bool_decide (v = ""%string) then Ok None
  else match Parse_RFC3339 v with Some t => Ok (Some t) | None => Err msg end.

(** The filter, or the message of the 400. *)
Definition parse_log_params (p : LogParams) : result string QueryLogFilter :=
  let? limit := int_param 1 DefaultQueryLogPageSize "invalid 'limit': must be a positive integer" (lp_limit p) in
  let? offset := int_param 0 0 "invalid 'offset': must be a non-negative integer" (lp_offset p) in
  let action := TrimSpace (lp_action p) in
  if negb (bool_decide (action = ""%string)) && negb (isValidQueryLogAction action)
  then Err "invalid 'action': must be one of block, allow, flagged, redirect"%string
  else
    let? suspicious := (if bool_decide (lp_suspicious p = ""%string) then Ok false
                        else match ParseBool (lp_suspicious p) with
                             | Some b => Ok b | None => Err "invalid 'suspicious': must be a boolean"%string end) in
    let? from := time_param "invalid 'from': must be an RFC3339 timestamp" (lp_from p) in
    let? to := time_param "invalid 'to': must be an RFC3339 timestamp" (lp_to p) in
    Ok {| qf_ClientIP := TrimSpace (lp_client_ip p); qf_Action := action; qf_Domain := TrimSpace (lp_domain p);
          qf_SuspiciousOnly := suspicious; qf_From := from; qf_To := to; qf_Limit := ClampQueryLogPageSize limit;
          qf_Offset := offset |}.

Section Analytics.
Context {TL : SqlTable LoggedQuery} {TS : SqlTable StatRow}.

Definition GetQueryLogs (p : LogParams) (ts : nat → table LoggedQuery) : response QueryLogListData :=
  match parse_log_params p with
  | Err msg => err_response StatusBadRequest (ApiMsg msg)
  | Ok f =>
      match QueryLogRepo_List f ts with
      | Err _ => err_response StatusInternalServerError (ApiMsg "failed to fetch query logs")
      | Ok (queries, total) =>
          let items := toQueryLogEntry <$> queries in
          ok_response StatusOK {| ld_Items := items;
            ld_PageInfo := {| pi_Total := total; pi_Limit := qf_Limit f; pi_Offset := qf_Offset f;
                              pi_HasMore := wrap_int64 (qf_Offset f + Z.of_nat (length items)) <? total |} |}
      end
  end.

Definition GetAuditLogs (t : table LoggedQuery) : response (list QueryLogEntry) :=
  match QueryLogRepo_ListRecent 100 t with
  | Err _ => err_response StatusInternalServerError (ApiMsg "failed to fetch query logs")
  | Ok l => ok_response StatusOK (toQueryLogEntry <$> l)
  end.

Definition no_summary (r : option Z) : AnalyticsSummaryData :=
  {| su_Total := 0; su_Blocked := 0; su_Allowed := 0; su_Redirected := r; su_BlockRatePercent := f64_zero |}.
Definition summary_of (r : option Z) (s : StatRow) : AnalyticsSummaryData :=
  {| su_Total := sr_Total s; su_Blocked := sr_Blocked s; su_Allowed := sr_Allowed s; su_Redirected := r; su_BlockRatePercent := blockRate s |}.
(** An error and an empty table both give zeros. *)
Definition GetAnalyticsSummary (t : table StatRow) : response AnalyticsSummaryData :=
  match StatisticsRepo_ListRecent 1 t with
  | Ok (s :: _) => ok_response StatusOK (summary_of None s)
  | _ => ok_response StatusOK (no_summary None)
  end.
(** dashboard.go: the same with the redirected queries. *)
Definition GetDashboardSummary (t : table StatRow) : response AnalyticsSummaryData :=
  match StatisticsRepo_ListRecent 1 t with
  | Ok (s :: _) => ok_response StatusOK (summary_of (Some (sr_Redirected s)) s)
  | _ => ok_response StatusOK (no_summary (Some 0))
  end.

(** ** analytics_rollups.go *)

Record RollupParams := { ru_from : string; ru_to : string; ru_top : string; ru_client_ip : string }.
Record AnalyticsRollupsData := {
  rd_Window : AnalyticsWindow; rd_ClientIP : string; rd_TopClients : list ClientActivity; rd_TopBlocked : list DomainCount;
  rd_Categories : list CategoryCount; rd_Timeline : list TimeBucket; rd_Heatmap : list HeatmapCell; rd_Anomaly : option AnomalyDigest;
}.

(** The window, or the message of the 400. *)
Definition parse_window (p : RollupParams) : result string AnalyticsWindow :=
  let? from := time_param "invalid 'from': must be an RFC3339 timestamp" (ru_from p) in
  let? to := time_param "invalid 'to': must be an RFC3339 timestamp" (ru_to p) in
  if match from, to with Some f, Some t => t <? f | _, _ => false end
  then Err "invalid range: 'to' must not be before 'from'"%string
  else
    let? topN := int_param 1 DefaultAnalyticsTopN "invalid 'top': must be a positive integer" (ru_top p) in
    Ok {| aw_From := from; aw_To := to; aw_Limit := ClampAnalyticsTopN topN |}.

Definition no_thresholds : AnomalyThresholds :=
  {| at_BlockedRateSpikePoints := f64_zero; at_ClientSurgeFactor := f64_zero; at_ClientSurgeMinQueries := 0 |}.
(** The window of equal length that ends one tick before the current one. *)
Definition prior_window (from to limit : Z) : AnalyticsWindow :=
  {| aw_From := Some (from - time_sub to from); aw_To := Some (from - nanosecond); aw_Limit := limit |}.
Definition computeAnomaly (from to limit : Z) (ts : nat → table LoggedQuery) : result db_error AnomalyDigest :=
  AnomalyDigestBetween {| aw_From := Some from; aw_To := Some to; aw_Limit := limit |} (prior_window from to limit) no_thresholds ts.

Definition rollups (w : AnalyticsWindow) (clientIP : string) (ts : nat → table LoggedQuery) : result db_error AnalyticsRollupsData :=
  let? topClients := TopClients w (ts 0%nat) in
  let? topBlocked := TopBlockedDomains w (ts 1%nat) in
  let? categories := CategoryBreakdown w (ts 2%nat) in
  let? heatmap := CategoryHourHeatmap w (ts 3%nat) in
  let? timeline := (if bool_decide (clientIP = ""%string) then Ok [] else ClientTimeline clientIP w (ts 4%nat)) in
  let? anomaly := (match aw_From w, aw_To w with
                   | Some from, Some to => let? d := computeAnomaly from to (aw_Limit w) (λ k, ts (5 + k)%nat) in Ok (Some d)
                   | _, _ => Ok None end) in
  Ok {| rd_Window := w; rd_ClientIP := clientIP; rd_TopClients := topClients; rd_TopBlocked := topBlocked;
        rd_Categories := categories; rd_Timeline := timeline; rd_Heatmap := heatmap; rd_Anomaly := anomaly |}.
Definition GetAnalyticsRollups (p : RollupParams) (ts : nat → table LoggedQuery) : response AnalyticsRollupsData :=
  match parse_window p with
  | Err msg => err_response StatusBadRequest (ApiMsg msg)
  | Ok w =>
      match rollups w (TrimSpace (ru_client_ip p)) ts with
      | Err _ => err_response StatusInternalServerError (ApiMsg "failed to compute analytics rollups")
      | Ok d => ok_response StatusOK d
      end
  end.

(** ** Following the pages *)

Context {L : SqlTableLaws TL}.

(** The request for the page at an offset, and a client that asks for the next page as
    long as it is told there is more; [None] when a request fails or the budget of
    requests runs out. Each request finds the log twice, for its count and its page. *)
Definition at_offset (n : Z) (p : LogParams) : LogParams := {|
  lp_limit := lp_limit p; lp_offset := Itoa n; lp_client_ip := lp_client_ip p; lp_action := lp_action p; lp_domain := lp_domain p;
  lp_suspicious := lp_suspicious p; lp_from := lp_from p; lp_to := lp_to p |}.
Fixpoint read_pages (requests : nat) (p : LogParams) (offset : Z) (ts : nat → table LoggedQuery) : option (list QueryLogEntry) :=
  match requests with
  | O => None
  | S k =>
      match r_data (GetQueryLogs (at_offset offset p) ts) with
      | None => None
      | Some page =>
          if pi_HasMore (ld_PageInfo page)
          then (λ rest, ld_Items page ++ rest) <$> read_pages k p (offset + Z.of_nat (length (ld_Items page))) (λ i, ts (2 + i)%nat)
          else Some (ld_Items page)
      end
  end.

Definition set_offset (n : Z) (f : QueryLogFilter) : QueryLogFilter := {|
  qf_ClientIP := qf_ClientIP f; qf_Action := qf_Action f; qf_Domain := qf_Domain f; qf_SuspiciousOnly := qf_SuspiciousOnly f;
  qf_From := qf_From f; qf_To := qf_To f; qf_Limit := qf_Limit f; qf_Offset := n |}.

Lemma parse_at_offset p f n : parse_log_params p = Ok f → 0 ≤ n ≤ int64_max →
  parse_log_params (at_offset n p) = Ok (set_offset n f) ∧ 1 ≤ qf_Limit f ≤ MaxQueryLogPageSize.
Proof.
  intros H Hn. destruct (Atoi_Itoa n Hn) as [Hne Ha]. unfold parse_log_params in *. cbn [at_offset lp_limit lp_offset lp_client_ip
    lp_action lp_domain lp_suspicious lp_from lp_to].
  destruct (int_param 1 _ _ (lp_limit p)) as [limit|] eqn:El; [|done].
  assert (int_param 0 0 "invalid 'offset': must be a non-negative integer" (Itoa n) = Ok n) as ->.
  { unfold int_param. rewrite bool_decide_eq_false_2 by done. rewrite Ha. by rewrite (proj2 (Z.ltb_ge n 0)) by lia. }
  destruct (int_param 0 _ _ _); [|done]. destruct (_ && _); [done|].
  destruct (if bool_decide (lp_suspicious p = ""%string) then _ else _); [|done].
  destruct (time_param _ (lp_from p)); [|done]. destruct (time_param _ (lp_to p)); [|done]. injection H as <-. split; [done|].
  cbn [qf_Limit]. unfold ClampQueryLogPageSize, DefaultQueryLogPageSize, MaxQueryLogPageSize. repeat case_match; boolp; lia.
Qed.

(** Newest first, the time stamps of the rows stand in one order only. *)
Definition times (l : list LoggedQuery) : list Z := lq_Timestamp <$> l.
Lemma times_sorted l : StronglySorted (λ a b, newest_first a b = true) l ↔ StronglySorted Z.ge (times l).
Proof.
  assert (∀ a b, newest_first a b = true ↔ lq_Timestamp a >= lq_Timestamp b) as He by (intros a b; unfold newest_first; rewrite Z.leb_le; lia).
  induction l as [|a l IH]; [by split; constructor|]. unfold times. csimpl.
  split; (intros [H1 H2]%StronglySorted_inv; constructor; [by apply IH|]); [apply Forall_fmap|apply (proj1 (Forall_fmap _ _ _)) in H2];
    (eapply Forall_impl; [exact H2|]); intros b; unfold compose; by rewrite He.
Qed.
Lemma times_unique l k : StronglySorted Z.ge l → StronglySorted Z.ge k → l ≡ₚ k → l = k.
Proof. apply StronglySorted_unique_strong. lia. Qed.

(** The log is fixed between the statements: one set of rows, in whatever state. *)
Context (log : list LoggedQuery) (p : LogParams) (f : QueryLogFilter).
Let matching := filter (query_matches f) log.
Definition log_fixed (ts : nat → table LoggedQuery) : Prop := ∀ k, rows (ts k) ≡ₚ log.
Definition pages_succeed (ts : nat → table LoggedQuery) : Prop := ∀ k, is_ok (QueryLogRepo_List f (λ i, ts (k + i)%nat)) = true.

Lemma page_at n ts :
  parse_log_params p = Ok f → log_fixed ts → pages_succeed ts →
  Z.of_nat (length log) ≤ int64_max - MaxQueryLogPageSize → 0 ≤ n ≤ Z.of_nat (length matching) →
  ∃ l, l ≡ₚ matching ∧ StronglySorted Z.ge (times l) ∧
  let page := take (Z.to_nat (qf_Limit f)) (drop (Z.to_nat n) l) in
  r_data (GetQueryLogs (at_offset n p) ts) = Some {| ld_Items := toQueryLogEntry <$> page;
    ld_PageInfo := {| pi_Total := Z.of_nat (length matching); pi_Limit := qf_Limit f; pi_Offset := n;
                      pi_HasMore := n + Z.of_nat (length page) <? Z.of_nat (length matching) |} |}.
Proof.
  intros Hf Hlog Hok Hmax Hn. assert (length matching ≤ length log)%nat as Hle by apply length_filter.
  destruct (parse_at_offset p f n Hf) as [Hp Hlim]; [unfold MaxQueryLogPageSize in Hmax; lia|].
  specialize (Hok O). unfold QueryLogRepo_List in Hok. cbn [Nat.add] in Hok.
  unfold GetQueryLogs. rewrite Hp. unfold QueryLogRepo_List. change (query_matches (set_offset n f)) with (query_matches f).
  destruct (sql_select (query_matches f) any_order (ts 0%nat)) as [all|] eqn:Ea; [|done].
  destruct (sql_select (query_matches f) newest_first (ts 1%nat)) as [l|] eqn:El; [|done].
  apply select_law in Ea as [Ea _], El as [El Hs]. rewrite (Hlog 0%nat) in Ea. rewrite (Hlog 1%nat) in El.
  exists l. split; [done|]. split; [by apply times_sorted|]. set (page := take (Z.to_nat (qf_Limit f)) (drop (Z.to_nat n) l)). cbn [set_offset qf_Limit qf_Offset].
  rewrite (proj2 (Z.ltb_ge n 0)) by lia.
  assert (ClampQueryLogPageSize (qf_Limit f) = qf_Limit f) as ->.
  { unfold ClampQueryLogPageSize. rewrite (proj2 (Z.leb_gt _ _)), (proj2 (Z.ltb_ge _ _)) by lia. done. }
  assert (length all = length matching) as -> by (by rewrite Ea).
  cbn [ok_response r_data]. fold page. rewrite length_fmap.
  assert (wrap_int64 (n + Z.of_nat (length page)) = n + Z.of_nat (length page)) as ->; [|done].
  unfold wrap_int64. rewrite Z.mod_small; [lia|]. subst page. rewrite length_take, length_drop, El. fold matching.
  unfold int64_min, int64_max in *. lia.
Qed.

Lemma read_pages_from sorted k : ∀ n ts,
  parse_log_params p = Ok f → log_fixed ts → pages_succeed ts →
  Z.of_nat (length log) ≤ int64_max - MaxQueryLogPageSize → 0 ≤ n ≤ Z.of_nat (length matching) →
  sorted ≡ₚ times matching → StronglySorted Z.ge sorted →
  (Z.of_nat (length matching) - n) / qf_Limit f < Z.of_nat k →
  ∃ l, read_pages k p n ts = Some (toQueryLogEntry <$> l) ∧ times l = drop (Z.to_nat n) sorted ∧ ∀ q, q ∈ l → q ∈ matching.
Proof.
  induction k as [|k IH]; intros n ts Hf Hlog Hok Hmax Hn Hp Hs Hk;
    (assert (length matching ≤ length log)%nat as Hle by apply length_filter);
    (destruct (parse_at_offset p f n Hf) as [_ Hlim]; [unfold MaxQueryLogPageSize in Hmax; lia|]).
  - pose proof (Z.div_pos (Z.of_nat (length matching) - n) (qf_Limit f)). lia.
  - destruct (page_at n ts) as (l & Hl & Hls & E); [done..|]. cbn [read_pages]. rewrite E. cbn [ld_PageInfo pi_HasMore ld_Items].
    assert (times l = sorted) as Et.
    { apply times_unique; [done|done|]. unfold times in *. by rewrite Hl, Hp. }
    set (page := take (Z.to_nat (qf_Limit f)) (drop (Z.to_nat n) l)).
    assert (∀ q, q ∈ page → q ∈ matching) as Hin.
    { intros q Hq. rewrite <- Hl. apply subseteq_take, subseteq_drop in Hq. done. }
    assert (times page = take (Z.to_nat (qf_Limit f)) (drop (Z.to_nat n) sorted)) as Epage.
    { unfold page, times. rewrite fmap_take, fmap_drop. fold (times l). by rewrite Et. }
    assert (length page = Z.to_nat (qf_Limit f) `min` (length matching - Z.to_nat n))%nat as Elen
      by (unfold page; by rewrite length_take, length_drop, Hl).
    case_match; boolp.
    + assert (qf_Limit f < Z.of_nat (length matching) - n) as Hlt by lia.
      rewrite length_fmap. replace (n + Z.of_nat (length page)) with (n + qf_Limit f) by lia.
      destruct (IH (n + qf_Limit f) (λ i, ts (2 + i)%nat)) as (l2 & -> & Ht2 & Hin2); try done; [by intros i; apply Hlog| |lia| |].
      * intros i. apply (Hok (2 + i)%nat).
      * replace (Z.of_nat (length matching) - n) with (Z.of_nat (length matching) - (n + qf_Limit f) + 1 * qf_Limit f) in Hk by lia.
        rewrite Z.div_add in Hk by lia. lia.
      * exists (page ++ l2). cbn [fmap option_fmap option_map]. rewrite <- fmap_app. split; [done|]. split.
        -- unfold times in *. rewrite fmap_app, Epage, Ht2, Z2Nat.inj_add, <- drop_drop by lia. by rewrite take_drop.
        -- intros q [Hq|Hq]%elem_of_app; auto.
    + exists page. split; [done|]. split; [|done]. rewrite Epage, take_ge; [done|]. rewrite length_drop, Hp.
      unfold times. rewrite length_fmap. lia.
Qed.

(** Rows told apart by their time stamps are each read once. *)
Lemma distinct_times (l k : list LoggedQuery) : NoDup (times k) → times l ≡ₚ times k → (∀ q, q ∈ l → q ∈ k) → l ≡ₚ k.
Proof.
  intros Hd Hp Hin. assert (length l = length k) as Hl.
  { pose proof (Permutation_length Hp) as E. unfold times in E. by rewrite !length_fmap in E. }
  assert (NoDup l) as Hnl. { rewrite <- Hp in Hd. by apply NoDup_fmap_1 in Hd. }
  apply submseteq_length_Permutation; [|lia]. apply NoDup_submseteq; [done|]. intros q Hq. by apply Hin.
Qed.

(** C39. Reading page by page a log to which nothing is added ends and misses nothing that
    its order tells apart: a client that starts at the first page and asks on as long as
    it is told there is more needs at most one request per full page and one for the rest;
    it has then read as many rows as match, all of them matching, newest first, with the
    time stamps of the matching rows; and if no two of those are equal it has read every
    matching row exactly once. Each request is a statement of its own, to which the order
    of rows with equal time stamps is open: such rows may come twice or not at all
    ([tied_rows_repeat]), and a row comes twice if one is added ([added_row_repeats]). *)
Theorem query_log_paging ts :
  parse_log_params p = Ok f → log_fixed ts → pages_succeed ts →
  Z.of_nat (length log) ≤ int64_max - MaxQueryLogPageSize →
  ∃ l, read_pages (S (Z.to_nat (Z.of_nat (length matching) / qf_Limit f))) p 0 ts = Some (toQueryLogEntry <$> l) ∧
       length l = length matching ∧ (∀ q, q ∈ l → q ∈ matching) ∧
       StronglySorted (λ a b, newest_first a b = true) l ∧ times l ≡ₚ times matching ∧
       (NoDup (times matching) → l ≡ₚ matching).
Proof.
  intros Hf Hlog Hok Hmax. set (sorted := merge_sort Z.ge (times matching)).
  assert (sorted ≡ₚ times matching) as Hp by apply merge_sort_Permutation.
  assert (StronglySorted Z.ge sorted) as Hs.
  { apply StronglySorted_merge_sort; [intros x y z; lia|intros x y; lia]. }
  destruct (parse_at_offset p f 0 Hf) as [_ Hlim]; [unfold int64_max; lia|].
  assert (0 ≤ Z.of_nat (length matching) / qf_Limit f) by (apply Z.div_pos; lia).
  destruct (read_pages_from sorted (S (Z.to_nat (Z.of_nat (length matching) / qf_Limit f))) 0 ts) as (l & -> & Ht & Hin);
    [done..|lia|done|done|rewrite Z.sub_0_r; lia|].
  rewrite drop_0 in Ht. exists l. split; [done|]. assert (times l ≡ₚ times matching) as Hpl by (by rewrite Ht).
  split; [|split; [done|split; [|split; [done|]]]].
  - pose proof (Permutation_length Hpl) as E. unfold times in E. by rewrite !length_fmap in E.
  - apply times_sorted. by rewrite Ht.
  - intros Hd. by apply distinct_times.
Qed.
End Analytics.

(** ** Concrete runs *)

Module Runs.
#[local] Instance log_table : SqlTable LoggedQuery := list_table.
#[local] Instance log_table_laws : SqlTableLaws log_table := list_table_laws.

Definition row (id at_ : Z) (client domain action : string) : LoggedQuery := {|
  lq_ID := id; lq_Timestamp := at_ * second;
  lq_query := {| dq_Domain := domain; dq_ClientIP := client; dq_Action := action; dq_BlockReason := ""; dq_IsSuspicious := false;
                 dq_ThreatScore := f64_zero; dq_DetectionMethod := ""; dq_ThreatReason := "" |} |}.
Definition three_rows : table LoggedQuery := table_of [
  row 1 10 "10.0.0.1" "ads.example.com" "block"; row 2 30 "10.0.0.2" "ADS.example.org" "block";
  row 3 20 "10.0.0.1" "good.org" "allow"; row 4 40 "10.0.0.1" "ads.example.com" "block"] eq_refl.
Definition ads_params : LogParams := {|
  lp_limit := "2"; lp_offset := ""; lp_client_ip := ""; lp_action := " block "; lp_domain := "ads"; lp_suspicious := "";
  lp_from := "1970-01-01T00:00:05Z"; lp_to := "" |}.
Definition ads_filter : QueryLogFilter := {|
  qf_ClientIP := ""; qf_Action := "block"; qf_Domain := "ads"; qf_SuspiciousOnly := false; qf_From := Some (5 * second);
  qf_To := None; qf_Limit := 2; qf_Offset := 0 |}.

(** The same rows in another state. *)
Definition three_rows_again : table LoggedQuery := table_of (reverse (rows three_rows)) eq_refl.
Definition restless (k : nat) : table LoggedQuery := if Nat.even k then three_rows else three_rows_again.

Lemma query_log_paging_witness :
  ∃ l, read_pages 2 ads_params 0 restless = Some (toQueryLogEntry <$> l) ∧
       l ≡ₚ filter (query_matches ads_filter) (rows three_rows).
Proof.
  destruct (query_log_paging (rows three_rows) ads_params ads_filter restless) as (l & H1 & _ & _ & _ & _ & H2).
  - vm_compute. reflexivity.
  - intros k. unfold restless. destruct (Nat.even k); [reflexivity|]. apply reverse_Permutation.
  - intros k. unfold pages_succeed, restless, QueryLogRepo_List. destruct (Nat.even (k + 0)), (Nat.even (k + 1)); vm_compute; reflexivity.
  - vm_compute. discriminate.
  - exists l. split; [exact H1|]. apply H2. apply (bool_decide_unpack (NoDup _)). vm_compute. exact I.
Defined.

Example pages_ex : (λ l : list QueryLogEntry, ql_ID <$> l) <$> read_pages 2 ads_params 0 restless = Some [4; 2; 1].
Proof. vm_compute. reflexivity. Qed.

Definition one_by_one : LogParams := {|
  lp_limit := "1"; lp_offset := ""; lp_client_ip := ""; lp_action := ""; lp_domain := ""; lp_suspicious := ""; lp_from := ""; lp_to := "" |}.

(** Two queries of one instant, and a database that gives them in either order from one
    statement to the next: the reader gets the one twice and the other never. *)
Definition tied (l : bool) : table LoggedQuery :=
  let a := row 1 10 "10.0.0.1" "a.com" "allow" in let b := row 2 10 "10.0.0.2" "b.com" "block" in
  if l then table_of [a; b] eq_refl else table_of [b; a] eq_refl.
Lemma tied_rows_repeat :
  (∀ k : nat, rows (tied (k <? 2)%nat) ≡ₚ rows (tied true)) ∧
  (λ l : list QueryLogEntry, ql_ID <$> l) <$> read_pages 2 one_by_one 0 (λ k, tied (k <? 2)%nat) = Some [1; 1].
Proof. split; [|vm_compute; reflexivity]. intros k. destruct (k <? 2)%nat; [reflexivity|]. apply Permutation_swap. Qed.

(** A query that is logged between two requests moves every row back by one: the last row
    of a page comes again as the first of the next. *)
Definition growing (k : nat) : table LoggedQuery :=
  let a := row 1 10 "10.0.0.1" "a.com" "allow" in let b := row 2 20 "10.0.0.2" "b.com" "block" in
  if (k <? 2)%nat then table_of [a; b] eq_refl else table_of [a; b; row 3 30 "10.0.0.3" "c.com" "allow"] eq_refl.
Lemma added_row_repeats :
  (λ l : list QueryLogEntry, ql_ID <$> l) <$> read_pages 3 one_by_one 0 growing = Some [2; 2; 1].
Proof. vm_compute. reflexivity. Qed.

(** The digest of two windows sees of the prior one only its busiest clients: a client as
    busy as before, but outside the board then, is reported as surging from nothing. *)
Definition quiet_board : list LoggedQuery :=
  (λ i, row (Z.of_nat i) (Z.of_nat i) "busy" "a.com" "allow") <$> seq 1 30.
Definition steady (first at_ : nat) : list LoggedQuery :=
  (λ i, row (Z.of_nat (first + i)) (Z.of_nat (at_ + i)) "steady" "b.com" "allow") <$> seq 0 29.
Definition steady_rows : list LoggedQuery := quiet_board ++ steady 100 1 ++ steady 200 101.
Definition steady_log : table LoggedQuery := table_of steady_rows eq_refl.
Lemma false_surge :
  match GetAnalyticsRollups {| ru_from := "1970-01-01T00:01:40Z"; ru_to := "1970-01-01T00:03:20Z"; ru_top := "1"; ru_client_ip := "" |} (λ _, steady_log) with
  | {| r_data := Some d |} =>
      (λ a : AnomalyDigest, (λ s : ClientSurge, (cg_ClientIP s, cg_Current s, cg_Prior s)) <$> ad_SurgingClients a) <$> rd_Anomaly d = Some [("steady"%string, 29, 0)]
  | _ => False
  end ∧
  count_where (λ q, bool_decide (lq_ClientIP q = "steady"%string) && (lq_Timestamp q <? 100 * second)) (rows steady_log) = 29.
Proof. vm_compute. split; reflexivity. Qed.
End Runs.
