(* ===== verification/Reports.v ===== *)
(** * Period reports

    [internal/report] (report.go and the text rendering of render.go),
    [internal/storage/repositories/report_repo.go] and
    [cmd/controlplane/handlers/reports.go], over the query log of Analytics.v and the
    blocklist entries of Blocklist.v. The HTML page is in ReportHtml.v. *)
From S2P Require Import Prelude GoStrings GoText GoStrconv GoTime Blocklist QueryLog Storage ControlPlane Analytics.

(** ** report.go: data *)

Inductive Period := PeriodWeekly | PeriodTrial | PeriodAnnual.
#[export] Instance Period_eq_dec : EqDecision Period.
Proof. solve_decision. Defined.

Definition defaultTopN : Z := 5.
Record ReportEvent := {
  re_Timestamp : Z; re_Domain : string; re_ClientIP : string; re_Reason : string; re_ThreatScore : float64; re_Blocked : bool;
}.
Record Aggregates := {
  ag_TotalQueries : Z; ag_BlockedQueries : Z; ag_AllowedQueries : Z; ag_ThreatsBlocked : Z;
  ag_TopBlockedDomains : list DomainCount; ag_TopBlockedCategories : list CategoryCount; ag_NotableEvents : list ReportEvent;
}.
Record Report := {
  rt_Period : Period; rt_PeriodLabel : string; rt_From : zoned; rt_To : zoned; rt_GeneratedAt : Z; rt_TotalQueries : Z;
  rt_BlockedQueries : Z; rt_AllowedQueries : Z; rt_ThreatsBlocked : Z; rt_AdsAndTrackers : Z; rt_BlockRatePercent : float64;
  rt_TopBlockedDomains : list DomainCount; rt_TopBlockedCategories : list CategoryCount; rt_NotableEvents : list ReportEvent;
}.

Definition classifyPeriod (from to : Z) : Period * string :=
  let d := time_sub to from in
  if d <=? 8 * day_ns then (PeriodWeekly, "this week"%string)
  else if d <=? 45 * day_ns then (PeriodTrial, "your trial period"%string)
  else (PeriodAnnual, "this year"%string).

(** [Generate] with the aggregates the aggregator returned; a nil aggregator is the outer
    [None]. *)
Inductive report_err := NilAggregator | AggregateError.
Definition Generate (now : Z) (repo : option (Z → Z → Z → option Aggregates)) (from to : zoned) : result report_err Report :=
  match repo with
  | None => Err NilAggregator
  | Some aggregate =>
      match aggregate (zt_time from) (zt_time to) defaultTopN with
      | None => Err AggregateError
      | Some agg =>
          let '(period, label) := classifyPeriod (zt_time from) (zt_time to) in
          let ads := ag_BlockedQueries agg - ag_ThreatsBlocked agg in
          Ok {| rt_Period := period; rt_PeriodLabel := label; rt_From := from; rt_To := to; rt_GeneratedAt := now;
                rt_TotalQueries := ag_TotalQueries agg; rt_BlockedQueries := ag_BlockedQueries agg;
                rt_AllowedQueries := ag_AllowedQueries agg; rt_ThreatsBlocked := ag_ThreatsBlocked agg;
                rt_AdsAndTrackers := if ads <? 0 then 0 else ads;
                rt_BlockRatePercent := if 0 <? ag_TotalQueries agg
                  then f64_mul (f64_div (f64_of_Z (ag_BlockedQueries agg)) (f64_of_Z (ag_TotalQueries agg))) (f64_of_Z 100) else f64_zero;
                rt_TopBlockedDomains := leaderboard dc_Count dc_Domain defaultTopN (ag_TopBlockedDomains agg);
                rt_TopBlockedCategories := leaderboard cc_Count cc_Category defaultTopN (ag_TopBlockedCategories agg);
                rt_NotableEvents := ag_NotableEvents agg |}
      end
  end.

(** ** report_repo.go *)

(** ORDER BY threat_score desc, timestamp desc. *)
Definition notable_order (a b : LoggedQuery) : bool :=
  let x := dq_ThreatScore (lq_query a) in let y := dq_ThreatScore (lq_query b) in
  f64_ltb y x || f64_eqb x y && (lq_Timestamp b <=? lq_Timestamp a).

Definition event_of_row (q : LoggedQuery) : ReportEvent := {|
  re_Timestamp := lq_Timestamp q; re_Domain := lq_Domain q; re_ClientIP := lq_ClientIP q;
  re_Reason := if bool_decide (dq_ThreatReason (lq_query q) = ""%string) then dq_DetectionMethod (lq_query q) else dq_ThreatReason (lq_query q);
  re_ThreatScore := dq_ThreatScore (lq_query q); re_Blocked := is_blocked q |}.

(** The first category of each domain, and the block counts summed by it. *)
Definition cat_by_domain (entries : list BlocklistEntry) : gmap string string :=
  foldl (λ m e, match m !! en_Domain e with Some _ => m | None => <[en_Domain e := en_Category e]> m end) ∅ entries.
Definition add_category (cats : gmap string string) (m : gmap string Z) (row : DomainCount) : gmap string Z :=
  match cats !! dc_Domain row with
  | Some c => <[c := default 0 (m !! c) + dc_Count row]> m
  | None => m
  end.
Definition category_counts (entries : list BlocklistEntry) (rows : list DomainCount) : list CategoryCount :=
  (λ p, {| cc_Category := p.1; cc_Count := p.2 |}) <$> map_to_list (foldl (add_category (cat_by_domain entries)) ∅ rows).

Section Aggregate.
Context {T : SqlTable LoggedQuery} `{D : BlocklistDb}.

Definition in_period (from to : Z) (q : LoggedQuery) : bool := (from <=? lq_Timestamp q) && (lq_Timestamp q <=? to).
Definition count_rows (f : LoggedQuery → bool) (t : table LoggedQuery) : option Z :=
  match sql_select f any_order t with Ok l => Some (Z.of_nat (length l)) | Err _ => None end.

(** Six statements over the log and one over the entries, outside any transaction: the
    k-th finds the log as [ts k]. *)
Definition ReportRepo_Aggregate (ts : nat → table LoggedQuery) (d : db) (from to topN0 : Z) : option Aggregates :=
  let topN := if topN0 <=? 0 then 5 else topN0 in
  let p := in_period from to in
  let action a q := bool_decide (lq_Action q = a) in
  total ← count_rows p (ts 0%nat);
  blocked ← count_rows (λ q, action "block"%string q && p q) (ts 1%nat);
  allowed ← count_rows (λ q, action "allow"%string q && p q) (ts 2%nat);
  threats ← count_rows (λ q, action "block"%string q && dq_IsSuspicious (lq_query q) && p q) (ts 3%nat);
  match sql_select (λ q, action "block"%string q && p q) any_order (ts 4%nat) with
  | Err _ => None
  | Ok l =>
      let blockedRows := merge_sort (ranked dc_Count dc_Domain) (domain_count <$> group_by lq_Domain l) in
      let cats := match blockedRows with
                  | [] => Some []
                  | _ => match sql_categorised_entries (dc_Domain <$> blockedRows) d with
                         | Err _ => None
                         | Ok entries => Some (leaderboard cc_Count cc_Category topN (category_counts entries blockedRows))
                         end
                  end in
      cats ← cats;
      match sql_select (λ q, dq_IsSuspicious (lq_query q) && p q) notable_order (ts 5%nat) with
      | Err _ => None
      | Ok events =>
          Some {| ag_TotalQueries := total; ag_BlockedQueries := blocked; ag_AllowedQueries := allowed; ag_ThreatsBlocked := threats;
                  ag_TopBlockedDomains := take (Z.to_nat topN) blockedRows; ag_TopBlockedCategories := cats;
                  ag_NotableEvents := event_of_row <$> take (Z.to_nat topN) events |}
      end
  end.
End Aggregate.

(** ** render.go *)

(** The loop over groups of three digits. *)
Fixpoint groups_of_three (fuel : nat) (s : string) : string :=
  match fuel with
  | O => s
  | S n => if (String.length s <=? 3)%nat then s
           else (take_bytes 3 s +:+ "," +:+ groups_of_three n (drop_bytes 3 s))%string
  end.
Definition humanizeInt (n : Z) : string :=
  let ds := Itoa (Z.abs n) in
  let sign := if (n <? 0)%Z then "-"%string else ""%string in
  if (String.length ds <=? 3)%nat then (sign +:+ ds)%string
  else
    let pre := (String.length ds mod 3)%nat in
    let body := groups_of_three (String.length ds) (drop_bytes pre ds) in
    (sign +:+ (if (pre =? 0)%nat then body else take_bytes pre ds +:+ "," +:+ body))%string.

Definition formatPercent (f : float64) : string := FormatFloat_f 1 f.
(** [strings.ToUpper(s[:1]) + s[1:]]; the labels are ASCII. *)
Definition capitalize (s : string) : string := match s with String c s' => String (upper_byte c) s' | EmptyString => EmptyString end.
Definition formatRange (r : Report) : string :=
  let from := wall (rt_From r) in let to := wall (rt_To r) in
  if d_year (date_of from) =? d_year (date_of to)
  then (Format_month_day from +:+ " – " +:+ Format_month_day_year to)%string
  else (Format_month_day_year from +:+ " – " +:+ Format_month_day_year to)%string.
Definition nl : string := String newline EmptyString.
Definition generated_line (t : Z) : string :=
  (nl +:+ "Generated " +:+ Format_month_day_year t +:+ " at " +:+ Format_clock t +:+ " UTC." +:+ nl)%string.

(** A numbered list under a heading, nothing for no items. *)
Definition text_list {A} (heading : string) (line : Z → A → string) (l : list A) : string :=
  match l with
  | [] => ""
  | _ => nl +:+ heading +:+ nl +:+ String.concat "" (imap (λ i a, "  " +:+ line (Z.of_nat i + 1) a +:+ nl) l)
  end%string.
Definition event_line (e : ReportEvent) : string :=
  ("• " +:+ Format_month_day (re_Timestamp e) +:+ " " +:+ Format_clock (re_Timestamp e) +:+ " — " +:+ re_Domain e +:+ " " +:+
   (if re_Blocked e then "blocked" else "flagged") +:+ " (threat score " +:+ FormatFloat_f 2 (re_ThreatScore e) +:+ "): " +:+
   (if bool_decide (re_Reason e = "") then "suspicious lookup" else re_Reason e))%string.

Definition RenderText (r : Report) : string :=
  ("HydraDNS Security Report" +:+ nl +:+ rt_PeriodLabel r +:+ " (" +:+ formatRange r +:+ ")" +:+ nl +:+ nl +:+
   if (rt_TotalQueries r =? 0)%Z then
     capitalize (rt_PeriodLabel r) +:+ " HydraDNS saw no DNS activity for this period, so there is nothing to report yet." +:+ nl
     +:+ generated_line (rt_GeneratedAt r)
   else
     capitalize (rt_PeriodLabel r) +:+ " HydraDNS answered " +:+ humanizeInt (rt_TotalQueries r) +:+ " DNS requests and blocked " +:+
     humanizeInt (rt_BlockedQueries r) +:+ " of them (" +:+ formatPercent (rt_BlockRatePercent r) +:+ "% of all traffic)." +:+ nl +:+
     "That includes " +:+ humanizeInt (rt_AdsAndTrackers r) +:+ " ads and trackers and " +:+ humanizeInt (rt_ThreatsBlocked r) +:+
     " malware and phishing attempts stopped before they reached your network." +:+ nl +:+
     text_list "Top blocked domains:" (λ i d, Itoa i +:+ ". " +:+ dc_Domain d +:+ " — " +:+ humanizeInt (dc_Count d) +:+ " times") (rt_TopBlockedDomains r) +:+
     text_list "Top blocked categories:" (λ i c, Itoa i +:+ ". " +:+ cc_Category c +:+ " — " +:+ humanizeInt (cc_Count c)) (rt_TopBlockedCategories r) +:+
     text_list "Notable events:" (λ _ e, event_line e) (rt_NotableEvents r) +:+ generated_line (rt_GeneratedAt r))%string.

(** ** The endpoint *)

Definition parseReportTime (s : string) : option zoned :=
  if bool_decide (s = ""%string) then None
  else match Parse_RFC3339_zoned s with Some t => Some t | None => in_UTC <$> Parse_date s end.

Inductive report_body := ReportText (s : string) | ReportHTML (r : Report) | ReportJSON (r : Report).
Definition GetReport (now : Z) (aggregate : Z → Z → Z → option Aggregates) (q_from q_to q_format : string) : response report_body :=
  let to := default (in_UTC now) (parseReportTime q_to) in
  let from := default (in_UTC (now - 7 * day_ns)) (parseReportTime q_from) in
  if zt_time to <? zt_time from then err_response StatusBadRequest (ApiMsg "invalid range: 'to' is before 'from'")
  else
    match Generate now (Some aggregate) from to with
    | Err _ => err_response StatusInternalServerError (ApiMsg "failed to generate report")
    | Ok rep =>
        ok_response StatusOK (if bool_decide (q_format = "html"%string) then ReportHTML rep
                              else if bool_decide (q_format = "json"%string) then ReportJSON rep else ReportText (RenderText rep))
    end.

Example humanize_ex : humanizeInt 41300 = "41,300"%string ∧ humanizeInt (-1234567) = "-1,234,567"%string ∧
  humanizeInt 999 = "999"%string ∧ humanizeInt 123456 = "123,456"%string ∧ humanizeInt 0 = "0"%string ∧
  humanizeInt (- 2 ^ 63) = "-9,223,372,036,854,775,808"%string.
Proof. vm_compute. repeat split. Qed.

(** ** Numbers are written without loss *)

Fixpoint without (c : ascii) (s : string) : string :=
  match s with
  | EmptyString => EmptyString
  | String d s' => if Ascii.eqb d c then without c s' else String d (without c s')
  end.

Lemma without_app c s t : without c (s +:+ t) = (without c s +:+ without c t)%string.
Proof.
  induction s as [|d s IH]; [done|]. rewrite string_cons_app. simpl. rewrite IH. by destruct (Ascii.eqb d c).
Qed.

Lemma without_digits s : string_forallb is_digit_byte s = true → without "," s = s.
Proof.
  induction s as [|d s IH]; [done|]. cbn. intros [Hd Hs]%andb_true_iff. rewrite IH by done.
  destruct (Ascii.eqb_spec d ",") as [->|]; [by vm_compute in Hd|done].
Qed.

Lemma groups_without fuel s : string_forallb is_digit_byte s = true → without "," (groups_of_three fuel s) = s.
Proof.
  revert s. induction fuel as [|n IH]; intros s Hs; [by apply without_digits|]. cbn [groups_of_three].
  destruct (_ <=? 3)%nat; [by apply without_digits|]. rewrite !without_app, IH by (by apply forallb_drop).
  rewrite without_digits by (by apply forallb_take). change (without "," ",") with ""%string.
  change ("" +:+ ?x)%string with x. apply take_drop_bytes.
Qed.

(** The separators are all that is added: without them the decimal digits are back. *)
Theorem humanizeInt_digits n : without "," (humanizeInt n) = Itoa n.
Proof.
  assert (string_forallb is_digit_byte (Itoa (Z.abs n)) = true) as Hd by (apply Itoa_forallb; [lia|done]).
  assert (Itoa n = ((if (n <? 0)%Z then "-" else "") +:+ Itoa (Z.abs n))%string) as -> by (by destruct n).
  assert (∀ s, without "," ((if (n <? 0)%Z then "-" else "") +:+ s) = ((if (n <? 0)%Z then "-" else "") +:+ without "," s))%string as Hs.
  { intros s. rewrite without_app. by destruct (n <? 0). }
  unfold humanizeInt. destruct (_ <=? 3)%nat; [by rewrite Hs, without_digits|]. rewrite Hs. f_equal.
  set (pre := (_ mod 3)%nat). pose proof (groups_without (String.length (Itoa (Z.abs n))) (drop_bytes pre (Itoa (Z.abs n))) (forallb_drop _ _ _ Hd)) as Hg.
  destruct (Nat.eqb_spec pre 0) as [E|E]; [rewrite Hg, E; by destruct (Itoa (Z.abs n))|].
  rewrite !without_app, Hg, without_digits by (by apply forallb_take). change (without "," ",") with ""%string.
  change ("" +:+ ?x)%string with x. apply take_drop_bytes.
Qed.

(** ** The figures of a report add up *)

Definition total {A} (f : A → Z) (l : list A) : Z := foldr (λ a s, f a + s) 0 l.

Lemma total_app {A} (f : A → Z) l k : total f (l ++ k) = total f l + total f k.
Proof. unfold total. induction l as [|a l IH]; simpl; [done|]. rewrite IH. lia. Qed.
#[export] Instance total_perm {A} (f : A → Z) : Proper ((≡ₚ) ==> eq) (total f).
Proof. unfold total. induction 1; simpl in *; lia. Qed.
Lemma total_nonneg {A} (f : A → Z) l : (∀ a, a ∈ l → 0 ≤ f a) → 0 ≤ total f l.
Proof.
  unfold total. induction l as [|a l IH]; intros H; simpl; [lia|]. pose proof (H a ltac:(by left)).
  specialize (IH ltac:(set_solver)). lia.
Qed.

Lemma total_cons {A} (f : A → Z) a l : total f (a :: l) = f a + total f l.
Proof. done. Qed.
Lemma total_ext {A} (f g : A → Z) l : (∀ a, a ∈ l → f a = g a) → total f l = total g l.
Proof.
  induction l as [|a l IH]; intros H; [done|]. rewrite !total_cons, (H a) by (by left). rewrite IH; [done|]. intros x Hx. apply H. by right.
Qed.

(** The groups of a grouping are a partition. *)
Lemma total_groups {A} (key : A → string) (ks : list string) l : NoDup ks → (∀ a, a ∈ l → key a ∈ ks) →
  total (λ k, Z.of_nat (length (filter (λ a, key a = k) l))) ks = Z.of_nat (length l).
Proof.
  intros Hn. induction l as [|a l IH]; intros Hin.
  { clear. induction ks as [|k ks IH]; [done|]. rewrite total_cons, IH. done. }
  specialize (IH ltac:(intros x Hx; apply Hin; by right)). simpl length. rewrite Nat2Z.inj_succ, <- IH.
  assert (key a ∈ ks) as Ha by (apply Hin; by left). clear IH Hin.
  induction Hn as [|k ks Hk Hn IHk]; [by apply not_elem_of_nil in Ha|].
  rewrite !total_cons, filter_cons. destruct (decide (key a = k)) as [E|E].
  - subst k. cbn [length]. rewrite (total_ext _ (λ k, Z.of_nat (length (filter (λ a, key a = k) l)))); [lia|].
    intros x Hx. rewrite filter_cons. rewrite decide_False; [done|]. intros E. by rewrite E in Hk.
  - apply elem_of_cons in Ha as [Ha|Ha]; [by destruct E|]. specialize (IHk Ha). lia.
Qed.

Definition map_total (m : gmap string Z) : Z := total snd (map_to_list m).
Lemma map_total_insert m k v : map_total (<[k := default 0 (m !! k) + v]> m) = map_total m + v.
Proof.
  unfold map_total. destruct (m !! k) as [x|] eqn:E; simpl.
  - rewrite <- insert_delete_eq, map_to_list_insert by (by rewrite lookup_delete_eq).
    rewrite <- (map_to_list_delete m k x) by done. simpl. lia.
  - rewrite map_to_list_insert by done. simpl. lia.
Qed.

Lemma category_total cats rows m : (∀ r, r ∈ rows → 0 ≤ dc_Count r) →
  map_total m ≤ map_total (foldl (add_category cats) m rows) ≤ map_total m + total dc_Count rows.
Proof.
  revert m. induction rows as [|r rows IH]; intros m H; [change (total dc_Count []) with 0; simpl; lia|].
  assert (map_total m ≤ map_total (add_category cats m r) ≤ map_total m + dc_Count r) as Hs.
  { pose proof (H r ltac:(by left)). unfold add_category. destruct (cats !! dc_Domain r); [rewrite map_total_insert|]; lia. }
  rewrite total_cons. cbn [foldl]. specialize (IH (add_category cats m r) ltac:(intros x Hx; apply H; by right)). lia.
Qed.

Lemma category_nonneg cats rows m : (∀ r, r ∈ rows → 0 ≤ dc_Count r) → map_Forall (λ _ n, 0 ≤ n) m →
  map_Forall (λ _ n, 0 ≤ n) (foldl (add_category cats) m rows).
Proof.
  revert m. induction rows as [|r rows IH]; intros m H Hm; [done|]. cbn [foldl]. apply IH; [intros x Hx; apply H; by right|].
  unfold add_category. destruct (cats !! dc_Domain r) as [c|]; [|done]. apply map_Forall_insert_2; [|done].
  pose proof (H r ltac:(by left)). destruct (m !! c) as [v|] eqn:E; simpl; [apply Hm in E; lia|lia].
Qed.

(** What the categories are credited with is no more than the rows. *)
Lemma category_counts_total entries rows : (∀ r, r ∈ rows → 0 ≤ dc_Count r) →
  total cc_Count (category_counts entries rows) ≤ total dc_Count rows ∧
  ∀ c, c ∈ category_counts entries rows → 0 ≤ cc_Count c.
Proof.
  intros H. unfold category_counts. set (m := foldl _ _ _). split.
  - pose proof (category_total (cat_by_domain entries) rows ∅ H) as [_ Hm]. fold m in Hm.
    replace (map_total ∅) with 0 in Hm by (unfold map_total; by rewrite map_to_list_empty).
    unfold total at 1. rewrite foldr_fmap. exact Hm.
  - intros c ([k v] & -> & Hkv)%list_elem_of_fmap. apply elem_of_map_to_list in Hkv. simpl.
    exact (category_nonneg (cat_by_domain entries) rows ∅ H (map_Forall_empty _) k v Hkv).
Qed.

Lemma total_take {A} (f : A → Z) n l : (∀ a, a ∈ l → 0 ≤ f a) → total f (take n l) ≤ total f l.
Proof.
  intros H. rewrite <- (take_drop n l) at 2. rewrite total_app. assert (0 ≤ total f (drop n l)); [|lia].
  apply total_nonneg. intros a Ha. apply H. rewrite <- (take_drop n l). apply elem_of_app. by right.
Qed.

#[global] Arguments total : simpl never.

Section AddsUp.
Context {T : SqlTable LoggedQuery} {L : SqlTableLaws T} `{D : BlocklistDb}.

Lemma count_rows_of (f : LoggedQuery → bool) t n : count_rows f t = Some n → n = Z.of_nat (length (filter f (rows t))).
Proof.
  unfold count_rows. destruct (sql_select f any_order t) as [l|] eqn:E; [|done]. intros [= <-].
  apply select_law in E as [E _]. by rewrite E.
Qed.

Lemma blocked_rows_total (l : list LoggedQuery) rows :
  rows ≡ₚ domain_count <$> group_by lq_Domain l → total dc_Count rows = Z.of_nat (length l) ∧ ∀ r, r ∈ rows → 0 ≤ dc_Count r.
Proof.
  intros Hp. split.
  - rewrite Hp, <- (total_groups lq_Domain (remove_dups (lq_Domain <$> l)) l); [|apply NoDup_remove_dups|].
    + unfold group_by, total. rewrite !foldr_fmap. done.
    + intros a Ha. apply elem_of_remove_dups. by apply list_elem_of_fmap_2.
  - intros r Hr. rewrite Hp in Hr. apply list_elem_of_fmap in Hr as (g & -> & _). unfold domain_count. simpl. lia.
Qed.

Lemma filter_le {A} (f g : A → bool) l : (∀ a, f a = true → g a = true) → (length (filter f l) ≤ length (filter g l))%nat.
Proof.
  intros H. induction l as [|a l IH]; [done|]. rewrite !filter_cons. repeat case_decide; simpl; try lia.
  exfalso. destruct (f a) eqn:E; [|done]. by rewrite (H a E) in *.
Qed.

Lemma leaderboard_total {A} (f count : A → Z) name n l : (∀ a, a ∈ l → 0 ≤ f a) → total f (leaderboard count name n l) ≤ total f l.
Proof.
  intros H. unfold leaderboard. rewrite <- (merge_sort_Permutation (ranked count name) l) at 2.
  apply total_take. intros a Ha. apply H. by rewrite merge_sort_Permutation in Ha.
Qed.

Lemma disjoint_filters (f : LoggedQuery → bool) l :
  Z.of_nat (length (filter (λ q, is_blocked q && f q) l)) +
  Z.of_nat (length (filter (λ q, bool_decide (lq_Action q = "allow"%string) && f q) l)) ≤ Z.of_nat (length (filter f l)).
Proof.
  induction l as [|q l IH]; [done|]. rewrite !filter_cons. unfold is_blocked in *.
  destruct (f q); rewrite ?andb_true_r, ?andb_false_r; simpl; [|lia].
  repeat case_bool_decide; simpl; [congruence|lia..].
Qed.

(** What an aggregate of the log says, each figure of the log as its statement found it. *)
Section Statements.
Context (ts : nat → table LoggedQuery) (from to : Z).
Definition blocked_in (q : LoggedQuery) : bool := is_blocked q && in_period from to q.
Definition allowed_in (q : LoggedQuery) : bool := bool_decide (lq_Action q = "allow"%string) && in_period from to q.
Definition threat_in (q : LoggedQuery) : bool := is_blocked q && dq_IsSuspicious (lq_query q) && in_period from to q.
Definition number (f : LoggedQuery → bool) (k : nat) : Z := Z.of_nat (length (filter f (rows (ts k)))).

Lemma Aggregate_spec d n agg :
  ReportRepo_Aggregate ts d from to n = Some agg → 0 < n →
  ag_TotalQueries agg = number (in_period from to) 0 ∧ ag_BlockedQueries agg = number blocked_in 1 ∧
  ag_AllowedQueries agg = number allowed_in 2 ∧ ag_ThreatsBlocked agg = number threat_in 3 ∧
  total dc_Count (ag_TopBlockedDomains agg) ≤ number blocked_in 4 ∧ (∀ r, r ∈ ag_TopBlockedDomains agg → 0 ≤ dc_Count r) ∧
  total cc_Count (ag_TopBlockedCategories agg) ≤ number blocked_in 4 ∧ (∀ r, r ∈ ag_TopBlockedCategories agg → 0 ≤ cc_Count r).
Proof.
  intros E Hn. unfold ReportRepo_Aggregate in E. destruct (Z.leb_spec n 0); [lia|].
  destruct (count_rows (in_period from to) _) as [nq|] eqn:E1; [|done]. apply count_rows_of in E1. cbn in E.
  destruct (count_rows (λ q, bool_decide (lq_Action q = "block"%string) && _) _) as [nb|] eqn:E2; [|done]. apply count_rows_of in E2.
  destruct (count_rows (λ q, bool_decide (lq_Action q = "allow"%string) && _) _) as [na|] eqn:E3; [|done]. apply count_rows_of in E3.
  destruct (count_rows (λ q, _ && _ && _) _) as [nt|] eqn:E4; [|done]. apply count_rows_of in E4. cbn in E.
  destruct (sql_select _ any_order _) as [l|] eqn:El; [|done]. apply select_law in El as [El _].
  set (br := merge_sort _ _) in E.
  destruct (blocked_rows_total l br (merge_sort_Permutation _ _)) as [Ht Hr].
  destruct (match br with [] => _ | _ => _ end) as [cats|] eqn:Ec; [|done]. cbn in E.
  destruct (sql_select _ notable_order _) as [ev|] eqn:Ev; [|done]. injection E as <-. cbn.
  assert (total dc_Count br = number blocked_in 4) as Hb by (rewrite Ht, El; done).
  split_and!; [done..| | | |].
  - rewrite <- Hb. by apply total_take.
  - intros r Hi. apply Hr. revert Hi. apply subseteq_take.
  - destruct br as [|b0 br']; [injection Ec as <-; change (0 ≤ number blocked_in 4); unfold number; lia|].
    destruct (sql_categorised_entries _ _) as [es|]; [|done]. injection Ec as <-.
    destruct (category_counts_total es (b0 :: br') Hr) as [Hc Hc']. pose proof (leaderboard_total cc_Count cc_Count cc_Category n _ Hc'). lia.
  - destruct br as [|b0 br']; [injection Ec as <-; set_solver|].
    destruct (sql_categorised_entries _ _) as [es|]; [|done]. injection Ec as <-.
    destruct (category_counts_total es (b0 :: br') Hr) as [Hc Hc'].
    intros r Hi. apply Hc'. by apply (leaderboard_spec cc_Count cc_Category n (category_counts es (b0 :: br'))) in Hi.
Qed.

(** No row of the period comes or goes from the first statement to the one that groups
    the domains. *)
Definition period_stable : Prop :=
  ∀ k, (k < 5)%nat → filter (in_period from to) (rows (ts k)) ≡ₚ filter (in_period from to) (rows (ts 0%nat)).

Lemma filter_twice {A} (f g : A → bool) (l : list A) : (∀ a, f a = true → g a = true) → filter f (filter g l) = filter f l.
Proof.
  intros H. induction l as [|a l IH]; [done|]. rewrite (filter_cons g). case_decide as Hg.
  - rewrite !filter_cons. by rewrite IH.
  - rewrite filter_cons. rewrite decide_False; [done|]. intros Hf. apply Hg. destruct (f a) eqn:E; [|done]. by rewrite (H a E).
Qed.
Lemma number_stable f k : period_stable → (k < 5)%nat → (∀ q, f q = true → in_period from to q = true) → number f k = number f 0.
Proof.
  intros Hp Hk Hf. unfold number. f_equal.
  rewrite <- (filter_twice f (in_period from to) (rows (ts k)) Hf), <- (filter_twice f (in_period from to) (rows (ts 0%nat)) Hf).
  by rewrite (Hp k Hk).
Qed.
End Statements.

(** C40. The figures of a report agree with the log and, if the period is over, with each
    other. Each total counts the rows of the period as its statement finds them; the lists
    have at most five entries, in order, and neither credits more blocks than its
    statement found. Queries logged meanwhile outside the period change nothing: if the
    statements find the same rows in the period, ads and threats together are the blocked
    queries, blocked and allowed ones are no more than all, and the lists credit no more
    blocks than the report counts. The statements are in no transaction, and without that
    condition the figures may contradict each other ([report_torn]). *)
Theorem report_adds_up now ts d from to rep :
  Generate now (Some (ReportRepo_Aggregate ts d)) from to = Ok rep →
  let a := zt_time from in let b := zt_time to in
  rt_TotalQueries rep = number ts (in_period a b) 0 ∧ rt_BlockedQueries rep = number ts (blocked_in a b) 1 ∧
  rt_AllowedQueries rep = number ts (allowed_in a b) 2 ∧ rt_ThreatsBlocked rep = number ts (threat_in a b) 3 ∧
  rt_AdsAndTrackers rep = Z.max 0 (rt_BlockedQueries rep - rt_ThreatsBlocked rep) ∧
  (length (rt_TopBlockedDomains rep) ≤ 5)%nat ∧ StronglySorted (ranked dc_Count dc_Domain) (rt_TopBlockedDomains rep) ∧
  (length (rt_TopBlockedCategories rep) ≤ 5)%nat ∧ StronglySorted (ranked cc_Count cc_Category) (rt_TopBlockedCategories rep) ∧
  total dc_Count (rt_TopBlockedDomains rep) ≤ number ts (blocked_in a b) 4 ∧
  total cc_Count (rt_TopBlockedCategories rep) ≤ number ts (blocked_in a b) 4 ∧
  (period_stable ts a b →
     rt_AdsAndTrackers rep + rt_ThreatsBlocked rep = rt_BlockedQueries rep ∧
     rt_BlockedQueries rep + rt_AllowedQueries rep ≤ rt_TotalQueries rep ∧
     total dc_Count (rt_TopBlockedDomains rep) ≤ rt_BlockedQueries rep ∧
     total cc_Count (rt_TopBlockedCategories rep) ≤ rt_BlockedQueries rep).
Proof.
  unfold Generate. destruct (ReportRepo_Aggregate ts d (zt_time from) (zt_time to) defaultTopN) as [agg|] eqn:E; [|done].
  destruct (Aggregate_spec ts (zt_time from) (zt_time to) d defaultTopN agg E ltac:(done)) as (Et & Eb & Ea & Eth & Hd & Hd' & Hc & Hc').
  destruct (classifyPeriod (zt_time from) (zt_time to)) as [period label]. intros [= <-]. cbn -[number].
  pose proof (leaderboard_total dc_Count dc_Count dc_Domain defaultTopN _ Hd') as Hld.
  pose proof (leaderboard_total cc_Count cc_Count cc_Category defaultTopN _ Hc') as Hlc.
  destruct (leaderboard_spec dc_Count dc_Domain defaultTopN (ag_TopBlockedDomains agg)) as (Hs1 & Hl1 & _).
  destruct (leaderboard_spec cc_Count cc_Category defaultTopN (ag_TopBlockedCategories agg)) as (Hs2 & Hl2 & _).
  change (Z.to_nat defaultTopN) with 5%nat in *. set (a := zt_time from) in *. set (b := zt_time to) in *.
  assert (∀ x, (if x <? 0 then 0 else x) = Z.max 0 x) as Hmax by (intros x; destruct (Z.ltb_spec x 0); lia).
  rewrite Hmax. split_and!; try done; try lia. intros Hp. rewrite Et, Eb, Ea, Eth in *.
  assert (∀ k, (k < 5)%nat → number ts (blocked_in a b) k = number ts (blocked_in a b) 0) as Nb.
  { intros k Hk. apply number_stable with a b; [done|done|]. intros q. unfold blocked_in. by intros [_ ?]%andb_true_iff. }
  rewrite (number_stable ts a b (allowed_in a b) 2) by (done || lia || (intros q; unfold allowed_in; by intros [_ ?]%andb_true_iff)).
  rewrite (number_stable ts a b (threat_in a b) 3) by (done || lia || (intros q; unfold threat_in; by intros [_ ?]%andb_true_iff)).
  rewrite (Nb 4%nat) in Hd, Hc by lia. rewrite (Nb 1%nat) by lia.
  assert (number ts (threat_in a b) 0 ≤ number ts (blocked_in a b) 0) as Hth.
  { apply inj_le, filter_le. intros q. unfold threat_in, blocked_in. by destruct (is_blocked q), (in_period a b q), (dq_IsSuspicious (lq_query q)). }
  split_and!; [lia|apply disjoint_filters|lia|lia].
Qed.
End AddsUp.

Module Runs.
#[local] Instance log_table : SqlTable LoggedQuery := list_table.
#[local] Instance log_table_laws : SqlTableLaws log_table := list_table_laws.
#[local] Instance lists : BlocklistDb := list_db.

Definition row (id at_ : Z) (domain action : string) (suspicious : bool) : LoggedQuery := {|
  lq_ID := id; lq_Timestamp := at_ * second;
  lq_query := {| dq_Domain := domain; dq_ClientIP := "10.0.0.1"; dq_Action := action; dq_BlockReason := "";
                 dq_IsSuspicious := suspicious; dq_ThreatScore := f64_zero; dq_DetectionMethod := "dga"; dq_ThreatReason := "" |} |}.
Definition log : table LoggedQuery := table_of [
  row 1 10 "tracker.com" "block" false; row 2 20 "ads.tracker.com" "block" false; row 3 30 "ads.tracker.com" "block" true;
  row 4 40 "good.org" "allow" true; row 5 5000 "late.org" "block" false] eq_refl.
Definition entry (domain category : string) : BlocklistEntry :=
  {| en_SnapshotID := 1; en_Domain := domain; en_SourceID := "s"; en_Category := category |}.
Definition entries : db := {| t_entries := [entry "tracker.com" "ads"]; t_snapshots := []; t_sources := [] |}.
(** The log grows by a row behind the period after the first statement. *)
Definition later_log : table LoggedQuery := table_of (rows log ++ [row 6 6000 "later.org" "block" true]) eq_refl.
Definition growing (k : nat) : table LoggedQuery := match k with O => log | S _ => later_log end.
Definition aggregate : Z → Z → Z → option Aggregates := ReportRepo_Aggregate growing entries.
Definition report : option Report :=
  match Generate (60 * second) (Some aggregate) (in_UTC 0) (in_UTC (60 * second)) with Ok r => Some r | Err _ => None end.

Lemma report_adds_up_witness :
  match Generate (60 * second) (Some aggregate) (in_UTC 0) (in_UTC (60 * second)) with
  | Ok rep => rt_AdsAndTrackers rep + rt_ThreatsBlocked rep = rt_BlockedQueries rep
  | Err _ => False
  end.
Proof.
  destruct (Generate (60 * second) (Some aggregate) (in_UTC 0) (in_UTC (60 * second))) as [rep|e] eqn:E.
  - apply (report_adds_up (60 * second) growing entries (in_UTC 0) (in_UTC (60 * second)) rep E).
    intros [|k] _; [reflexivity|]. apply (eq_ind _ (λ l, _ ≡ₚ l) (reflexivity _)). vm_compute. reflexivity.
  - vm_compute in E. discriminate E.
Defined.

Example report_ex :
  (λ r, (rt_TotalQueries r, rt_BlockedQueries r, rt_ThreatsBlocked r, rt_TopBlockedDomains r)) <$> report =
  Some (4, 3, 1, [{| dc_Domain := "ads.tracker.com"; dc_Count := 2 |}; {| dc_Domain := "tracker.com"; dc_Count := 1 |}]).
Proof. vm_compute. reflexivity. Qed.

(** Two blocked threats are logged, within the period, between the counts of a report:
    it tells of no query at all and of two threats stopped, and its ads and threats are
    more than its blocked queries. *)
Definition torn (k : nat) : table LoggedQuery :=
  if (k <? 2)%nat then table_of [] eq_refl
  else table_of [row 1 10 "tracker.com" "block" true; row 2 20 "evil.org" "block" true] eq_refl.
Lemma report_torn :
  match Generate (60 * second) (Some (ReportRepo_Aggregate torn entries)) (in_UTC 0) (in_UTC (60 * second)) with
  | Ok rep => (rt_TotalQueries rep, rt_BlockedQueries rep, rt_AdsAndTrackers rep, rt_ThreatsBlocked rep) = (0, 0, 0, 2) ∧
      total dc_Count (rt_TopBlockedDomains rep) = 2
  | Err _ => False
  end.
Proof. vm_compute. split; reflexivity. Qed.

(** The blocklist covers the names below an entry, the roll-up of categories only the
    entry's own name: two of the three blocks of "tracker.com" are in no category. *)
Lemma subdomains_uncategorised :
  @IsBlocked ascii_unicode lists "ads.tracker.com" entries = Ok true ∧
  rt_TopBlockedCategories <$> report = Some [{| cc_Category := "ads"; cc_Count := 1 |}].
Proof. vm_compute. split; reflexivity. Qed.
End Runs.
