(* ===== verification/Catalog.v ===== *)
(** * The built-in data: catalogue and bundled list

    [internal/blocklist/catalog.go], the constant catalogue of categories and collections,
    and [internal/blocklist/bundle]: bundle.go and the embedded default_hosts.txt. *)
From S2P Require Import Prelude GoStrings GoText Blocklist Storage ControlPlane BlocklistApi.

(** ** catalog.go *)

Definition CategoryTypeSecurity : string := "security".
Definition CategoryTypeContent : string := "content".
Definition feed (name url format : string) : Feed := {| fd_Name := name; fd_URL := url; fd_Format := format |}.
Definition category (name description type : string) (feeds : list Feed) : CategoryDef :=
  {| cd_Name := name; cd_Description := description; cd_Type := type; cd_Feeds := feeds |}.
Definition collection (name app description : string) (domains : list string) : CollectionDef :=
  {| ld_Name := name; ld_App := app; ld_Description := description; ld_Domains := domains |}.

Definition DefaultCategories : list CategoryDef := [
  category "ads" "Advertising networks and ad-serving domains." CategoryTypeContent [
    feed "OISD Small"
      "https://small.oisd.nl/domainswild" "domains";
    feed "Hagezi Pro"
      "https://raw.githubusercontent.com/hagezi/dns-blocklists/main/hosts/pro.txt" "hosts"];
  category "trackers" "Analytics, telemetry, and cross-site tracking domains." CategoryTypeContent [
    feed "Hagezi Pro"
      "https://raw.githubusercontent.com/hagezi/dns-blocklists/main/hosts/pro.txt" "hosts"];
  category "malware" "Domains distributing malware and malicious payloads." CategoryTypeSecurity [
    feed "URLhaus"
      "https://urlhaus.abuse.ch/downloads/hostfile/" "hosts";
    feed "Hagezi TIF"
      "https://raw.githubusercontent.com/hagezi/dns-blocklists/main/hosts/tif.txt" "hosts"];
  category "phishing" "Phishing and credential-harvesting domains." CategoryTypeSecurity [
    feed "OISD NSFW-free Phishing"
      "https://phishing.army/download/phishing_army_blocklist_extended.txt" "domains"];
  category "c2" "Command-and-control (C2) and botnet infrastructure." CategoryTypeSecurity [
    feed "ThreatFox"
      "https://threatfox.abuse.ch/downloads/hostfile/" "hosts"];
  category "cryptomining" "In-browser cryptomining and coin-hijacking domains." CategoryTypeSecurity [
    feed "Hagezi Cryptojacking"
      "https://raw.githubusercontent.com/hagezi/dns-blocklists/main/domains/native.crypto.txt" "domains"];
  category "adult" "Adult and pornographic content." CategoryTypeContent [
    feed "OISD NSFW"
      "https://nsfw.oisd.nl/domainswild" "domains"];
  category "gambling" "Online gambling and betting domains." CategoryTypeContent [
    feed "Hagezi Gambling"
      "https://raw.githubusercontent.com/hagezi/dns-blocklists/main/domains/gambling.txt" "domains"];
  category "piracy" "Piracy, warez, and illegal streaming domains." CategoryTypeContent [
    feed "Hagezi Piracy"
      "https://raw.githubusercontent.com/hagezi/dns-blocklists/main/domains/piracy.txt" "domains"]].
Definition DefaultCollections : list CollectionDef := [
  collection "tiktok" "TikTok" "Block TikTok and its content/telemetry domains."
    ["tiktok.com"; "tiktokcdn.com"; "tiktokv.com"; "byteoversea.com"; "musical.ly"; "tiktokcdn-us.com"];
  collection "instagram" "Instagram" "Block Instagram domains."
    ["instagram.com"; "cdninstagram.com"; "instagr.am"];
  collection "facebook" "Facebook" "Block Facebook / Meta domains."
    ["facebook.com"; "fbcdn.net"; "fb.com"; "fbsbx.com"; "facebook.net"];
  collection "youtube" "YouTube" "Block YouTube domains."
    ["youtube.com"; "youtu.be"; "ytimg.com"; "googlevideo.com"];
  collection "snapchat" "Snapchat" "Block Snapchat domains."
    ["snapchat.com"; "sc-cdn.net"; "snap.com"]]%string.

(** ** bundle/ *)

Definition default_hosts : string :=
"# PhantomDNS / HydraDNS bundled offline blocklist seed
# ----------------------------------------------------
# This is a small, curated, well-known list of ad/tracker/malware domains
# embedded in the dataplane binary so that filtering works from the very
# first boot with no internet connectivity. It is intentionally modest and
# is only a SEED: the normal periodic refresh replaces coverage with the
# configured upstream sources once the device is online.
#
# Format: standard hosts (0.0.0.0 <domain>). One domain per line.
# License note: these are widely-published, well-known advertising and
# telemetry endpoints; the list is a small hand-picked default, not a
# redistribution of any single upstream blocklist.

# --- Ad serving / exchanges ---
0.0.0.0 doubleclick.net
0.0.0.0 ad.doubleclick.net
0.0.0.0 static.doubleclick.net
0.0.0.0 googleadservices.com
0.0.0.0 pagead2.googlesyndication.com
0.0.0.0 googlesyndication.com
0.0.0.0 partner.googleadservices.com
0.0.0.0 pubads.g.doubleclick.net
0.0.0.0 securepubads.g.doubleclick.net
0.0.0.0 adservice.google.com
0.0.0.0 ads.google.com
0.0.0.0 adnxs.com
0.0.0.0 ib.adnxs.com
0.0.0.0 secure.adnxs.com
0.0.0.0 rubiconproject.com
0.0.0.0 fastlane.rubiconproject.com
0.0.0.0 pubmatic.com
0.0.0.0 ads.pubmatic.com
0.0.0.0 openx.net
0.0.0.0 us-u.openx.net
0.0.0.0 casalemedia.com
0.0.0.0 contextweb.com
0.0.0.0 33across.com
0.0.0.0 adform.net
0.0.0.0 adform.com
0.0.0.0 smartadserver.com
0.0.0.0 sascdn.com
0.0.0.0 criteo.com
0.0.0.0 criteo.net
0.0.0.0 static.criteo.net
0.0.0.0 bidswitch.net
0.0.0.0 taboola.com
0.0.0.0 cdn.taboola.com
0.0.0.0 trc.taboola.com
0.0.0.0 outbrain.com
0.0.0.0 widgets.outbrain.com
0.0.0.0 mgid.com
0.0.0.0 servicer.mgid.com
0.0.0.0 revcontent.com
0.0.0.0 media.net
0.0.0.0 adsystem.com
0.0.0.0 amazon-adsystem.com
0.0.0.0 aax.amazon-adsystem.com
0.0.0.0 s.amazon-adsystem.com
0.0.0.0 advertising.com
0.0.0.0 adtechus.com
0.0.0.0 adtech.de
0.0.0.0 yieldmo.com
0.0.0.0 sharethrough.com
0.0.0.0 gumgum.com
0.0.0.0 teads.tv
0.0.0.0 a.teads.tv
0.0.0.0 spotxchange.com
0.0.0.0 spotx.tv
0.0.0.0 indexww.com
0.0.0.0 casalemedia.net
0.0.0.0 3lift.com
0.0.0.0 adcolony.com
0.0.0.0 applovin.com
0.0.0.0 unityads.unity3d.com
0.0.0.0 vungle.com
0.0.0.0 inmobi.com
0.0.0.0 chartboost.com
0.0.0.0 mopub.com
0.0.0.0 adsrvr.org
0.0.0.0 zemanta.com
0.0.0.0 quantserve.com
0.0.0.0 quantcount.com
0.0.0.0 exponential.com
0.0.0.0 tribalfusion.com
0.0.0.0 undertone.com
0.0.0.0 districtm.io
0.0.0.0 gammaplatform.com

# --- Analytics / telemetry / tracking ---
0.0.0.0 google-analytics.com
0.0.0.0 www.google-analytics.com
0.0.0.0 ssl.google-analytics.com
0.0.0.0 analytics.google.com
0.0.0.0 googletagmanager.com
0.0.0.0 googletagservices.com
0.0.0.0 www.googletagservices.com
0.0.0.0 stats.g.doubleclick.net
0.0.0.0 app-measurement.com
0.0.0.0 crashlytics.com
0.0.0.0 settings.crashlytics.com
0.0.0.0 firebase-settings.crashlytics.com
0.0.0.0 mixpanel.com
0.0.0.0 api.mixpanel.com
0.0.0.0 segment.com
0.0.0.0 api.segment.io
0.0.0.0 cdn.segment.com
0.0.0.0 amplitude.com
0.0.0.0 api.amplitude.com
0.0.0.0 hotjar.com
0.0.0.0 static.hotjar.com
0.0.0.0 script.hotjar.com
0.0.0.0 fullstory.com
0.0.0.0 rs.fullstory.com
0.0.0.0 mouseflow.com
0.0.0.0 crazyegg.com
0.0.0.0 scorecardresearch.com
0.0.0.0 sb.scorecardresearch.com
0.0.0.0 chartbeat.com
0.0.0.0 static.chartbeat.com
0.0.0.0 newrelic.com
0.0.0.0 bam.nr-data.net
0.0.0.0 js-agent.newrelic.com
0.0.0.0 nr-data.net
0.0.0.0 branch.io
0.0.0.0 app.link
0.0.0.0 adjust.com
0.0.0.0 app.adjust.com
0.0.0.0 appsflyer.com
0.0.0.0 t.appsflyer.com
0.0.0.0 kochava.com
0.0.0.0 bugsnag.com
0.0.0.0 sessions.bugsnag.com
0.0.0.0 sentry.io
0.0.0.0 optimizely.com
0.0.0.0 logx.optimizely.com
0.0.0.0 heap.io
0.0.0.0 heapanalytics.com
0.0.0.0 cdn.heapanalytics.com
0.0.0.0 matomo.cloud
0.0.0.0 clarity.ms
0.0.0.0 c.clarity.ms
0.0.0.0 track.hubspot.com
0.0.0.0 stats.wp.com
0.0.0.0 pixel.wp.com
0.0.0.0 metrics.apple.com
0.0.0.0 supersonicads.com
0.0.0.0 flurry.com
0.0.0.0 data.flurry.com
0.0.0.0 cdn.flurry.com

# --- Social / cross-site trackers ---
0.0.0.0 connect.facebook.net
0.0.0.0 an.facebook.com
0.0.0.0 pixel.facebook.com
0.0.0.0 analytics.twitter.com
0.0.0.0 ads-twitter.com
0.0.0.0 static.ads-twitter.com
0.0.0.0 t.co
0.0.0.0 ads.linkedin.com
0.0.0.0 px.ads.linkedin.com
0.0.0.0 analytics.tiktok.com
0.0.0.0 ads.tiktok.com
0.0.0.0 business-api.tiktok.com
0.0.0.0 ads.pinterest.com
0.0.0.0 log.pinterest.com
0.0.0.0 ads.yahoo.com
0.0.0.0 analytics.yahoo.com
0.0.0.0 ads.reddit.com
0.0.0.0 events.redditmedia.com
0.0.0.0 snap.com
0.0.0.0 tr.snapchat.com
0.0.0.0 sc-static.net

# --- Malware / phishing / scam (well-known bad TLD parkers & C2 patterns) ---
0.0.0.0 malwaredomainlist.com
0.0.0.0 malware.wicar.org
0.0.0.0 secure-login-verify.com
0.0.0.0 account-verify-secure.com
0.0.0.0 free-gift-card-winner.com
0.0.0.0 your-device-has-virus.com
0.0.0.0 tech-support-alert.com
0.0.0.0 fast-download-now.net
0.0.0.0 clickhere-forprize.com
0.0.0.0 coin-miner-pool.net
0.0.0.0 coinhive.com
0.0.0.0 coin-hive.com
0.0.0.0 cryptoloot.pro
0.0.0.0 crypto-loot.com
0.0.0.0 webminepool.com
0.0.0.0 minero.cc
0.0.0.0 authedmine.com
0.0.0.0 jsecoin.com
0.0.0.0 miner.pr0gramm.com
0.0.0.0 coinimp.com
0.0.0.0 www.coinimp.com

# --- Misc telemetry / notification spam / push-ad networks ---
0.0.0.0 onesignal.com
0.0.0.0 cdn.onesignal.com
0.0.0.0 pushcrew.com
0.0.0.0 pushengage.com
0.0.0.0 izooto.com
0.0.0.0 propellerads.com
0.0.0.0 propu.sh
0.0.0.0 propellerpops.com
0.0.0.0 popads.net
0.0.0.0 popcash.net
0.0.0.0 adcash.com
0.0.0.0 admaven.com
0.0.0.0 hilltopads.net
0.0.0.0 clickadu.com
0.0.0.0 exoclick.com
0.0.0.0 juicyads.com
0.0.0.0 trafficjunky.net
0.0.0.0 trafficfactory.biz
".

Section Bundle.
Context `{U : GoUnicode}.

(** [Load] and [Domains], with the registered parser. *)
Definition Load (raw : string) : result string (list string) :=
  match parser_Get "hosts" with
  | None => Err "bundle: hosts parser not registered"%string
  | Some parse => parse raw
  end.
Definition Domains : result string (list string) := Load default_hosts.
End Bundle.

(** ** Everything in the data can be used *)

Definition lower (s : string) : string := string_map lower_byte s.

Section Catalog.
Context `{U : GoUnicode}.

Lemma EqualFold_ascii a b : is_ascii a = true → is_ascii b = true → EqualFold a b = bool_decide (lower a = lower b).
Proof. intros Ha Hb. unfold EqualFold. by rewrite Ha, Hb. Qed.

(** A look-up by an ASCII name finds the one entry of that name, whatever its case. *)
Lemma lookup_by_name {A} (key : A → string) (defs : list A) def name :
  Forall (λ a, is_ascii (key a) = true) defs → NoDup (lower ∘ key <$> defs) → def ∈ defs →
  is_ascii name = true → lower name = lower (key def) →
  first_match (λ a, if EqualFold (key a) name then Some a else None) defs = Some def.
Proof.
  intros Ha Hn Hd Hs E. induction Ha as [|a defs Hk Ha IH]; [by apply not_elem_of_nil in Hd|].
  csimpl in Hn. apply NoDup_cons in Hn as [Hna Hn]. cbn [first_match]. rewrite EqualFold_ascii by done.
  case_bool_decide as Heq.
  - apply elem_of_cons in Hd as [->|Hd]; [done|]. exfalso. apply Hna. apply list_elem_of_fmap. exists def. split; [|done].
    simpl. congruence.
  - apply elem_of_cons in Hd as [->|Hd]; [by rewrite E in Heq|]. by apply IH.
Qed.

Definition all_source_ids : list string :=
  bundle_SourceID :: (CategorySourceID ∘ cd_Name <$> DefaultCategories) ++ (CollectionSourceID ∘ ld_Name <$> DefaultCollections).
Definition plain (d : string) : bool := bool_decide (agg_normalizeDomain d = d ∧ d ∈ parent_candidates (repo_normalize d)).

(** The built-in catalogue is usable as it stands: a category or collection is found by
    its name in any letter case, every feed names a registered format and a URL the
    fetcher accepts, every domain of a collection is stored as it is written and blocks
    itself, and no two sources, the bundled one included, share an ID. *)
Theorem default_catalog_usable :
  (∀ def name, def ∈ DefaultCategories → is_ascii name = true → lower name = lower (cd_Name def) →
     Catalog_Category DefaultCategories name = Some def) ∧
  (∀ def name, def ∈ DefaultCollections → is_ascii name = true → lower name = lower (ld_Name def) →
     Catalog_Collection DefaultCollections name = Some def) ∧
  (∀ def f, def ∈ DefaultCategories → f ∈ cd_Feeds def →
     is_Some (parser_Get (fd_Format f)) ∧ isHTTPURL (fd_URL f) = true) ∧
  (∀ def d, def ∈ DefaultCollections → d ∈ ld_Domains def → plain d = true) ∧
  NoDup all_source_ids.
Proof.
  split; [|split; [|split; [|split]]].
  - intros def name Hd Hs E. apply lookup_by_name; [by repeat constructor| |done..].
    apply (bool_decide_unpack _). vm_compute. exact I.
  - intros def name Hd Hs E. apply lookup_by_name; [by repeat constructor| |done..].
    apply (bool_decide_unpack _). vm_compute. exact I.
  - intros def f Hd Hf. assert (forallb (λ def, forallb (λ f, bool_decide (is_Some (parser_Get (fd_Format f))) && isHTTPURL (fd_URL f))
      (cd_Feeds def)) DefaultCategories = true) as H by (vm_compute; reflexivity).
    rewrite forallb_forall in H. specialize (H def ltac:(by apply list_elem_of_In)). rewrite forallb_forall in H.
    specialize (H f ltac:(by apply list_elem_of_In)). by boolp.
  - intros def d Hd Hx. assert (forallb (λ def, forallb plain (ld_Domains def)) DefaultCollections = true) as H by (vm_compute; reflexivity).
    rewrite forallb_forall in H. specialize (H def ltac:(by apply list_elem_of_In)). rewrite forallb_forall in H.
    exact (H d ltac:(by apply list_elem_of_In)).
  - apply (bool_decide_unpack _). vm_compute. exact I.
Qed.
End Catalog.

Definition bundled : list string := match Domains (U := ascii_unicode) with Ok l => l | Err _ => [] end.
Example bundled_ex : Z.of_nat (length bundled) = 193 ∧ take 2 bundled = ["doubleclick.net"; "ad.doubleclick.net"]%string.
Proof. vm_compute. done. Qed.

(** ** Concrete runs *)

Module CatalogRuns.
#[local] Instance cat_unicode : GoUnicode := ascii_unicode.
#[local] Instance cat_db : BlocklistDb := list_db.
#[local] Instance cat_fetcher : Fetcher := {| Fetch := λ url _,
  if bool_decide (url = "http://mine"%string) then Ok (Body (unlines ["mine.example"]%string) "") else Err "unreachable"%string |}.
#[local] Instance cat_toggles : SqlTable CategoryRow := list_table.

Definition nothing : tables := {| t_entries := []; t_snapshots := []; t_sources := [] |}.
Definition switch_off : UpdateBlocklistRequest :=
  {| ub_Name := None; ub_URL := None; ub_Format := None; ub_Category := None; ub_Enabled := Some false |}.

(** The bundled list is stored as a disabled source, yet its names are blocked; the
    request to switch it off is answered with success and no names, and changes nothing
    about that. *)
Definition seeded : tables := (SeedIfEmpty id 1 default_hosts nothing).2.
Definition off := UpdateBlocklist id true 2 bundle_SourceID (Ok switch_off) seeded.
Lemma bundled_list_stays :
  (bs_Enabled <$> t_sources seeded) = [false] ∧ r_status off.1.1 = 200 ∧ (bl_DomainsCount <$> r_data off.1.1) = Some 0 ∧
  IsBlocked "x.doubleclick.net" off.1.2 = Ok true.
Proof. vm_compute. repeat split. Qed.

(** A user's list may take the ID of a category; switching the category off then deletes
    the user's entries. *)
Definition user_list : CreateBlocklistRequest :=
  {| cb_ID := "category:ads"; cb_Name := "Mine"; cb_URL := "http://mine"; cb_Format := "domains"; cb_Category := "" |}.
Definition user_created := CreateBlocklist id true 1 (Ok user_list) nothing.
Definition ads_off := ToggleCategory id 2 DefaultCategories "ads" (Ok false) (Storage.table_of [] eq_refl) user_created.1.2.
Lemma namespace_not_reserved :
  r_status user_created.1.1 = 201 ∧ IsBlocked "mine.example" user_created.1.2 = Ok true ∧
  r_status ads_off.1.1 = 200 ∧ IsBlocked "mine.example" ads_off.2 = Ok false.
Proof. vm_compute. repeat split. Qed.
End CatalogRuns.
