(* ===== verification/Router.v ===== *)
(** * The API as one server

    [cmd/controlplane/routes/router.go] and the chain of middlewares of
    [cmd/controlplane/main.go] and [middlewares/cors.go] in front of it: from a request to
    the handler of one of the component files, over the state all handlers share. The
    gin router and the CORS library are interfaces. *)
From S2P Require Import Prelude GoStrings GoText GoTime Policy PolicyEngine Upstream DnsEngine Blocklist Storage ControlPlane BlocklistApi ConfigIO.
From S2P Require Import Auth Inventory Fleet Analytics AnalyticsApi Reports.

(** ** router.go *)

(** One constructor per method of the API handler that is registered. *)
Inductive endpoint :=
  | EpHealthCheck | EpRoot | EpGetAuthStatus | EpSetup | EpLogin | EpGetDashboardSummary
  | EpGetDnsEngineStatus | EpToggleDnsEngine | EpListResolvers | EpCreateResolver | EpUpdateResolver | EpDeleteResolver
  | EpGetDnsMetrics | EpListPolicies | EpCreatePolicy | EpGetPolicy | EpUpdatePolicy | EpDeletePolicy
  | EpListBlocklists | EpCreateBlocklist | EpGetBlocklist | EpUpdateBlocklist | EpDeleteBlocklist
  | EpListCategories | EpGetCategory | EpToggleCategory | EpListCollections | EpToggleCollection
  | EpGetAnalyticsSummary | EpGetAuditLogs | EpGetQueryLogs | EpGetAnalyticsRollups | EpGetDevices
  | EpExportConfig | EpImportConfig | EpGetReport | EpPostFleetHeartbeat | EpGetFleet.

(** A segment of a registered path: itself, or a parameter. *)
Inductive seg := Lit (s : string) | Par (name : string).
Record route := { rt_Method : string; rt_Path : list seg; rt_Handler : endpoint }.
#[export] Instance endpoint_eq_dec : EqDecision endpoint.
Proof. solve_decision. Defined.
#[export] Instance seg_eq_dec : EqDecision seg.
Proof. solve_decision. Defined.
#[export] Instance route_eq_dec : EqDecision route.
Proof. solve_decision. Defined.

Definition verb (m : string) (p : list seg) (e : endpoint) : route := {| rt_Method := m; rt_Path := p; rt_Handler := e |}.
Definition GET := verb "GET".
Definition POST := verb "POST".
Definition PUT := verb "PUT".
Definition PATCH := verb "PATCH".
Definition DELETE := verb "DELETE".
(** The group "/api/v1" and a group below it. *)
Definition api : list seg := [Lit "api"; Lit "v1"].
Definition group (name : string) (rest : list seg) : list seg := api ++ Lit name :: rest.

(** The routes, and those registered only with a fleet store. *)
Definition base_routes : list route := [
  GET [Lit "health"] EpHealthCheck; GET [Lit ""] EpRoot;
  GET (group "auth" [Lit "status"]) EpGetAuthStatus; POST (group "auth" [Lit "setup"]) EpSetup; POST (group "auth" [Lit "login"]) EpLogin;
  GET (group "dashboard" [Lit "summary"]) EpGetDashboardSummary;
  GET (group "dns" [Lit "engine"]) EpGetDnsEngineStatus; POST (group "dns" [Lit "engine"]) EpToggleDnsEngine;
  GET (group "dns" [Lit "resolvers"]) EpListResolvers; POST (group "dns" [Lit "resolvers"]) EpCreateResolver;
  PUT (group "dns" [Lit "resolvers"; Par "id"]) EpUpdateResolver; PATCH (group "dns" [Lit "resolvers"; Par "id"]) EpUpdateResolver;
  DELETE (group "dns" [Lit "resolvers"; Par "id"]) EpDeleteResolver; GET (group "dns" [Lit "metrics"]) EpGetDnsMetrics;
  GET (group "policies" []) EpListPolicies; POST (group "policies" []) EpCreatePolicy; GET (group "policies" [Par "id"]) EpGetPolicy;
  PUT (group "policies" [Par "id"]) EpUpdatePolicy; PATCH (group "policies" [Par "id"]) EpUpdatePolicy;
  DELETE (group "policies" [Par "id"]) EpDeletePolicy;
  GET (group "blocklists" []) EpListBlocklists; POST (group "blocklists" []) EpCreateBlocklist;
  GET (group "blocklists" [Par "id"]) EpGetBlocklist; PUT (group "blocklists" [Par "id"]) EpUpdateBlocklist;
  PATCH (group "blocklists" [Par "id"]) EpUpdateBlocklist; DELETE (group "blocklists" [Par "id"]) EpDeleteBlocklist;
  GET (group "categories" []) EpListCategories; GET (group "categories" [Par "name"]) EpGetCategory;
  PATCH (group "categories" [Par "name"]) EpToggleCategory; PUT (group "categories" [Par "name"]) EpToggleCategory;
  GET (group "collections" []) EpListCollections; PATCH (group "collections" [Par "name"]) EpToggleCollection;
  PUT (group "collections" [Par "name"]) EpToggleCollection;
  GET (group "analytics" [Lit "summary"]) EpGetAnalyticsSummary; GET (group "analytics" [Lit "audits"]) EpGetAuditLogs;
  GET (group "analytics" [Lit "logs"]) EpGetQueryLogs; GET (group "analytics" [Lit "rollups"]) EpGetAnalyticsRollups;
  GET (group "devices" []) EpGetDevices;
  GET (group "config" [Lit "export"]) EpExportConfig; POST (group "config" [Lit "import"]) EpImportConfig;
  GET (api ++ [Lit "reports"]) EpGetReport].
Definition fleet_routes : list route := [
  POST (group "fleet" [Lit "heartbeat"]) EpPostFleetHeartbeat; GET (group "fleet" []) EpGetFleet].
Definition RegisterRoutes (fleet : bool) : list route := base_routes ++ if fleet then fleet_routes else [].

(** What a registered path stands for: a parameter takes one segment that is not empty. *)
Fixpoint match_segs (p : list seg) (s : list string) : option (list (string * string)) :=
  match p, s with
  | [], [] => Some []
  | Lit l :: p, x :: s => if bool_decide (l = x) then match_segs p s else None
  | Par n :: p, x :: s => if bool_decide (x = ""%string) then None else cons (n, x) <$> match_segs p s
  | _, _ => None
  end.
Definition match_path (p : list seg) (path : string) : option (list (string * string)) :=
  match Split path "/" with x :: s => if bool_decide (x = ""%string) then match_segs p s else None | [] => None end.

(** github.com/gin-gonic/gin: the look-up of a method and a path among the registered
    routes, the status of a redirect when there is none, and gin-contrib/cors, which may
    answer a request itself. *)
Class GinRouter := {
  gin_find : list route → string → string → option (route * list (string * string));
  gin_redirect : list route → string → string → option Z;
}.
Class GinRouterLaws (G : GinRouter) : Prop := {
  gin_find_sound : ∀ rs m path r ps, gin_find rs m path = Some (r, ps) →
    r ∈ rs ∧ rt_Method r = m ∧ match_path (rt_Path r) path = Some ps;
  gin_find_complete : ∀ rs m path r, r ∈ rs → rt_Method r = m → is_Some (match_path (rt_Path r) path) →
    is_Some (gin_find rs m path);
}.
Class CorsLib := { cors_abort : list string → string → string → option Z (* origins, method, Origin header *) }.

(** middlewares/cors.go *)
Definition cors_origins (getenv : string → string) : list string :=
  let env := getenv "CORS_ORIGINS"%string in
  if bool_decide (env = ""%string) then ["http://localhost:3000"; "http://127.0.0.1:3000"]%string else Split env ",".

(** ** Requests and the shared state *)

(** The body of a request, as binding it to each handler's type gives it. *)
Record bodies := {
  bd_setup : option setupRequest; bd_login : option string; bd_engine : result string bool;
  bd_createResolver : result string CreateResolverRequest; bd_updateResolver : result string UpdateResolverRequest;
  bd_createPolicy : result string CreatePolicyRequest; bd_updatePolicy : result string UpdatePolicyRequest;
  bd_createBlocklist : result string CreateBlocklistRequest; bd_updateBlocklist : result string UpdateBlocklistRequest;
  bd_toggle : result string bool; bd_import : result string ConfigDoc; bd_heartbeat : option Heartbeat;
}.
Record request := {
  rq_Method : string; rq_Path : string; rq_Authorization : string; rq_Origin : string;
  rq_Query : string → string; rq_Body : bodies;
}.
(** What a request finds when it is served: the clock, the random values drawn, whether a
    refresh is finished in time and whether the transaction's commit gets through. *)
Record serving := { sv_now : Z; sv_uuid : string; sv_salt : string; sv_quick : bool; sv_commit_ok : bool }.

Section Server.
Context `{U : GoUnicode} `{TZ : TzDatabase} `{BL : BloomLib} `{RX : RegexpLib} `{TR : TransportEnv}.
Context `{D : BlocklistDb} `{F : Fetcher} `{B : Bcrypt} `{G : GinRouter} `{CL : CorsLib}.
Context {TP : SqlTable PolicyRow} {TRs : SqlTable ResolverRow} {TS : SqlTable SystemState} {TA : SqlTable AdminCredential}.
Context {TC : SqlTable CategoryRow} {TLc : SqlTable CollectionRow} {TL : SqlTable LoggedQuery} {TSt : SqlTable StatRow}.
Context {W : Type} (close_mgr : UpstreamManager → W → W) (net : nat → rpc_outcome) (hash : string → string).

(** The tables, the handler's client and engine, the refreshes still running, the
    inventory and the fleet store. *)
Record ApiState := {
  as_auth : table AdminCredential; as_handler : APIHandler (W:=W); as_db : db; as_jobs : list BlocklistSource;
  as_categories : table CategoryRow; as_collections : table CollectionRow;
  as_log : table LoggedQuery; as_stats : table StatRow; as_inventory : option Inventory; as_fleet : option FleetStore;
}.
(** What [NewAPIHandler] fixes. *)
Record ApiConfig := {
  ac_categories : list CategoryDef; ac_collections : list CollectionDef; ac_fleetToken : string; ac_origins : list string;
}.

Definition set_auth (t : table AdminCredential) (d : db) (s : ApiState) : ApiState := {|
  as_auth := t; as_handler := as_handler s; as_db := d; as_jobs := as_jobs s; as_categories := as_categories s;
  as_collections := as_collections s; as_log := as_log s; as_stats := as_stats s; as_inventory := as_inventory s; as_fleet := as_fleet s |}.
Definition set_handler (h : APIHandler (W:=W)) (s : ApiState) : ApiState := {|
  as_auth := as_auth s; as_handler := h; as_db := as_db s; as_jobs := as_jobs s; as_categories := as_categories s;
  as_collections := as_collections s; as_log := as_log s; as_stats := as_stats s; as_inventory := as_inventory s; as_fleet := as_fleet s |}.
Definition set_db (d : db) (jobs : list BlocklistSource) (s : ApiState) : ApiState := {|
  as_auth := as_auth s; as_handler := as_handler s; as_db := d; as_jobs := as_jobs s ++ jobs; as_categories := as_categories s;
  as_collections := as_collections s; as_log := as_log s; as_stats := as_stats s; as_inventory := as_inventory s; as_fleet := as_fleet s |}.
Definition set_categories (t : table CategoryRow) (d : db) (s : ApiState) : ApiState := {|
  as_auth := as_auth s; as_handler := as_handler s; as_db := d; as_jobs := as_jobs s; as_categories := t;
  as_collections := as_collections s; as_log := as_log s; as_stats := as_stats s; as_inventory := as_inventory s; as_fleet := as_fleet s |}.
Definition set_collections (t : table CollectionRow) (d : db) (s : ApiState) : ApiState := {|
  as_auth := as_auth s; as_handler := as_handler s; as_db := d; as_jobs := as_jobs s; as_categories := as_categories s;
  as_collections := t; as_log := as_log s; as_stats := as_stats s; as_inventory := as_inventory s; as_fleet := as_fleet s |}.
Definition set_fleet (f : option FleetStore) (s : ApiState) : ApiState := {|
  as_auth := as_auth s; as_handler := as_handler s; as_db := as_db s; as_jobs := as_jobs s; as_categories := as_categories s;
  as_collections := as_collections s; as_log := as_log s; as_stats := as_stats s; as_inventory := as_inventory s; as_fleet := f |}.

(** A handler that only reads; one on the handler's own state; one that calls the data
    plane, whose nil dereference without a client gin's recovery answers 500. *)
Definition reads {A} (r : response A) (s : ApiState) : Z * ApiState := (r_status r, s).
Definition on_handler {A} (f : APIHandler (W:=W) → response A * APIHandler (W:=W)) (s : ApiState) : Z * ApiState :=
  let '(r, h) := f (as_handler s) in (r_status r, set_handler h s).
Definition on_client {A} (f : DataPlane (W:=W) → APIHandler (W:=W) → response A * APIHandler (W:=W)) (s : ApiState) : Z * ApiState :=
  match h_DataPlaneClient (as_handler s) with
  | None => (StatusInternalServerError, s)
  | Some dp => on_handler (f dp) s
  end.

Definition log_params (q : string → string) : LogParams := {|
  lp_limit := q "limit"; lp_offset := q "offset"; lp_client_ip := q "client_ip"; lp_action := q "action"; lp_domain := q "domain";
  lp_suspicious := q "suspicious"; lp_from := q "from"; lp_to := q "to" |}%string.
Definition rollup_params (q : string → string) : RollupParams :=
  {| ru_from := q "from"; ru_to := q "to"; ru_top := q "top"; ru_client_ip := q "client_ip" |}%string.
Definition param (ps : list (string * string)) (name : string) : string :=
  default ""%string (first_match (λ p, if bool_decide (p.1 = name) then Some p.2 else None) ps).

(** The handler of an endpoint on the shared state: the status it answers. *)
Definition handle (cfg : ApiConfig) (e : endpoint) (ps : list (string * string)) (rq : request) (sv : serving) (s : ApiState)
  : Z * ApiState :=
  let b := rq_Body rq in let q := rq_Query rq in let now := sv_now sv in
  let id := param ps "id" in let name := param ps "name" in
  match e with
  | EpHealthCheck | EpRoot => (StatusOK, s)
  | EpGetAuthStatus => reads (GetAuthStatus (as_auth s)) s
  | EpSetup => let '(r, t, d) := Setup (sv_salt sv) (sv_uuid sv) (bd_setup b) (as_auth s) (as_db s) in (r_status r, set_auth t d s)
  | EpLogin => reads (Login (bd_login b) (as_auth s)) s
  | EpGetDashboardSummary => reads (GetDashboardSummary (as_stats s)) s
  | EpGetDnsEngineStatus => on_client (GetDnsEngineStatus net) s
  | EpToggleDnsEngine => on_client (ToggleDnsEngine net (bd_engine b)) s
  | EpListResolvers => reads (ListResolvers (as_handler s)) s
  | EpCreateResolver => on_handler (CreateResolver close_mgr net now (sv_uuid sv) (bd_createResolver b)) s
  | EpUpdateResolver => on_handler (UpdateResolver close_mgr net id (bd_updateResolver b)) s
  | EpDeleteResolver => on_handler (DeleteResolver close_mgr net id) s
  | EpGetDnsMetrics => on_client (GetDnsMetrics net now) s
  | EpListPolicies => reads (ListPolicies (as_handler s)) s
  | EpCreatePolicy => on_handler (CreatePolicy (bd_createPolicy b)) s
  | EpGetPolicy => reads (GetPolicy id (as_handler s)) s
  | EpUpdatePolicy => on_handler (UpdatePolicy id (bd_updatePolicy b)) s
  | EpDeletePolicy => on_handler (DeletePolicy id) s
  | EpListBlocklists => reads (ListBlocklists (as_db s)) s
  | EpCreateBlocklist =>
      let '(r, d, jobs) := CreateBlocklist hash (sv_quick sv) now (bd_createBlocklist b) (as_db s) in (r_status r, set_db d jobs s)
  | EpGetBlocklist => reads (GetBlocklist id (as_db s)) s
  | EpUpdateBlocklist =>
      let '(r, d, jobs) := UpdateBlocklist hash (sv_quick sv) now id (bd_updateBlocklist b) (as_db s) in (r_status r, set_db d jobs s)
  | EpDeleteBlocklist => let '(r, d) := DeleteBlocklist id (as_db s) in (r_status r, set_db d [] s)
  | EpListCategories => reads (ListCategories (ac_categories cfg) (as_categories s) (as_db s)) s
  | EpGetCategory => reads (GetCategory (ac_categories cfg) name (as_categories s) (as_db s)) s
  | EpToggleCategory =>
      let '(r, t, d) := ToggleCategory hash now (ac_categories cfg) name (bd_toggle b) (as_categories s) (as_db s) in
      (r_status r, set_categories t d s)
  | EpListCollections => reads (ListCollections (ac_collections cfg) (as_collections s) (as_db s)) s
  | EpToggleCollection =>
      let '(r, t, d) := ToggleCollection hash now (ac_collections cfg) name (bd_toggle b) (as_collections s) (as_db s) in
      (r_status r, set_collections t d s)
  | EpGetAnalyticsSummary => reads (GetAnalyticsSummary (as_stats s)) s
  | EpGetAuditLogs => reads (GetAuditLogs (as_log s)) s
  | EpGetQueryLogs => reads (GetQueryLogs (log_params q) (λ _, as_log s)) s
  | EpGetAnalyticsRollups => reads (GetAnalyticsRollups (rollup_params q) (λ _, as_log s)) s
  | EpGetDevices => (StatusOK, s)
  | EpExportConfig => on_handler (λ h, ExportConfig h (as_db s)) s
  | EpImportConfig =>
      let '(r, h, d) := ImportConfig net (sv_commit_ok sv) (q "dry_run"%string) (bd_import b) (as_handler s) (as_db s) in
      (r_status r, set_db d [] (set_handler h s))
  | EpGetReport => reads (GetReport now (ReportRepo_Aggregate (λ _, as_log s) (as_db s)) (q "from"%string) (q "to"%string) (q "format"%string)) s
  | EpPostFleetHeartbeat =>
      match RequireHeartbeatToken (ac_fleetToken cfg) (rq_Authorization rq) with
      | AbortWithStatus st => (st, s)
      | Next => let '(r, f) := PostFleetHeartbeat now (bd_heartbeat b) (as_fleet s) in (r_status r, set_fleet f s)
      end
  | EpGetFleet => reads (GetFleet now (as_fleet s)) s
  end.

(** The engine of main.go: CORS, the gate and the handler of the route that is found; the
    global middlewares also run when none is. *)
Definition serve_request (cfg : ApiConfig) (rq : request) (sv : serving) (s : ApiState) : Z * ApiState :=
  let rs := RegisterRoutes (bool_decide (is_Some (as_fleet s))) in
  let gated (next : Z * ApiState) :=
    match cors_abort (ac_origins cfg) (rq_Method rq) (rq_Origin rq) with
    | Some st => (st, s)
    | None =>
        match Auth (rq_Path rq) (rq_Authorization rq) (as_auth s) with
        | AbortWithStatus st => (st, s)
        | Next => next
        end
    end in
  match gin_find rs (rq_Method rq) (rq_Path rq) with
  | Some (r, ps) => gated (handle cfg (rt_Handler r) ps rq sv s)
  | None =>
      match gin_redirect rs (rq_Method rq) (rq_Path rq) with
      | Some st => (st, s)
      | None => gated (StatusNotFound, s)
      end
  end.
Definition serve_all (cfg : ApiConfig) (rqs : list (request * serving)) (s : ApiState) : ApiState :=
  foldl (λ s p, (serve_request cfg p.1 p.2 s).2) s rqs.
End Server.

(** ** Which route a path stands for *)

Fixpoint overlap (p q : list seg) : bool :=
  match p, q with
  | [], [] => true
  | Lit a :: p, Lit b :: q => bool_decide (a = b) && overlap p q
  | Par _ :: p, Par _ :: q => overlap p q
  | Lit a :: p, Par _ :: q | Par _ :: p, Lit a :: q => negb (bool_decide (a = ""%string)) && overlap p q
  | _, _ => false
  end.

Lemma overlap_both s : ∀ p q a b, match_segs p s = Some a → match_segs q s = Some b → overlap p q = true.
Proof.
  induction s as [|x s IH]; intros [|[] p] [|[] q] a b; simpl; try done; repeat case_bool_decide; simplify_eq/=; try done;
    intros Ha Hb; simplify_option_eq; try (by eapply IH); by rewrite bool_decide_eq_false_2, (IH p q) by done.
Qed.
Lemma match_path_overlap path p q a b : match_path p path = Some a → match_path q path = Some b → overlap p q = true.
Proof. unfold match_path. destruct (Split path "/") as [|x s]; [done|]. case_bool_decide; [apply overlap_both|done]. Qed.

Lemma all_routes fleet r : r ∈ RegisterRoutes fleet → r ∈ RegisterRoutes true.
Proof. unfold RegisterRoutes. destruct fleet; [done|]. rewrite app_nil_r. intros H. apply elem_of_app. by left. Qed.

(** No request matches two routes. *)
Lemma routes_unambiguous fleet r r' path a b : r ∈ RegisterRoutes fleet → r' ∈ RegisterRoutes fleet → rt_Method r = rt_Method r' →
  match_path (rt_Path r) path = Some a → match_path (rt_Path r') path = Some b → r = r'.
Proof.
  intros Hr%all_routes Hr'%all_routes Hm Ha Hb. pose proof (match_path_overlap _ _ _ _ _ Ha Hb) as Ho.
  assert (forallb (λ r, forallb (λ r', negb (bool_decide (rt_Method r = rt_Method r') && overlap (rt_Path r) (rt_Path r'))
    || bool_decide (r = r')) (RegisterRoutes true)) (RegisterRoutes true) = true) as H by (vm_compute; reflexivity).
  rewrite forallb_forall in H. specialize (H r ltac:(by apply list_elem_of_In)). rewrite forallb_forall in H.
  specialize (H r' ltac:(by apply list_elem_of_In)). rewrite Ho, bool_decide_eq_true_2 in H by done. by apply bool_decide_eq_true in H.
Qed.

(** What the exempt paths lead to. *)
Definition public : list (string * endpoint) := [
  ("/health", EpHealthCheck); ("/", EpRoot); ("/api/v1/auth/status", EpGetAuthStatus); ("/api/v1/auth/login", EpLogin);
  ("/api/v1/auth/setup", EpSetup); ("/api/v1/fleet/heartbeat", EpPostFleetHeartbeat)]%string.
Lemma exempt_public fleet r path ps : r ∈ RegisterRoutes fleet → path ∈ exemptPaths → match_path (rt_Path r) path = Some ps →
  (path, rt_Handler r) ∈ public.
Proof.
  intros Hr%all_routes Hp Hm.
  assert (forallb (λ path, forallb (λ r, match match_path (rt_Path r) path with
    Some _ => bool_decide ((path, rt_Handler r) ∈ public) | None => true end) (RegisterRoutes true)) exemptPaths = true) as H
    by (vm_compute; reflexivity).
  rewrite forallb_forall in H. specialize (H path ltac:(by apply list_elem_of_In)). rewrite forallb_forall in H.
  specialize (H r ltac:(by apply list_elem_of_In)). rewrite Hm in H. by apply bool_decide_eq_true in H.
Qed.

(** ** Who reaches what *)

Section Guarantees.
Context `{U : GoUnicode} `{TZ : TzDatabase} `{BL : BloomLib} `{RX : RegexpLib} `{TR : TransportEnv}.
Context `{D : BlocklistDb} `{F : Fetcher} `{B : Bcrypt} `{GL : GinRouterLaws} `{CL : CorsLib}.
Context {TP : SqlTable PolicyRow} {TRs : SqlTable ResolverRow} {TS : SqlTable SystemState} {TA : SqlTable AdminCredential}.
Context {TC : SqlTable CategoryRow} {TLc : SqlTable CollectionRow} {TL : SqlTable LoggedQuery} {TSt : SqlTable StatRow}.
Context {LA : SqlTableLaws TA}.
Context {W : Type} (close_mgr : UpstreamManager → W → W) (net : nat → rpc_outcome) (hash : string → string).
Abbreviation serve := (serve_request close_mgr net hash).
Abbreviation serve_all := (serve_all close_mgr net hash).
Abbreviation handle := (handle close_mgr net hash).
Abbreviation ApiState := (ApiState (W:=W)).
Implicit Types (s : ApiState) (rq : request) (sv : serving) (cfg : ApiConfig).

(** The request bears the key of a stored administrator. *)
Definition bears_key (rq : request) (s : ApiState) : Prop :=
  ∃ a, a ∈ rows (as_auth s) ∧ rq_Authorization rq = (bearer +:+ ad_APIKey a)%string.
Definition bears_token (cfg : ApiConfig) (rq : request) : Prop :=
  ac_fleetToken cfg ≠ ""%string ∧ rq_Authorization rq = (bearer +:+ ac_fleetToken cfg)%string.

Lemma Setup_refused salt uuid req t d r t' d' : rows t ≠ [] → Setup salt uuid req t d = (r, t', d') → t' = t ∧ d' = d.
Proof.
  intros Hn. unfold Setup. destruct (IsSetup t) as [[]|] eqn:Es; [by intros [= <- <- <-]| |by intros [= <- <- <-]].
  exfalso. apply IsSetup_iff in Es. by apply Es in Hn.
Qed.
Lemma set_auth_same s : set_auth (as_auth s) (as_db s) s = s.
Proof. by destruct s. Qed.
Lemma set_fleet_same s : set_fleet (as_fleet s) s = s.
Proof. by destruct s. Qed.

(** The handlers behind the exempt paths, once there is an administrator. *)
Lemma public_handlers cfg e path ps rq sv s st s' : rows (as_auth s) ≠ [] → (path, e) ∈ public →
  handle cfg e ps rq sv s = (st, s') → ∃ f, s' = set_fleet f s ∧ (f = as_fleet s ∨ bears_token cfg rq).
Proof.
  intros Hn Hp. assert (e ∈ public.*2) as He by (by apply (list_elem_of_fmap_2 snd _ (path, e))). clear Hp path.
  assert (∀ x : Z, (x, s) = (st, s') → ∃ f, s' = set_fleet f s ∧ (f = as_fleet s ∨ bears_token cfg rq)) as Hsame.
  { intros x [= _ <-]. exists (as_fleet s). split; [by rewrite set_fleet_same|by left]. }
  unfold public in He. cbn in He. rewrite !elem_of_cons in He.
  destruct He as [->|[->|[->|[->|[->|[->|He]]]]]]; [..|by apply not_elem_of_nil in He]; cbn [handle Router.handle reads]; try apply Hsame.
  - destruct (Setup _ _ _ _ _) as [[r t] d] eqn:E. apply Setup_refused in E as [-> ->]; [|done].
    rewrite set_auth_same. apply Hsame.
  - unfold RequireHeartbeatToken. case_bool_decide; [apply Hsame|].
    destruct (HasPrefix (rq_Authorization rq) bearer) eqn:Hh; [|apply Hsame]. case_bool_decide as Ht; [|apply Hsame]. simpl.
    destruct (PostFleetHeartbeat _ _ _) as [r f]. intros [= _ <-]. exists f. split; [done|]. right. split; [done|].
    rewrite <- Ht. by apply HasPrefix_TrimPrefix.
Qed.

Lemma gate_refuses path rq s : path ∉ exemptPaths → ¬ bears_key rq s →
  ∃ st, Auth path (rq_Authorization rq) (as_auth s) = AbortWithStatus st ∧ st ∈ [401; 403].
Proof.
  intros Hp Hk. unfold Auth. rewrite bool_decide_eq_false_2 by done.
  destruct (IsSetup (as_auth s)) as [[]|]; [|eexists; split; [done|set_solver]..].
  destruct (HasPrefix (rq_Authorization rq) bearer) eqn:Hh; [|eexists; split; [done|set_solver]].
  destruct (ValidateAPIKey _ _) as [[]|] eqn:Ev; [|eexists; split; [done|set_solver]..].
  exfalso. apply Hk. destruct (proj1 (ValidateAPIKey_iff _ _ _ Ev) eq_refl) as (a & Ha & Hka). exists a. split; [done|].
  rewrite Hka. by apply HasPrefix_TrimPrefix.
Qed.

Lemma outsider_step cfg rq sv s : rows (as_auth s) ≠ [] → ¬ bears_key rq s →
  ∃ f, (serve cfg rq sv s).2 = set_fleet f s ∧ (f = as_fleet s ∨ bears_token cfg rq).
Proof.
  intros Hn Hk.
  assert (∃ f, s = set_fleet f s ∧ (f = as_fleet s ∨ bears_token cfg rq)) as Hsame.
  { exists (as_fleet s). split; [by rewrite set_fleet_same|by left]. }
  unfold serve_request. destruct (decide (rq_Path rq ∈ exemptPaths)) as [Hp|Hp].
  - destruct (gin_find _ _ _) as [[r ps]|] eqn:Eg.
    + destruct (cors_abort _ _ _); [done|]. destruct (Auth _ _ _); [|done].
      apply gin_find_sound in Eg as (Hr & _ & Hm). pose proof (exempt_public _ _ _ _ Hr Hp Hm) as He.
      destruct (handle cfg (rt_Handler r) ps rq sv s) as [st s'] eqn:Eh. exact (public_handlers cfg _ _ ps rq sv s st s' Hn He Eh).
    + destruct (gin_redirect _ _ _); [done|]. destruct (cors_abort _ _ _); [done|]. by destruct (Auth _ _ _).
  - destruct (gate_refuses _ _ _ Hp Hk) as (st & Ha & _).
    destruct (gin_find _ _ _) as [[r ps]|]; [|destruct (gin_redirect _ _ _); [done|]];
      (destruct (cors_abort _ _ _); [done|by rewrite Ha]).
Qed.

(** C4. Nobody outside changes anything: once an administrator is set up, any sequence of
    requests of any method, path and body, none of which bears the key of a stored
    administrator, leaves every table, the policy engine, the data plane and the
    background work as they were; only the fleet store may change, and only if some
    request bears the fleet's own token. *)
Theorem outsiders_change_nothing cfg rqs s :
  rows (as_auth s) ≠ [] → (∀ p, p ∈ rqs → ¬ bears_key p.1 s) →
  ∃ f, serve_all cfg rqs s = set_fleet f s ∧ (f = as_fleet s ∨ ∃ p, p ∈ rqs ∧ bears_token cfg p.1).
Proof.
  revert s. induction rqs as [|[rq sv] rqs IH]; intros s Hn Hk.
  { exists (as_fleet s). split; [by rewrite set_fleet_same|by left]. }
  destruct (outsider_step cfg rq sv s Hn) as (f & E & Hf); [by apply (Hk (rq, sv)); left|].
  unfold Router.serve_all. cbn [foldl fst snd]. rewrite E.
  destruct (IH (set_fleet f s)) as (f' & E' & Hf'); [done|intros p Hp; apply Hk; by right|].
  exists f'. split; [exact E'|]. destruct Hf' as [->|(p & Hp & Ht)]; [|right; exists p; split; [by right|done]].
  destruct Hf as [->|Ht]; [by left|]. right. exists (rq, sv). split; [by left|done].
Qed.

(** C18. An administrator reaches the whole interface: a request for a registered route, with
    any values for its parameters, that bears a stored key is served by exactly that
    route's handler, unless the CORS policy stops it or the credentials cannot be read. *)
Theorem authorised_reaches_handler cfg rq sv s r ps :
  r ∈ RegisterRoutes (bool_decide (is_Some (as_fleet s))) → rt_Method r = rq_Method rq → match_path (rt_Path r) (rq_Path rq) = Some ps →
  bears_key rq s → readable (as_auth s) → cors_abort (ac_origins cfg) (rq_Method rq) (rq_Origin rq) = None →
  serve cfg rq sv s = handle cfg (rt_Handler r) ps rq sv s.
Proof.
  intros Hr Hm Hp (a & Ha & Hk) Hread Hc. unfold serve_request.
  destruct (gin_find_complete _ (rq_Method rq) (rq_Path rq) r Hr Hm ltac:(by eexists)) as [[r' ps'] Eg].
  rewrite Eg, Hc, Hk, (key_passes _ _ _ Hread Ha).
  apply gin_find_sound in Eg as (Hr' & Hm' & Hp').
  assert (r' = r) as -> by (eapply (routes_unambiguous _ r' r); [done..|congruence|done|done]).
  congruence.
Qed.
End Guarantees.
