(* ===== verification/ReportHtml.v ===== *)
(** * The report as a web page

    The HTML template of internal/report/render.go. [html/template] parses it once into
    static text and interpolations; every interpolation of this template is in the text of
    an element, where the library applies its escaper, written out here. Beside it a
    reader of HTML that knows nothing of the escaper: a page read with it is the report. *)
From S2P Require Import Prelude GoStrings GoText GoUtf8 GoStrconv GoTime Analytics Reports.

(** ** html/template *)

(** [htmlReplacementTable]: what the escaper writes for a byte. *)
Definition dquot : ascii := chr 34.
Definition entities : list (ascii * string) := [
  (dquot, "&#34;"); ("&"%char, "&amp;"); ("'"%char, "&#39;"); ("+"%char, "&#43;"); ("<"%char, "&lt;"); (">"%char, "&gt;")]%string.
Definition escape_byte (c : ascii) : string :=
  if Ascii.eqb c (chr 0) then encode_rune rune_error
  else default (String c EmptyString) (first_match (λ e, if Ascii.eqb e.1 c then Some e.2 else None) entities).
Fixpoint htmlEscape (s : string) : string :=
  match s with EmptyString => EmptyString | String c s' => (escape_byte c +:+ htmlEscape s')%string end.

(** A node of the parsed template. *)
Inductive node := Text (s : string) | Esc (s : string).
Definition node_out (n : node) : string := match n with Text s => s | Esc s => htmlEscape s end.
Definition Execute (ns : list node) : string := concat_strings (node_out <$> ns).

(** ** The template *)

Definition quoted (s : string) : string := String dquot (s +:+ String dquot EmptyString).
Definition page_head : string :=
  ("<!DOCTYPE html>" +:+ nl +:+ "<html lang=" +:+ quoted "en" +:+ ">" +:+ nl +:+ "<head>" +:+ nl +:+
   "<meta charset=" +:+ quoted "utf-8" +:+ ">" +:+ nl +:+ "<title>HydraDNS Security Report</title>" +:+ nl +:+ "</head>" +:+ nl +:+
   "<body style=" +:+ quoted "font-family: -apple-system, Arial, sans-serif; max-width: 640px; margin: 0 auto; color: #1a1a1a;" +:+ ">" +:+ nl +:+
   "<h1>HydraDNS Security Report</h1>" +:+ nl +:+ "<p><strong>")%string.
Definition page_foot : string :=
  (nl +:+ "<hr>" +:+ nl +:+ "<p style=" +:+ quoted "color: #888; font-size: 0.85em;" +:+ ">Generated ")%string.
Definition page_end : string := (".</p>" +:+ nl +:+ "</body>" +:+ nl +:+ "</html>" +:+ nl)%string.
Definition stamp (r : Report) : string :=
  (Format_month_day_year (rt_GeneratedAt r) +:+ " at " +:+ Format_clock (rt_GeneratedAt r) +:+ " UTC")%string.
Definition evtime (e : ReportEvent) : string := (Format_month_day (re_Timestamp e) +:+ " " +:+ Format_clock (re_Timestamp e))%string.

(** A section with its list, left out when there is nothing to list. *)
Definition section {A} (title list_tag : string) (item : A → list node) (l : list A) : list node :=
  match l with
  | [] => []
  | _ => [Text (nl +:+ "<h2>" +:+ title +:+ "</h2>" +:+ nl +:+ "<" +:+ list_tag +:+ ">")%string] ++
         (l ≫= λ a, Text (nl +:+ "<li>")%string :: item a ++ [Text "</li>"%string]) ++
         [Text (nl +:+ "</" +:+ list_tag +:+ ">")%string]
  end.
Definition domain_item (d : DomainCount) : list node := [Esc (dc_Domain d); Text " — "%string; Esc (humanizeInt (dc_Count d)); Text " times"%string].
Definition category_item (c : CategoryCount) : list node := [Esc (cc_Category c); Text " — "%string; Esc (humanizeInt (cc_Count c))].
Definition event_item (e : ReportEvent) : list node :=
  [Esc (evtime e); Text " — "%string; Esc (re_Domain e); Text ((if re_Blocked e then " blocked" else " flagged") +:+ nl +:+ "(threat score ")%string;
   Esc (FormatFloat_f 2 (re_ThreatScore e)); Text ")"%string] ++
  (if bool_decide (re_Reason e = ""%string) then [] else [Text ": "%string; Esc (re_Reason e)]).

Definition summary (r : Report) : list node := [
  Text " HydraDNS answered <strong>"%string; Esc (humanizeInt (rt_TotalQueries r)); Text ("</strong> DNS requests and blocked" +:+ nl +:+ "<strong>")%string;
  Esc (humanizeInt (rt_BlockedQueries r)); Text "</strong> of them ("%string; Esc (formatPercent (rt_BlockRatePercent r));
  Text ("% of all traffic).</p>" +:+ nl +:+ "<p>That includes <strong>")%string; Esc (humanizeInt (rt_AdsAndTrackers r));
  Text ("</strong> ads and trackers and" +:+ nl +:+ "<strong>")%string; Esc (humanizeInt (rt_ThreatsBlocked r));
  Text "</strong> malware and phishing attempts stopped before they reached your network.</p>"%string].
Definition page_body (r : Report) : list node :=
  [Text (nl +:+ "<p>")%string; Esc (capitalize (rt_PeriodLabel r))] ++
  if rt_TotalQueries r =? 0
  then [Text " HydraDNS saw no DNS activity for this period, so there is nothing to report yet.</p>"%string]
  else summary r ++ section "Top blocked domains" "ol" domain_item (rt_TopBlockedDomains r) ++
       section "Top blocked categories" "ol" category_item (rt_TopBlockedCategories r) ++
       section "Notable events" "ul" event_item (rt_NotableEvents r).
Definition page (r : Report) : list node :=
  [Text page_head; Esc (capitalize (rt_PeriodLabel r)); Text "</strong> ("%string; Esc (formatRange r); Text ")</p>"%string] ++
  page_body r ++ [Text page_foot; Esc (stamp r); Text page_end].

(** [RenderHTML]; none of the template's functions returns an error, so the fall-back to the
    text rendering is never taken. *)
Definition RenderHTML (r : Report) : string := Execute (page r).

(** ** Reading a page *)

(** What a browser makes of a page, written without the escaper's table: tags, the bytes
    shown between them, and a stray for a bracket or an ampersand that begins nothing. *)
Inductive token := Tag (t : string) | Shown (c : ascii) | Stray.

Definition named_references : list (string * ascii) :=
  [("lt;", "<"%char); ("gt;", ">"%char); ("amp;", "&"%char); ("quot;", chr 34); ("apos;", chr 39)]%string.
Fixpoint digit_run (s : string) : string * string :=
  match s with
  | EmptyString => (EmptyString, EmptyString)
  | String c s' => if is_digit_byte c then let '(d, r) := digit_run s' in (String c d, r) else (EmptyString, s)
  end.
Fixpoint decimal (acc : Z) (s : string) : Z :=
  match s with EmptyString => acc | String c s' => decimal (10 * acc + (ord c - 48)) s' end.
(** A character reference behind its ampersand. *)
Definition read_reference (s : string) : option (ascii * string) :=
  match s with
  | String c s' =>
      if ord c =? 35 then
        let '(d, r) := digit_run s' in
        match r with
        | String e r' => if (ord e =? 59) && (1 <=? decimal 0 d) && (decimal 0 d <=? 127) then Some (chr (decimal 0 d), r') else None
        | EmptyString => None
        end
      else first_match (λ e, if HasPrefix s e.1 then Some (e.2, drop_bytes (String.length e.1) s) else None) named_references
  | EmptyString => None
  end.
Fixpoint read_tokens (fuel : nat) (s : string) : list token :=
  match fuel, s with
  | S n, String c s' =>
      if ord c =? 60 then
        match IndexByte s' ">" with
        | Some i => Tag (take_bytes i s') :: read_tokens n (drop_bytes (S i) s')
        | None => [Stray]
        end
      else if ord c =? 38 then
        match read_reference s' with
        | Some (d, r) => Shown d :: read_tokens n r
        | None => Stray :: read_tokens n s'
        end
      else Shown c :: read_tokens n s'
  | _, _ => []
  end.
Definition read_page (s : string) : list token := read_tokens (String.length s) s.

(** *** Reading piece by piece *)

Lemma length_drop n s : (String.length (drop_bytes n s) ≤ String.length s)%nat.
Proof. revert s. induction n as [|n IH]; intros [|c s]; simpl; [lia..|]. specialize (IH s). lia. Qed.
Lemma digit_run_shorter s : (String.length (digit_run s).2 ≤ String.length s)%nat.
Proof. induction s as [|c s IH]; [done|]. cbn. destruct (is_digit_byte c); [|done]. destruct (digit_run s). simpl in *. lia. Qed.
Lemma read_reference_shorter s d r : read_reference s = Some (d, r) → (String.length r ≤ String.length s)%nat.
Proof.
  destruct s as [|c s]; [done|]. unfold read_reference. destruct (ord c =? 35).
  - pose proof (digit_run_shorter s) as H. destruct (digit_run s) as [ds [|e r']]; [done|].
    destruct (_ && _); [|done]. intros [= _ <-]. simpl in *. lia.
  - intros (l1 & e & l2 & _ & E & _)%first_match_Some. destruct (HasPrefix _ _); [|done]. injection E as _ <-. apply length_drop.
Qed.

Lemma read_tokens_fuel n : ∀ m s, (String.length s ≤ n)%nat → (String.length s ≤ m)%nat → read_tokens n s = read_tokens m s.
Proof.
  induction n as [|n IH]; intros [|m] [|c s] Hn Hm; simpl in Hn, Hm; try done; try lia. cbn [read_tokens].
  destruct (ord c =? 60).
  - destruct (IndexByte s ">") as [i|]; [|done]. f_equal. pose proof (length_drop (S i) s). apply IH; lia.
  - destruct (ord c =? 38); [|f_equal; apply IH; lia]. destruct (read_reference s) as [[d r]|] eqn:E; [|f_equal; apply IH; lia].
    apply read_reference_shorter in E. f_equal. apply IH; lia.
Qed.

(** A text that reads as these tokens, whatever comes behind it. *)
Definition reads (s : string) (ts : list token) : Prop := ∀ rest, read_page (s +:+ rest) = ts ++ read_page rest.

Lemma reads_app s t ts us : reads s ts → reads t us → reads (s +:+ t) (ts ++ us).
Proof. intros Hs Ht rest. by rewrite <- string_app_assoc, Hs, Ht, app_assoc. Qed.
Lemma reads_page s ts : reads s ts → read_page s = ts.
Proof. intros H. specialize (H ""%string). by rewrite string_app_nil_r, app_nil_r in H. Qed.

Lemma read_page_cons c s :
  read_page (String c s) =
  if ord c =? 60 then
    match IndexByte s ">" with Some i => Tag (take_bytes i s) :: read_page (drop_bytes (S i) s) | None => [Stray] end
  else if ord c =? 38 then
    match read_reference s with Some (d, r) => Shown d :: read_page r | None => Stray :: read_page s end
  else Shown c :: read_page s.
Proof.
  unfold read_page. cbn [String.length read_tokens]. destruct (ord c =? 60).
  - destruct (IndexByte s ">") as [i|]; [|done]. f_equal. pose proof (length_drop (S i) s). by apply read_tokens_fuel.
  - destruct (ord c =? 38); [|done]. destruct (read_reference s) as [[d r]|] eqn:E; [|done].
    apply read_reference_shorter in E. f_equal. by apply read_tokens_fuel.
Qed.

(** Text of the template: no ampersand, and every bracket is closed. *)
Fixpoint static (inside : bool) (s : string) : bool :=
  match s with
  | EmptyString => negb inside
  | String c s' => negb (ord c =? 38) && static (if inside then negb (Ascii.eqb c ">") else ord c =? 60) s'
  end.

Lemma static_closes s : static true s = true →
  ∃ i, IndexByte s ">" = Some i ∧ static false (drop_bytes (S i) s) = true ∧
    ∀ rest, IndexByte (s +:+ rest) ">" = Some i ∧ take_bytes i (s +:+ rest) = take_bytes i s ∧
      drop_bytes (S i) (s +:+ rest) = (drop_bytes (S i) s +:+ rest)%string.
Proof.
  induction s as [|c s IH]; [done|]. cbn [static IndexByte]. intros [_ H]%andb_true_iff. destruct (Ascii.eqb c ">") eqn:E.
  - exists O. split; [done|]. split; [exact H|]. intros rest. rewrite string_cons_app. cbn. by rewrite E.
  - destruct (IH H) as (i & -> & Hs & Hr). exists (S i). split; [done|]. split; [exact Hs|]. intros rest.
    destruct (Hr rest) as (H1 & H2 & H3). rewrite string_cons_app. cbn [IndexByte take_bytes]. rewrite E, H1. split; [done|].
    split; [by rewrite H2|exact H3].
Qed.

Lemma static_reads s : static false s = true → reads s (read_page s).
Proof.
  remember (String.length s) as n eqn:Hn. revert s Hn. induction (lt_wf n) as [n _ IH]. intros [|c s] -> H rest; [done|].
  rewrite string_cons_app, !read_page_cons. cbn [static] in H. apply andb_true_iff in H as [Hc H]. cbn [String.length] in IH.
  destruct (ord c =? 60).
  - destruct (static_closes s H) as (i & Hi & Hs & Hr). destruct (Hr rest) as (-> & -> & ->). rewrite Hi. cbn [app]. f_equal.
    apply (IH (String.length (drop_bytes (S i) s))); [pose proof (length_drop (S i) s); lia|done|done].
  - apply negb_true_iff in Hc as ->. cbn [app]. f_equal. by apply (IH (String.length s)); [lia| |].
Qed.

(** *** The text of an element *)

Definition text (s : string) : list token := Shown <$> String.list_ascii_of_string s.
(** A value as it is shown: a byte of zero as the replacement character. *)
Fixpoint without_nul (s : string) : string :=
  match s with
  | EmptyString => EmptyString
  | String c s' => String.append (if ord c =? 0 then encode_rune rune_error else String c EmptyString) (without_nul s')
  end.
Definition value (s : string) : list token := text (without_nul s).

Lemma text_app s t : text (s +:+ t) = text s ++ text t.
Proof. unfold text. rewrite <- fmap_app. f_equal. induction s as [|c s IH]; [done|]. rewrite string_cons_app. cbn. by rewrite IH. Qed.

(** What the escaper writes for a byte reads back as that byte. *)
Lemma escape_byte_reads c : reads (escape_byte c) (text (if ord c =? 0 then encode_rune rune_error else String c EmptyString)).
Proof.
  intros rest. destruct c as [[] [] [] [] [] [] [] []]; first [reflexivity|etrans; [apply read_page_cons|by destruct rest]].
Qed.
Lemma htmlEscape_reads s : reads (htmlEscape s) (value s).
Proof.
  induction s as [|c s IH]; [by intros rest|]. cbn [htmlEscape]. unfold value. cbn [without_nul]. rewrite text_app.
  apply reads_app; [apply escape_byte_reads|exact IH].
Qed.

(** ** The page as a whole *)

Definition node_ok (n : node) : bool := match n with Text s => static false s | Esc _ => true end.
Definition node_tokens (n : node) : list token := match n with Text s => read_page s | Esc s => value s end.
Lemma Execute_reads ns : forallb node_ok ns = true → read_page (Execute ns) = ns ≫= node_tokens.
Proof.
  intros H. apply reads_page. revert H. unfold Execute, concat_strings. induction ns as [|n ns IH]; [by intros _ rest|].
  cbn [forallb]. intros [Hn Hns]%andb_true_iff. csimpl. cbn [foldr]. apply reads_app; [|by apply IH].
  destruct n as [s|s]; [by apply static_reads|apply htmlEscape_reads].
Qed.

(** What a reader of the report is to see, in terms of the report. *)
Definition shown_list {A} (title list_tag : string) (item : A → list token) (l : list A) : list token :=
  match l with
  | [] => []
  | _ => text nl ++ [Tag "h2"] ++ text title ++ [Tag "/h2"] ++ text nl ++ [Tag list_tag] ++
         (l ≫= λ a, text nl ++ [Tag "li"] ++ item a ++ [Tag "/li"]) ++ text nl ++ [Tag ("/" +:+ list_tag)%string]
  end.
Definition shown_domain (d : DomainCount) : list token :=
  value (dc_Domain d) ++ text " — " ++ value (humanizeInt (dc_Count d)) ++ text " times".
Definition shown_category (c : CategoryCount) : list token :=
  value (cc_Category c) ++ text " — " ++ value (humanizeInt (cc_Count c)).
Definition shown_event (e : ReportEvent) : list token :=
  value (Format_month_day (re_Timestamp e) +:+ " " +:+ Format_clock (re_Timestamp e)) ++ text " — " ++ value (re_Domain e) ++
  text (if re_Blocked e then " blocked" else " flagged") ++ text nl ++
  text "(threat score " ++ value (FormatFloat_f 2 (re_ThreatScore e)) ++ text ")" ++
  if bool_decide (re_Reason e = ""%string) then [] else text ": " ++ value (re_Reason e).
Definition strong (s : string) : list token := [Tag "strong"] ++ value s ++ [Tag "/strong"].
Definition shown_summary (r : Report) : list token :=
  text " HydraDNS answered " ++ strong (humanizeInt (rt_TotalQueries r)) ++ text " DNS requests and blocked" ++ text nl ++
  strong (humanizeInt (rt_BlockedQueries r)) ++ text " of them (" ++ value (formatPercent (rt_BlockRatePercent r)) ++
  text "% of all traffic)." ++ [Tag "/p"] ++ text nl ++
  [Tag "p"] ++ text "That includes " ++ strong (humanizeInt (rt_AdsAndTrackers r)) ++ text " ads and trackers and" ++ text nl ++
  strong (humanizeInt (rt_ThreatsBlocked r)) ++
  text " malware and phishing attempts stopped before they reached your network." ++ [Tag "/p"].
Definition shown_head : list token :=
  [Tag "!DOCTYPE html"] ++ text nl ++ [Tag ("html lang=" +:+ quoted "en")] ++ text nl ++ [Tag "head"] ++ text nl ++
  [Tag ("meta charset=" +:+ quoted "utf-8")] ++ text nl ++ [Tag "title"] ++ text "HydraDNS Security Report" ++ [Tag "/title"] ++
  text nl ++ [Tag "/head"] ++ text nl ++
  [Tag ("body style=" +:+ quoted "font-family: -apple-system, Arial, sans-serif; max-width: 640px; margin: 0 auto; color: #1a1a1a;")] ++
  text nl ++ [Tag "h1"] ++ text "HydraDNS Security Report" ++ [Tag "/h1"] ++ text nl.
Definition shown_foot (r : Report) : list token :=
  text nl ++ [Tag "hr"] ++ text nl ++ [Tag ("p style=" +:+ quoted "color: #888; font-size: 0.85em;")] ++ text "Generated " ++
  value (Format_month_day_year (rt_GeneratedAt r) +:+ " at " +:+ Format_clock (rt_GeneratedAt r) +:+ " UTC") ++
  text "." ++ [Tag "/p"] ++ text nl ++ [Tag "/body"] ++ text nl ++ [Tag "/html"] ++ text nl.
Definition shown_page (r : Report) : list token :=
  shown_head ++ [Tag "p"] ++ strong (capitalize (rt_PeriodLabel r)) ++ text " (" ++ value (formatRange r) ++ text ")" ++ [Tag "/p"] ++
  text nl ++ [Tag "p"] ++ value (capitalize (rt_PeriodLabel r)) ++
  (if rt_TotalQueries r =? 0
   then text " HydraDNS saw no DNS activity for this period, so there is nothing to report yet." ++ [Tag "/p"]
   else shown_summary r ++ shown_list "Top blocked domains" "ol" shown_domain (rt_TopBlockedDomains r) ++
        shown_list "Top blocked categories" "ol" shown_category (rt_TopBlockedCategories r) ++
        shown_list "Notable events" "ul" shown_event (rt_NotableEvents r)) ++
  shown_foot r.

(** Nodes of the template and what is seen of them. *)
Definition show (ns : list node) (ts : list token) : Prop := forallb node_ok ns = true ∧ ns ≫= node_tokens = ts.
Lemma show_app ns ms ts us : show ns ts → show ms us → show (ns ++ ms) (ts ++ us).
Proof. intros [H1 <-] [H2 <-]. split; [by rewrite List.forallb_app, H1|by rewrite bind_app]. Qed.
Lemma show_text s ts : static false s = true → read_page s = ts → show [Text s] ts.
Proof. intros H1 H2. split; [by cbn; rewrite H1|]. csimpl. by rewrite app_nil_r. Qed.
Lemma show_value s ts ns us : value s = ts → show ns us → show (Esc s :: ns) (ts ++ us).
Proof. intros <- H. apply (show_app [Esc s] _ (value s)); [|done]. split; [done|]. csimpl. by rewrite app_nil_r. Qed.

Lemma section_shown {A} title lt (item : A → list node) shown l :
  (∀ a, show (item a) (shown a)) →
  show [Text (nl +:+ "<h2>" +:+ title +:+ "</h2>" +:+ nl +:+ "<" +:+ lt +:+ ">")%string]
    (text nl ++ [Tag "h2"] ++ text title ++ [Tag "/h2"] ++ text nl ++ [Tag lt]) →
  show [Text (nl +:+ "</" +:+ lt +:+ ">")%string] (text nl ++ [Tag ("/" +:+ lt)%string]) →
  show (section title lt item l) (shown_list title lt shown l).
Proof.
  intros Hi Ho Hc. destruct l as [|a l]; [done|]. unfold section, shown_list.
  assert (∀ x y z t (u v : list token), x ++ [y] ++ z ++ [t] ++ u ++ [Tag lt] ++ v = (x ++ [y] ++ z ++ [t] ++ u ++ [Tag lt]) ++ v) as ->.
  { intros. by rewrite <- !app_assoc. }
  apply show_app; [exact Ho|]. apply show_app; [|exact Hc]. clear Ho Hc.
  induction (a :: l) as [|b k IH]; [done|]. rewrite !bind_cons. apply show_app; [|exact IH].
  rewrite (app_assoc (text nl)). apply (show_app [Text (nl +:+ "<li>")%string]); [done|]. by apply show_app.
Qed.

(** Nodes and tokens given piece by piece. *)
Ltac shows := split; [reflexivity|]; cbn [mbind list_bind node_tokens]; rewrite <- ?app_assoc, ?app_nil_r; reflexivity.

Lemma domain_item_shown d : show (domain_item d) (shown_domain d).
Proof. shows. Qed.
Lemma category_item_shown c : show (category_item c) (shown_category c).
Proof. unfold category_item, shown_category. shows. Qed.
Lemma event_item_shown e : show (event_item e) (shown_event e).
Proof.
  unfold event_item, shown_event, evtime. case_bool_decide; destruct (re_Blocked e); cbn [app]; shows.
Qed.

Definition shown_title (r : Report) : list token :=
  shown_head ++ [Tag "p"] ++ strong (capitalize (rt_PeriodLabel r)) ++ text " (" ++ value (formatRange r) ++ text ")" ++ [Tag "/p"].
Lemma title_shown r :
  show [Text page_head; Esc (capitalize (rt_PeriodLabel r)); Text "</strong> ("%string; Esc (formatRange r); Text ")</p>"%string] (shown_title r).
Proof. unfold shown_title, strong. shows. Qed.
Lemma summary_shown r : show (summary r) (shown_summary r).
Proof. unfold summary, shown_summary, strong. shows. Qed.
Lemma foot_shown r : show [Text page_foot; Esc (stamp r); Text page_end] (shown_foot r).
Proof. unfold shown_foot, stamp. shows. Qed.

Lemma page_shown r : show (page r) (shown_page r).
Proof.
  unfold page. assert (∀ body, shown_head ++ [Tag "p"] ++ strong (capitalize (rt_PeriodLabel r)) ++ text " (" ++ value (formatRange r) ++ text ")" ++ [Tag "/p"] ++
    text nl ++ [Tag "p"] ++ value (capitalize (rt_PeriodLabel r)) ++ body ++ shown_foot r =
    shown_title r ++ ((text nl ++ [Tag "p"] ++ value (capitalize (rt_PeriodLabel r))) ++ body) ++ shown_foot r) as E.
  { intros body. unfold shown_title. by rewrite <- !app_assoc. }
  unfold shown_page. rewrite E. clear E. apply show_app; [apply title_shown|]. apply show_app; [|apply foot_shown].
  unfold page_body. apply show_app; [shows|]. destruct (_ =? 0); [shows|]. apply show_app; [apply summary_shown|].
  apply show_app; [|apply show_app]; (apply section_shown; [|shows..]).
  - apply domain_item_shown.
  - apply category_item_shown.
  - apply event_item_shown.
Qed.

(** C34. What a browser reads in a report's page is the report: its markup is that of the
    template with one list item per listed domain, category and event, and the text
    between the tags is the figures, names, scores and reasons of the report itself,
    whatever bytes those contain; only a byte of zero is shown as the replacement
    character. *)
Theorem report_page_markup r : read_page (RenderHTML r) = shown_page r.
Proof. destruct (page_shown r) as [Hok <-]. by apply Execute_reads. Qed.

Definition ex_report : Report := {|
  rt_Period := PeriodWeekly; rt_PeriodLabel := "this week"; rt_From := in_UTC 0; rt_To := in_UTC (7 * day_ns); rt_GeneratedAt := 7 * day_ns;
  rt_TotalQueries := 1200; rt_BlockedQueries := 300; rt_AllowedQueries := 900; rt_ThreatsBlocked := 100; rt_AdsAndTrackers := 200;
  rt_BlockRatePercent := f64_of_Z 25; rt_TopBlockedDomains := [{| dc_Domain := "<script>.evil&co.com"; dc_Count := 1000 |}];
  rt_TopBlockedCategories := []; rt_NotableEvents := [] |}.
Example report_page_ex :
  Contains (RenderHTML ex_report) "<li>&lt;script&gt;.evil&amp;co.com — 1,000 times</li>" = true ∧
  Contains (RenderHTML ex_report) "<p><strong>This week</strong> (Jan 1 – Jan 8, 1970)</p>" = true ∧
  read_page "<p>a &lt;b&#43;</p>&x" = [Tag "p"; Shown "a"; Shown " "; Shown "<"; Shown "b"; Shown "+"; Tag "/p"; Stray; Shown "x"]%char.
Proof. vm_compute. repeat split. Qed.
