(* ===== verification/PromExport.v ===== *)
(** * The Prometheus exposition

    [internal/metrics/promexport]: what the collector describes and what one scrape sends,
    read from the engine's metrics. The registry, the text format and the runtime's own
    collectors are the client library's. *)
From S2P Require Import Prelude GoStrings GoStrconv GoTime PolicyEngine Upstream QueryLog Metrics DnsEngine Storage ControlPlane.

(** A description: the three parts of its full name and its variable labels. *)
Record Desc := { ds_Namespace : string; ds_Subsystem : string; ds_Name : string; ds_Labels : list string }.
#[export] Instance Desc_eq_dec : EqDecision Desc.
Proof. solve_decision. Defined.
Inductive ValueType := GaugeValue | CounterValue.
Record Metric := { mt_Desc : Desc; mt_Type : ValueType; mt_Value : float64; mt_LabelValues : list string }.

Definition prom_namespace : string := "hydradns".
Definition dns_desc (name : string) (labels : list string) : Desc :=
  {| ds_Namespace := prom_namespace; ds_Subsystem := "dns"; ds_Name := name; ds_Labels := labels |}.

Record Collector := { co_queries : Desc; co_errors : Desc; co_latency : Desc; co_queryLogDropped : Desc }.
Definition NewCollector : Collector := {|
  co_queries := dns_desc "queries_window" []; co_errors := dns_desc "query_errors_window" [];
  co_latency := dns_desc "query_latency_seconds" ["quantile"]%string; co_queryLogDropped := dns_desc "querylog_dropped_total" [] |}.

(** The quantiles, each with what [strconv.FormatFloat] writes for it. *)
Definition latencyQuantiles : list (float64 * string) := [(f64_lit 50 2, "0.5"); (f64_lit 95 2, "0.95"); (f64_lit 99 2, "0.99")]%string.

Definition Describe (c : Collector) : list Desc := [co_queries c; co_errors c; co_latency c; co_queryLogDropped c].
Definition const_metric (d : Desc) (t : ValueType) (v : float64) (labels : list string) : Metric :=
  {| mt_Desc := d; mt_Type := t; mt_Value := v; mt_LabelValues := labels |}.
Definition prom_Collect (c : Collector) (agg : AggregatedMetrics) : list Metric :=
  [const_metric (co_queries c) GaugeValue (f64_of_Z (ag_Total agg)) [];
   const_metric (co_errors c) GaugeValue (f64_of_Z (ag_Errors agg)) [];
   const_metric (co_queryLogDropped c) CounterValue (f64_of_Z (ag_QueryLogDropped agg)) []] ++
  ((λ q, const_metric (co_latency c) GaugeValue (Seconds (EstimatePercentile (ag_Buckets agg) q.1)) [q.2]) <$> latencyQuantiles).

(** ** The two views of the metrics agree *)

Lemma bucket_bound_ms b : ∃ ms, BucketUpperBound b = ms * millisecond ∧ 0 ≤ ms.
Proof.
  assert (Forall (λ d, ∃ ms, d = ms * millisecond ∧ 0 ≤ ms) bucketUpperBounds) as H.
  { assert (forallb (λ d, (d mod millisecond =? 0) && (0 <=? d)) bucketUpperBounds = true) as Hb by (vm_compute; reflexivity).
    rewrite Forall_forall. intros d Hd%list_elem_of_In. rewrite forallb_forall in Hb. specialize (Hb d Hd). boolp.
    exists (d / millisecond). assert (0 < millisecond) as Hm by done. pose proof (Z.div_mod d millisecond ltac:(lia)).
    pose proof (Z.div_pos d millisecond ltac:(lia) Hm). lia. }
  assert (∀ n, ∃ ms, nth n bucketUpperBounds 0 = ms * millisecond ∧ 0 ≤ ms) as Hn.
  { intros n. destruct (nth_in_or_default n bucketUpperBounds 0) as [Hin| ->]; [|by exists 0].
    rewrite Forall_forall in H. apply H. by apply list_elem_of_In. }
  unfold BucketUpperBound. destruct (_ || _); apply Hn.
Qed.
Lemma percentile_loop_ms buckets : ∀ i cum t, ∃ ms, percentile_loop i cum t buckets = ms * millisecond ∧ 0 ≤ ms.
Proof.
  induction buckets as [|c buckets IH]; intros i cum t; cbn [percentile_loop]; [apply bucket_bound_ms|].
  destruct (_ <=? _); [apply bucket_bound_ms|apply IH].
Qed.
Lemma percentile_ms buckets p : ∃ ms, EstimatePercentile buckets p = ms * millisecond ∧ 0 ≤ ms.
Proof.
  unfold EstimatePercentile. destruct (_ =? 0); [by exists 0|]. apply percentile_loop_ms.
Qed.
Lemma percentile_seconds buckets p :
  durationMsToUint64 (EstimatePercentile buckets p) * millisecond = EstimatePercentile buckets p.
Proof.
  destruct (percentile_ms buckets p) as (ms & -> & Hms). unfold durationMsToUint64. rewrite Z.quot_mul by done.
  by rewrite (proj2 (Z.ltb_ge ms 0)).
Qed.

(** A scrape shows exactly what the data plane's own API reports at the same instant:
    the same totals, and each latency percentile as the API's milliseconds in seconds;
    every metric it sends is described, and no two have the same description and labels. *)
Theorem scrape_agrees `{BL : BloomLib} `{RX : RegexpLib} {W} now (dp : DataPlane (W := W)) :
  let agg := Aggregate now (e_metrics (dp_engine dp)) in let live := GetLiveQueryMetrics now dp in
  let ms := prom_Collect NewCollector agg in
  (mt_Value <$> ms) = [f64_of_Z (lm_Total live); f64_of_Z (lm_Errors live); f64_of_Z (ag_QueryLogDropped agg);
    Seconds (lm_P50Ms live * millisecond); Seconds (lm_P95Ms live * millisecond); Seconds (lm_P99Ms live * millisecond)] ∧
  Forall (λ m, mt_Desc m ∈ Describe NewCollector ∧ length (mt_LabelValues m) = length (ds_Labels (mt_Desc m))) ms ∧
  NoDup ((λ m, (mt_Desc m, mt_LabelValues m)) <$> ms).
Proof.
  intros agg live ms. split; [|split].
  - unfold live, GetLiveQueryMetrics. cbn [lm_Total lm_Errors lm_P50Ms lm_P95Ms lm_P99Ms]. by rewrite !percentile_seconds.
  - unfold ms, prom_Collect, latencyQuantiles. repeat constructor; unfold Describe; set_solver.
  - apply (bool_decide_unpack _). vm_compute. exact I.
Qed.
