(* ===== verification/Fetch.v ===== *)
(** * Fetching lists

    [internal/blocklist/fetcher/http_client.go]: the retried conditional GET behind the
    [Fetcher] interface of Blocklist.v. The HTTP client and the back-off schedule are what
    each attempt comes back with, in order. *)
From S2P Require Import Prelude GoStrings GoText GoUrl Blocklist Storage ControlPlane BlocklistApi.

(** What one attempt comes back with: no response, or a response with its status, ETag
    and body unless reading it fails. *)
Inductive attempt := NoResponse (err : string) | Response (status : Z) (etag : string) (body : result string string).

(** [op] of a request that could be built: what it requests, and what it comes to. *)
Definition fetch_op (url knownETag : string) (a : attempt) : list string * result string fetched :=
  ([url], match a with
  | NoResponse e => Err e
  | Response status etag body =>
      if status =? 304 then Ok (NotModified knownETag)
      else if negb (status =? 200) then Err ("http status " +:+ Itoa status)%string
      else match body with Err e => Err e | Ok b => Ok (Body b etag) end
  end).

(** [backoff.Retry]: the first attempt that succeeds, or the error of the last one the
    schedule allows; there is always a first. *)
Fixpoint Retry {A} (op : A → list string * result string fetched) (first : A) (more : list A) : list string * result string fetched :=
  let '(asked, r) := op first in
  match r, more with
  | Ok x, _ => (asked, Ok x)
  | Err e, [] => (asked, Err e)
  | Err _, a :: more => let '(later, r) := Retry op a more in (asked ++ later, r)
  end.

(** [Fetch], with what it requested; [None] is a panic: the error of [NewRequestWithContext] is dropped, and the
    nil request it comes with is dereferenced by the next line or by the client. *)
Definition http_Fetch (net : string → string → attempt * list attempt) (url knownETag : string) : option (list string * result string fetched) :=
  if negb (NewRequest_ok url) then None
  else let '(first, more) := net url knownETag in Some (Retry (fetch_op url knownETag) first more).

(** The fetcher the other files are proved against, for URLs that parse. *)
#[local] Instance HTTPFetcher (net : string → string → attempt * list attempt) : Fetcher :=
  {| Fetch := λ url etag, default (Err "panic"%string) (snd <$> http_Fetch net url etag) |}.

Lemma Retry_spec {A} (op : A → list string * result string fetched) a l :
  match (Retry op a l).2 with
  | Ok x => ∃ l1 b l2, a :: l = l1 ++ b :: l2 ∧ (op b).2 = Ok x ∧ Forall (λ c, is_ok (op c).2 = false) l1
  | Err e => Forall (λ c, is_ok (op c).2 = false) (a :: l) ∧ ∃ b, last (a :: l) = Some b ∧ (op b).2 = Err e
  end.
Proof.
  revert a. induction l as [|b l IH]; intros a; cbn [Retry]; destruct (op a) as [q r] eqn:E0;
    assert ((op a).2 = r) as E by (by rewrite E0); clear E0.
  - destruct r as [x|e]; [by exists [], a, []|]. split; [by repeat constructor; rewrite E|]. by exists a.
  - destruct r as [x|e]; [by exists [], a, (b :: l)|]. specialize (IH b). destruct (Retry op b l) as [q' [x|e']].
    + destruct IH as (l1 & c & l2 & -> & Hc & Hl). exists (a :: l1), c, l2. split; [done|]. split; [done|].
      constructor; [by rewrite E|done].
    + destruct IH as [Hl (c & Hc & He)]. split; [constructor; [by rewrite E|done]|]. by exists c.
Qed.

Lemma Retry_asks {A} (op : A → list string * result string fetched) (P : string → Prop) a l :
  (∀ b, Forall P (op b).1) → Forall P (Retry op a l).1.
Proof.
  intros H. revert a. induction l as [|b l IH]; intros a; cbn [Retry]; specialize (H a); destruct (op a) as [q [x|e]]; [done..|].
  specialize (IH b). destruct (Retry op b l). by apply Forall_app.
Qed.

(** Every request of a fetch is for its URL. *)
Lemma http_Fetch_asks net url knownETag r : http_Fetch net url knownETag = Some r → Forall (λ u, u = url) r.1.
Proof.
  unfold http_Fetch. destruct (NewRequest_ok url); [|done]. cbn [negb]. destruct (net url knownETag). intros [= <-].
  apply Retry_asks. intros b. by repeat constructor.
Qed.

(** What a fetch of a URL that parses yields: an unchanged list only if the server said so, a body
    only from a response 200 that was read to its end, with that response's ETag, and an
    error only if no attempt succeeded. *)
Theorem http_Fetch_spec net url knownETag r : http_Fetch net url knownETag = Some r →
  let tries := (net url knownETag).1 :: (net url knownETag).2 in
  match r.2 with
  | Ok (NotModified e) => e = knownETag ∧ ∃ etag body, Response 304 etag body ∈ tries
  | Ok (Body b e) => Response 200 e (Ok b) ∈ tries
  | Err _ => ∀ s e b, Response s e (Ok b) ∈ tries → s ≠ 200 ∧ s ≠ 304
  end.
Proof.
  unfold http_Fetch. destruct (NewRequest_ok url); [|done]. simpl. destruct (net url knownETag) as [first more]. intros [= <-]. simpl.
  pose proof (Retry_spec (fetch_op url knownETag) first more) as H. destruct (Retry _ _ _) as [q [[e|b e]|err]]; cbn [snd] in *.
  - destruct H as (l1 & a & l2 & -> & Ha & _). destruct a as [|s etag body]; [done|]. simpl in Ha.
    destruct (Z.eqb_spec s 304) as [->|]; simplify_eq; [|by destruct (negb _), body].
    split; [done|]. exists etag, body. set_solver.
  - destruct H as (l1 & a & l2 & -> & Ha & _). destruct a as [|s etag body]; [done|]. simpl in Ha.
    destruct (s =? 304); [done|]. destruct (Z.eqb_spec s 200) as [->|]; [|done]. destruct body; simplify_eq/=. set_solver.
  - destruct H as [H _]. intros s e b Hin. rewrite Forall_forall in H. specialize (H _ Hin). simpl in H.
    destruct (Z.eqb_spec s 304); [done|]. by destruct (Z.eqb_spec s 200).
Qed.

(** A URL every endpoint accepts, and the first fetch of it panics, in a goroutine that
    recovers nothing. *)
Lemma accepted_url_panics net etag : isHTTPURL "http://[" = true ∧ http_Fetch net "http://[" etag = None.
Proof. split; reflexivity. Qed.
