(* ===== verification/Tls.v ===== *)
(** * Serving the API over TLS

    [internal/tlsutil] and the choice of the listener in [cmd/controlplane/main.go]. The
    directory is a map from paths to contents; what the certificate library makes of a
    template is a parameter. *)
From S2P Require Import Prelude GoStrings GoText GoNet Config.

(** ** Certificates *)

Definition DefaultValidity : Z := 10 * 365 * 24 * hour.
Definition certFileName : string := "self-signed.crt".
Definition keyFileName : string := "self-signed.key".

(** The template's fields that depend on the arguments. *)
Record certTemplate := { ct_NotBefore : Z; ct_NotAfter : Z; ct_IPAddresses : list IP; ct_DNSNames : list string }.

(** ECDSA, crypto/rand and crypto/x509: the certificate and the key for a template and the
    random bytes drawn, both PEM-encoded, or an error. *)
Class CertLib := { make_pair : certTemplate → string → result string (string * string) }.

Definition loopback : list string := ["localhost"; "127.0.0.1"; "::1"]%string.
Definition add_host (t : certTemplate) (h : string) : certTemplate :=
  match ParseIP h with
  | [] => {| ct_NotBefore := ct_NotBefore t; ct_NotAfter := ct_NotAfter t; ct_IPAddresses := ct_IPAddresses t; ct_DNSNames := ct_DNSNames t ++ [h] |}
  | ip => {| ct_NotBefore := ct_NotBefore t; ct_NotAfter := ct_NotAfter t; ct_IPAddresses := ct_IPAddresses t ++ [ip]; ct_DNSNames := ct_DNSNames t |}
  end.
Definition cert_template (now : Z) (hosts : list string) (validFor : Z) : certTemplate :=
  let validFor := if validFor <=? 0 then DefaultValidity else validFor in
  foldl add_host {| ct_NotBefore := now - hour; ct_NotAfter := now + validFor; ct_IPAddresses := []; ct_DNSNames := [] |}
    (match hosts with [] => loopback | _ => hosts end).

(** [HostsForListenAddr]. *)
Definition HostsForListenAddr (listenAddr : string) : list string :=
  let host := match SplitHostPort listenAddr with Some (host, _) => host | None => listenAddr end in
  if bool_decide (host ∈ [""; "0.0.0.0"; "::"; "[::]"]%string) then loopback else loopback ++ [host].

(** ** The persisted pair *)

(** What becomes of [os.WriteFile]: the file is written, cannot be opened and stays as it
    was, or is left with the part that was written. *)
Inductive write_outcome := Written | NotOpened | Cut (n : nat).
Abbreviation files := (gmap string string).
Definition WriteFile (o : write_outcome) (path content : string) (fs : files) : bool * files :=
  match o with
  | Written => (true, <[path := content]> fs)
  | NotOpened => (false, fs)
  | Cut n => (false, <[path := take_bytes n content]> fs)
  end.
Definition fileExists (path : string) (fs : files) : bool := bool_decide (is_Some (fs !! path)).

(** The outcomes of creating the directory and of the two writes. *)
Record io_outcomes := { io_mkdir : bool; io_cert : write_outcome; io_key : write_outcome }.
Definition all_well : io_outcomes := {| io_mkdir := true; io_cert := Written; io_key := Written |}.

Definition path_in (dir name : string) : string := Clean (dir +:+ "/" +:+ name)%string.

Section Tls.
Context `{CL : CertLib}.

Definition GenerateSelfSigned (now : Z) (rand : string) (hosts : list string) (validFor : Z) : result string (string * string) :=
  make_pair (cert_template now hosts validFor) rand.

Definition EnsureSelfSigned (now : Z) (rand : string) (io : io_outcomes) (dir : string) (hosts : list string) (fs : files)
  : result string (string * string) * files :=
  if bool_decide (dir = ""%string) then (Err "self-signed cert directory is empty"%string, fs)
  else
    let certFile := path_in dir certFileName in let keyFile := path_in dir keyFileName in
    if fileExists certFile fs && fileExists keyFile fs then (Ok (certFile, keyFile), fs)
    else if negb (io_mkdir io) then (Err "create cert directory"%string, fs)
    else
      match GenerateSelfSigned now rand hosts DefaultValidity with
      | Err e => (Err e, fs)
      | Ok (certPEM, keyPEM) =>
          match WriteFile (io_cert io) certFile certPEM fs with
          | (false, fs) => (Err "write certificate"%string, fs)
          | (true, fs) =>
              match WriteFile (io_key io) keyFile keyPEM fs with
              | (false, fs) => (Err "write private key"%string, fs)
              | (true, fs) => (Ok (certFile, keyFile), fs)
              end
          end
      end.

(** [serve] of main.go: what the API listens with, or nothing when the process ends. *)
Inductive listener := HTTP (addr : string) | HTTPS (addr certFile keyFile : string).
Definition serve_listener (now : Z) (rand : string) (io : io_outcomes) (addr : string) (tls : TLSConfig) (fs : files)
  : option listener * files :=
  match TLS_Mode tls with
  | TLSModeProvided => (Some (HTTPS addr (tls_CertFile tls) (tls_KeyFile tls)), fs)
  | TLSModeSelfSigned =>
      match EnsureSelfSigned now rand io (tls_SelfSignedDir tls) (HostsForListenAddr addr) fs with
      | (Err _, fs) => (None, fs)
      | (Ok (certFile, keyFile), fs) => (Some (HTTPS addr certFile keyFile), fs)
      end
  | TLSModeDisabled => (Some (HTTP addr), fs)
  end.

(** ** What a certificate covers *)

Lemma add_hosts hosts : ∀ t,
  let t' := foldl add_host t hosts in
  ct_NotBefore t' = ct_NotBefore t ∧ ct_NotAfter t' = ct_NotAfter t ∧
  (∀ n, n ∈ ct_DNSNames t' ↔ n ∈ ct_DNSNames t ∨ n ∈ hosts ∧ ParseIP n = []) ∧
  (∀ ip, ip ∈ ct_IPAddresses t' ↔ ip ∈ ct_IPAddresses t ∨ ip ≠ [] ∧ ∃ h, h ∈ hosts ∧ ParseIP h = ip).
Proof.
  induction hosts as [|h hosts IH]; intros t; cbn [foldl].
  - split; [done|]. split; [done|]. split; intros x; [set_solver|]. split; [by left|]. intros [?|(_ & h & Hh & _)]; [done|by apply not_elem_of_nil in Hh].
  - destruct (IH (add_host t h)) as (H1 & H2 & H3 & H4). unfold add_host in *. destruct (ParseIP h) as [|b ip] eqn:E; cbn in *.
    + split; [done|]. split; [done|]. split; intros x.
      * rewrite H3, elem_of_app, list_elem_of_singleton, elem_of_cons. intuition (subst; auto).
      * rewrite H4. setoid_rewrite elem_of_cons. split; [intros [?|(? & h' & ? & ?)]; eauto 8|].
        intros [?|(? & h' & [->|?] & ?)]; [by left|congruence|eauto 8].
    + split; [done|]. split; [done|]. split; intros x.
      * rewrite H3, elem_of_cons. split; [naive_solver|]. intros [?|[[->|?] ?]]; [by left|congruence|by right].
      * rewrite H4, elem_of_app, list_elem_of_singleton. setoid_rewrite elem_of_cons. split.
        -- intros [[?| ->]|(? & h' & ? & ?)]; [by left|right; split; [done|by exists h; split; [left|]]|eauto 8].
        -- intros [?|(? & h' & [->|?] & ?)]; [by left; left|left; right; congruence|eauto 8].
Qed.

(** The certificate made for a listen address covers the loopback names and, unless the
    address binds all interfaces, its host: as an address if it is one, as a name if not. *)
Theorem certificate_covers now addr h :
  let t := cert_template now (HostsForListenAddr addr) DefaultValidity in
  h ∈ loopback ∨ h = match SplitHostPort addr with Some (host, _) => host | None => addr end ∧ h ∉ [""; "0.0.0.0"; "::"; "[::]"]%string →
  match ParseIP h with [] => h ∈ ct_DNSNames t | ip => ip ∈ ct_IPAddresses t end ∧ ct_NotBefore t < now < ct_NotAfter t.
Proof.
  intros t Hh. assert (h ∈ HostsForListenAddr addr) as Hin.
  { unfold HostsForListenAddr. destruct Hh as [Hh|[-> Hh]]; [case_bool_decide; [done|set_solver]|].
    rewrite bool_decide_eq_false_2 by done. set_solver. }
  unfold t, cert_template. replace (match HostsForListenAddr addr with [] => loopback | _ => HostsForListenAddr addr end)
    with (HostsForListenAddr addr) by (by destruct (HostsForListenAddr addr); [apply not_elem_of_nil in Hin|]).
  edestruct (add_hosts (HostsForListenAddr addr)) as (-> & -> & H3 & H4). cbn [ct_NotBefore ct_NotAfter].
  split; [|assert (0 < hour) by done; assert (0 < DefaultValidity) by done; rewrite (proj2 (Z.leb_gt DefaultValidity 0)) by done; lia].
  destruct (ParseIP h) as [|b ip] eqn:E.
  - apply H3. by right.
  - apply H4. right. split; [done|]. by exists h.
Qed.

(** ** The persisted pair *)

Lemma Join_snoc l sep : ∃ p, ∀ x, Join (l ++ [x]) sep = (p +:+ x)%string.
Proof.
  induction l as [|y l [p IH]]; [by exists ""%string|]. destruct l as [|z l].
  - exists (y +:+ sep)%string. intros x. simpl. by rewrite string_app_assoc.
  - exists (y +:+ sep +:+ p)%string. intros x. simpl ((y :: z :: l) ++ [x]). rewrite Join_cons.
    change (z :: l ++ [x]) with ((z :: l) ++ [x]). by rewrite IH, !string_app_assoc.
Qed.
Lemma path_in_prefix dir : ∃ p, path_in dir certFileName = (p +:+ certFileName)%string ∧ path_in dir keyFileName = (p +:+ keyFileName)%string.
Proof.
  set (rooted := HasPrefix (dir +:+ "/") "/").
  destruct (Join_snoc (foldl (clean_step rooted) [] (Split dir "/")) "/") as [p Hp].
  assert (∀ name, name ∈ [certFileName; keyFileName] →
    path_in dir name = ((if rooted then "/" +:+ p else p) +:+ name)%string) as H; [|eexists; split; apply H; set_solver].
  intros name Hn. unfold path_in, Clean. change ("/" +:+ name)%string with (String "/" name).
  rewrite bool_decide_eq_false_2 by (by destruct dir).
  assert (HasPrefix (dir +:+ String "/" name) "/" = rooted) as ->.
  { subst rooted. unfold HasPrefix. destruct dir as [|c dir]; [by destruct name|]. rewrite !string_cons_app. cbn [String.prefix].
    destruct (ascii_dec "/" c); [|done]. assert (∀ s, String.prefix "" s = true) as Hs by (by intros []). by rewrite !Hs. }
  rewrite Split_app, foldl_app. assert (Split name "/" = [name]) as ->.
  { rewrite !elem_of_cons in Hn. destruct Hn as [->|[->|Hn]]; [done..|by apply not_elem_of_nil in Hn]. }
  set (out := foldl _ _ _) in *. assert (clean_step rooted out name = out ++ [name]) as E.
  { rewrite !elem_of_cons in Hn. destruct Hn as [->|[->|Hn]]; [done..|by apply not_elem_of_nil in Hn]. }
  cbn [foldl]. rewrite E, Hp. destruct rooted; [by rewrite string_app_assoc|].
  rewrite bool_decide_eq_false_2; [done|]. rewrite !elem_of_cons in Hn.
  intros Hx. assert (String.length (p +:+ name) = 0%nat) as Hl by (by rewrite Hx). rewrite length_app_string in Hl.
  destruct Hn as [->|[->|Hn]]; [simpl in Hl; lia..|by apply not_elem_of_nil in Hn].
Qed.
Lemma path_in_ne dir : path_in dir certFileName ≠ path_in dir keyFileName.
Proof. destruct (path_in_prefix dir) as (p & -> & ->). by intros H%(inj _). Qed.

(** The two files of a directory, and whether they were generated together. *)
Definition both (dir : string) (fs : files) : Prop :=
  is_Some (fs !! path_in dir certFileName) ∧ is_Some (fs !! path_in dir keyFileName).
Definition matched (dir : string) (fs : files) : Prop :=
  ∃ now rand hosts cert key, GenerateSelfSigned now rand hosts DefaultValidity = Ok (cert, key) ∧
    fs !! path_in dir certFileName = Some cert ∧ fs !! path_in dir keyFileName = Some key.

Lemma both_exist dir fs : fileExists (path_in dir certFileName) fs && fileExists (path_in dir keyFileName) fs = true ↔ both dir fs.
Proof. unfold fileExists, both. rewrite andb_true_iff. by rewrite !bool_decide_eq_true. Qed.

(** A boot that finds both files serves them and writes nothing. *)
Lemma Ensure_found now rand io dir hosts fs : dir ≠ ""%string → both dir fs →
  EnsureSelfSigned now rand io dir hosts fs = (Ok (path_in dir certFileName, path_in dir keyFileName), fs).
Proof. intros Hd Hb%both_exist. unfold EnsureSelfSigned. by rewrite bool_decide_eq_false_2, Hb by done. Qed.

(** One that does not makes a pair, and serves it only if both writes went well. *)
Lemma Ensure_made now rand io dir hosts fs p fs' : ¬ both dir fs → EnsureSelfSigned now rand io dir hosts fs = (Ok p, fs') →
  p = (path_in dir certFileName, path_in dir keyFileName) ∧ matched dir fs'.
Proof.
  intros Hb. rewrite <- both_exist, not_true_iff_false in Hb. unfold EnsureSelfSigned. case_bool_decide; [done|]. rewrite Hb.
  destruct (io_mkdir io); [|done]. cbn [negb]. destruct (GenerateSelfSigned _ _ _ _) as [[cert key]|] eqn:Eg; [|done].
  destruct (io_cert io); cbn [WriteFile]; [|done..]. destruct (io_key io); cbn [WriteFile]; [|done..]. intros [= <- <-].
  split; [done|]. exists now, rand, hosts, cert, key. split; [done|].
  split; [by rewrite lookup_insert_ne, lookup_insert_eq by (apply not_eq_sym, path_in_ne)|by rewrite lookup_insert_eq].
Qed.

(** A boot. *)
Record boot := { bt_now : Z; bt_rand : string; bt_io : io_outcomes; bt_hosts : list string }.
Definition boot_step (dir : string) (fs : files) (b : boot) : files :=
  (EnsureSelfSigned (bt_now b) (bt_rand b) (bt_io b) dir (bt_hosts b) fs).2.
(** No write stops half-way: the key is written if the certificate was. *)
Definition no_half_write (b : boot) : Prop :=
  match io_cert (bt_io b) with Written => io_key (bt_io b) = Written | NotOpened => True | Cut _ => False end.

Lemma boot_both dir b fs : dir ≠ ""%string → both dir fs → boot_step dir fs b = fs.
Proof. intros Hd Hb. unfold boot_step. by rewrite Ensure_found. Qed.
Lemma boots_both dir bs fs : dir ≠ ""%string → both dir fs → foldl (boot_step dir) fs bs = fs.
Proof. intros Hd Hb. induction bs as [|b bs IH]; [done|]. cbn [foldl]. by rewrite boot_both. Qed.

Lemma boot_matched dir b fs : dir ≠ ""%string → no_half_write b → (both dir fs → matched dir fs) → 
  both dir (boot_step dir fs b) → matched dir (boot_step dir fs b).
Proof.
  intros Hd Hw Hm. destruct (decide (both dir fs)) as [Hb|Hb]; [by rewrite boot_both; auto|].
  unfold boot_step. destruct (EnsureSelfSigned _ _ _ _ _ _) as [[p|e] fs'] eqn:E; [by apply Ensure_made in E as [_ E]|].
  cbn [snd]. revert E. pose proof Hb as Hb'. rewrite <- both_exist, not_true_iff_false in Hb'. unfold EnsureSelfSigned.
  rewrite bool_decide_eq_false_2 by done. rewrite Hb'.
  destruct (io_mkdir (bt_io b)); [|by intros [= _ <-]]. cbn [negb].
  destruct (GenerateSelfSigned _ _ _ _) as [[cert key]|]; [|by intros [= _ <-]].
  unfold no_half_write in Hw. destruct (io_cert (bt_io b)) eqn:Ec; cbn [WriteFile]; [by rewrite Hw|by intros [= _ <-]|done].
Qed.

(** C33. Whatever happens at earlier boots, short of a write that stops half-way, the TLS
    files of a directory are a certificate and its key: if both are there they were
    generated together; and once they are there every later boot serves that same
    pair, whatever address it listens on. *)
Theorem tls_pair_stable dir bs fs : dir ≠ ""%string → (both dir fs → matched dir fs) → Forall no_half_write bs →
  let fs' := foldl (boot_step dir) fs bs in
  (both dir fs' → matched dir fs') ∧
  (both dir fs' → ∀ later b, foldl (boot_step dir) fs' later = fs' ∧
     EnsureSelfSigned (bt_now b) (bt_rand b) (bt_io b) dir (bt_hosts b) fs' = (Ok (path_in dir certFileName, path_in dir keyFileName), fs')) ∧
  (∀ b p fs'', EnsureSelfSigned (bt_now b) (bt_rand b) (bt_io b) dir (bt_hosts b) fs' = (Ok p, fs'') → matched dir fs'').
Proof.
  intros Hd Hm Hw fs'. assert (both dir fs' → matched dir fs') as Hm'.
  { subst fs'. revert fs Hm. induction Hw as [|b bs Hb Hw IH]; intros fs Hm; [done|]. cbn [foldl]. apply IH. by apply boot_matched. }
  split; [done|]. split; [intros Hb later b; split; [by apply boots_both|by apply Ensure_found]|].
  intros b p fs'' E. destruct (decide (both dir fs')) as [Hb|Hb]; [|by apply Ensure_made in E as [_ E]].
  rewrite Ensure_found in E by done. injection E as _ <-. auto.
Qed.
End Tls.

(** ** Concrete runs *)

Module TlsRuns.
(** A library whose certificates and keys name the template and the random bytes. *)
#[local] Instance named_pairs : CertLib := {| make_pair := λ t rand,
  Ok ("cert " +:+ rand +:+ " " +:+ Join (ct_DNSNames t) ",", "key " +:+ rand)%string |}.
Definition boot_with (rand : string) (io : io_outcomes) : boot :=
  {| bt_now := 0; bt_rand := rand; bt_io := io; bt_hosts := HostsForListenAddr "hydra.lan:8080" |}.
Definition dir : string := "/app/data/tls".

Lemma tls_pair_stable_witness :
  let fs' := foldl (boot_step dir) ∅ [boot_with "r1" all_well; boot_with "r2" all_well] in
  matched dir fs' ∧ fs' !! "/app/data/tls/self-signed.crt"%string = Some "cert r1 localhost,hydra.lan"%string.
Proof.
  split; [|vm_compute; reflexivity].
  refine (proj1 (tls_pair_stable dir [boot_with "r1" all_well; boot_with "r2" all_well] ∅ _ _ _) _).
  - vm_compute. discriminate.
  - intros [[x Hx] _]. vm_compute in Hx. discriminate Hx.
  - repeat constructor.
  - split; vm_compute; eexists; reflexivity.
Defined.

(** A directory where the certificate was lost, and a boot that writes a new one but
    cannot replace the key: from then on every boot serves a certificate with another's
    key, and nothing repairs it. *)
Definition lost : files := {[path_in dir keyFileName := "key r1"%string]}.
Definition half : boot := boot_with "r2" {| io_mkdir := true; io_cert := Written; io_key := NotOpened |}.
Lemma half_written_pair_stays :
  let fs' := foldl (boot_step dir) lost [half; boot_with "r3" all_well; boot_with "r4" all_well] in
  fs' !! path_in dir certFileName = Some "cert r2 localhost,hydra.lan"%string ∧ fs' !! path_in dir keyFileName = Some "key r1"%string ∧
  (EnsureSelfSigned 0 "r5" all_well dir [] fs').1 = Ok (path_in dir certFileName, path_in dir keyFileName).
Proof. vm_compute. repeat split. Qed.
End TlsRuns.
