(* ===== verification/Keepalived.v ===== *)
(** * The keepalived configuration

    [GenerateKeepalivedConf] and [WriteKeepalivedConf] of internal/ha/keepalived.go: the
    text/template over the values [keepalived_resolve] gives, and the file. *)
From S2P Require Import Prelude GoStrings GoText Ha Config GoNet Tls.

(** The lines of the template; text/template writes a value as it is. *)
Definition conf_lines (v : keepalivedView) : list string := [
  "! keepalived.conf generated by HydraDNS";
  "! Active-passive VRRP failover of the virtual IP ONLY.";
  "! HydraDNS application state is NOT shared or replicated between nodes.";
  "vrrp_instance " +:+ kv_InstanceName v +:+ " {";
  "    state " +:+ kv_VRRPState v;
  "    interface " +:+ kv_Interface v;
  "    virtual_router_id " +:+ Itoa (kv_RouterID v);
  "    priority " +:+ Itoa (kv_Priority v);
  "    advert_int " +:+ Itoa (kv_AdvertInt v);
  "    authentication {";
  "        auth_type PASS";
  "        auth_pass " +:+ kv_AuthPass v;
  "    }";
  "    virtual_ipaddress {";
  "        " +:+ kv_VIP v;
  "    }";
  "}"]%string.
Definition keepalivedTmpl (v : keepalivedView) : string := unlines (conf_lines v).

Definition GenerateKeepalivedConf (p : KeepalivedParams) : result ha_error string :=
  let? v := keepalived_resolve p in Ok (keepalivedTmpl v).

(** [WriteKeepalivedConf] with what becomes of the write. *)
Inductive conf_error := ConfInvalid (e : ha_error) | ConfWrite.
Definition WriteKeepalivedConf (o : write_outcome) (p : KeepalivedParams) (path : string) (fs : files) : result conf_error unit * files :=
  match GenerateKeepalivedConf p with
  | Err e => (Err (ConfInvalid e), fs)
  | Ok conf => match WriteFile o path conf fs with
               | (true, fs) => (Ok tt, fs)
               | (false, fs) => (Err ConfWrite, fs)
               end
  end.

(** ** What keepalived reads *)

(** The value of a directive: what follows its name on the first line that starts with it. *)
Definition directive (name : string) (conf : string) : option string :=
  first_match (λ l, if HasPrefix l (name +:+ " ") then Some (TrimPrefix l (name +:+ " ")) else None)%string (raw_lines conf).
(** The virtual address: the line after the opening of its block. *)
Fixpoint line_after (l : string) (ls : list string) : option string :=
  match ls with
  | [] => None
  | x :: ls => if bool_decide (x = l) then head ls else line_after l ls
  end.
Definition conf_vip (conf : string) : option string :=
  l ← line_after "    virtual_ipaddress {" (raw_lines conf); Some (TrimPrefix l "        ").

Definition one_line (s : string) : bool := string_forallb no_newline s.
Definition plain_params (p : KeepalivedParams) : Prop :=
  one_line (kp_InstanceName p) = true ∧ one_line (kp_Interface p) = true ∧ one_line (kp_AuthPass p) = true ∧ one_line (kp_VIP p) = true.

Lemma one_line_app s t : one_line (s +:+ t) = one_line s && one_line t.
Proof. apply forallb_app. Qed.
Lemma digit_no_newline c : is_digit_byte c = true → no_newline c = true.
Proof. unfold no_newline. destruct (Ascii.eqb_spec c newline) as [->|]; [by vm_compute|done]. Qed.
Lemma Itoa_one_line z : one_line (Itoa z) = true.
Proof.
  destruct (Z.le_gt_cases 0 z); [by apply Itoa_forallb; [|apply digit_no_newline]|].
  assert (Itoa z = ("-" +:+ Itoa (- z))%string) as -> by (destruct z; [lia|lia|done]). rewrite one_line_app.
  apply Itoa_forallb; [lia|apply digit_no_newline].
Qed.

Definition one_line_view (v : keepalivedView) : Prop :=
  one_line (kv_InstanceName v) = true ∧ one_line (kv_VRRPState v) = true ∧ one_line (kv_Interface v) = true ∧
  one_line (kv_AuthPass v) = true ∧ one_line (kv_VIP v) = true.
Lemma conf_raw_lines v : one_line_view v → raw_lines (keepalivedTmpl v) = conf_lines v.
Proof.
  intros (H1 & H2 & H3 & H4 & H5). apply raw_lines_unlines. unfold conf_lines. fold one_line.
  repeat apply Forall_cons_2; try apply Forall_nil_2; change (one_line ?s = true) with (is_true (one_line s));
    unfold is_true; fold one_line; rewrite ?one_line_app, ?Itoa_one_line, ?H1, ?H2, ?H3, ?H4, ?H5; reflexivity.
Qed.

Lemma resolve_state p v : keepalived_resolve p = Ok v → one_line (kv_VRRPState v) = true.
Proof.
  unfold keepalived_resolve. destruct (bool_decide (kp_Role p = RolePrimary)); [|destruct (bool_decide _); [|done]];
    simpl; repeat case_match; by intros [= <-].
Qed.

(** Every directive of a generated file has the value of the resolved parameters, as long as no
    value holds a newline. *)
Theorem keepalived_conf_read p v conf : keepalived_resolve p = Ok v → GenerateKeepalivedConf p = Ok conf → one_line_view v →
  directive "    state" conf = Some (kv_VRRPState v) ∧ directive "    interface" conf = Some (kv_Interface v) ∧
  directive "    virtual_router_id" conf = Some (Itoa (kv_RouterID v)) ∧ directive "    priority" conf = Some (Itoa (kv_Priority v)) ∧
  directive "    advert_int" conf = Some (Itoa (kv_AdvertInt v)) ∧ directive "        auth_pass" conf = Some (kv_AuthPass v) ∧
  conf_vip conf = Some (kv_VIP v).
Proof.
  unfold GenerateKeepalivedConf. intros Hr. rewrite Hr. intros [= <-] Hv. unfold directive, conf_vip.
  rewrite (conf_raw_lines v Hv).
  clear. destruct v as [inst st itf router prio adv pass vip]. unfold conf_lines. cbn [kv_InstanceName kv_VRRPState kv_Interface kv_RouterID kv_Priority kv_AdvertInt kv_AuthPass kv_VIP].
  generalize (Itoa router) (Itoa prio) (Itoa adv). intros r pr ad.
  repeat split.
  - by destruct st; vm_compute.
  - by destruct itf; vm_compute.
  - by destruct r; vm_compute.
  - by destruct pr; vm_compute.
  - by destruct ad; vm_compute.
  - by destruct pass; vm_compute.
  - by destruct vip; vm_compute.
Qed.

Definition ex_params : KeepalivedParams := {|
  kp_Role := RolePrimary; kp_Interface := " eth0 "; kp_VIP := "192.168.1.100/24"; kp_InstanceName := ""; kp_RouterID := 0;
  kp_AdvertInt := 0; kp_AuthPass := ""; kp_Priority := 0 |}.
Example keepalived_ex : ∃ conf, GenerateKeepalivedConf ex_params = Ok conf ∧ directive "    priority" conf = Some "200"%string ∧
  directive "    interface" conf = Some "eth0"%string ∧ conf_vip conf = Some "192.168.1.100/24"%string ∧
  (WriteKeepalivedConf Written ex_params "/etc/keepalived.conf" ∅).2 !! "/etc/keepalived.conf"%string = Some conf.
Proof. eexists. split; [reflexivity|]. vm_compute. repeat split. Qed.
