(* ===== verification/Utils.v ===== *)
(** * Anonymised client addresses

    [internal/utils/utils.go]: an address cut down to its network, and hashed with the
    secret when there is one. HMAC-SHA256 and the base64 decoding of the secret are
    arguments. *)
From S2P Require Import Prelude GoStrings GoText GoNet.

Section Utils.
Context (hmac : string → list Z → list Z) (base64 : string → option string).

(** [InitSecret]: the secret in force afterwards; an error keeps it. *)
Definition InitSecret (base64Key secret : string) : result string string :=
  match base64 base64Key with None => Err secret | Some key => Ok key end.

(** The address with its host part zeroed, 4 bytes or 16. *)
Definition mask_host (ip : IP) : IP :=
  let ip := To16 ip in
  match To4 ip with
  | [] => take 6 ip ++ replicate (length ip - 6) 0
  | v4 => <[3%nat := 0]> v4
  end.
Definition hex_encode (bytes : list Z) : string := Join (hex_byte <$> bytes) "".
Definition AnonymizeIP (secret ipStr : string) : string :=
  match ParseIP ipStr with
  | [] => ""
  | ip => if (String.length secret =? 0)%nat then IP_String (mask_host ip)
          else take_bytes 16 (hex_encode (hmac secret (mask_host ip)))
  end.

(** ** What is kept of an address *)

Definition byte_ok (b : Z) : Prop := 0 ≤ b < 256.
Lemma land_255 b : byte_ok b → Z.land b 255 = b.
Proof. intros Hb. change 255 with (Z.ones 8). rewrite Z.land_ones by lia. by apply Z.mod_small. Qed.
Lemma mask_ones l : Forall byte_ok l → mask_and l (replicate (length l) 255) = l.
Proof. unfold mask_and. induction 1 as [|b l Hb _ IH]; [done|]. cbn [length replicate zip_with]. by rewrite land_255, IH. Qed.
Lemma mask_zeros l : mask_and l (replicate (length l) 0) = replicate (length l) 0.
Proof. unfold mask_and. induction l as [|b l IH]; [done|]. cbn [length replicate zip_with]. by rewrite Z.land_0_r, IH. Qed.

(** Masking the host part is [net]'s masking by a prefix of 24 bits of an IPv4 address and
    of 48 bits of an IPv6 address. *)
Lemma mask_host_v4 ip v4 : length ip = 16%nat → To4 ip = v4 → v4 ≠ [] → Forall byte_ok v4 → mask_host ip = IP_Mask v4 (CIDRMask 24 32).
Proof.
  intros Hl <- Hne Hb. unfold mask_host. assert (To16 ip = ip) as -> by (unfold To16; by rewrite Hl).
  assert (length (To4 ip) = 4%nat) as H4.
  { unfold To4 in *. rewrite Hl in *. cbn in *. destruct (bool_decide _); [by rewrite length_drop, Hl|done]. }
  destruct (To4 ip) as [|a [|b [|c [|d [|]]]]]; try done. do 4 (apply Forall_cons in Hb as [? Hb]).
  change (IP_Mask [a; b; c; d] (CIDRMask 24 32)) with [Z.land a 255; Z.land b 255; Z.land c 255; Z.land d 0].
  by rewrite !land_255, Z.land_0_r by done.
Qed.
Lemma IP_Mask_16 ip m : length ip = 16%nat → length m = 16%nat → IP_Mask ip m = mask_and ip m.
Proof.
  intros Hl Hm. unfold IP_Mask. rewrite Hl, Hm. cbn. rewrite !Hm. cbn. by rewrite Hl.
Qed.
Lemma mask_host_v6 ip : length ip = 16%nat → To4 ip = [] → Forall byte_ok ip → mask_host ip = IP_Mask ip (CIDRMask 48 128).
Proof.
  intros Hl H4 Hb. unfold mask_host. assert (To16 ip = ip) as -> by (unfold To16; by rewrite Hl). rewrite H4, Hl.
  assert (IP_Mask ip (CIDRMask 48 128) = mask_and ip (replicate 6 255 ++ replicate 10 0)) as ->.
  { apply IP_Mask_16; [done|reflexivity]. }
  transitivity (mask_and (take 6 ip ++ drop 6 ip) (replicate 6 255 ++ replicate 10 0)); [|by rewrite take_drop].
  unfold mask_and. rewrite zip_with_app by (by rewrite length_take, length_replicate, Hl). f_equal.
  - pose proof (mask_ones (take 6 ip) (Forall_take _ _ _ Hb)) as H. by rewrite length_take, Hl in H.
  - pose proof (mask_zeros (drop 6 ip)) as H. by rewrite length_drop, Hl in H.
Qed.

Definition ip_ok (ip : IP) : Prop := length ip = 16%nat ∧ Forall byte_ok ip.
(** The part of an address that is kept. *)
Definition network (ip : IP) : bool * IP :=
  match To4 ip with [] => (false, IP_Mask ip (CIDRMask 48 128)) | v4 => (true, IP_Mask v4 (CIDRMask 24 32)) end.

(** Two addresses of one network are given the same pseudonym, with a secret or without. *)
Theorem AnonymizeIP_network secret a b :
  ip_ok (ParseIP a) → ip_ok (ParseIP b) → network (ParseIP a) = network (ParseIP b) →
  AnonymizeIP secret a = AnonymizeIP secret b.
Proof.
  intros Ha Hb Hn.
  assert (∀ ip, ip_ok ip → mask_host ip = (network ip).2) as Hm.
  { intros ip [Hl Hok]. unfold network. destruct (To4 ip) as [|x l] eqn:E; [by apply mask_host_v6|]. apply mask_host_v4; [done..|].
    rewrite <- E. unfold To4. rewrite Hl. cbn. destruct (bool_decide _); [by apply Forall_drop|done]. }
  assert (mask_host (ParseIP a) = mask_host (ParseIP b)) as E by (by rewrite (Hm _ Ha), (Hm _ Hb), Hn).
  unfold AnonymizeIP. destruct Ha as [Ha _], Hb as [Hb _]. destruct (ParseIP a); [done|]. destruct (ParseIP b); [done|]. by rewrite E.
Qed.
End Utils.

Example anonymize_ex : let hmac := λ s b, b in
  AnonymizeIP hmac "" "192.168.1.77" = "192.168.1.0"%string ∧ AnonymizeIP hmac "" "2001:db8:1:2::9" = "2001:db8:1::"%string ∧
  AnonymizeIP hmac "" "nobody" = ""%string ∧ AnonymizeIP hmac "k" "10.1.2.3" = "0a010200"%string.
Proof. vm_compute. repeat split. Qed.
