(* ===== verification/Enforced.v ===== *)
(** * From a list to the answers

    What an edit of the lists made through the control plane means for the queries that
    the data plane, which reads the same tables, answers: BlocklistApi.v and Planes.v on
    one side, EngineSpec.v on the other. *)
From S2P Require Import Prelude GoStrings GoUtf8 Policy PolicyEngine DnsMsg RateLimiter Upstream Threat Blocklist.
From S2P Require Import DnsEngine EngineSpec Storage ControlPlane BlocklistApi Planes.

Section Enforced.
Context `{U : GoUnicode} `{TZ : TzDatabase} `{BL : BloomLib} `{RX : RegexpLib} `{DL : DnsLib} `{TE : ThreatEnv} `{TR : TransportEnv}.
Context `{D : BlocklistDb} `{LD : !BlocklistDbLaws D} `{F : Fetcher} (hash : string → string).
Context {W : Type} (xchg : UpstreamManager → nat → Msg → W → result upstream_error (option Msg) * W).

(** A query that the engine accepts and no ALLOW policy exempts, answered by an engine
    attached to the given tables. *)
Record enforceable (env : QueryEnv) (pe : PEngine) (r : Msg) (q : Question) (s : hstate (W := W)) (tables : db) : Prop := {
  ef_question : ∃ qs, m_Question r = q :: qs;
  ef_accepts : e_acceptQueries (h_engine s) = true;
  ef_rate : (allow (e_rateLimiter (h_engine s)) (t_rate env)
    match q_remote env with Some a => clientIPFromAddr a | None => ""%string end).1 = true;
  ef_policies : e_policyEngine (h_engine s) = Some pe;
  ef_open : queues_open (h_engine s);
  ef_attached : e_blocklist (h_engine s) = Some (λ name, IsBlocked name tables);
  ef_readable : is_ok (IsBlocked (query_name q) tables) = true;
  ef_not_exempt : IsExplicitlyAllowed pe (t_policy env) (query_name q) (query_client env) = false;
}.
(** The answer is the sinkhole's and no upstream is asked. *)
Definition sinkholed (env : QueryEnv) (r : Msg) (q : Question) (s : hstate (W := W)) : Prop :=
  ∃ s' effs, ProcessDNSQuery xchg env (Some r) s = Some (tt, s') ∧ h_trace s' = h_trace s ++ effs ∧
    List.filter is_write effs = [Wrote (blocked_reply r q)] ∧ ∀ x, Exchanged x ∉ effs.

Lemma enforced env pe r q s tables : enforceable env pe r q s tables → listed tables (query_name q) → sinkholed env r q s.
Proof.
  intros [[qs Hq] Ha Hl Hp Ho Hb Hr Hn] Hlist. destruct (IsBlocked (query_name q) tables) as [b|] eqn:E; [|done].
  by apply (listed_run xchg env pe r q qs s tables b).
Qed.

(** A list that was created and says that it has names. *)
Lemma created_entries quick now req d r d' jobs bl :
  CreateBlocklist hash quick now (Ok req) d = (r, d', jobs) → r_status r = 201 → r_data r = Some bl →
  bl_DomainsCount bl ≠ 0 → entries_of (cb_ID req) (db_entries d) = [] →
  ∃ body etag parse ds, Fetch (cb_URL req) "" = Ok (Body body etag) ∧ parser_Get (cb_Format req) = Some parse ∧ parse body = Ok ds ∧
    bl_DomainsCount bl = Z.of_nat (length ds) ∧ en_Domain <$> entries_of (cb_ID req) (db_entries d') = ds.
Proof.
  intros Hc Hst Hdata Hn He. unfold CreateBlocklist in Hc. destruct (negb _); [by injection Hc as <- <- <-|].
  destruct (sql_get_source (cb_ID req) d); [by injection Hc as <- <- <-|].
  set (src := {| bs_ID := cb_ID req |}) in *. destruct (sql_create_source src d) as [d1|] eqn:Es; [|by injection Hc as <- <- <-].
  apply create_source_law in Es as (Es & _). unfold waitForCount in Hc. set (d2 := if quick then _ else d1) in *.
  injection Hc as <- <- _. cbn [ok_response r_data] in Hdata. injection Hdata as <-. cbn [blocklistFromSource bl_DomainsCount] in *.
  assert (∀ n, CountEntriesBySource (bs_ID src) d2 = n → n ≠ 0 → n = Z.of_nat (length (entries_of (cb_ID req) (db_entries d2)))) as Hcount.
  { unfold CountEntriesBySource. intros n. destruct (sql_count_source_entries _ _) as [m|] eqn:Em; [|by intros <-].
    intros <- _. by apply count_source_entries_law in Em. }
  specialize (Hcount _ eq_refl Hn). subst d2. destruct quick; [|by rewrite Es, He in Hcount].
  pose proof (refresh_entries hash now src d1) as [_ Hr]; [by rewrite Es|done|].
  destruct Hr as [Hr|(body & etag & parse & ds & H1 & H2 & H3 & H4)]; [by rewrite Hr, Es, He in Hcount|].
  exists body, etag, parse, ds. split; [done|]. split; [done|]. split; [done|]. split; [|done].
  etransitivity; [exact Hcount|]. by rewrite <- H4, length_fmap.
Qed.

(** C7. From the API to an answer: once the creation of a list under an ID without stored
    entries has been answered 201 with a number of names that is not 0, the list's
    stored entries are exactly the names of the body that was fetched, that is their
    number, and, now and after any later refreshes of any sources, a query for one of
    them, or for a name below one, is answered from the sinkhole and never leaves the
    engine: every query that an engine attached to the tables accepts, that no ALLOW
    policy exempts and for which the lists can be read. The name on the list has two
    labels or more; the code does not look up single labels. *)
Theorem accepted_list_enforced quick now req d r d' jobs bl :
  CreateBlocklist hash quick now (Ok req) d = (r, d', jobs) → r_status r = 201 → r_data r = Some bl →
  bl_DomainsCount bl ≠ 0 → entries_of (cb_ID req) (db_entries d) = [] →
  ∃ body etag parse ds, Fetch (cb_URL req) "" = Ok (Body body etag) ∧ parser_Get (cb_Format req) = Some parse ∧ parse body = Ok ds ∧
    en_Domain <$> entries_of (cb_ID req) (db_entries d') = ds ∧ bl_DomainsCount bl = Z.of_nat (length ds) ∧
    ∀ refreshes x env pe m q s,
      let tables := foldl (λ d p, refreshBlocklists hash p.1 p.2 d) d' refreshes in
      x ∈ ds → x ∈ parent_candidates (repo_normalize (query_name q)) → enforceable env pe m q s tables → sinkholed env m q s.
Proof.
  intros Hc Hst Hdata Hn He. destruct (created_entries _ _ _ _ _ _ _ _ Hc Hst Hdata Hn He) as (body & etag & parse & ds & H1 & H2 & H3 & H4 & H5).
  exists body, etag, parse, ds. do 5 (split; [done|]). intros refreshes x env pe m q s tables Hx Hname Hef.
  eapply enforced; [exact Hef|]. subst tables. assert (listed d' (query_name q)) as Hl.
  { rewrite <- H5 in Hx. apply list_elem_of_fmap in Hx as (e & -> & Hin). apply list_elem_of_filter in Hin as [_ Hin]. by exists e. }
  clear -Hl LD. revert d' Hl. induction refreshes as [|p refreshes IH]; intros d' Hl; [done|]. cbn [foldl]. apply IH.
  by apply refreshBlocklists_keeps.
Qed.

(** A name none of whose enclosing names is an entry is not blocked. *)
Lemma not_listed_released d name b : (∀ e, e ∈ db_entries d → en_Domain e ∉ parent_candidates (repo_normalize name)) →
  IsBlocked name d = Ok b → b = false.
Proof.
  intros Hno Hb. destruct b; [|done]. exfalso. destruct (proj1 (IsBlocked_listed _ _ _ Hb) eq_refl) as (e & He & Hc). by apply (Hno e).
Qed.
End Enforced.

(** ** A list, created and asked about *)

Module EnforcedRuns.
#[local] Existing Instance run_unicode.
#[local] Existing Instance run_tz.
#[local] Existing Instance run_bloom.
#[local] Existing Instance run_regexp.
#[local] Existing Instance run_dns.
#[local] Existing Instance run_threat.
#[local] Existing Instance run_transport.
#[local] Existing Instance Runs.run_db.
#[local] Existing Instance Runs.run_laws.
#[local] Existing Instance Runs.run_fetcher.

Definition ads_tables : db := Runs.quick_create.1.2.
Definition ads_accepted : ApiBlocklist := blocklistFromSource Runs.ads_source 3.
(** The tables after a poll of every source an hour later. *)
Definition ads_polled : db :=
  foldl (λ d p, refreshBlocklists id p.1 p.2 d) ads_tables [(hour, Ok [Runs.ads_source])].

(** The engine of EngineSpec.v's runs, attached to the tables. *)
Definition attached (tables : db) : hstate (W := list Msg) :=
  {| h_engine := AttachBlocklistChecker (Some (λ name, IsBlocked name tables)) (h_engine (run_s false []));
     h_world := []; h_trace := [] |}.

Lemma attached_enforceable name tables :
  is_ok (IsBlocked (query_name (run_question name)) tables) = true →
  IsExplicitlyAllowed NewPolicyEngine 0 (query_name (run_question name)) (query_client (run_env 0)) = false →
  enforceable (run_env 0) NewPolicyEngine (run_query name) (run_question name) (attached tables) tables.
Proof.
  intros Hr Ha. split; [by exists []|by vm_compute|by vm_compute|by vm_compute| |reflexivity|exact Hr|exact Ha].
  split; intros x; vm_compute; intros [= <-]; reflexivity.
Qed.

Lemma accepted_list_enforced_witness :
  sinkholed scripted (run_env 0) (run_query "www.evil.com.") (run_question "www.evil.com.") (attached ads_polled).
Proof.
  destruct (accepted_list_enforced (D := Runs.run_db) (F := Runs.run_fetcher) id scripted true 1 Runs.create_ads
    Runs.no_tables Runs.quick_create.1.1 ads_tables Runs.quick_create.2 ads_accepted)
    as (body & etag & parse & ds & H1 & H2 & H3 & _ & _ & H);
    [reflexivity|vm_compute; reflexivity|vm_compute; reflexivity|vm_compute; discriminate|reflexivity|].
  vm_compute in H1. injection H1 as <- <-. change (Some DomainsParser_Parse = Some parse) in H2. injection H2 as <-.
  vm_compute in H3. injection H3 as <-.
  apply (H [(hour, Ok [Runs.ads_source])] "evil.com"%string (run_env 0) NewPolicyEngine);
    [apply (bool_decide_unpack _); vm_compute; exact I|apply (bool_decide_unpack _); vm_compute; exact I|].
  apply attached_enforceable; vm_compute; reflexivity.
Defined.
End EnforcedRuns.
