(* ===== verification/Services.v ===== *)
(** * What the data plane sends off the box

    The optional services [cmd/dataplane/main.go] sets up beside the resolver, the post
    of internal/alert/webhook.go, and the question internal/config/local_only.go asks of
    every one of them: what leaves the box, where it goes, and on whose word. DNS
    forwarding and the blocklist fetches are not among them. Each operation of a service returns what it asks
    of the network, and what leaves the box is composed of that. Last, the address that
    internal/grpc/dataplane/server.go listens on. *)
From S2P Require Import Prelude GoStrings GoUrl GoStrconv GoNet GoTime Policy PolicyEngine DnsMsg Upstream QueryLog Alert Threat.
From S2P Require Import Blocklist Nrd Config DnsEngine Watchdog Ha Planes Inventory DiskHealth Heartbeat Export Fetch.

(** ** alert/webhook.go: one alert *)

Definition json_alert (a : Alert) : bool := json_time (al_FirstHit a) && json_time (al_FiredAt a).
(** [postAlert]: what is handed to the HTTP client; every failure is only logged. *)
Definition postAlert (url : string) (a : Alert) : list (string * Alert) :=
  if negb (json_alert a) then [] else if negb (NewRequest_ok url) then [] else [(url, a)].

(** ** main.go: the services *)

Section Services.
Context `{U : GoUnicode}.

Definition dbPath (getenv : string → string) : string := env_string getenv "PHANTOM_DB" "/app/data/phantomdns.db".

Record Services := {
  sv_diskMonitor : Monitor;
  sv_inventory : Inventory;
  sv_alertSink : option string;
  sv_heartbeat : Reporter;
  sv_nrd : Checker;
  sv_ha : option HaManager;            (* the manager whose [Run] is started *)
  sv_dialled : list (string * string); (* by the engine's exporter, network and address *)
  sv_sinks : list sink;                (* of the engine's exporter *)
}.

(** [hostname] and [pid] name the process in syslog, [dial] is the fate of the dial of a
    syslog target, [build] the recorded version. *)
Definition dataplane_services (now : Z) (build : option string) (dial : string → string → bool) (hostname : string) (pid : Z)
  (getenv : string → string) (cfg : DataPlaneConfig) : Services := {|
  sv_diskMonitor := NewMonitorFromEnv getenv (dbPath getenv);
  sv_inventory := inv_New (inv_ConfigFromEnv getenv);
  sv_alertSink := NewWebhookSink (getenv "DEVICE_ALERT_WEBHOOK"%string);
  sv_heartbeat := hb_New now build {| hc_URL := cf_HeartbeatURL cfg; hc_Interval := cf_HeartbeatInterval cfg;
                                      hc_DBPath := dbPath getenv; hc_Version := "" |};
  sv_nrd := nrd_New (nrdConfigOf cfg);
  sv_ha := let haCfg := ha_ConfigFromEnv getenv in
           if hc_Enabled haCfg then match ha_New now haCfg with Ok m => Some m | Err _ => None end else None;
  sv_dialled := (export_sinks dial hostname pid (cf_SyslogAddr cfg) (cf_EventWebhookURL cfg)).1;
  sv_sinks := (export_sinks dial hostname pid (cf_SyslogAddr cfg) (cf_EventWebhookURL cfg)).2 |}.

(** ** What they send *)

Context `{TZ : TzDatabase} `{BL : BloomLib} `{RX : RegexpLib} `{DL : DnsLib} `{TE : ThreatEnv} `{TR : TransportEnv}.

(** What a service asks of the network: a connection, bytes on one, or a request by the
    client of net/http, for what it carries. *)
Inductive purpose := ForEvent (ev : Event) | ForAlert (a : Alert) | ForStatus (s : HeartbeatStatus) | ForFeed.
Inductive call :=
| Dial (network address : string)
| Write (network address text : string)
| Do (url : string) (what : purpose).

(** What leaves the box: the client makes requests of its own where it is redirected. *)
Inductive outgoing :=
| Dialled (network address : string)
| Written (network address text : string)
| Requested (r : http_request purpose).

(** What a run of the process gives its services to do: the events the engine exported,
    the alerts it fired, the moments of the heartbeat, what the feed's server answers to
    each refresh, the ticks of the probes; and the redirects each call meets. *)
Record activity := {
  ac_events : list Event; ac_answers : sink → Event → option Z;
  ac_alerts : list Alert; ac_first : moment; ac_ticks : list moment;
  ac_feed : list (string → string → attempt * list attempt); ac_probes : list (Z * (string → bool));
  ac_hops : nat → list (Z * string);
}.

Definition delivered (d : delivery) : call :=
  match d with
  | Line conn text => Write conn.1 conn.2 text
  | Post url ev => Do url (ForEvent ev)
  end.
(** A fetch of the feed is what the fetcher requests, one attempt after the other. *)
Definition fetch_calls (net : string → string → attempt * list attempt) (q : string * string) : list call :=
  match http_Fetch net q.1 q.2 with Some (asked, _) => (λ url, Do url ForFeed) <$> asked | None => [] end.
Definition feed_calls (nets : list (string → string → attempt * list attempt)) (c : Checker) : list call :=
  match nets with
  | [] => []
  | net :: nets => concat (zip_with fetch_calls (net :: nets) (nrd_Run (HTTPFetcher net) (HTTPFetcher <$> nets) c).1)
  end.

Definition calls (a : activity) (sv : Services) : list call :=
  ((λ c, Dial c.1 c.2) <$> sv_dialled sv) ++
  (delivered <$> exporter_run (ac_answers a) (sv_sinks sv) (ac_events a)) ++
  (ac_alerts a ≫= λ al, match sv_alertSink sv with
                        | Some url => (λ p, Do p.1 (ForAlert p.2)) <$> postAlert url al | None => [] end) ++
  ((λ p, Do p.1 (ForStatus p.2)) <$> hb_Start (ac_first a) (ac_ticks a) (sv_heartbeat sv)) ++
  feed_calls (ac_feed a) (sv_nrd sv) ++
  match sv_ha sv with Some m => Dial "tcp" <$> (ha_Run (ac_probes a) m).1 | None => [] end.

Definition carried_out (hops : list (Z * string)) (c : call) : list outgoing :=
  match c with
  | Dial n ad => [Dialled n ad]
  | Write n ad text => [Written n ad text]
  | Do url what => Requested <$> client_Do hops url what
  end.
Definition outbound (a : activity) (sv : Services) : list outgoing :=
  mjoin (imap (λ i, carried_out (ac_hops a i)) (calls a sv)).

(** ** Where it goes *)

(** The destinations the operator configured. *)
Definition syslog_target (cfg : DataPlaneConfig) (network address : string) : Prop :=
  parseSyslogAddr (cf_SyslogAddr cfg) = Ok (network, address).
Definition peer_target (getenv : string → string) (network address : string) : Prop :=
  network = "tcp"%string ∧ parseBool (getenv "HA_ENABLED"%string) = true ∧
  address = TrimSpace (getenv "HA_PEER_ADDR"%string) ∧ address ≠ ""%string.
Definition url_target (getenv : string → string) (cfg : DataPlaneConfig) (what : purpose) (url : string) : Prop :=
  url ≠ ""%string ∧
  url = match what with
        | ForEvent _ => cf_EventWebhookURL cfg
        | ForAlert _ => getenv "DEVICE_ALERT_WEBHOOK"%string
        | ForStatus _ => cf_HeartbeatURL cfg
        | ForFeed => cf_NRDFeedURL cfg
        end.

Definition call_configured (getenv : string → string) (cfg : DataPlaneConfig) (c : call) : Prop :=
  match c with
  | Dial n ad => syslog_target cfg n ad ∨ peer_target getenv n ad
  | Write n ad _ => syslog_target cfg n ad
  | Do url what => url_target getenv cfg what url
  end.
(** A request is to the configured URL, or to where its servers redirected it within ten
    requests. *)
Definition configured (getenv : string → string) (cfg : DataPlaneConfig) (x : outgoing) : Prop :=
  match x with
  | Dialled n ad => syslog_target cfg n ad ∨ peer_target getenv n ad
  | Written n ad _ => syslog_target cfg n ad
  | Requested r => url_target getenv cfg (hq_for r) (hq_origin r) ∧ (length (hq_via r) < 10)%nat
  end.

Context (now : Z) (build : option string) (dial : string → string → bool) (hostname : string) (pid : Z).
Context (getenv : string → string) (cfg : DataPlaneConfig) (a : activity).
Let sv := dataplane_services now build dial hostname pid getenv cfg.

Lemma syslog_configured c s :
  newSyslogSink dial hostname pid (cf_SyslogAddr cfg) = (c, s) →
  Forall (λ p, syslog_target cfg p.1 p.2) c ∧ ∀ k, s = Some k → syslog_target cfg (sy_conn k).1 (sy_conn k).2.
Proof.
  unfold newSyslogSink, syslog_target. destruct (parseSyslogAddr _) as [[n ad]|] eqn:E; [|intros [= <- <-]; by split; [constructor|]].
  intros [= <- <-]. split; [by repeat constructor|]. intros k. destruct (dial n ad); [|done]. by intros [= <-].
Qed.

Lemma sink_configured s : s ∈ sv_sinks sv →
  match s with
  | Syslog s => syslog_target cfg (sy_conn s).1 (sy_conn s).2
  | Webhook url => url = cf_EventWebhookURL cfg ∧ url ≠ ""%string
  end.
Proof.
  cbn [sv sv_sinks dataplane_services]. unfold export_sinks.
  destruct (if bool_decide (TrimSpace _ = _) then _ else _) as [c o] eqn:E. cbn [snd]. rewrite elem_of_app. intros [H|H].
  - case_bool_decide; [simplify_eq; by apply not_elem_of_nil in H|]. apply syslog_configured in E as [_ E].
    destruct o as [k|]; [|by apply not_elem_of_nil in H]. apply list_elem_of_singleton in H as ->. by apply E.
  - case_bool_decide as Ew; [by apply not_elem_of_nil in H|]. apply list_elem_of_singleton in H as ->. split; [done|].
    intros E'. by rewrite E' in Ew.
Qed.

Lemma dialled_configured : Forall (λ p, syslog_target cfg p.1 p.2) (sv_dialled sv).
Proof.
  cbn [sv sv_dialled dataplane_services]. unfold export_sinks.
  destruct (if bool_decide (TrimSpace _ = _) then _ else _) as [c o] eqn:E. cbn [fst].
  case_bool_decide; [simplify_eq; constructor|]. by apply syslog_configured in E as [E _].
Qed.

Lemma sink_sends s ev an : s ∈ sv_sinks sv → Forall (λ d, call_configured getenv cfg (delivered d)) (Send s ev an).1.
Proof.
  intros H%sink_configured. destruct s as [s|url]; simpl; [by constructor|].
  destruct (json_event ev), (NewRequest_ok url); simpl; [|constructor..]. constructor; [|done]. by destruct H.
Qed.

Lemma feed_configured nets : Forall (call_configured getenv cfg) (feed_calls nets (sv_nrd sv)).
Proof.
  destruct nets as [|net nets]; [constructor|]. cbn [feed_calls].
  pose proof (Run_asks (HTTPFetcher net) (HTTPFetcher <$> nets) (nrdConfigOf cfg)) as H.
  change (sv_nrd sv) with (nrd_New (nrdConfigOf cfg)).
  revert H. generalize (nrd_Run (HTTPFetcher net) (HTTPFetcher <$> nets) (nrd_New (nrdConfigOf cfg))).1.
  generalize (net :: nets). clear. intros nets qs. revert nets.
  induction qs as [|q qs IH]; intros [|net nets] H; try constructor. cbn. apply Forall_cons in H as [[Hq Hne] H].
  apply Forall_app. split; [|by apply IH]. unfold fetch_calls. destruct (http_Fetch _ _ _) as [[asked r]|] eqn:E; [|constructor].
  apply http_Fetch_asks in E. cbn [fst] in E. apply Forall_fmap. eapply Forall_impl; [exact E|]. intros u ->. cbn.
  split; [done|exact Hq].
Qed.

Lemma ha_dials ticks m : sv_ha sv = Some m → Forall (peer_target getenv "tcp") (ha_Run ticks m).1.
Proof.
  cbn [sv sv_ha dataplane_services]. destruct (hc_Enabled _) eqn:E; [|done]. destruct (ha_New _ _) as [m'|] eqn:Em; [|done].
  intros [= ->]. assert (ha_cfg m = withDefaults (ha_ConfigFromEnv getenv)) as Hc.
  { unfold ha_New in Em. by destruct (ha_Validate _); [injection Em as <-|]. }
  destruct (ha_Run_probes ticks m) as [_ H]; [by rewrite Hc|]. eapply Forall_impl; [exact H|]. intros ad [-> Hne].
  rewrite Hc in *. by split_and!.
Qed.

Lemma calls_configured : Forall (call_configured getenv cfg) (calls a sv).
Proof.
  unfold calls. rewrite !Forall_app. split_and!.
  - apply Forall_fmap. eapply Forall_impl; [apply dialled_configured|]. intros p Hp. by left.
  - rewrite exporter_delivers. apply Forall_fmap, Forall_bind, Forall_true. intros ev. apply Forall_bind, Forall_forall.
    intros s Hs. by apply sink_sends.
  - apply Forall_bind, Forall_true. intros al. unfold compose. cbn [sv sv_alertSink dataplane_services]. unfold NewWebhookSink.
    case_bool_decide as E; [constructor|]. unfold postAlert.
    destruct (json_alert al); [|constructor]. destruct (NewRequest_ok _); [by repeat constructor|constructor].
  - apply Forall_fmap. eapply Forall_impl; [apply heartbeat_to|]. intros p [Hp Hne]. by split.
  - apply feed_configured.
  - destruct (sv_ha sv) as [m|] eqn:E; [|constructor]. apply Forall_fmap. eapply Forall_impl; [by apply ha_dials|].
    intros ad Had. by right.
Qed.

(** Each thing that leaves comes of a call, carried out with the redirects it met. *)
Lemma outbound_call x : x ∈ outbound a sv → ∃ i c, calls a sv !! i = Some c ∧ x ∈ carried_out (ac_hops a i) c.
Proof.
  unfold outbound. intros (l & Hx & Hl)%list_elem_of_join. apply elem_of_lookup_imap in Hl as (i & c & -> & Hc). eauto.
Qed.

Lemma outbound_destinations : Forall (configured getenv cfg) (outbound a sv).
Proof.
  apply Forall_forall. intros x (i & c & Hc & Hx)%outbound_call. pose proof calls_configured as H.
  rewrite Forall_lookup in H. specialize (H i c Hc). destruct c as [n ad|n ad t|url w]; cbn [carried_out] in Hx.
  - by apply list_elem_of_singleton in Hx as ->.
  - by apply list_elem_of_singleton in Hx as ->.
  - apply list_elem_of_fmap in Hx as (r & -> & (H1 & H2 & H3)%client_Do_origin). cbn. by rewrite H1, H2.
Qed.

Lemma outbound_direct r : (∀ i, ac_hops a i = []) → Requested r ∈ outbound a sv → hq_via r = [].
Proof.
  intros Hh (i & c & _ & Hx)%outbound_call. rewrite Hh in Hx. destruct c as [n ad|n ad t|url w]; cbn [carried_out] in Hx.
  1,2: by apply list_elem_of_singleton in Hx.
  apply list_elem_of_fmap in Hx as (r' & [= ->] & Hr). by eapply client_Do_direct.
Qed.

Definition nothing_configured : Prop :=
  getenv "DEVICE_ALERT_WEBHOOK"%string = ""%string ∧ parseBool (getenv "HA_ENABLED"%string) = false ∧
  TrimSpace (cf_SyslogAddr cfg) = ""%string ∧ cf_EventWebhookURL cfg = ""%string ∧ cf_HeartbeatURL cfg = ""%string ∧
  cf_NRDFeedURL cfg = ""%string.

(** C28. Nothing leaves the box on the word of anyone but the operator: whatever the
    services do during a run, every connection they open and every line they write is to
    the syslog target or the peer of the configuration and environment, and every request
    they make is to the configured webhook, collector or feed, or follows redirects, nine
    at most, that began there; where no server redirects, every request is to the
    configured URL itself. With none of them set nothing leaves at all. *)
Theorem outbound_configured :
  Forall (configured getenv cfg) (outbound a sv) ∧
  ((∀ i, ac_hops a i = []) →
     ∀ r, Requested r ∈ outbound a sv → hq_via r = [] ∧ url_target getenv cfg (hq_for r) (hq_url r)) ∧
  (nothing_configured → outbound a sv = []).
Proof.
  pose proof outbound_destinations as H. split; [exact H|]. split.
  - intros Hh r Hr. pose proof (outbound_direct r Hh Hr) as Hv. split; [done|].
    rewrite Forall_forall in H. destruct (H _ Hr) as [Ho _]. unfold hq_origin in Ho. by rewrite Hv in Ho.
  - intros (Ha & Hp & Hs & Hw & Hh & Hn). destruct (outbound a sv) as [|x l]; [done|]. exfalso.
    apply Forall_cons in H as [H _].
    assert (∀ n ad, ¬ syslog_target cfg n ad) as Hns by (intros n ad; unfold syslog_target, parseSyslogAddr; by rewrite Hs).
    destruct x as [n ad|n ad t|r]; cbn in H.
    + destruct H as [H|(_ & H & _)]; [by apply Hns in H|congruence].
    + by apply Hns in H.
    + destruct H as [[Hne Hu] _]. destruct (hq_for r); congruence.
Qed.
End Services.

(** ** Under LOCAL_ONLY *)

(** A box whose operator engaged LOCAL_ONLY, and an event webhook left in the
    configuration: each query is posted, with the name and the client that asked for it,
    and so is each alert. *)
Definition custody_variables (v : string) : string :=
  if bool_decide (v = "LOCAL_ONLY"%string) then "true"
  else if bool_decide (v = "EVENT_WEBHOOK_URL"%string) then "https://collector/ev"
  else if bool_decide (v = "DEVICE_ALERT_WEBHOOK"%string) then "https://collector/al" else "".
Definition custody_config : Config := DefaultConfig (U := ascii_unicode) custody_variables (λ _, None) (λ _, None).
Definition custody_services : Services :=
  dataplane_services (U := ascii_unicode) 0 None (λ _ _, true) "box" 1 custody_variables (c_DataPlane custody_config).
Definition custody_alert : Alert := {|
  al_Device := {| di_IP := "10.0.0.1"; di_MAC := ""; di_Hostname := "" |}; al_Hits := 3; al_Threshold := 3;
  al_FirstHit := 1735689600 * second; al_FiredAt := 1735689601 * second; al_Domain := "a.com" |}.

Lemma custody_not_consulted :
  LocalOnly (U := ascii_unicode) (λ v, Some (custody_variables v)) custody_config = true ∧
  exporter_run (λ _ _, Some 200) (sv_sinks custody_services) [ex_event "a.com"] = [Post "https://collector/ev" (ex_event "a.com")] ∧
  sv_alertSink custody_services = Some "https://collector/al"%string ∧
  postAlert "https://collector/al" custody_alert = [("https://collector/al"%string, custody_alert)].
Proof. vm_compute. done. Qed.

(** A webhook URL with a space before it passes the check that it is not blank, and then
    no event is ever posted. *)
Lemma padded_webhook_silent ev answer :
  export_sinks (λ _ _, true) "box" 1 "" " https://collector/ev" = ([], [Webhook " https://collector/ev"]) ∧
  (Send (Webhook " https://collector/ev") ev answer).1 = [].
Proof. split; [by vm_compute|]. simpl. by destruct (json_event ev). Qed.

(** ** The gRPC server's address *)

(** [Start] of internal/grpc/dataplane/server.go. *)
Definition grpc_listen_addr (c : GRPCServerConfig) : string := ":" +:+ Itoa (gs_Port c).

(** The configured bind address, [localhost] by default, is not read: the server, whose
    calls switch filtering off and replace the resolvers and are not authenticated,
    listens on an address without a host, which is every interface. *)
Lemma grpc_ignores_listen_addr addr addr' port :
  grpc_listen_addr {| gs_ListenAddr := addr; gs_Port := port |} = grpc_listen_addr {| gs_ListenAddr := addr'; gs_Port := port |} ∧
  gs_ListenAddr (cf_GRPCServer (c_DataPlane defaultConfig)) = "localhost:50051"%string ∧
  SplitHostPort (grpc_listen_addr (cf_GRPCServer (c_DataPlane defaultConfig))) = Some ("", "50051")%string.
Proof. split; [done|]. by vm_compute. Qed.
