(* ===== verification/AccessLog.v ===== *)
(** * The request log

    [cmd/controlplane/middlewares/logger.go]: what the first of the middlewares writes
    about each request the server of Router.v has served, as the text that reaches the
    standard logger. The client's address is gin's, the two readings of the clock and
    the zone of the log are arguments. *)
From S2P Require Import Prelude GoStrings GoText GoTime Policy PolicyEngine Upstream DnsEngine Blocklist Storage ControlPlane BlocklistApi ConfigIO.
From S2P Require Import Auth Inventory Fleet Analytics AnalyticsApi Reports Router.

Definition newline : string := String (chr 10) "".
(** The format "[%s] %s %s %d %s". *)
Definition log_message (method path ip : string) (status duration : Z) : string :=
  ("[" +:+ method +:+ "] " +:+ path +:+ " " +:+ ip +:+ " " +:+ Itoa status +:+ " " +:+ Duration_String duration)%string.
(** [log.Printf]: the stamp before the message, a newline after it. *)
Definition Printf_line (wall : Z) (message : string) : string :=
  (Format_log_stamp wall +:+ message +:+ newline)%string.

(** What is known of a request besides the request: the client's address and the clock
    before and after its handler. *)
Record timing := { tm_ClientIP : string; tm_start : Z; tm_end : Z }.

Section Log.
Context `{U : GoUnicode} `{TZ : TzDatabase} `{BL : BloomLib} `{RX : RegexpLib} `{TR : TransportEnv}.
Context `{D : BlocklistDb} `{F : Fetcher} `{B : Bcrypt} `{G : GinRouter} `{CL : CorsLib}.
Context {TP : SqlTable PolicyRow} {TRs : SqlTable ResolverRow} {TS : SqlTable SystemState} {TA : SqlTable AdminCredential}.
Context {TC : SqlTable CategoryRow} {TLc : SqlTable CollectionRow} {TL : SqlTable LoggedQuery} {TSt : SqlTable StatRow}.
Context {W : Type} (close_mgr : UpstreamManager → W → W) (net : nat → rpc_outcome) (hash : string → string).
Context (local : Z → Z).
Abbreviation serve := (serve_request close_mgr net hash).

(** [Logger] around the rest of the chain: it runs for every request but one the router
    redirects, and writes one line when the others have returned. *)
Definition Logger (rq : request) (tm : timing) (status : Z) : string :=
  Printf_line (local (tm_end tm))
    (log_message (rq_Method rq) (rq_Path rq) (tm_ClientIP tm) status (time_sub (tm_end tm) (tm_start tm))).
Definition redirected (rq : request) (s : ApiState (W:=W)) : bool :=
  let rs := RegisterRoutes (bool_decide (is_Some (as_fleet s))) in
  match gin_find rs (rq_Method rq) (rq_Path rq), gin_redirect rs (rq_Method rq) (rq_Path rq) with
  | None, Some _ => true
  | _, _ => false
  end.
Definition serve_logged (cfg : ApiConfig) (rq : request) (sv : serving) (tm : timing) (s : ApiState (W:=W)) : string * ApiState :=
  let '(status, s') := serve cfg rq sv s in
  (if redirected rq s then "" else Logger rq tm status, s').

(** The log of a sequence of requests. *)
Fixpoint access_log (cfg : ApiConfig) (rqs : list (request * serving * timing)) (s : ApiState (W:=W)) : string :=
  match rqs with
  | [] => ""
  | (rq, sv, tm) :: rqs => let '(line, s') := serve_logged cfg rq sv tm s in (line +:+ access_log cfg rqs s')%string
  end.

(** Logging is transparent: the state is the one of the requests served without it. *)
Lemma serve_logged_state cfg rq sv tm s : (serve_logged cfg rq sv tm s).2 = (serve cfg rq sv s).2.
Proof. unfold serve_logged. by destruct (serve cfg rq sv s). Qed.

(** What a request that is refused leaves in the log is what its sender chose, the
    newline included: whatever the line of another request would be, there is a path
    whose one line is that of a request for [path1] and, after it, that line. *)
Lemma line_within_a_path wall m path1 ip1 st1 d1 wall2 m2 path2 ip st d :
  Printf_line wall (log_message m
    (path1 +:+ " " +:+ ip1 +:+ " " +:+ Itoa st1 +:+ " " +:+ Duration_String d1 +:+ newline +:+
     Format_log_stamp wall2 +:+ "[" +:+ m2 +:+ "] " +:+ path2) ip st d) =
  (Printf_line wall (log_message m path1 ip1 st1 d1) +:+ Printf_line wall2 (log_message m2 path2 ip st d))%string.
Proof. unfold Printf_line, log_message. by rewrite <- !string_app_assoc. Qed.
End Log.
