(* ===== verification/Database.v ===== *)
(** * Opening the database

    [internal/storage/db/db.go], [NewStore] of internal/storage/repositories/store.go and
    the first statements of both mains: which tables exist when a process goes on, and
    that they are the ones its repositories use. gorm and SQLite are an interface. *)
From S2P Require Import Prelude GoStrings Services.

(** ** The models of internal/storage/models *)

Inductive model :=
  | MPolicy | MDNSQuery | MDomainPolicy | MAction | MCategory | MCollection | MStatistics | MSystemState
  | MBlocklistSource | MBlocklistSnapshot | MBlocklistEntry | MAdminCredential | MResolver.
#[export] Instance model_eq_dec : EqDecision model.
Proof. solve_decision. Defined.

(** gorm: a handle on a file, the settings of its connection pool, a statement run for its
    effect, and [AutoMigrate], which creates the tables that are missing and the columns
    and indexes they lack. It may stop half way, at the model it could not migrate. *)
Record PoolSettings := { ps_MaxOpenConns : Z; ps_MaxIdleConns : Z; ps_ConnMaxLifetime : Z }.
Class Gorm := {
  gorm_DB : Type;
  gorm_Open : string → result string gorm_DB;
  gorm_pool : PoolSettings → gorm_DB → gorm_DB;
  gorm_Exec : string → gorm_DB → result string unit * gorm_DB;
  gorm_AutoMigrate : list model → gorm_DB → result string unit * gorm_DB;
  has_table : gorm_DB → model → bool;
  table_rows : gorm_DB → model → Z;
  pool_of : gorm_DB → PoolSettings;
}.
Class GormLaws (G : Gorm) : Prop := {
  pool_law : ∀ ps d, pool_of (gorm_pool ps d) = ps;
  pool_tables : ∀ ps d m, has_table (gorm_pool ps d) m = has_table d m ∧ table_rows (gorm_pool ps d) m = table_rows d m;
  pragma_law : ∀ v d m, let d' := (gorm_Exec ("PRAGMA " +:+ v) d).2 in
    has_table d' m = has_table d m ∧ table_rows d' m = table_rows d m ∧ pool_of d' = pool_of d;
  migrate_creates : ∀ ms d d' m, gorm_AutoMigrate ms d = (Ok tt, d') → m ∈ ms → has_table d' m = true;
  migrate_keeps : ∀ ms d r d' m, gorm_AutoMigrate ms d = (r, d') →
    (has_table d m = true → has_table d' m = true) ∧ table_rows d' m = table_rows d m ∧ pool_of d' = pool_of d;
}.

Section Init.
Context `{GO : Gorm}.

(** ** db.go *)

(** [migrate]. *)
Definition migrated : list model := [
  MPolicy; MDNSQuery; MDomainPolicy; MAction; MCategory; MCollection; MStatistics; MSystemState;
  MBlocklistSource; MBlocklistSnapshot; MBlocklistEntry; MAdminCredential; MResolver].
Definition migrate (d : gorm_DB) : result string unit * gorm_DB := gorm_AutoMigrate migrated d.

Definition sqlite_pool : PoolSettings := {| ps_MaxOpenConns := 1; ps_MaxIdleConns := 1; ps_ConnMaxLifetime := hour |}.
(** [InitDB]: [None] is [log.Fatalf], which ends the process; the error of the PRAGMA is
    dropped. *)
Definition InitDB (path : string) : option gorm_DB :=
  match gorm_Open path with
  | Err _ => None
  | Ok d =>
      let d := gorm_pool sqlite_pool d in
      let d := (gorm_Exec "PRAGMA journal_mode=WAL;" d).2 in
      match migrate d with
      | (Err _, _) => None
      | (Ok _, d) => Some d
      end
  end.

(** ** store.go *)

Inductive repository := RepoQueryLogs | RepoBlocklist | RepoStatistics | RepoSystemState | RepoPolicies | RepoCategories | RepoCollections | RepoAuth | RepoResolvers.
(** The fields of [Store], each a repository over the one handle. *)
Record RepoStore := { st_repos : list repository; st_DB : gorm_DB }.
Definition repos_NewStore (d : gorm_DB) : RepoStore := {|
  st_repos := [RepoQueryLogs; RepoBlocklist; RepoStatistics; RepoSystemState; RepoPolicies; RepoCategories; RepoCollections; RepoAuth; RepoResolvers];
  st_DB := d |}.
(** The models the statements of a repository name. *)
Definition statements (r : repository) : list model :=
  match r with
  | RepoQueryLogs => [MDNSQuery; MBlocklistEntry]
  | RepoBlocklist => [MBlocklistEntry; MBlocklistSnapshot; MBlocklistSource]
  | RepoStatistics => [MStatistics]
  | RepoSystemState => [MSystemState]
  | RepoPolicies => [MPolicy]
  | RepoCategories => [MCategory]
  | RepoCollections => [MCollection]
  | RepoAuth => [MAdminCredential]
  | RepoResolvers => [MResolver]
  end.

(** The first statements of both mains. *)
Definition open_store (getenv : string → string) : option RepoStore := repos_NewStore <$> InitDB (dbPath getenv).

Context {GL : GormLaws GO}.

(** A process that goes on has every table its repositories name, has lost no row of the
    database it opened, and runs one statement at a time on one connection. *)
Lemma open_store_ready getenv s : open_store getenv = Some s →
  (∀ r m, r ∈ st_repos s → m ∈ statements r → has_table (st_DB s) m = true) ∧
  ps_MaxOpenConns (pool_of (st_DB s)) = 1 ∧
  ∃ d, gorm_Open (dbPath getenv) = Ok d ∧ ∀ m, table_rows (st_DB s) m = table_rows d m ∧ (has_table d m = true → has_table (st_DB s) m = true).
Proof.
  unfold open_store, InitDB. destruct (gorm_Open _) as [d|] eqn:Eo; [|done].
  pose proof (pragma_law "journal_mode=WAL;" (gorm_pool sqlite_pool d)) as Hw. simpl in Hw |- *.
  change ("PRAGMA " +:+ "journal_mode=WAL;")%string with "PRAGMA journal_mode=WAL;"%string in Hw.
  set (d1 := (gorm_Exec _ _).2) in *. unfold migrate.
  destruct (gorm_AutoMigrate migrated d1) as [[[]|] d2] eqn:Em; [|done]. intros [= <-]. cbn [repos_NewStore st_DB st_repos].
  split; [|split].
  - intros r m _ Hm. apply (migrate_creates _ _ _ _ Em). destruct r; simpl in Hm; unfold migrated; set_solver.
  - destruct (migrate_keeps _ _ _ _ MPolicy Em) as (_ & _ & ->). destruct (Hw MPolicy) as (_ & _ & ->). by rewrite pool_law.
  - exists d. split; [done|]. intros m. destruct (migrate_keeps _ _ _ _ m Em) as (Ht & -> & _).
    destruct (Hw m) as (Hwt & -> & _). destruct (pool_tables sqlite_pool d m) as [Hp ->]. split; [done|].
    intros Hd. apply Ht. by rewrite Hwt, Hp.
Qed.

(** Two tables are made that no repository names. *)
Lemma unused_tables m : m ∈ migrated ∧ (∀ r, m ∉ statements r) ↔ m ∈ [MDomainPolicy; MAction].
Proof.
  split.
  - intros [_ H]. destruct m; try set_solver; exfalso;
      [apply (H RepoPolicies)|apply (H RepoQueryLogs)|apply (H RepoCategories)|apply (H RepoCollections)|apply (H RepoStatistics)
      |apply (H RepoSystemState)|apply (H RepoBlocklist)|apply (H RepoBlocklist)|apply (H RepoBlocklist)|apply (H RepoAuth)|apply (H RepoResolvers)]; set_solver.
  - intros [->|[->|Hm]%elem_of_cons]%elem_of_cons; [..|by apply not_elem_of_nil in Hm]; (split; [unfold migrated; set_solver|intros []; set_solver]).
Qed.
End Init.

(** ** A database on disk *)

(** A file that cannot be opened, an empty one and one that an earlier release made, where
    the table of collections is missing. *)
Record file := { fi_rows : list (model * Z); fi_pool : PoolSettings }.
Definition file_rows (f : file) (m : model) : Z := default 0 (first_match (λ p, if decide (p.1 = m) then Some p.2 else None) (fi_rows f)).
Definition file_has (f : file) (m : model) : bool := bool_decide (m ∈ (fi_rows f).*1).
#[local] Instance file_gorm : Gorm := {|
  gorm_DB := file;
  gorm_Open := λ path,
    if bool_decide (path = "/app/data/phantomdns.db"%string) then Ok {| fi_rows := []; fi_pool := {| ps_MaxOpenConns := 0; ps_MaxIdleConns := 2; ps_ConnMaxLifetime := 0 |} |}
    else if bool_decide (path = "/data/old.db"%string)
    then Ok {| fi_rows := [(MPolicy, 3); (MResolver, 2)]; fi_pool := {| ps_MaxOpenConns := 0; ps_MaxIdleConns := 2; ps_ConnMaxLifetime := 0 |} |}
    else Err "unable to open database file"%string;
  gorm_pool := λ ps f, {| fi_rows := fi_rows f; fi_pool := ps |};
  gorm_Exec := λ _ f, (Ok tt, f);
  gorm_AutoMigrate := λ ms f, (Ok tt, {| fi_rows := fi_rows f ++ ((λ m, (m, 0)) <$> ms); fi_pool := fi_pool f |});
  has_table := file_has; table_rows := file_rows; pool_of := fi_pool;
|}.

Lemma rows_appended l ms m : default 0 (first_match (λ p : model * Z, if decide (p.1 = m) then Some p.2 else None) (l ++ ((λ m, (m, 0)) <$> ms)))
  = default 0 (first_match (λ p, if decide (p.1 = m) then Some p.2 else None) l).
Proof.
  induction l as [|[m' n] l IH]; simpl; [|by destruct (decide _)].
  induction ms as [|m' ms IH]; simpl; [done|]. by destruct (decide _).
Qed.
#[local] Instance file_gorm_laws : GormLaws file_gorm.
Proof.
  split; try done.
  - intros ms f f' m [= <-] Hm. apply bool_decide_eq_true_2. simpl. rewrite fmap_app, elem_of_app. right.
    rewrite <- list_fmap_compose. apply list_elem_of_fmap. by exists m.
  - intros ms f r f' m [= <- <-]. split; [|split; [apply rows_appended|done]].
    intros H%bool_decide_eq_true. apply bool_decide_eq_true_2. simpl. rewrite fmap_app, elem_of_app. by left.
Qed.

Example open_store_ex :
  (λ s, (has_table (st_DB s) MCollection, table_rows (st_DB s) MPolicy)) <$> open_store (λ _, "/data/old.db"%string) = Some (true, 3) ∧
  is_Some (open_store (λ _, ""%string)) ∧ open_store (λ _, "/nowhere/x.db"%string) = None.
Proof. vm_compute. repeat split. by eexists. Qed.
