(* ===== verification/Startup.v ===== *)
(** * The two processes, from their environment

    [main] of cmd/controlplane/main.go as a whole, with [NewAPIHandler] of
    cmd/controlplane/handlers/handlers.go: from the environment, the configuration and the
    stored tables to the server of Router.v, and the opt-in of the fleet aggregator. And
    [main] of cmd/dataplane/main.go: where everything [dataplane_main] of Planes.v starts
    from is read. *)
From S2P Require Import Prelude GoStrings GoStrconv GoNet GoText GoTime Policy PolicyEngine DnsMsg Upstream Alert Threat GeoIp.
From S2P Require Import DnsEngine Blocklist Config Storage ControlPlane BlocklistApi ConfigIO Export.
From S2P Require Import Planes Auth Inventory Fleet Analytics AnalyticsApi Reports Catalog Router Tls Services Database.

Section Startup.
Context `{U : GoUnicode} `{TZ : TzDatabase} `{BL : BloomLib} `{RX : RegexpLib} `{TR : TransportEnv}.
Context `{D : BlocklistDb} `{F : Fetcher} `{B : Bcrypt} `{GL : GinRouterLaws} `{CL : CorsLib} `{GO : Gorm} `{C : CertLib}.
Context {TP : SqlTable PolicyRow} {TRs : SqlTable ResolverRow} {TS : SqlTable SystemState} {TA : SqlTable AdminCredential}.
Context {TC : SqlTable CategoryRow} {TLc : SqlTable CollectionRow} {TL : SqlTable LoggedQuery} {TSt : SqlTable StatRow}.
Context {W : Type} (close_mgr : UpstreamManager → W → W) (net : nat → rpc_outcome) (hash : string → string).
Abbreviation ApiState := (ApiState (W:=W)).
Abbreviation serve := (serve_request close_mgr net hash).
Abbreviation serve_all := (serve_all close_mgr net hash).

(** ** main.go *)

(** The tables the process finds, those of the handler's own state apart. *)
Record StoredTables := {
  sto_auth : table AdminCredential; sto_db : db; sto_categories : table CategoryRow; sto_collections : table CollectionRow;
  sto_log : table LoggedQuery; sto_stats : table StatRow;
}.

(** [NewAPIHandler], with the catalogue's two lists, and what the routes and the CORS
    policy are made with. *)
Definition NewAPIHandler (h : APIHandler (W:=W)) (t : StoredTables) (inv : option Inventory) (fleet : option FleetStore)
  (token : string) (origins : list string) : ApiConfig * ApiState :=
  ({| ac_categories := DefaultCategories; ac_collections := DefaultCollections; ac_fleetToken := token; ac_origins := origins |},
   {| as_auth := sto_auth t; as_handler := h; as_db := sto_db t; as_jobs := []; as_categories := sto_categories t;
      as_collections := sto_collections t; as_log := sto_log t; as_stats := sto_stats t; as_inventory := inv; as_fleet := fleet |}).

(** From [inventory.New] to [RegisterRoutes]; the inventory's refreshes ([inv_Start] of
    Inventory.v) run beside the server. *)
Definition api_start (getenv : string → string) (now : Z) (newID : nat → string) (cfg : DataPlaneConfig)
  (h : APIHandler (W:=W)) (t : StoredTables) : option (ApiConfig * ApiState) :=
  match controlplane_main close_mgr net now newID cfg h with
  | None => None
  | Some h =>
      let inv := inv_New (inv_ConfigFromEnv getenv) in
      let fleetCfg := fleet_LoadConfig getenv in
      Some (NewAPIHandler h t (Some inv) (fleet_setup fleetCfg) (fc_HeartbeatToken fleetCfg) (cors_origins getenv))
  end.

(** The whole of [main]: nothing when it ends in [log.Fatalf]. *)
Definition controlplane_process (getenv : string → string) (now : Z) (newID : nat → string) (rand : string) (io : io_outcomes)
  (cfg : Config) (h : APIHandler (W:=W)) (t : StoredTables) (fs : files) : option (listener * ApiConfig * ApiState) :=
  match open_store getenv with
  | None => None
  | Some _ =>
      match api_start getenv now newID (c_DataPlane cfg) h t with
      | None => None
      | Some (ac, s) =>
          match (serve_listener now rand io (cp_ListenAddr (c_ControlPlane cfg)) (cp_TLS (c_ControlPlane cfg)) fs).1 with
          | None => None
          | Some l => Some (l, ac, s)
          end
      end
  end.

(** ** What never changes while it runs *)

(** No handler makes a fleet store or drops one. *)
Lemma handle_fleet cfg e ps rq sv (s : ApiState) :
  as_fleet (handle close_mgr net hash cfg e ps rq sv s).2 = None ↔ as_fleet s = None.
Proof.
  destruct e; cbn [handle]; unfold reads, on_client, on_handler;
    repeat match goal with
    | |- context [let '(_, _) := ?x in _] => destruct x eqn:?
    | |- context [match ?x with Some _ => _ | None => _ end] => lazymatch x with as_fleet _ => fail | _ => destruct x end
    | |- context [match ?x with AbortWithStatus _ => _ | Next => _ end] => destruct x
    end; try done.
  unfold PostFleetHeartbeat in *. destruct (as_fleet s); repeat case_match; simplify_eq/=; done.
Qed.

Lemma serve_fleet cfg rq sv (s : ApiState) : as_fleet (serve cfg rq sv s).2 = None ↔ as_fleet s = None.
Proof.
  unfold serve_request. repeat case_match; try done; apply handle_fleet.
Qed.
Lemma serve_all_fleet cfg rqs (s : ApiState) : as_fleet (serve_all cfg rqs s) = None ↔ as_fleet s = None.
Proof.
  revert s. induction rqs as [|p rqs IH]; intros s; [done|].
  unfold Router.serve_all in *. cbn [foldl]. by rewrite IH, serve_fleet.
Qed.

Lemma fleet_setup_None fc : fleet_setup fc = None ↔ fc_Enabled fc = false ∨ fc_HeartbeatToken fc = ""%string.
Proof. unfold fleet_setup. destruct (fc_Enabled fc); case_bool_decide; naive_solver. Qed.

(** The fleet aggregator is off unless it was asked for and given a token: from any other
    environment, whatever the server has been sent since, there is no store and no
    request is served by a handler of the fleet. *)
Lemma fleet_off_by_default getenv now newID cfg h t ac s rqs m path r ps :
  getenv "FLEET_ENABLED"%string ≠ "true"%string ∨ getenv "FLEET_HEARTBEAT_TOKEN"%string = ""%string →
  api_start getenv now newID cfg h t = Some (ac, s) →
  let s' := serve_all ac rqs s in
  as_fleet s' = None ∧
  (gin_find (RegisterRoutes (bool_decide (is_Some (as_fleet s')))) m path = Some (r, ps) →
   rt_Handler r ≠ EpPostFleetHeartbeat ∧ rt_Handler r ≠ EpGetFleet).
Proof.
  intros He Hs. assert (as_fleet s = None) as Hf.
  { unfold api_start in Hs. destruct (controlplane_main _ _ _ _ _ _); [|done]. unfold NewAPIHandler in Hs. simplify_eq/=.
    apply fleet_setup_None. unfold fleet_LoadConfig. cbn [fc_Enabled fc_HeartbeatToken].
    destruct He as [He| ->]; [left|by right]. by apply bool_decide_eq_false_2. }
  assert (as_fleet (serve_all ac rqs s) = None) as Hf' by (by apply serve_all_fleet). split; [done|].
  rewrite Hf', bool_decide_eq_false_2 by (by intros [??]). intros (Hr & _)%gin_find_sound.
  assert (forallb (λ r, bool_decide (rt_Handler r ≠ EpPostFleetHeartbeat) && bool_decide (rt_Handler r ≠ EpGetFleet))
    (RegisterRoutes false) = true) as H by (vm_compute; reflexivity).
  rewrite forallb_forall in H. specialize (H r ltac:(by apply list_elem_of_In)).
  apply andb_prop in H as [H1%bool_decide_eq_true H2%bool_decide_eq_true]. done.
Qed.

(** With both, the gate of the fleet's routes is never the one that answers 503: it has
    the token the store was made with. *)
Lemma fleet_on getenv now newID cfg h t ac s rqs :
  api_start getenv now newID cfg h t = Some (ac, s) → as_fleet (serve_all ac rqs s) ≠ None →
  ac_fleetToken ac = getenv "FLEET_HEARTBEAT_TOKEN"%string ∧ ac_fleetToken ac ≠ ""%string ∧
  ∀ header, RequireHeartbeatToken (ac_fleetToken ac) header ≠ AbortWithStatus 503.
Proof.
  intros Hs Hf. rewrite serve_all_fleet in Hf. unfold api_start in Hs.
  destruct (controlplane_main _ _ _ _ _ _); [|done]. unfold NewAPIHandler in Hs. simplify_eq/=.
  rewrite fleet_setup_None in Hf. cbn [fleet_LoadConfig fc_Enabled fc_HeartbeatToken] in *.
  split; [done|]. assert (getenv "FLEET_HEARTBEAT_TOKEN"%string ≠ ""%string) as Ht by naive_solver. split; [done|].
  intros header. unfold RequireHeartbeatToken. rewrite bool_decide_eq_false_2 by done. by destruct (_ || _).
Qed.

(** A process that came up has a database with every table it uses, listens as its
    configuration says, and serves the whole API. *)
Lemma process_up getenv now newID rand io cfg h t fs l ac s :
  controlplane_process getenv now newID rand io cfg h t fs = Some (l, ac, s) →
  is_Some (open_store getenv) ∧ api_start getenv now newID (c_DataPlane cfg) h t = Some (ac, s) ∧
  (TLS_Mode (cp_TLS (c_ControlPlane cfg)) = TLSModeDisabled ↔ l = HTTP (cp_ListenAddr (c_ControlPlane cfg))).
Proof.
  unfold controlplane_process. destruct (open_store getenv); [|done].
  destruct (api_start _ _ _ _ _ _) as [[ac' s']|]; [|done].
  unfold serve_listener. destruct (TLS_Mode _) eqn:Em; cbn [fst].
  - intros [= <- <- <-]. split; [by eexists|]. done.
  - intros [= <- <- <-]. split; [by eexists|]. done.
  - destruct (EnsureSelfSigned _ _ _ _ _ _) as [[[c k]|] fs']; cbn [fst]; [|done].
    intros [= <- <- <-]. split; [by eexists|]. done.
Qed.
End Startup.

(** ** The data plane *)

Section DataPlane.
Context `{U : GoUnicode} `{TZ : TzDatabase} `{BL : BloomLib} `{RX : RegexpLib} `{TR : TransportEnv} `{TE : ThreatEnv}.
Context `{D : BlocklistDb} `{F : Fetcher} `{GO : Gorm} (hash : string → string) {TP : SqlTable PolicyRow}.

(** What the process finds outside its environment: the files, the fate of dials and
    binds, and what names it in syslog and heartbeats. *)
Record Host := {
  ho_policies : string → result load_error (list Policy); ho_mmdb : string → option (IP → option mmRecord); ho_bundle : string;
  ho_dial : string → string → bool; ho_bind : string → string → bool;      (* network and address *)
  ho_hostname : string; ho_pid : Z; ho_build : option string;
}.

Definition syslog_sink (ho : Host) (cfg : DataPlaneConfig) : option syslogSink :=
  (newSyslogSink (ho_dial ho) (ho_hostname ho) (ho_pid ho) (cf_SyslogAddr cfg)).2.
(** [inv] is the inventory as the alerter finds it, which its refreshes go on changing. *)
Definition boot_env (ho : Host) (getenv : string → string) (now : Z) (cfg : DataPlaneConfig) (inv : Inventory) : BootEnv := {|
  bo_now := now; bo_statistics := true; bo_syslog_ok := bool_decide (is_Some (syslog_sink ho cfg));
  bo_alert := ConfigFromEnv ParseDuration (getenv "DEVICE_ALERT_THRESHOLD"%string) (getenv "DEVICE_ALERT_WINDOW"%string);
  bo_file := LoadPoliciesFromFile (ho_policies ho) (env_string getenv "PHANTOM_POLICIES" "/app/configs/policies.json");
  bo_bundled := BundledBlocklistEnabled getenv; bo_bundle := ho_bundle ho;
  bo_geo := let g := cf_GeoIP cfg in FromConfig (ho_mmdb ho) (gi_DBPath g) (gi_BlockedASNs g) (gi_BlockedCountries g) (gi_Block g);
  bo_devices := Some (resolver_Lookup (Some inv));
  bo_listeners := ho_bind ho "udp" (cf_ListenAddr cfg) && ho_bind ho "tcp" (cf_ListenAddr cfg) |}.

(** [main] up to the signal, with its services; the gRPC server that cannot listen ends
    the process, the metrics server that cannot is only logged, which the last component
    tells. *)
Definition dataplane_process (ho : Host) (getenv : string → string) (now : Z) (cfg : DataPlaneConfig) (inv : Inventory)
  (d : db) (t : table PolicyRow) : option (Engine * db * Services * bool) :=
  match open_store getenv with
  | None => None
  | Some _ =>
      match dataplane_main hash (boot_env ho getenv now cfg inv) cfg d t with
      | None => None
      | Some (e, d) =>
          if ho_bind ho "tcp" (grpc_listen_addr (cf_GRPCServer cfg))
          then Some (e, d, dataplane_services now (ho_build ho) (ho_dial ho) (ho_hostname ho) (ho_pid ho) getenv cfg,
                     ho_bind ho "tcp" (cf_MetricsAddr cfg))
          else None
      end
  end.

Lemma dataplane_main_exporter b cfg d t e d' :
  dataplane_main hash b cfg d t = Some (e, d') → e_exporter e = NewExporter (bo_syslog_ok b) (cf_SyslogAddr cfg) (cf_EventWebhookURL cfg).
Proof.
  unfold dataplane_main, NewDNSEngine. destruct (NewUpstreamManager _ _ _) as [mgr|]; [|done].
  destruct (bo_listeners b); [|done]. intros [= <- _]. by destruct (bo_geo b) as [[]|].
Qed.

(** Events are queued exactly if there is a sink to send them to. *)
Lemma process_exports ho getenv now cfg inv d t e d' sv metrics :
  dataplane_process ho getenv now cfg inv d t = Some (e, d', sv, metrics) → is_Some (e_exporter e) ↔ sv_sinks sv ≠ [].
Proof.
  unfold dataplane_process. destruct (open_store getenv); [|done]. destruct (dataplane_main _ _ _ _ _) as [[e0 d0]|] eqn:E; [|done].
  destruct (ho_bind _ _ _); [|done]. intros [= <- <- <- <-]. rewrite (dataplane_main_exporter _ _ _ _ _ _ E).
  cbn [dataplane_services sv_sinks boot_env bo_syslog_ok]. unfold NewExporter, export_sinks, syslog_sink.
  destruct (newSyslogSink _ _ _ _) as [q [sk|]]; cbn [snd].
  - rewrite (bool_decide_eq_true_2 (is_Some (Some sk))) by done. repeat case_bool_decide; simpl; split; try done; by intros [? [=]].
  - rewrite (bool_decide_eq_false_2 (is_Some None)) by (by intros [? ?]). repeat case_bool_decide; simpl; split; try done; by intros [? [=]].
Qed.

(** The process ends when one of its addresses is taken, but for that of the metrics. *)
Lemma process_needs_addresses ho getenv now cfg inv d t :
  (∃ network addr, (network, addr) ∈ [("udp", cf_ListenAddr cfg); ("tcp", cf_ListenAddr cfg); ("tcp", grpc_listen_addr (cf_GRPCServer cfg))]%string ∧
     ho_bind ho network addr = false) →
  dataplane_process ho getenv now cfg inv d t = None.
Proof.
  intros (n & a & Hin & Hb). unfold dataplane_process. destruct (open_store getenv); [|done].
  destruct (dataplane_main _ _ _ _ _) as [[e d0]|] eqn:E; [|done]. unfold dataplane_main in E.
  destruct (NewDNSEngine _ _ _ _ _ _ _); [|done]. cbn [boot_env bo_listeners] in E.
  destruct (ho_bind ho "udp" _) eqn:E1; [|done]. destruct (ho_bind ho "tcp" (cf_ListenAddr cfg)) eqn:E2; [|done].
  destruct (ho_bind ho "tcp" (grpc_listen_addr _)) eqn:E3; [|done].
  rewrite !elem_of_cons in Hin. destruct Hin as [[= -> ->]|[[= -> ->]|[[= -> ->]|Hin]]]; [congruence..|by apply not_elem_of_nil in Hin].
Qed.
End DataPlane.
