(* ===== verification/ServerRuns.v ===== *)
(** * Concrete runs of the API server

    A router that takes the first matching route, the state of ApiRuns.v with one
    administrator and a fleet store, and the theorems of Router.v at concrete requests. *)
From S2P Require Import Prelude GoStrings GoUtf8 GoNet GoText GoTime Policy PolicyEngine DnsMsg Upstream Blocklist DnsEngine EngineSpec.
From S2P Require Import Storage ControlPlane ControlSpec BlocklistApi ConfigIO Auth ApiRuns Inventory Fleet Analytics AnalyticsApi Reports Catalog Router AccessLog Tls Services Database Startup.

#[local] Existing Instance run_unicode.
#[local] Existing Instance run_tz.
#[local] Existing Instance run_bloom.
#[local] Existing Instance run_regexp.
#[local] Existing Instance run_transport.
#[local] Existing Instance run_blocklists.
#[local] Existing Instance run_fetcher.
#[local] Existing Instance run_bcrypt.
#[local] Existing Instance policy_table.
#[local] Existing Instance resolver_table.
#[local] Existing Instance state_table.
#[local] Existing Instance admin_table.
#[local] Existing Instance admin_table_laws.
#[local] Instance category_table : SqlTable CategoryRow := list_table.
#[local] Instance collection_table : SqlTable CollectionRow := list_table.
#[local] Instance log_table : SqlTable LoggedQuery := list_table.
#[local] Instance stats_table : SqlTable StatRow := list_table.

Definition try_route (m path : string) (r : route) : option (route * list (string * string)) :=
  if bool_decide (rt_Method r = m) then (λ ps, (r, ps)) <$> match_path (rt_Path r) path else None.
#[local] Instance first_router : GinRouter :=
  {| gin_find := λ rs m path, first_match (try_route m path) rs; gin_redirect := λ _ _ _, None |}.
#[local] Instance first_router_laws : GinRouterLaws first_router.
Proof.
  split; unfold gin_find, first_router.
  - intros rs m path r ps (l1 & a & l2 & -> & E & _)%first_match_Some. unfold try_route in E.
    case_bool_decide; [|done]. destruct (match_path _ _) eqn:Em; [|done]. simplify_eq/=.
    split; [|done]. apply elem_of_app. right. by left.
  - intros rs m path r Hr Hm [ps Hp]. destruct (first_match _ rs) eqn:E; [done|].
    apply first_match_None in E. rewrite Forall_forall in E. specialize (E r Hr). unfold try_route in E.
    by rewrite bool_decide_eq_true_2, Hp in E.
Qed.
#[local] Instance no_cors : CorsLib := {| cors_abort := λ origins _ origin,
  if bool_decide (origin = ""%string) || bool_decide (origin ∈ origins) then None else Some 403 |}.

Definition no_bodies : bodies := {|
  bd_setup := None; bd_login := None; bd_engine := Err "EOF"; bd_createResolver := Err "EOF"; bd_updateResolver := Err "EOF";
  bd_createPolicy := Err "EOF"; bd_updatePolicy := Err "EOF"; bd_createBlocklist := Err "EOF"; bd_updateBlocklist := Err "EOF";
  bd_toggle := Err "EOF"; bd_import := Err "EOF"; bd_heartbeat := Some (ex_hb "a" "A") |}%string.
Definition ask (m path header : string) : request := {|
  rq_Method := m; rq_Path := path; rq_Authorization := header; rq_Origin := ""; rq_Query := λ _, ""%string; rq_Body := no_bodies |}.
Definition at_ten : serving := {| sv_now := 10 * second; sv_uuid := "u"; sv_salt := "s"; sv_quick := true; sv_commit_ok := true |}.

Definition server_cfg : ApiConfig := {|
  ac_categories := DefaultCategories; ac_collections := DefaultCollections; ac_fleetToken := "s3cret";
  ac_origins := cors_origins (λ _, ""%string) |}.
Definition server_state : ApiState (W:=unit) := {|
  as_auth := table_of [{| ad_ID := 1; ad_PasswordHash := "h"; ad_APIKey := "k3y" |}] eq_refl;
  as_handler := run_h; as_db := {| t_entries := []; t_snapshots := []; t_sources := [] |}; as_jobs := [];
  as_categories := table_of [] eq_refl; as_collections := table_of [] eq_refl; as_log := table_of [] eq_refl;
  as_stats := table_of [] eq_refl; as_inventory := None; as_fleet := Some (NewStore 0) |}.
Abbreviation run_serve := (serve_request run_close run_net id).

(** Nobody's requests: no header, a wrong key, another set-up, the fleet's token. *)
Definition outsiders : list (request * serving) := [
  (ask "DELETE" "/api/v1/dns/resolvers/a" "", at_ten); (ask "POST" "/api/v1/dns/engine" "Bearer nope", at_ten);
  (ask "POST" "/api/v1/auth/setup" "", at_ten); (ask "POST" "/api/v1/fleet/heartbeat" "Bearer s3cret", at_ten)].

Lemma outsiders_change_nothing_witness :
  ∃ f, serve_all run_close run_net id server_cfg outsiders server_state = set_fleet f server_state ∧
       (f = as_fleet server_state ∨ ∃ p, p ∈ outsiders ∧ bears_token server_cfg p.1).
Proof.
  apply (outsiders_change_nothing run_close run_net id server_cfg outsiders server_state); [vm_compute; discriminate|].
  intros p Hp (a & Ha & E). apply list_elem_of_singleton in Ha as ->. unfold outsiders in Hp. rewrite !elem_of_cons in Hp.
  destruct Hp as [->|[->|[->|[->|Hp]]]]; [vm_compute in E; discriminate E..|by apply not_elem_of_nil in Hp].
Defined.

Lemma server_readable : readable (as_auth server_state).
Proof.
  intros w. cbn [sql_select admin_table list_table]. change (proj1_sig (as_auth server_state)) with (rows (as_auth server_state)).
  assert (rows (as_auth server_state) = [{| ad_ID := 1; ad_PasswordHash := "h"; ad_APIKey := "k3y" |}]) as -> by (vm_compute; reflexivity).
  rewrite filter_cons. case_decide; reflexivity.
Qed.
Definition delete_b : request := ask "DELETE" "/api/v1/dns/resolvers/b" "Bearer k3y".
Lemma authorised_reaches_handler_witness :
  run_serve server_cfg delete_b at_ten server_state =
  on_handler (DeleteResolver run_close run_net "b") server_state.
Proof.
  refine (authorised_reaches_handler run_close run_net id server_cfg delete_b at_ten server_state
    (DELETE (group "dns" [Lit "resolvers"; Par "id"]) EpDeleteResolver) [("id", "b")]%string _ _ _ _ _ _).
  - apply (bool_decide_unpack _). vm_compute. exact I.
  - reflexivity.
  - vm_compute. reflexivity.
  - exists {| ad_ID := 1; ad_PasswordHash := "h"; ad_APIKey := "k3y" |}. split; [apply list_elem_of_singleton; reflexivity|reflexivity].
  - exact server_readable.
  - reflexivity.
Defined.

Example server_ex :
  (λ p, (run_serve server_cfg p.1 p.2 server_state).1) <$> outsiders = [401; 401; 409; 200] ∧
  (run_serve server_cfg delete_b at_ten server_state).1 = 200 ∧
  (run_serve server_cfg (ask "GET" "/api/v1/nothing" "Bearer k3y") at_ten server_state).1 = 404 ∧
  (run_serve server_cfg (ask "GET" "/api/v1/nothing" "") at_ten server_state).1 = 401.
Proof. vm_compute. repeat split. Qed.

(** ** The request log *)

Definition seen_at (ip : string) (t : Z) : timing := {| tm_ClientIP := ip; tm_start := t; tm_end := t + 3 * millisecond |}.
Abbreviation run_log := (access_log run_close run_net id (λ t, t)).
(** A request of a stranger whose path, "%20" and "%0A" decoded, holds the rest of one
    line and the beginning of another. *)
Definition forger : request := ask "DELETE"
  ("/api/v1/dns/resolvers/b 10.0.0.1 200 3ms" +:+ newline +:+ Format_log_stamp (10 * second) +:+ "[DELETE] /x") "".

(** The log of this one refused request, which changes nothing, is the log of an
    administrator who deletes a resolver from another address and then of a refusal. *)
Lemma refused_request_forges_log :
  run_log server_cfg [(forger, at_ten, seen_at "192.168.1.66" (10 * second))] server_state =
  run_log server_cfg [(delete_b, at_ten, seen_at "10.0.0.1" (10 * second));
                      (ask "DELETE" "/x" "", at_ten, seen_at "192.168.1.66" (10 * second))] server_state ∧
  run_serve server_cfg forger at_ten server_state = (401, server_state) ∧
  (run_serve server_cfg delete_b at_ten server_state).1 = 200.
Proof.
  split; [vm_compute; reflexivity|]. split; [|vm_compute; reflexivity].
  reflexivity.
Qed.
Example run_log_ex : run_log server_cfg [(delete_b, at_ten, seen_at "10.0.0.1" (10 * second))] server_state =
  ("1970/01/01 00:00:10 [DELETE] /api/v1/dns/resolvers/b 10.0.0.1 200 3ms" +:+ newline)%string.
Proof. vm_compute. reflexivity. Qed.

(** ** Starts of the control plane *)

Definition fleet_env (token v : string) : string :=
  if bool_decide (v = "FLEET_ENABLED"%string) then "true" else if bool_decide (v = "FLEET_HEARTBEAT_TOKEN"%string) then token else "".
Definition start_tables : StoredTables := {|
  sto_auth := as_auth server_state; sto_db := as_db server_state; sto_categories := as_categories server_state;
  sto_collections := as_collections server_state; sto_log := as_log server_state; sto_stats := as_stats server_state |}.
Definition start_with (env : string → string) :=
  api_start run_close run_net env 3 run_ids (run_config false false) (run_handler run_off two_resolvers) start_tables.
Definition heartbeat_answer (env : string → string) : option Z :=
  (λ p, (run_serve p.1 (ask "POST" "/api/v1/fleet/heartbeat" "Bearer s3cret") at_ten p.2).1) <$> start_with env.
Example start_ex :
  heartbeat_answer (fleet_env "s3cret") = Some 200 ∧ heartbeat_answer (fleet_env "other") = Some 401 ∧
  heartbeat_answer (fleet_env "") = Some 404 ∧ heartbeat_answer (λ _, ""%string) = Some 404.
Proof. vm_compute. repeat split. Qed.
