(* ===== verification/Overlap.v ===== *)
(** * Requests that overlap

    Every request of the control plane runs in a goroutine of its own. Its program is a
    tree of atomic actions on the shared state: one statement of the database, whose
    only connection runs one at a time, or one call to the data plane. Here: the
    programs, their execution alone and in a pool where any of them may act next, and
    the rely-guarantee rules by which a property of every interleaving is shown of
    each program on its own. *)
From S2P Require Import Prelude.

(** ** Programs *)

Section Programs.
Context {S : Type}.

Inductive prog (A : Type) : Type :=
| Ret (a : A)
| Step (f : S → S) (k : S → prog A).
Arguments Ret {A} a.
Arguments Step {A} f k.

Fixpoint prog_bind_def {A B} (k : A → prog B) (p : prog A) : prog B :=
  match p with Ret a => k a | Step f h => Step f (λ s, prog_bind_def k (h s)) end.
#[global] Instance prog_ret : MRet prog := λ A, Ret.
#[global] Instance prog_bind : MBind prog := λ A B, prog_bind_def.

(** One action: what it answers, and the state it leaves. *)
Definition atomically {A} (f : S → A * S) : prog A := Step (λ s, (f s).2) (λ s, Ret (f s).1).
(** One action that only reads. *)
Definition reading {A} (f : S → A) : prog A := atomically (λ s, (f s, s)).

(** With nobody else at work. *)
Fixpoint alone {A} (p : prog A) (s : S) : A * S :=
  match p with Ret a => (a, s) | Step f k => alone (k s) (f s) end.

Lemma alone_bind_def {A B} (p : prog A) (k : A → prog B) s :
  alone (prog_bind_def k p) s = alone (k (alone p s).1) (alone p s).2.
Proof. revert s. induction p as [a|f h IH]; intros s; [done|]. apply IH. Qed.
Lemma alone_bind {A B} (p : prog A) (k : A → prog B) s :
  alone (p ≫= k) s = alone (k (alone p s).1) (alone p s).2.
Proof. apply alone_bind_def. Qed.

(** ** The pool *)

(** The current state and the earlier ones, the latest first. *)
Abbreviation history := (S * list S)%type.
Definition advance (f : S → S) (c : history) : history := (f c.1, c.1 :: c.2).
Definition seen (c : history) : list S := c.1 :: c.2.

Inductive overlap {A} : list (prog A) * history → list (prog A) * history → Prop :=
| overlap_at ps1 f k ps2 c : overlap (ps1 ++ Step f k :: ps2, c) (ps1 ++ k c.1 :: ps2, advance f c).

(** An execution by a schedule: whose action is next. *)
Fixpoint schedule {A} (turns : list nat) (ps : list (prog A)) (s : S) : list (prog A) * S :=
  match turns with
  | [] => (ps, s)
  | i :: turns =>
      match ps !! i with
      | Some (Step f k) => schedule turns (<[i := k s]> ps) (f s)
      | _ => schedule turns ps s
      end
  end.

Lemma schedule_overlaps {A} turns : ∀ (ps : list (prog A)) s past,
  ∃ past', rtc overlap (ps, (s, past)) ((schedule turns ps s).1, ((schedule turns ps s).2, past')).
Proof.
  induction turns as [|i turns IH]; intros ps s past; [by exists past|]. cbn [schedule].
  destruct (ps !! i) as [[a|f k]|] eqn:E; [apply IH| |apply IH].
  destruct (IH (<[i:=k s]> ps) (f s) (s :: past)) as [past' H]. exists past'. eapply rtc_l; [|exact H].
  rewrite insert_take_drop by (by eapply lookup_lt_Some). rewrite <- (take_drop_middle ps i _ E) at 1.
  apply (overlap_at _ f k _ (s, past)).
Qed.

(** ** Rely and guarantee *)

Section Guarantee.
Context {A : Type} (G : history → history → Prop) `{!PreOrder G}.

(** From a history on, whatever the others do within [G], every action of the program
    is within [G], and when it is done [Q] holds and goes on holding. *)
Fixpoint obeys (Q : A → history → Prop) (p : prog A) (c : history) : Prop :=
  ∀ c', G c c' →
    match p with
    | Ret a => Q a c'
    | Step f k => G c' (advance f c') ∧ obeys Q (k c'.1) (advance f c')
    end.

Lemma obeys_ret Q a c : (∀ c', G c c' → Q a c') → obeys Q (Ret a) c.
Proof. done. Qed.
Lemma obeys_later Q p c c' : obeys Q p c → G c c' → obeys Q p c'.
Proof. destruct p; cbn; intros H Hc d Hd; apply H; by transitivity c'. Qed.
Lemma obeys_mono Q Q' p c : (∀ a c, Q a c → Q' a c) → obeys Q p c → obeys Q' p c.
Proof.
  intros HQ. revert c. induction p as [a|f k IH]; intros c H c' Hc; [by apply HQ, H|]. destruct (H c' Hc). by split; [|apply IH].
Qed.
Lemma obeys_done Q a c : obeys Q (Ret a) c → Q a c.
Proof. cbn. intros H. by apply H. Qed.
Lemma obeys_act {B} Q (f : S → B * S) (k : B → prog A) c :
  (∀ c', G c c' → G c' (advance (λ s, (f s).2) c') ∧ obeys Q (k (f c'.1).1) (advance (λ s, (f s).2) c')) →
  obeys Q (atomically f ≫= k) c.
Proof. done. Qed.

Context (Hread : ∀ c, G c (advance id c)).

(** A read is within any guarantee that lets time pass. *)
Lemma obeys_read {B} Q (f : S → B) (k : B → prog A) c :
  (∀ c', G c c' → obeys Q (k (f c'.1)) (advance id c')) → obeys Q (reading f ≫= k) c.
Proof. intros H. apply obeys_act. intros c' Hc. split; [apply (Hread c')|exact (H c' Hc)]. Qed.
Lemma reads_later c c' : G c c' → G c (advance id c').
Proof. intros H. by transitivity c'. Qed.
End Guarantee.

(** A program that ends in another. *)
Lemma obeys_bind {A B} G `{!PreOrder G} (Q : B → history → Prop) (p : prog A) (k : A → prog B) c :
  obeys G (λ a c, obeys G Q (k a) c) p c → obeys G Q (p ≫= k) c.
Proof.
  revert c. induction p as [a|f h IH]; intros c H.
  - apply (H c). reflexivity.
  - intros c' Hc. destruct (H c' Hc) as [H1 H2]. split; [exact H1|]. by apply IH.
Qed.

Lemma overlap_obeys_pool {A} G `{!PreOrder G} (Qs : list (A → history → Prop)) (x y : list (prog A) * history) :
  rtc overlap x y → Forall2 (λ Q p, obeys G Q p x.2) Qs x.1 → G x.2 y.2 ∧ Forall2 (λ Q p, obeys G Q p y.2) Qs y.1.
Proof.
  induction 1 as [z|x y z Hxy _ IH]; intros Ho; [by split|].
  destruct Hxy as [ps1 f k ps2 c]. cbn [fst snd] in *.
  apply Forall2_app_inv_r in Ho as (Q1 & Q2' & H1 & (Q & Q2 & HQ & H2 & ->)%Forall2_cons_inv_r & ->).
  destruct (HQ c ltac:(reflexivity)) as [Hg Hk]. destruct IH as [IH1 IH2].
  - apply Forall2_app; [|constructor; [exact Hk|]]; (eapply Forall2_impl; [eassumption|]);
      intros Q' p' Hq; exact (obeys_later G Q' p' c _ Hq Hg).
  - split; [by transitivity (advance f c)|exact IH2].
Qed.

(** The programs of a pool that each obey the guarantee still do after any interleaving,
    and the pool as a whole stays within it. *)
Theorem overlap_obeys {A} G `{!PreOrder G} (Qs : list (A → history → Prop)) (ps ps' : list (prog A)) c c' :
  rtc overlap (ps, c) (ps', c') → Forall2 (λ Q p, obeys G Q p c) Qs ps →
  G c c' ∧ Forall2 (λ Q p, obeys G Q p c') Qs ps'.
Proof. exact (overlap_obeys_pool G Qs (ps, c) (ps', c')). Qed.

(** The answer of a program that is done. *)
Lemma overlap_answer {A} G `{!PreOrder G} (Qs : list (A → history → Prop)) (ps ps' : list (prog A)) c c' i a :
  rtc overlap (ps, c) (ps', c') → Forall2 (λ Q p, obeys G Q p c) Qs ps → ps' !! i = Some (Ret a) →
  ∃ Q, Qs !! i = Some Q ∧ Q a c'.
Proof.
  intros Hr Ho Hi. destruct (overlap_obeys G Qs ps ps' c c' Hr Ho) as [_ H].
  destruct (Forall2_lookup_r _ _ _ _ _ H Hi) as (Q & HQ & Hq). exists Q. split; [done|]. by apply (obeys_done G Q a c').
Qed.
End Programs.
Arguments prog S A : clear implicits.
Arguments Ret {S A} a.
Arguments Step {S A} f k.
Abbreviation history S := (S * list S)%type.
