(* ===== verification/Concurrent.v ===== *)
(** * The control plane under concurrent requests

    The handlers of ControlPlane.v and Auth.v action by action, as the goroutines of
    overlapping requests run them: each program, run alone, is its handler, and over
    every interleaving there is one administrator at most, the store keeps only policies
    the engine accepts, and the data plane asks a list of resolvers that the store held.
    Below, interleavings that break what the handlers promise one by one. *)
From S2P Require Import Prelude GoStrings GoUtf8 GoNet Policy PolicyEngine PolicySpec DnsMsg Upstream Threat.
From S2P Require Import Blocklist Config DnsEngine Json Storage ControlPlane ControlSpec BlocklistApi Auth Overlap.

(** ** Set-up *)

Section SetupProg.
Context {TA : SqlTable AdminCredential} {LA : SqlTableLaws TA} `{D : BlocklistDb} `{B : Bcrypt}.

Abbreviation auth_state := (table AdminCredential * db)%type.

(** The lists that were asked for, one statement each. *)
Fixpoint setup_lists (ws : list string) (bls : list setupBlocklistRequest) : prog auth_state (list string) :=
  match bls with
  | [] => mret ws
  | bl :: bls =>
      ws ← atomically (λ s : auth_state, let '(ws, d) := setup_blocklist (ws, s.2) bl in (ws, (s.1, d)));
      setup_lists ws bls
  end.

Definition Setup_prog (salt uuid : string) (req : option setupRequest) : prog auth_state (response setupData) :=
  let failed := mret (err_response StatusInternalServerError (ApiMsg "internal error")) in
  setup ← reading (λ s : auth_state, IsSetup s.1);
  match setup with
  | Err _ => failed
  | Ok true => mret (err_response StatusConflict (ApiMsg "setup already completed"))
  | Ok false =>
      match bind_setup req with
      | None => mret (err_response StatusBadRequest (ApiMsg "password is required (minimum 8 characters)"))
      | Some req =>
          match GenerateFromPassword salt (sr_Password req) with
          | None => failed
          | Some hash =>
              let refused := mret (err_response StatusInternalServerError (ApiMsg "failed to create admin")) in
              again ← reading (λ s : auth_state, IsSetup s.1);
              match again with
              | Ok false =>
                  created ← atomically (λ s : auth_state,
                    match sql_insert {| ad_ID := 1; ad_PasswordHash := hash; ad_APIKey := uuid |} s.1 with
                    | Ok t => (true, (t, s.2)) | Err _ => (false, s) end);
                  if created : bool then
                    warnings ← setup_lists [] (sr_Blocklists req);
                    mret (ok_response StatusOK {| sd_token := uuid; sd_warnings := warnings |})
                  else refused
              | _ => refused
              end
          end
      end
  end.

Lemma setup_lists_alone bls : ∀ ws t d,
  alone (setup_lists ws bls) (t, d) = ((foldl setup_blocklist (ws, d) bls).1, (t, (foldl setup_blocklist (ws, d) bls).2)).
Proof.
  induction bls as [|bl bls IH]; intros ws t d; [done|]. cbn [setup_lists foldl].
  rewrite alone_bind. cbn [alone atomically fst snd]. destruct (setup_blocklist (ws, d) bl) as [ws' d']. apply IH.
Qed.

(** Alone, the program is the handler. *)
Lemma Setup_alone salt uuid req t d :
  alone (Setup_prog salt uuid req) (t, d) = (λ r, (r.1.1, (r.1.2, r.2))) (Setup salt uuid req t d).
Proof.
  unfold Setup_prog, Setup, CreateAdmin. rewrite alone_bind. cbn [alone reading atomically fst snd].
  destruct (IsSetup t) as [[]|] eqn:Es; [done| |done].
  destruct (bind_setup req) as [q|]; [|done]. destruct (GenerateFromPassword _ _) as [h|]; [|done].
  rewrite alone_bind. cbn [alone reading atomically fst snd]. rewrite Es.
  rewrite alone_bind. cbn [alone atomically fst snd]. destruct (sql_insert _ t) as [t'|]; [|done]. cbn [fst snd].
  rewrite alone_bind, setup_lists_alone. by destruct (foldl setup_blocklist _ _).
Qed.

(** *** One administrator *)

(** The table is empty or holds one administrator, who stays. *)
Definition one_admin (t : table AdminCredential) : Prop := rows t = [] ∨ ∃ a, rows t = [a] ∧ ad_ID a = 1.
Definition admin_kept (c c' : history auth_state) : Prop :=
  one_admin c.1.1 → one_admin c'.1.1 ∧ (rows c.1.1 ≠ [] → rows c'.1.1 = rows c.1.1).
#[local] Instance admin_kept_preorder : PreOrder admin_kept.
Proof.
  split; [by intros c; split|]. intros c1 c2 c3 H1 H2 H. destruct (H1 H) as [Ha Hb]. destruct (H2 Ha) as [Hc Hd].
  split; [done|]. intros Hn. by rewrite Hd, Hb by (rewrite ?Hb; done).
Qed.
Lemma admin_read c : admin_kept c (advance id c).
Proof. by intros H. Qed.

(** What an answer 200 means. *)
Definition won (salt uuid : string) (req : option setupRequest) (r : response setupData) (c : history auth_state) : Prop :=
  r_status r = 200 →
  ∃ q h, req = Some q ∧ GenerateFromPassword salt (sr_Password q) = Some h ∧ sd_token <$> r_data r = Some uuid ∧
    rows c.1.1 = [{| ad_ID := 1; ad_PasswordHash := h; ad_APIKey := uuid |}].

Lemma bind_setup_some req q : bind_setup req = Some q → req = Some q.
Proof. unfold bind_setup. destruct req as [r|]; [|done]. by destruct (_ || _). Qed.

Lemma insert_admin a t t' : one_admin t → ad_ID a = 1 → sql_insert a t = Ok t' → rows t = [] ∧ rows t' = [a].
Proof.
  intros [Hn|(b & Hb & Hid)] Ha Hi.
  - apply insert_law in Hi. rewrite Hn in Hi. split; [done|]. by apply Permutation_singleton_r.
  - exfalso. apply (insert_absent a t t' b Hi). split; [rewrite Hb; set_solver|]. unfold row_key, AdminCredential_key. by rewrite Ha, Hid.
Qed.

Lemma admin_stays a c c' : ad_ID a = 1 → rows c.1.1 = [a] → admin_kept c c' → rows c'.1.1 = [a].
Proof. intros Ha Hr H. destruct H as [_ H]; [right; by exists a|]. rewrite H; by rewrite Hr. Qed.

Lemma lists_obey a bls : ad_ID a = 1 → ∀ ws c, rows c.1.1 = [a] →
  obeys admin_kept (λ _ c, rows c.1.1 = [a]) (setup_lists ws bls) c.
Proof.
  intros Ha. induction bls as [|bl bls IH]; intros ws c Hc.
  - apply obeys_ret. intros c' H. by apply (admin_stays a c).
  - apply (obeys_act admin_kept). intros c' H. pose proof (admin_stays a c c' Ha Hc H) as Hc'.
    split; [|apply IH]; unfold advance, admin_kept; cbn [fst snd]; by destruct (setup_blocklist _ _).
Qed.

Lemma Setup_obeys salt uuid req c : one_admin c.1.1 → obeys admin_kept (won salt uuid req) (Setup_prog salt uuid req) c.
Proof.
  intros Ho. assert (∀ st e c, st ≠ 200 → obeys admin_kept (won salt uuid req) (mret (err_response st e)) c) as Hfail
    by (intros st e d Hst; apply obeys_ret; intros d' _ Hs; by destruct (Hst Hs)).
  unfold Setup_prog. apply (obeys_read admin_kept admin_read). intros c1 [Ho1 _]%(λ H, H Ho).
  destruct (IsSetup _) as [[]|]; [by apply Hfail| |by apply Hfail].
  destruct (bind_setup req) as [q|] eqn:Eb; [|by apply Hfail]. destruct (GenerateFromPassword _ _) as [h|] eqn:Eg; [|by apply Hfail].
  apply (obeys_read admin_kept admin_read). intros c2 [Ho2 _]%(λ H, H Ho1). destruct (IsSetup _) as [[]|]; [by apply Hfail| |by apply Hfail].
  set (a := {| ad_ID := 1; ad_PasswordHash := h; ad_APIKey := uuid |}).
  apply (obeys_act admin_kept). intros c3 [Ho3 _]%(λ H, H Ho2). unfold advance. cbn [fst snd].
  destruct (sql_insert a c3.1.1) as [t|] eqn:Ei; cbn [fst snd]; [|split; [by intros H|by apply Hfail]].
  destruct (insert_admin a _ t Ho3 eq_refl Ei) as [He Ht]. split.
  - intros _. cbn [fst snd]. split; [right; by exists a|by rewrite He].
  - apply obeys_bind; [apply _|]. eapply obeys_mono; [|by apply (lists_obey a)]. intros ws c4 H4. apply obeys_ret.
    intros c5 H5 _. exists q, h. split; [by apply bind_setup_some|]. split; [done|]. split; [done|]. by apply (admin_stays a c4).
Qed.

(** C20. One administrator, however many set-ups arrive at once: over every interleaving of
    concurrent set-up requests at most one is answered 200, and when one is, the only
    administrator stored is the one its answer describes, with the password it chose and
    the token it was given, and stays so. *)
Theorem one_setup_wins (reqs : list (string * string * option setupRequest)) t d ps' c' :
  rows t = [] → NoDup (snd ∘ fst <$> reqs) →
  rtc overlap ((λ q, Setup_prog q.1.1 q.1.2 q.2) <$> reqs, ((t, d), [])) (ps', c') →
  (∀ i j r r', ps' !! i = Some (Ret r) → ps' !! j = Some (Ret r') → r_status r = 200 → r_status r' = 200 → i = j) ∧
  (∀ i r, ps' !! i = Some (Ret r) → r_status r = 200 → ∃ salt uuid q h,
     reqs !! i = Some (salt, uuid, Some q) ∧ GenerateFromPassword salt (sr_Password q) = Some h ∧ sd_token <$> r_data r = Some uuid ∧
     rows c'.1.1 = [{| ad_ID := 1; ad_PasswordHash := h; ad_APIKey := uuid |}]).
Proof.
  intros Ht Hn Hr. assert (∀ i r, ps' !! i = Some (Ret r) → r_status r = 200 → ∃ salt uuid q h,
    reqs !! i = Some (salt, uuid, Some q) ∧ GenerateFromPassword salt (sr_Password q) = Some h ∧ sd_token <$> r_data r = Some uuid ∧
    rows c'.1.1 = [{| ad_ID := 1; ad_PasswordHash := h; ad_APIKey := uuid |}]) as Hwin.
  { intros i r Hi Hs. edestruct (overlap_answer admin_kept ((λ q, won q.1.1 q.1.2 q.2) <$> reqs) _ _ _ _ i r Hr) as (Q & HQ & Hq);
      [|exact Hi|].
    - apply Forall2_fmap_2, Forall_Forall2_diag, Forall_true. intros q. apply Setup_obeys. by left.
    - apply list_lookup_fmap_Some in HQ as ([[salt uuid] req] & -> & Hq'). destruct (Hq Hs) as (q & h & E & H2 & H3 & H4).
      cbn in E, H2, H3, H4. subst req. by exists salt, uuid, q, h. }
  split; [|exact Hwin]. intros i j r r' Hi Hj Hs Hs'.
  destruct (Hwin i r Hi Hs) as (s1 & u1 & q1 & h1 & E1 & _ & _ & R1). destruct (Hwin j r' Hj Hs') as (s2 & u2 & q2 & h2 & E2 & _ & _ & R2).
  rewrite R1 in R2. injection R2 as -> ->. eapply NoDup_lookup; [exact Hn|..]; rewrite list_lookup_fmap; [by rewrite E1|by rewrite E2].
Qed.
End SetupProg.

(** ** Resolvers and the engine switch *)

Section HandlerProgs.
Context `{U : GoUnicode} `{TZ : TzDatabase} `{BL : BloomLib} `{RX : RegexpLib} `{TR : TransportEnv}.
Context {TP : SqlTable PolicyRow} {TRs : SqlTable ResolverRow} {TS : SqlTable SystemState}.
Context {LP : SqlTableLaws TP} {LR : SqlTableLaws TRs}.
Context {W : Type} (close_mgr : UpstreamManager → W → W) (net : nat → rpc_outcome).

Abbreviation handler := (APIHandler (W:=W)).
Abbreviation request A := (prog handler (response A)).

(** [applyResolvers]: the addresses are read, and then pushed. *)
Definition apply_prog : prog handler bool :=
  addrs ← reading (λ h : handler, match h_DataPlaneClient h with
                                  | None => None | Some _ => Some (ResolverRepo_Addresses (h_Resolvers h)) end);
  match addrs with
  | None => mret true
  | Some (Err _) => mret false
  | Some (Ok addrs) =>
      atomically (λ h : handler, match h_DataPlaneClient h with
                                 | Some dp => client_SetUpstreamResolvers close_mgr net addrs dp h | None => (true, h) end)
  end.

(** A statement that changes the resolvers, and whether it did. *)
Definition resolvers_statement (f : table ResolverRow → result db_error (table ResolverRow)) : prog handler bool :=
  atomically (λ h : handler, match f (h_Resolvers h) with Ok t => (true, with_resolvers t h) | Err _ => (false, h) end).

Definition CreateResolver_prog (now : Z) (uuid : string) (req : result string CreateResolverRequest) : request Resolver :=
  match req with
  | Err msg => mret (err_response StatusBadRequest (ApiMsg msg))
  | Ok req =>
      match validateResolverAddress (cr_Address req) with
      | Err e => mret (err_response StatusBadRequest e)
      | Ok _ =>
          match normalizeProtocol (cr_Protocol req) with
          | Err e => mret (err_response StatusBadRequest e)
          | Ok protocol =>
              let name := if bool_decide (cr_Name req = ""%string) then cr_Address req else cr_Name req in
              next ← reading (λ h : handler, ResolverRepo_NextPosition (h_Resolvers h));
              match next with
              | Err _ => mret (err_response StatusInternalServerError (ApiMsg "failed to determine resolver position"))
              | Ok position =>
                  let m := {| nr_ID := uuid; nr_Name := name; nr_Address := cr_Address req; nr_Protocol := protocol;
                              nr_Position := position; nr_CreatedAt := None |} in
                  let out := {| rv_ID := uuid; rv_Name := name; rv_Address := cr_Address req;
                                rv_Protocol := protocol; rv_Position := position |} in
                  created ← resolvers_statement (ResolverRepo_Create now m);
                  if created : bool then
                    applied ← apply_prog;
                    mret (if applied : bool then ok_response StatusCreated out
                          else partial_response StatusBadGateway out "resolver persisted but failed to apply to dataplane")
                  else mret (err_response StatusInternalServerError (ApiMsg "failed to create resolver"))
              end
          end
      end
  end.

Definition UpdateResolver_prog (id : string) (req : result string UpdateResolverRequest) : request Resolver :=
  found ← reading (λ h : handler, ResolverRepo_Get id (h_Resolvers h));
  match found with
  | Err _ => mret (err_response StatusNotFound (ApiMsg "resolver not found"))
  | Ok existing =>
      match req with
      | Err msg => mret (err_response StatusBadRequest (ApiMsg msg))
      | Ok req =>
          match resolver_edit req existing with
          | Err e => mret (err_response StatusBadRequest e)
          | Ok r =>
              updated ← resolvers_statement (ResolverRepo_Update r);
              if updated : bool then
                applied ← apply_prog;
                mret (if applied : bool then ok_response StatusOK (resolverFromModel r)
                      else partial_response StatusBadGateway (resolverFromModel r) "resolver updated but failed to apply to dataplane")
              else mret (err_response StatusInternalServerError (ApiMsg "failed to update resolver"))
          end
      end
  end.

Definition DeleteResolver_prog (id : string) : request unit :=
  deleted ← resolvers_statement (ResolverRepo_Delete id);
  if deleted : bool then
    applied ← apply_prog;
    mret (if applied : bool then ok_response StatusOK tt
          else err_response StatusBadGateway (ApiMsg "resolver deleted but failed to apply to dataplane"))
  else mret (err_response StatusNotFound (ApiMsg "resolver not found")).

Definition ToggleDnsEngine_prog (req : result string bool) : request bool :=
  match req with
  | Err msg => mret (err_response StatusBadRequest (ApiMsg msg))
  | Ok enabled =>
      stored ← atomically (λ h : handler, match SetDNSEnabled enabled (h_SystemState h) with
                                          | Ok t => (true, with_state t h) | Err _ => (false, h) end);
      if stored : bool then
        applied ← atomically (λ h : handler, match h_DataPlaneClient h with
                                             | Some dp => client_SetAcceptQueries net enabled dp h | None => (true, h) end);
        mret (if applied : bool then ok_response StatusOK enabled
              else err_response StatusBadGateway (ApiMsg "failed to apply DNS engine state to dataplane"))
      else mret (err_response StatusInternalServerError (ApiMsg "failed to persist DNS engine state"))
  end.

(** *** Alone, each is its handler *)

Ltac alone_cbn := cbn [alone reading atomically resolvers_statement fst snd mret prog_ret].
Ltac alone_step := alone_cbn; repeat (rewrite alone_bind; alone_cbn).

Lemma apply_alone h : alone apply_prog h = applyResolvers close_mgr net h.
Proof.
  unfold apply_prog, applyResolvers. alone_step. destruct (h_DataPlaneClient h) as [dp|] eqn:E; [|done].
  destruct (ResolverRepo_Addresses _); [|done]. alone_step. rewrite E. by destruct (client_SetUpstreamResolvers _ _ _ _ _).
Qed.

#[local] Opaque apply_prog.

Lemma CreateResolver_alone now uuid req h :
  alone (CreateResolver_prog now uuid req) h = CreateResolver close_mgr net now uuid req h.
Proof.
  unfold CreateResolver_prog, CreateResolver. destruct req as [req|]; [|done].
  destruct (validateResolverAddress _); [|done]. destruct (normalizeProtocol _); [|done]. alone_step.
  destruct (ResolverRepo_NextPosition _); [|done]. alone_step. destruct (ResolverRepo_Create _ _ _); [|done].
  alone_step. rewrite apply_alone. by destruct (applyResolvers _ _ _) as [[] ?].
Qed.

Lemma UpdateResolver_alone id req h : alone (UpdateResolver_prog id req) h = UpdateResolver close_mgr net id req h.
Proof.
  unfold UpdateResolver_prog, UpdateResolver. alone_step. destruct (ResolverRepo_Get _ _); [|done].
  destruct req as [req|]; [|done]. destruct (resolver_edit _ _); [|done]. alone_step.
  destruct (ResolverRepo_Update _ _); [|done]. alone_step. rewrite apply_alone. by destruct (applyResolvers _ _ _) as [[] ?].
Qed.

Lemma DeleteResolver_alone id h : alone (DeleteResolver_prog id) h = DeleteResolver close_mgr net id h.
Proof.
  unfold DeleteResolver_prog, DeleteResolver. alone_step. destruct (ResolverRepo_Delete _ _); [|done]. alone_step.
  rewrite apply_alone. by destruct (applyResolvers _ _ _) as [[] ?].
Qed.

Lemma ToggleDnsEngine_alone req dp h : h_DataPlaneClient h = Some dp →
  alone (ToggleDnsEngine_prog req) h = ToggleDnsEngine net req dp h.
Proof.
  intros Hd. unfold ToggleDnsEngine_prog, ToggleDnsEngine. destruct req as [b|]; [|done]. alone_step.
  destruct (SetDNSEnabled _ _); [|done]. alone_step. cbn [with_state h_DataPlaneClient]. rewrite Hd.
  by destruct (client_SetAcceptQueries _ _ _ _) as [[] ?].
Qed.

(** ** Policies *)

(** [reloadPolicyEngine]: the stored policies are listed, and then loaded. *)
Definition reload_prog : prog handler unit :=
  stored ← reading (λ h : handler, match h_PolicyEngine h with
                                   | None => None
                                   | Some _ => match PolicyRepo_List (h_Policies h) with Ok l => Some l | Err _ => None end end);
  match stored with
  | None => mret tt
  | Some l =>
      atomically (λ h : handler,
        (tt, match h_PolicyEngine h with
             | Some e => with_engine (Some (LoadPolicies e (ToEnginePolicy <$> l))) h | None => h end))
  end.

Definition policies_statement (f : table PolicyRow → result db_error (table PolicyRow)) : prog handler (option db_error) :=
  atomically (λ h : handler, match f (h_Policies h) with Ok t => (None, with_policies t h) | Err e => (Some e, h) end).

Definition CreatePolicy_prog (req : result string CreatePolicyRequest) : request ApiPolicy :=
  match req with
  | Err msg => mret (err_response StatusBadRequest (ApiMsg msg))
  | Ok req =>
      let m := policy_of_request req in
      match ValidatePolicy (ToEnginePolicy m) with
      | Err e => mret (err_response StatusBadRequest (ApiPolicyError e))
      | Ok _ =>
          failed ← policies_statement (PolicyRepo_Create m);
          match failed with
          | Some _ => mret (err_response StatusInternalServerError (ApiMsg "failed to create policy"))
          | None => reload_prog;; mret (ok_response StatusCreated (policyFromModel m))
          end
      end
  end.

Definition UpdatePolicy_prog (id : string) (req : result string UpdatePolicyRequest) : request ApiPolicy :=
  found ← reading (λ h : handler, PolicyRepo_GetByID id (h_Policies h));
  match found with
  | Err _ => mret (err_response StatusNotFound (ApiMsg "policy not found"))
  | Ok m =>
      match req with
      | Err msg => mret (err_response StatusBadRequest (ApiMsg msg))
      | Ok req =>
          let m := policy_edit req m in
          match ValidatePolicy (ToEnginePolicy m) with
          | Err e => mret (err_response StatusBadRequest (ApiPolicyError e))
          | Ok _ =>
              failed ← policies_statement (PolicyRepo_Update m);
              match failed with
              | Some _ => mret (err_response StatusInternalServerError (ApiMsg "failed to update policy"))
              | None => reload_prog;; mret (ok_response StatusOK (policyFromModel m))
              end
          end
      end
  end.

Definition DeletePolicy_prog (id : string) : request unit :=
  failed ← policies_statement (PolicyRepo_Delete id);
  match failed with
  | Some ErrRecordNotFound => mret (err_response StatusNotFound (ApiMsg "policy not found"))
  | Some _ => mret (err_response StatusInternalServerError (ApiMsg "failed to delete policy"))
  | None => reload_prog;; mret (ok_response StatusOK tt)
  end.

Lemma reload_alone h : alone reload_prog h = (tt, reloadPolicyEngine h).
Proof.
  unfold reload_prog, reloadPolicyEngine. alone_step. destruct (h_PolicyEngine h) as [e|] eqn:E; [|done].
  destruct (PolicyRepo_List _); [|done]. alone_step. by rewrite E.
Qed.
#[local] Opaque reload_prog.

Lemma CreatePolicy_alone req h : alone (CreatePolicy_prog req) h = CreatePolicy req h.
Proof.
  unfold CreatePolicy_prog, CreatePolicy, policies_statement. destruct req as [req|]; [|done].
  destruct (ValidatePolicy _); [|done]. alone_step. destruct (PolicyRepo_Create _ _); [|done]. alone_step. by rewrite reload_alone.
Qed.
Lemma UpdatePolicy_alone id req h : alone (UpdatePolicy_prog id req) h = UpdatePolicy id req h.
Proof.
  unfold UpdatePolicy_prog, UpdatePolicy, policies_statement. alone_step. destruct (PolicyRepo_GetByID _ _); [|done].
  destruct req as [req|]; [|done]. destruct (ValidatePolicy _); [|done]. alone_step.
  destruct (PolicyRepo_Update _ _); [|done]. alone_step. by rewrite reload_alone.
Qed.
Lemma DeletePolicy_alone id h : alone (DeletePolicy_prog id) h = DeletePolicy id h.
Proof.
  unfold DeletePolicy_prog, DeletePolicy, policies_statement. alone_step.
  destruct (PolicyRepo_Delete _ _) as [t|[]]; [|done..]. alone_step. by rewrite reload_alone.
Qed.

(** ** Any mixture of edits *)

Inductive edit := EResolver (op : resolver_op) | EPolicy (op : policy_op) | EToggle (req : result string bool).

Definition status_of {A} (p : request A) : prog handler Z := r ← p; mret (r_status r).
Definition edit_prog (e : edit) : prog handler Z :=
  match e with
  | EResolver (RCreate now uuid req) => status_of (CreateResolver_prog now uuid req)
  | EResolver (RUpdate id req) => status_of (UpdateResolver_prog id req)
  | EResolver (RDelete id) => status_of (DeleteResolver_prog id)
  | EPolicy (PCreate req) => status_of (CreatePolicy_prog req)
  | EPolicy (PUpdate id req) => status_of (UpdatePolicy_prog id req)
  | EPolicy (PDelete id) => status_of (DeletePolicy_prog id)
  | EToggle req => status_of (ToggleDnsEngine_prog req)
  end.

(** One after the other the programs are the sequential edits of ControlSpec.v. *)
Lemma edit_alone_resolver op h : alone (edit_prog (EResolver op)) h = run_resolver close_mgr net op h.
Proof.
  destruct op; cbn [edit_prog run_resolver]; unfold status_of; rewrite alone_bind;
    rewrite ?CreateResolver_alone, ?UpdateResolver_alone, ?DeleteResolver_alone; by destruct (_ : response _ * _).
Qed.
Lemma edit_alone_policy op h : alone (edit_prog (EPolicy op)) h = run_policy op h.
Proof.
  destruct op; cbn [edit_prog run_policy]; unfold status_of; rewrite alone_bind;
    rewrite ?CreatePolicy_alone, ?UpdatePolicy_alone, ?DeletePolicy_alone; by destruct (_ : response _ * _).
Qed.

(** *** What every interleaving keeps *)

(** The data plane asks, in their order, the addresses that [g] stores. *)
Definition asks_of (g h : handler) : Prop :=
  ∃ l mgr dp, l ≡ₚ rows (h_Resolvers g) ∧ StronglySorted (λ a b, resolver_order a b = true) l ∧
    NewUpstreamManager (rs_Address <$> l) 4 false = Ok mgr ∧
    h_DataPlaneClient h = Some dp ∧ e_upstreamManager (dp_engine dp) = Some mgr.
Definition asks_stored (c : history handler) : Prop := ∃ g, g ∈ seen c ∧ asks_of g c.1.

Definition edits_kept (c c' : history handler) : Prop :=
  seen c ⊆ seen c' ∧ (valid_store c.1 → valid_store c'.1) ∧ (asks_stored c → asks_stored c').
#[local] Instance edits_kept_preorder : PreOrder edits_kept.
Proof.
  split; [by intros c|]. intros c1 c2 c3 (H1 & H2 & H3) (H4 & H5 & H6). split; [by transitivity (seen c2)|auto].
Qed.

Lemma seen_advance (f : handler → handler) c : seen c ⊆ seen (advance f c).
Proof. destruct c as [h past]. unfold seen, advance. cbn. set_solver. Qed.

Definition asked (h : handler) : option (option UpstreamManager) :=
  (λ dp, e_upstreamManager (dp_engine dp)) <$> h_DataPlaneClient h.
Lemma step_kept (f : handler → handler) c :
  (valid_store c.1 → valid_store (f c.1)) → asked (f c.1) = asked c.1 → edits_kept c (advance f c).
Proof.
  intros Hv Hc. split; [apply seen_advance|]. split; [done|]. intros (g & Hg & l & mgr & dp & H1 & H2 & H3 & H4 & H5).
  exists g. split; [by apply seen_advance|]. unfold asked in Hc. rewrite H4 in Hc. cbn in Hc. rewrite H5 in Hc.
  apply fmap_Some in Hc as (dp' & H6 & H7). by exists l, mgr, dp'.
Qed.
Lemma read_kept c : edits_kept c (advance id c).
Proof. by apply step_kept. Qed.

Abbreviation keeps p c := (obeys edits_kept (λ _ _, True) p c).
Lemma ret_keeps {A} (a : A) c : keeps (mret a : prog handler A) c.
Proof. by apply obeys_ret. Qed.
Lemma bind_keeps {A B} (p : prog handler A) (k : A → prog handler B) c :
  keeps p c → (∀ a c', keeps (k a) c') → keeps (p ≫= k) c.
Proof. intros Hp Hk. apply obeys_bind; [apply _|]. eapply obeys_mono; [|exact Hp]. auto. Qed.
Lemma read_keeps {A B} (f : handler → B) (k : B → prog handler A) c : (∀ b c', keeps (k b) c') → keeps (reading f ≫= k) c.
Proof. intros H. apply (obeys_read edits_kept read_kept). auto. Qed.
Lemma act_keeps {B} (f : handler → B * handler) c :
  (∀ c', edits_kept c c' → edits_kept c' (advance (λ s, (f s).2) c')) → keeps (atomically f) c.
Proof. intros H c' Hc. split; [by apply H|]. by apply obeys_ret. Qed.

Lemma resolvers_keeps f c : keeps (resolvers_statement f) c.
Proof. apply act_keeps. intros c' _. apply step_kept; unfold asked; by destruct (f _). Qed.

Lemma policies_keeps f c :
  (∀ t t', f t = Ok t' → (∀ m, m ∈ rows t → valid_row m) → ∀ m, m ∈ rows t' → valid_row m) → keeps (policies_statement f) c.
Proof.
  intros Hf. apply act_keeps. intros c' _. apply step_kept; unfold asked; destruct (f _) as [t|] eqn:E; [|done..].
  intros Hv. exact (Hf _ _ E Hv).
Qed.

(** The list pushed is one that was stored. *)
Lemma push_kept addrs g c : g ∈ seen c → ResolverRepo_Addresses (h_Resolvers g) = Ok addrs →
  edits_kept c (advance (λ h, (match h_DataPlaneClient h with
    | Some dp => client_SetUpstreamResolvers close_mgr net addrs dp h | None => (true, h) end).2) c).
Proof.
  intros Hg Ha. unfold ResolverRepo_Addresses in Ha. destruct (sql_select _ _ _) as [l|] eqn:E; [|done]. injection Ha as <-.
  apply everything_perm in E as [El Eo].
  destruct (h_DataPlaneClient c.1) as [dp|] eqn:Ed; [|apply step_kept; unfold asked; rewrite Ed; cbn [snd]; by rewrite ?Ed].
  split; [apply seen_advance|]. unfold advance. cbn [fst snd]. rewrite Ed. unfold client_SetUpstreamResolvers, svc_SetUpstreamResolvers, SetUpstreamResolvers.
  assert (asks_stored c → ∀ h', h_DataPlaneClient h' = Some dp →
            asks_stored (h', c.1 :: c.2)) as Hsame.
  { intros (g' & Hg' & l' & mgr & dp' & H1 & H2 & H3 & H4 & H5) h' Hh. exists g'. split; [unfold seen in *; set_solver|].
    exists l', mgr, dp'. rewrite Ed in H4. injection H4 as <-. done. }
  destruct (NewUpstreamManager _ _ _) as [mgr|] eqn:Em; destruct (net _); cbn [snd]; (split; [done|]); intros Hs;
    try (apply Hsame; [exact Hs|by destruct dp]).
  all: exists g; split; [unfold seen in *; set_solver|]; eexists l, mgr, _; done.
Qed.

Lemma apply_keeps c : keeps apply_prog c.
Proof.
  #[local] Transparent apply_prog. unfold apply_prog. apply (obeys_read edits_kept read_kept). intros c1 _.
  destruct (h_DataPlaneClient c1.1) as [dp|]; [|apply ret_keeps].
  destruct (ResolverRepo_Addresses _) as [addrs|] eqn:Ea; [|apply ret_keeps].
  apply act_keeps. intros c2 [Hs _]. eapply push_kept; [|exact Ea]. apply Hs. unfold seen, advance. set_solver.
Qed.
#[local] Opaque apply_prog.

Lemma reload_keeps c : keeps reload_prog c.
Proof.
  #[local] Transparent reload_prog. unfold reload_prog. apply read_keeps. intros [l|] c1; [|apply ret_keeps].
  apply act_keeps. intros c2 _. apply step_kept; unfold asked; cbn [snd]; by destruct (h_PolicyEngine c2.1).
Qed.
#[local] Opaque reload_prog.

(** Runs through a program: its answers, its reads, the two shared endings, and the
    statements, whose own obligations are left. *)
Ltac keep :=
  repeat first
    [ apply ret_keeps | apply apply_keeps | apply reload_keeps | apply resolvers_keeps
    | apply read_keeps; intros ? ? | apply bind_keeps; [|intros ? ?] | case_match ].

Lemma edit_keeps e c : keeps (edit_prog e) c.
Proof.
  destruct e as [[now uuid req|id req|id]|[req|id req|id]|req]; cbn [edit_prog]; unfold status_of; apply bind_keeps;
    try (intros; apply ret_keeps).
  - unfold CreateResolver_prog. keep.
  - unfold UpdateResolver_prog. keep.
  - unfold DeleteResolver_prog. keep.
  - unfold CreatePolicy_prog. keep. apply policies_keeps. intros t t' Hc%insert_law Hl m. rewrite Hc, elem_of_cons. intros [->|?]; [|by auto].
    by match goal with H : ValidatePolicy _ = Ok ?x |- _ => destruct x end.
  - unfold UpdatePolicy_prog. keep. apply policies_keeps. intros t t' Hc%save_law Hl m.
    rewrite Hc, elem_of_cons, list_elem_of_filter. intros [->|[_ ?]]; [|by auto].
    by match goal with H : ValidatePolicy _ = Ok ?x |- _ => destruct x end.
  - unfold DeletePolicy_prog. keep. apply policies_keeps. intros t t' Hc%delete_key Hl m. destruct Hc as [_ Hc].
    rewrite Hc, list_elem_of_filter. intros [_ ?]. by auto.
  - unfold ToggleDnsEngine_prog. keep; apply act_keeps; intros d _; apply step_kept; unfold asked.
    1, 2: by destruct (SetDNSEnabled _ _).
    1, 2: destruct (h_DataPlaneClient d.1) as [dp|] eqn:Ed; cbn [snd]; [|by rewrite ?Ed].
    1, 2: unfold client_SetAcceptQueries; by destruct (net _).
Qed.

(** C21. Any mixture of resolver edits, policy edits and toggles, in any interleaving of their
    statements and calls: the store never holds a policy that the engine would refuse, and
    the data plane asks exactly the addresses, in their order, of a list of resolvers that
    was stored at some moment, never a mixture of two. *)
Theorem overlapping_edits_safe (edits : list edit) h ps' c' :
  valid_store h → upstreams_stored h → rtc overlap (edit_prog <$> edits, (h, [])) (ps', c') →
  valid_store c'.1 ∧ ∃ g, g ∈ seen c' ∧ asks_of g c'.1.
Proof.
  intros Hv Hu Hr. destruct (overlap_obeys edits_kept ((λ _ _ _, True) <$> edits) _ _ _ _ Hr) as [(_ & H1 & H2) _].
  - apply Forall2_fmap_2, Forall_Forall2_diag, Forall_true. intros e. apply edit_keeps.
  - split; [by apply H1|]. apply H2. exists h. split; [unfold seen; set_solver|exact Hu].
Qed.
End HandlerProgs.
