(* ===== verification/OverlapRuns.v ===== *)
(** * Interleavings

    Schedules of overlapping requests on concrete tables: the theorems of Concurrent.v
    at work, and four ways in which two requests, each answered with success, leave
    something else than either promised. *)
From S2P Require Import Prelude GoStrings GoUtf8 GoNet Policy PolicyEngine PolicySpec DnsMsg Upstream Alert Threat.
From S2P Require Import Blocklist Config DnsEngine EngineSpec Json Storage ControlPlane ControlSpec BlocklistApi Planes ConfigIO Auth ApiRuns.
From S2P Require Import Overlap Concurrent.

#[local] Existing Instance run_unicode.
#[local] Existing Instance run_tz.
#[local] Existing Instance run_bloom.
#[local] Existing Instance run_regexp.
#[local] Existing Instance run_transport.
#[local] Existing Instance policy_table.
#[local] Existing Instance resolver_table.
#[local] Existing Instance state_table.
#[local] Existing Instance policy_table_laws.
#[local] Existing Instance resolver_table_laws.
#[local] Existing Instance run_blocklists.
#[local] Existing Instance run_bcrypt.
#[local] Existing Instance admin_table.
#[local] Existing Instance admin_table_laws.

(** The statuses of the requests that are done. *)
Definition answers {S A} (ps : list (prog S A)) : list (option A) :=
  (λ p, match p with Ret a => Some a | Step _ _ => None end) <$> ps.

(** ** Two set-ups at once *)

Definition two_setups : list (string * string * option setupRequest) :=
  [("s1", "key-1", Some run_setup); ("s2", "key-2", Some run_setup)]%string.
Definition setup_pool : list (prog (table AdminCredential * db) (response setupData)) :=
  (λ q, Setup_prog q.1.1 q.1.2 q.2) <$> two_setups.
(** Both see an empty table, twice, before either inserts. *)
Definition both_checked : list nat := [0; 1; 0; 1; 1; 0; 1]%nat.
Definition setup_end := schedule both_checked setup_pool (no_admin, fresh_tables).

Lemma one_setup_wins_witness :
  map (option_map r_status) (answers setup_end.1) = [Some 500; Some 200] ∧
  ∃ h, rows setup_end.2.1 = [{| ad_ID := 1; ad_PasswordHash := h; ad_APIKey := "key-2" |}].
Proof.
  split; [vm_compute; reflexivity|].
  destruct (schedule_overlaps both_checked setup_pool (no_admin, fresh_tables) []) as [past Hr].
  destruct (setup_end.1 !! 1%nat) as [[r|]|] eqn:E; [|by vm_compute in E|by vm_compute in E].
  assert (r_status r = 200) as Hs by (vm_compute in E; injection E as <-; reflexivity).
  destruct (proj2 (one_setup_wins (D := run_blocklists) two_setups no_admin fresh_tables setup_end.1 (setup_end.2, past) eq_refl
    ltac:(apply (bool_decide_unpack _); vm_compute; exact I) Hr) 1%nat r E Hs) as (salt & uuid & q & h & Hq & _ & _ & Hrows).
  vm_compute in Hq. injection Hq as <- <- <-. by exists h.
Defined.

(** ** Two edits of the resolvers at once *)

(** The data plane asks the two stored resolvers. *)
Definition synced : APIHandler (W:=unit) := (applyResolvers run_close run_net run_h).2.
Lemma synced_stored : upstreams_stored synced.
Proof.
  assert (applyResolvers run_close run_net run_h = (true, synced)) as H by reflexivity.
  exact (proj2 (applyResolvers_spec run_close run_net run_h true synced run_dp eq_refl H) eq_refl).
Qed.
Lemma synced_valid : valid_store synced.
Proof. intros m Hm. by apply not_elem_of_nil in Hm. Qed.

Definition addresses (h : APIHandler (W:=unit)) : list string :=
  match ResolverRepo_Addresses (h_Resolvers h) with Ok l => l | Err _ => [] end.
Definition asked_addresses (h : APIHandler (W:=unit)) : option (list string) :=
  dp ← h_DataPlaneClient h; m ← e_upstreamManager (dp_engine dp); Some (Addr <$> um_upstreams m).

Definition add_opendns : resolver_op :=
  RCreate 6 "d" (Ok {| cr_Name := ""; cr_Address := "208.67.222.222:53"; cr_Protocol := "" |}).
Definition two_adds : list edit := [EResolver add_quad9; EResolver add_opendns].
Definition edit_pool (edits : list edit) := edit_prog run_close run_net <$> edits.

(** The first request reads the addresses, the second does all it has to, and then the
    first pushes what it read: both resolvers are stored, and the data plane asks all but
    the second. *)
Definition late_push : list nat := [0; 0; 0; 1; 1; 1; 1; 0]%nat.
Definition late_end := schedule late_push (edit_pool two_adds) synced.

Lemma overlapping_edits_safe_witness :
  answers late_end.1 = [Some 201; Some 201] ∧
  ∃ past g, valid_store late_end.2 ∧ g ∈ late_end.2 :: past ∧ asks_of g late_end.2.
Proof.
  split; [vm_compute; reflexivity|].
  destruct (schedule_overlaps late_push (edit_pool two_adds) synced []) as [past Hr]. exists past.
  destruct (overlapping_edits_safe run_close run_net two_adds synced late_end.1 (late_end.2, past) synced_valid synced_stored Hr)
    as [Hv (g & Hg & Ha)]. by exists g.
Defined.

Lemma late_push_stands :
  answers late_end.1 = [Some 201; Some 201] ∧
  addresses late_end.2 = ["8.8.8.8:53"; "1.1.1.1:53"; "9.9.9.9:53"; "208.67.222.222:53"]%string ∧
  asked_addresses late_end.2 = Some ["8.8.8.8:53"; "1.1.1.1:53"; "9.9.9.9:53"]%string.
Proof. vm_compute. done. Qed.

(** Two partial updates of one resolver: each read the row before the other wrote it, and
    the second to write takes back what the first changed. *)
Definition rename : resolver_op :=
  RUpdate "a" (Ok {| ur_Name := Some "Main"%string; ur_Address := None; ur_Protocol := None; ur_Position := None |}).
Definition move : resolver_op :=
  RUpdate "a" (Ok {| ur_Name := None; ur_Address := Some "8.8.4.4:53"%string; ur_Protocol := None; ur_Position := None |}).
Definition patches_end := schedule [0; 1; 0; 0; 0; 1; 1; 1]%nat (edit_pool [EResolver rename; EResolver move]) synced.
Lemma patch_lost :
  answers patches_end.1 = [Some 200; Some 200] ∧
  (λ r, (rs_Name r, rs_Address r)) <$> filter (λ r, rs_ID r = "a"%string) (rows (h_Resolvers patches_end.2))
  = [("8.8.8.8:53", "8.8.4.4:53")%string].
Proof. vm_compute. done. Qed.

(** ** The switch *)

Definition toggles_end := schedule [0; 1; 1; 0]%nat (edit_pool [EToggle (Ok true); EToggle (Ok false)]) synced.
Lemma toggles_disagree :
  answers toggles_end.1 = [Some 200; Some 200] ∧
  map ss_DNSEnabled (rows (h_SystemState toggles_end.2)) = [false] ∧
  (λ dp, e_acceptQueries (dp_engine dp)) <$> h_DataPlaneClient toggles_end.2 = Some true.
Proof. vm_compute. done. Qed.

(** ** A policy deleted while it is edited *)

Definition more_priority : UpdatePolicyRequest := {|
  pu_Name := None; pu_Description := None; pu_Category := None; pu_Action := None; pu_RedirectIP := None;
  pu_Domains := None; pu_Regexes := None; pu_ClientCIDRs := None; pu_Priority := Some 9; pu_Enabled := None;
  pu_ScheduleDays := None; pu_StartTime := None; pu_EndTime := None; pu_Timezone := None |}.
Definition deleting := edit_pool [EPolicy (PUpdate "games" (Ok more_priority)); EPolicy (PDelete "games")].
(** The edit has read the policy when the deletion runs; its write is an upsert. *)
Definition deleted_end := schedule [0; 1; 1; 1]%nat deleting after_games.2.
Definition edited_end := schedule [0; 1; 1; 1; 0; 0; 0]%nat deleting after_games.2.
Lemma deleted_policy_returns :
  answers deleted_end.1 = [None; Some 200] ∧ rows (h_Policies deleted_end.2) = [] ∧
  answers edited_end.1 = [Some 200; Some 200] ∧ map mp_ID (rows (h_Policies edited_end.2)) = ["games"%string].
Proof. vm_compute. done. Qed.
